(* ===== verification/_CoqProject ===== *)
-Q . S2P
Prelude.v
CLayout.v
BpfMap.v
Rust.v
Kernel.v
KernelTypes.v
Types.v
KernelAbi.v
Machine.v
Scenario.v
Layout.v
Hash.v
PathWalk.v
StateMachine.v
Enrollment.v
Satellites.v
Hooks.v
FileOpen.v
Network.v
Codec.v
Patterns.v
Parse.v
Loader.v
Files.v
Policy.v
Apply.v
Exec.v
Guards.v
RolePolicy.v
RoleLimits.v
System.v
Coherence.v
Daemon.v
DaemonRuns.v
Footprint.v
Race.v
Bootstrap.v
Pins.v
Loaders.v
RoleLife.v
Ledger.v
Threads.v
Overlap.v
Startup.v
Wire.v
