(* ===== verification/Prelude.v ===== *)
(** * Jailer: a verification of the BPF jail

    ** The program

    Jailer confines processes from inside the kernel.  Its core is one BPF
    object, bpfjailer-bpf/src/main.bpf.c: twelve LSM hooks over a set of BPF
    maps.  A task is jailed when its task storage holds a [process_info] with a
    non-zero pod; its role selects the rules that apply.  Userspace (the daemon
    and the bootstrap loader, in Rust, sharing bpfjailer-common) writes the
    policy maps and the enrollment requests; the hooks read them and return 0
    or a negated errno to the kernel.  The parts and how they meet:

    - [task_alloc] copies the parent's record to a forked child;
      [check_pending_enrollment], called by [file_open] and
      [bprm_check_security], moves a request for a pid into the record of the
      task that runs the hook; [bprm_check_security] also enrolls an unjailed
      task by the inode of the binary or by its cgroup ancestry;
    - [collect_path_components] walks from a dentry to the task's root through
      mount boundaries, hashing every component ([hash_component]) into a
      per-CPU buffer; [check_path_state_machine] runs the role's transitions
      over the buffer from the root down;
    - [file_open] combines the two behind an LRU decision cache stamped with a
      generation counter; [path_rename], [sb_mount], [sb_umount] and the
      daemon's [invalidate_cache] bump the counter; the exec hook uses the same
      walk with its own transitions and no cache;
    - [socket_connect] layers proxy, domain, address and port checks,
      [socket_bind] the port check; [ptrace_access_check],
      [kernel_module_request] and [bpf] each test one bit of the role's flags;
    - every denial emits an audit record;
    - a policy (policy.rs) is roles with rules of every kind and enrollments of
      binaries and cgroups.  [apply_role] (apply.rs) walks a role and writes it
      through a sink; the daemon and the bootstrap loader have one each.  Path
      rules go through the pattern compiler, network, address, domain and proxy
      rules through the parsers and encoders of codec.rs;
    - the daemon finds and loads the object, attaches the twelve programs, loads
      the policy into its manager, applies every role and registers the
      enrollments; then it serves requests over a socket: enroll the caller,
      query a process, define a role, enroll or release a binary or a cgroup, and
      store an enrollment in a file's extended attributes.  The bootstrap loader
      does the same loading once, pins the programs, maps and links below
      /sys/fs/bpf and records the object's id below /run, after comparing what is
      already pinned with what it would load.

    ** The files

    - Prelude: machine widths, little-endian byte lists, hint databases.
    - CLayout: C struct layout; a [crepr] gives a record its byte image, and the
      class [CReprOk] states that images determine values.
    - BpfMap: map declarations and the map helpers over byte images.
    - Rust: byte strings, and [io E S A] for functions that return a [Result]
      over a shared state, with the [?] operator and loops.
    - Kernel: kernel memory as a partial byte function, [BPF_CORE_READ] and
      [bpf_probe_read_kernel], and the class [KernelLayout] of field offsets,
      against which the hooks are written (CO-RE relocates them at load time).
    - KernelTypes, KernelAbi: the declarations of vmlinux.h the program uses,
      with the layout rules; [vmlinux_layout] is the instance they give.
    - Types: constants, structs and maps of main.bpf.c.
    - Layout: that the computed layouts keep what a compiler promises: parts
      inside, aligned and apart; and that each reader of Kernel returns what its
      member holds.
    - Machine: the program state (one field per map, the walk buffer, the audit
      log), the environment of one hook invocation, and the state monad [prog]
      the hooks are written in.
    - Scenario: a small concrete kernel memory and state for evaluations.
    - Hash, PathWalk, StateMachine, Enrollment, Hooks, FileOpen, Network, Exec,
      Guards: one file per component of main.bpf.c; definitions keep the names
      of the C functions, loops are fixpoints on their bound, early returns are
      options.
    - Codec: the encoders of bpfjailer-common (codec.rs, flags.rs) against the
      representations the hooks read.
    - Patterns: the compiler of path patterns (codec.rs) and the loader's
      [write_states], against what the rules of a role say.
    - Parse: the parsers of addresses, ports and protocols (codec.rs), with the
      standard library's integer and address syntax.
    - Loader: the map writers of the daemon's bpf_loader.rs, and sequences of
      writes as the common currency of the files after it.
    - Files: the functions of std::fs the loaders call, over a tree of files;
      what the operating system refuses is the class [Os].
    - Policy: the policy schema, the settings nothing enforces, the presets and
      the policy manager of the daemon.
    - Apply: [apply_role] over the class [PolicySink] and the class
      [DomainResolver], and the two sinks as its instances; the lemmas hold of
      any sink that meets [map_sink].
    - RolePolicy: what the rules of a role mean, independently of the maps, and
      that the hooks decide so once the policy is loaded.
    - RoleLimits: what redefining a role and too wide port ranges do.
    - Satellites: the smaller BPF objects beside main.bpf.c.
    - System: hooks, enrollment requests, policy loads and task exit as events
      of a transition system.
    - Coherence: the decision cache in the running system.
    - Daemon: start and requests of the daemon (main.rs, enrollment.rs,
      enrollment_alternatives.rs, process_tracker.rs) and the client's calls,
      over the class [FileWorld] of what the operating system answers; every
      request is simulated by single map writes ([request_simulated]).
    - DaemonRuns: requests and hooks interleaved.
    - Footprint: the rows a request can change.
    - Race: two requests whose writes are interleaved.
    - Bootstrap: the bootstrap loader (its main.rs, and programs.rs, maps.rs and
      cgroup.rs of bpfjailer-common).
    - Pins: [read_pin_state], [pin_all] and [record_build_id] on the file tree,
      refining the abstract steps of Bootstrap, and the daemon's functions for
      the pin directory.
    - Loaders: the maps of the two loaders compared.
    - RoleLife, Ledger: one role followed through everything that can happen
      while the daemon runs, from the policy file and from [DefineRole].
    - Threads: any number of requests at once, each a moment under the lock and
      then single map operations.
    - Overlap: the roles that maps, tasks and running requests mention are known,
      and a role defined among other requests.
    - Startup: [main] of both programs from their environment and files to the
      programs attached, over the classes [Libbpf] and [PolicyText].
    - Wire: one connection from its bytes, on both sides, over the class [Json].

    ** What is shown

    - The walk records exactly the path the task sees ([walk_sound]), records
      every path of at most 16 entries in fewer than 32 steps ([walk_complete])
      and marks those of more names or steps truncated ([walk_truncates]); the state machine loop is a fold over the
      path from the root ([check_refines_run]) and keeps roles apart
      ([roles_isolated]).
    - A role's path patterns, compiled by userspace into transitions, are
      enforced as long as names and states do not collide: compilation is
      refused exactly for a star beside an inherited decision, and the kernel's
      walk returns what the rules say of the path ([role_rules_enforced]): the
      decision of the longest named prefix when there are no stars.  Stars are weaker than a reader may expect
      ([star_shadowed], [star_covers_parent]).  The collision hypothesis is
      needed: prefixes that agree on the 64 hashed bytes share a state
      ([long_prefixes_alias]).
    - [file_open] with cache and buffer repeats what it remembers under the
      current generation and otherwise decides what the policy says
      ([file_open_decides], [invalidation_sound]); in every reachable
      configuration whose changes were announced and whose counter has not
      wrapped, the two agree ([reachable_open_uncached]).  The limits of that are
      proved too: an open between the rename hook and the rename ([rename_race]),
      a wrapped counter ([generation_wraps]) and a role defined again
      ([redefinition_serves_stale_decision]).
    - Jails are permanent and contain descendants ([jail_permanent],
      [descendants_contained]); records change only by request
      ([role_changes_by_request]); every hook that can refuse does so on account
      of a task whose role is undescribed ([default_deny]), and none does on
      account of an unjailed one ([unjailed_unrestricted]), where the task
      ptrace decides by is the traced one; denials are recorded exactly once
      ([denials_audited]).  Allocation failures fail open ([fork_fails_open],
      [pending_consumed_once]).
    - The network and exec hooks decide as their layered rules say
      ([connect_decides], [bind_decides], [proxy_enforced],
      [non_ipv4_unfiltered], [exec_jailed_decides], [exec_unjailed_enrolls],
      [cgroup_deepest_first], [cgroup_depth_limit], [guards_decide]).
    - Userspace and kernel agree on every byte: hashes
      ([hash_component_agrees]), keys and values ([codec_keys_agree],
      [codec_values_agree]), flags ([policy_flags_bits]) and CIDR rules
      ([ip_rule_enforced], [unsupported_prefix_ignored]); every reader
      of kernel memory returns exactly what the member of the header holds, and
      nothing stored elsewhere in the structure reaches it
      ([core_reads_independent], by [declared_layouts_sound]).
    - From a policy to a verdict: after the walk over the roles, every hook
      decides by the role's own rules ([open_enforced], [exec_enforced],
      [connect_enforced], [bind_enforced]), whichever sink was used
      ([sinks_agree]), in whatever order the roles were visited
      ([role_order_irrelevant]), and applying a role again changes nothing
      ([apply_role_idempotent]).  Address texts are parsed exactly, with one
      spelling of an address and several of a number ([address_texts_exact]).  Redefinition merges instead of replacing
      ([redefinition_merges]); a port range wider than the table makes the whole
      role fail ([wide_range_aborts]).
    - The daemon keeps its invariants in every run ([daemon_invariant],
      [manager_lookups_total]); an accepted enrollment in a pod
      takes effect where storage can be had ([enroll_takes_effect]) and rewrites
      nothing that is in place ([enroll_rewrites_nothing]); refusals leave no
      trace, though [SetXattr] refuses no role ([refusals_leave_no_trace]);
      attributes are read back as set ([xattr_roundtrip]).  Its gaps: roles that failed to apply can be enrolled
      under ([failed_role_enrolls]), and a redefinition leaves cached decisions
      in force ([redefinition_serves_stale_decision]).
    - A role whose application succeeded is enforced for as long as the daemon
      runs: from the start ([started_role_enforced]) or from the moment it is
      defined under a new id ([defined_role_enforced]), through every later hook,
      request and announced change of the filesystem, what every hook that can
      refuse answers its tasks is what its rules say, for opens and execs of paths
      that do not collide with the rules, until its id is defined again.  This rests on requests touching only
      the rows of the role they name ([requests_keep_to_their_role]).  Requests
      may overlap, operation by operation, as long as the rules of the role do not
      contradict each other and, while a definition runs, no other request names
      its role ([concurrent_role_enforced], [concurrent_definition_enforced]).  No
      task is ever jailed under a role the
      daemon does not know ([jailed_roles_known]).  If the rules contradict, an
      enrollment lifts a denial for a moment ([contradiction_window]); an enrollment
      that overlaps the definition of its own role can leave the role with the flags
      of the old one ([enroll_define_race]), or the task without the rules that are
      still to be written ([early_enrollment_window]).
    - On a host with nothing pinned, a successful bootstrap leaves every hook
      attached and every program and map of the pin lists pinned
      ([bootstrap_installs]; five maps are not on the lists); the daemon on the
      same host ends with the same programs and the same state up to the
      generation of the cache ([installations_agree], [loaders_agree]); a later
      bootstrap recognises complete work, and only that, whatever failed on the
      way, if the pins are as the first run left them ([next_bootstrap_decides],
      [next_run_decides]).  Its gaps: the recorded
      build id outlives removed pins ([unpinned_still_refused]), and the daemon
      starts without a program its object lacks ([missing_program_unenforced]).
    - The socket is transparent to the client's calls, and a connection is at
      most one request of its own peer ([client_over_wire]); the daemon's socket
      and the bootstrap's record share a directory without disturbing each other
      ([listen_keeps_pins]).

    ** Bounds and fuel

    Loop fuel is the bound of the C loop: 64 hashed bytes, 32 walk steps, 16
    components, 32 mask bits, 5 prefixes, 8 cgroup levels.  The pattern compiler's
    depth-first emission gets one unit per node of the trie, which [emit_total]
    proves enough; no theorem is conditional on fuel.  Integers are [Z]; every
    store to a C variable that can overflow is wrapped to its width.

    ** What is not modelled

    One hook invocation is one uninterrupted step: interleavings are between
    hooks, not inside them, and the walk buffer is the one of the CPU that runs
    the hook.  The LRU's choice of victims, the failure of an LRU update or of a
    storage allocation, the clock and the cgroup ids are supplied by the
    environment of each invocation, unconstrained.  The perf buffer is the list
    of records handed to it.

    A request to the daemon is one step of the runs of DaemonRuns and RoleLife;
    Threads takes it apart into single map operations, which is what it is when
    connections are served in parallel, and shows that a request alone does the
    same ([request_adequate]).  What is not this repository's code is a class, with nothing assumed
    of it unless a theorem says so: libbpf's reading of an object and the kernel's
    consent to attach ([Libbpf]), serde_json ([PolicyText]; [Json] with
    [JsonLaws]), name resolution ([DomainResolver]), stat, pidfds and extended
    attributes ([FileWorld]), and what the operating system refuses of an
    operation on files ([Os]).  A freshly loaded object has empty maps; one that
    lacks a map is modelled where the bootstrap fills it ([ObjectSink],
    [populate_maps]) and where the daemon checks for it when it loads, while the
    daemon's writers are those of an object that has every map.  Paths are
    lists of names: [..] and symbolic links are not resolved.  The accept loop,
    signals and the log are left out.  Error values keep the cause and drop the
    text.  The iteration order of a Rust hash map is an argument wherever it is
    visible.  The parts of vmlinux.h the programs never refer to are left out, and
    so are the tests, bpfjailer-common's units.rs, which only they use, and the
    scripts.

    ** Plan

    Left: the rules a policy could state instead of a star that is shadowed; a
    role that is enrolled under while it is defined, from the moment its definition
    has finished. *)

From stdpp Require Export prelude gmap list strings.
From Stdlib Require Export ZArith Lia.

#[global] Open Scope Z_scope.

(** ** Machine-width integers *)

(** [wrap w z]: the value a [w]-bit unsigned C variable holds after [z] is
    stored in it. *)
Definition wrap (w z : Z) : Z := z mod 2 ^ w.

Abbreviation u8 := (wrap 8).
Abbreviation u16 := (wrap 16).
Abbreviation u32 := (wrap 32).
Abbreviation u64 := (wrap 64).

(** [in_width w z]: [z] is representable in [w] unsigned bits. *)
Definition in_width (w z : Z) : Prop := 0 <= z < 2 ^ w.

#[export] Instance in_width_dec w z : Decision (in_width w z).
Proof. unfold in_width. apply _. Defined.

Create HintDb jailer discriminated.
Create HintDb widths discriminated.

Lemma wrap_range w z : 0 <= w -> in_width w (wrap w z).
Proof. intros. apply Z.mod_pos_bound. by apply Z.pow_pos_nonneg. Qed.

Lemma wrap_small w z : in_width w z -> wrap w z = z.
Proof. apply Z.mod_small. Qed.

Lemma in_width_0 w : 0 <= w -> in_width w 0.
Proof. intros. split; [done|]. by apply Z.pow_pos_nonneg. Qed.

Lemma in_width_mono w w' z : w <= w' -> in_width w z -> in_width w' z.
Proof.
  intros Hw [H0 H]. split; [done|].
  eapply Z.lt_le_trans; [done|]. apply Z.pow_le_mono_r; lia.
Qed.

(** A non-negative number fits [w] bits exactly when its bits from [w] up are
    clear. *)
Lemma in_width_testbit w z :
  0 <= w -> in_width w z <-> 0 <= z /\ forall i, w <= i -> Z.testbit z i = false.
Proof.
  intros Hw. split.
  - intros Hz. split; [apply Hz|]. intros i Hi.
    rewrite <-(wrap_small w z Hz). unfold wrap.
    apply Z.mod_pow2_bits_high. lia.
  - intros [H0 Hb]. assert (wrap w z = z) as <-; [|by apply wrap_range].
    unfold wrap. apply Z.bits_inj'. intros i Hi.
    destruct (Z.lt_ge_cases i w).
    + rewrite Z.mod_pow2_bits_low; done.
    + rewrite Z.mod_pow2_bits_high by lia. by rewrite Hb.
Qed.

Lemma in_width_lxor w a b :
  0 <= w -> in_width w a -> in_width w b -> in_width w (Z.lxor a b).
Proof.
  intros Hw Ha Hb. rewrite in_width_testbit in Ha, Hb by done.
  apply in_width_testbit; [done|]. destruct Ha as [Ha Ha'], Hb as [Hb Hb'].
  split; [rewrite Z.lxor_nonneg; tauto|].
  intros i Hi. by rewrite Z.lxor_spec, Ha', Hb'.
Qed.

Lemma in_width_land_l w a b : 0 <= w -> in_width w a -> in_width w (Z.land a b).
Proof.
  intros Hw Ha. rewrite in_width_testbit in Ha by done. destruct Ha as [Ha Ha'].
  apply in_width_testbit; [done|]. split; [apply Z.land_nonneg; tauto|].
  intros i Hi. by rewrite Z.land_spec, Ha'.
Qed.

Lemma in_width_lor w a b :
  0 <= w -> in_width w a -> in_width w b -> in_width w (Z.lor a b).
Proof.
  intros Hw Ha Hb. rewrite in_width_testbit in Ha, Hb by done.
  apply in_width_testbit; [done|]. destruct Ha as [Ha Ha'], Hb as [Hb Hb'].
  split; [apply Z.lor_nonneg; tauto|].
  intros i Hi. by rewrite Z.lor_spec, Ha', Hb'.
Qed.

#[export] Hint Resolve wrap_range in_width_0 in_width_lxor in_width_land_l
  in_width_lor : widths.
#[export] Hint Extern 4 (_ <= _) => lia : widths.

(** ** Little-endian byte images

    The BPF target is little-endian (build.rs compiles for
    [bpfel-unknown-none]); a byte is an integer in [0, 255]. *)

Fixpoint le_bytes (n : nat) (z : Z) : list Z :=
  match n with
  | O => []
  | S n' => z mod 256 :: le_bytes n' (z / 256)
  end.

Fixpoint le_value (bs : list Z) : Z :=
  match bs with
  | [] => 0
  | b :: bs' => b + 256 * le_value bs'
  end.

Definition is_byte (b : Z) : Prop := 0 <= b < 256.

Lemma length_le_bytes n z : length (le_bytes n z) = n.
Proof. revert z. induction n; intros; simpl; auto. Qed.

Lemma le_bytes_bytes n z : Forall is_byte (le_bytes n z).
Proof.
  revert z. induction n; intros z; simpl; constructor; auto.
  unfold is_byte. apply Z.mod_pos_bound. lia.
Qed.

Lemma pow256_S n : 2 ^ (8 * Z.of_nat (S n)) = 256 * 2 ^ (8 * Z.of_nat n).
Proof.
  replace (8 * Z.of_nat (S n)) with (8 + 8 * Z.of_nat n) by lia.
  rewrite Z.pow_add_r by lia. done.
Qed.

Lemma le_value_le_bytes n z :
  in_width (8 * Z.of_nat n) z -> le_value (le_bytes n z) = z.
Proof.
  revert z. induction n as [|n IH]; intros z Hz.
  - unfold in_width in Hz. simpl in *. lia.
  - unfold in_width in Hz. rewrite pow256_S in Hz. simpl.
    rewrite IH.
    + pose proof (Z.div_mod z 256). lia.
    + split; [apply Z.div_pos; lia|]. apply Z.div_lt_upper_bound; lia.
Qed.

Lemma le_bytes_le_value bs :
  Forall is_byte bs -> le_bytes (length bs) (le_value bs) = bs.
Proof.
  unfold is_byte. induction 1 as [|b bs Hb _ IH]; [done|]. simpl.
  replace (b + 256 * le_value bs) with (b + le_value bs * 256) by lia.
  rewrite Z.mod_add, Z.div_add, Z.mod_small, Z.div_small by lia.
  by rewrite Z.add_0_l, IH.
Qed.

Lemma le_value_range bs :
  Forall is_byte bs -> in_width (8 * Z.of_nat (length bs)) (le_value bs).
Proof.
  unfold is_byte, in_width. induction 1 as [|b bs Hb _ IH]; [simpl; lia|].
  simpl length. rewrite pow256_S. simpl le_value. lia.
Qed.

#[export] Hint Resolve le_bytes_bytes : jailer.
#[export] Hint Rewrite length_le_bytes : jailer.
