(* ===== verification/CLayout.v ===== *)
(** * C struct layout

    How the compiler lays a C struct out in memory, for the structs of
    bpfjailer-bpf/src/main.bpf.c: every member is a scalar (or an array of
    scalars, listed element by element) aligned to its own width.  A BPF map
    compares and copies these byte images, so the development works with them
    directly: [to_bytes] is the image of a struct whose padding was zeroed and
    [of_bytes] reads a struct back.  [crepr] is the interface every struct type
    of the program implements; the round trip and the injectivity of key images
    are proved once, against that interface. *)

From S2P Require Import Prelude.

(** ** Offsets *)

Definition align_up (n a : nat) : nat :=
  ((n + a - 1) / a * a)%nat.

(** Offset and width of each member of a struct whose members have the given
    widths, starting at byte [cur]. *)
Fixpoint member_slots (cur : nat) (ws : list nat) : list (nat * nat) :=
  match ws with
  | [] => []
  | w :: ws' => let off := align_up cur w in (off, w) :: member_slots (off + w) ws'
  end.

Fixpoint slots_end (cur : nat) (slots : list (nat * nat)) : nat :=
  match slots with
  | [] => cur
  | (off, w) :: slots' => slots_end (off + w) slots'
  end.

Definition struct_align (ws : list nat) : nat := foldr Nat.max 1%nat ws.

Definition struct_size (ws : list nat) : nat :=
  align_up (slots_end 0 (member_slots 0 ws)) (struct_align ws).

(** ** Byte images *)

(** Members at their offsets, every other byte (the padding) zero. *)
Fixpoint place (cur total : nat) (slots : list (nat * nat)) (vs : list Z) : list Z :=
  match slots, vs with
  | (off, w) :: slots', v :: vs' =>
      replicate (off - cur) 0 ++ le_bytes w v ++ place (off + w) total slots' vs'
  | _, _ => replicate (total - cur) 0
  end.

(** A member read back (list elements are bytes; [u8] makes that explicit). *)
Definition read_slot (bs : list Z) (slot : nat * nat) : Z :=
  le_value (map u8 (take slot.2 (drop slot.1 bs))).

(** Slots are laid out left to right from [cur] and end by [total]. *)
Fixpoint slots_ok (cur total : nat) (slots : list (nat * nat)) : Prop :=
  match slots with
  | [] => (cur <= total)%nat
  | (off, w) :: slots' => (cur <= off)%nat /\ slots_ok (off + w) total slots'
  end.

Definition slot_fits (slot : nat * nat) (v : Z) : Prop :=
  in_width (8 * Z.of_nat slot.2) v.

Lemma align_up_ge n a : (0 < a)%nat -> (n <= align_up n a)%nat.
Proof.
  intros Ha. unfold align_up.
  pose proof (Nat.div_mod_eq (n + a - 1) a).
  pose proof (Nat.mod_upper_bound (n + a - 1) a). nia.
Qed.

Lemma member_slots_ok cur total ws :
  Forall (fun w => 0 < w)%nat ws ->
  (slots_end cur (member_slots cur ws) <= total)%nat ->
  slots_ok cur total (member_slots cur ws).
Proof.
  intros Hws. revert cur. induction Hws as [|w ws Hw _ IH]; intros cur; simpl; [done|].
  intros Hend. split; [by apply align_up_ge|]. by apply IH.
Qed.

Lemma slots_ok_le cur total slots : slots_ok cur total slots -> (cur <= total)%nat.
Proof.
  revert cur. induction slots as [|[off w] slots IH]; simpl; intros cur; [done|].
  intros [? ?%IH]. lia.
Qed.

Lemma length_place cur total slots vs :
  slots_ok cur total slots -> length (place cur total slots vs) = (total - cur)%nat.
Proof.
  revert cur vs. induction slots as [|[off w] slots IH]; intros cur vs Hok; simpl.
  - by rewrite length_replicate.
  - destruct vs; simpl in *; [by rewrite length_replicate|]. destruct Hok as [? Hok].
    pose proof (slots_ok_le _ _ _ Hok).
    rewrite !length_app, length_replicate, length_le_bytes, IH by done. lia.
Qed.

Lemma replicate_zero_bytes n : Forall is_byte (replicate n 0).
Proof. apply Forall_replicate. unfold is_byte. lia. Qed.

Lemma place_bytes cur total slots vs : Forall is_byte (place cur total slots vs).
Proof.
  revert cur vs. induction slots as [|[off w] slots IH]; intros cur [|v vs]; simpl;
    rewrite ?Forall_app; eauto using replicate_zero_bytes with jailer.
Qed.

Lemma map_u8_bytes bs : Forall is_byte bs -> map u8 bs = bs.
Proof.
  induction 1 as [|b bs Hb _ IH]; [done|]. simpl. rewrite IH. f_equal. by apply wrap_small.
Qed.

Lemma map_u8_is_byte bs : Forall is_byte (map u8 bs).
Proof. induction bs; simpl; constructor; [|done]. apply (wrap_range 8). lia. Qed.

Lemma read_slot_fits bs slot : slot_fits slot (read_slot bs slot).
Proof.
  unfold slot_fits, read_slot. set (l := map u8 _).
  apply (in_width_mono (8 * Z.of_nat (length l))).
  - unfold l. rewrite length_map, length_take. lia.
  - apply le_value_range, map_u8_is_byte.
Qed.

(** Reading a member back from an image preceded by [cur] arbitrary bytes. *)
Lemma read_place pre total slots vs :
  slots_ok (length pre) total slots ->
  Forall2 slot_fits slots vs ->
  map (read_slot (pre ++ place (length pre) total slots vs)) slots = vs.
Proof.
  revert pre vs. induction slots as [|[off w] slots IH]; intros pre vs Hok Hfit.
  - by inversion Hfit.
  - inversion Hfit as [|? v ? vs' Hv Hvs]; subst. simpl in *. destruct Hok as [Hle Hok].
    set (pre' := pre ++ replicate (off - length pre) 0 ++ le_bytes w v).
    assert (length pre' = off + w)%nat as Hlen.
    { unfold pre'. rewrite !length_app, length_replicate, length_le_bytes. lia. }
    replace (pre ++ _) with (pre' ++ place (length pre') total slots vs').
    2:{ unfold pre' at 1. rewrite Hlen. by rewrite <-!app_assoc. }
    f_equal.
    + unfold read_slot, pre'. simpl. rewrite (app_assoc pre), <-app_assoc.
      rewrite drop_app_length'; [|rewrite length_app, length_replicate; lia].
      rewrite take_app_length'; [|by rewrite length_le_bytes].
      rewrite map_u8_bytes by auto with jailer. by apply le_value_le_bytes.
    + apply IH; [by rewrite Hlen|done].
Qed.

(** ** The representation interface *)

(** How a Rocq value of type [A] is a C object: its member widths, its members
    in order, and the value rebuilt from members.  Members that only pad are
    listed among the widths and are zero. *)
Record crepr (A : Type) := CRepr {
  c_widths : list nat;
  c_fields : A -> list Z;
  c_build : list Z -> A;
}.
Arguments CRepr {_} _ _ _.
Arguments c_widths {_} _.
Arguments c_fields {_} _ _.
Arguments c_build {_} _ _.

Class CReprOk {A} (r : crepr A) : Prop := {
  c_widths_pos : Forall (fun w => 0 < w)%nat (c_widths r);
  c_fields_length : forall a, length (c_fields r a) = length (c_widths r);
  c_build_fields : forall a, c_build r (c_fields r a) = a;
  c_build_fits : forall vs, Forall2 slot_fits (member_slots 0 (c_widths r)) vs ->
    Forall2 slot_fits (member_slots 0 (c_widths r)) (c_fields r (c_build r vs));
}.

Section repr.
Context {A : Type} (r : crepr A).

Definition c_slots : list (nat * nat) := member_slots 0 (c_widths r).
Definition c_size : nat := struct_size (c_widths r).

(** The object's bytes, padding zeroed (what [__builtin_memset] followed by
    member assignments leaves). *)
Definition to_bytes (a : A) : list Z := place 0 c_size c_slots (c_fields r a).

(** The members a program reads out of the bytes at a map value pointer. *)
Definition of_bytes (bs : list Z) : A := c_build r (map (read_slot bs) c_slots).

(** Every member is within the width the struct declares for it. *)
Definition c_fits (a : A) : Prop := Forall2 slot_fits c_slots (c_fields r a).

Context `{!CReprOk r}.

Lemma struct_slots_ok : slots_ok 0 c_size c_slots.
Proof.
  apply member_slots_ok; [apply c_widths_pos|].
  unfold c_size, struct_size, c_slots. apply align_up_ge.
  unfold struct_align. induction (c_widths r); simpl; lia.
Qed.

Lemma of_to_bytes a : c_fits a -> of_bytes (to_bytes a) = a.
Proof.
  intros Hfit. unfold of_bytes, to_bytes.
  pose proof (read_place [] c_size c_slots (c_fields r a) struct_slots_ok Hfit) as Hread.
  simpl in Hread. rewrite Hread. apply c_build_fields.
Qed.

(** Whatever bytes a map holds, the members read from it fit the struct. *)
Lemma of_bytes_fits bs : c_fits (of_bytes bs).
Proof.
  apply c_build_fits. unfold c_slots. induction (member_slots 0 (c_widths r)); simpl;
    constructor; auto using read_slot_fits.
Qed.

Lemma to_bytes_inj a b : c_fits a -> c_fits b -> to_bytes a = to_bytes b -> a = b.
Proof.
  intros Ha Hb Heq. rewrite <-(of_to_bytes a Ha), <-(of_to_bytes b Hb). by rewrite Heq.
Qed.
End repr.

(** Scalars used as map keys and values. *)
Definition scalar_repr (w : nat) : crepr Z := CRepr [w] (fun z => [z]) (fun l => default 0 (head l)).

#[export] Instance scalar_repr_ok w : (0 < w)%nat -> CReprOk (scalar_repr w).
Proof.
  intros. split; simpl; auto.
  intros vs Hvs. inversion Hvs as [|? v ? l Hv Hl]; subst. inversion Hl; subst. by constructor.
Qed.

Definition u8_repr : crepr Z := scalar_repr 1.
Definition u16_repr : crepr Z := scalar_repr 2.
Definition u32_repr : crepr Z := scalar_repr 4.
Definition u64_repr : crepr Z := scalar_repr 8.

#[export] Instance u8_repr_ok : CReprOk u8_repr.
Proof. apply scalar_repr_ok. lia. Qed.
#[export] Instance u16_repr_ok : CReprOk u16_repr.
Proof. apply scalar_repr_ok. lia. Qed.
#[export] Instance u32_repr_ok : CReprOk u32_repr.
Proof. apply scalar_repr_ok. lia. Qed.
#[export] Instance u64_repr_ok : CReprOk u64_repr.
Proof. apply scalar_repr_ok. lia. Qed.

(** Solves [CReprOk] for a struct whose [c_build] pattern-matches its members. *)
Ltac solve_build_fits :=
  let vs := fresh "vs" in let H := fresh "H" in
  intros vs H; cbn in H;
  repeat match goal with
  | H : Forall2 _ (_ :: _) _ |- _ => apply Forall2_cons_inv_l in H as (? & ? & ? & ? & ->)
  | H : Forall2 _ [] _ |- _ => apply Forall2_nil_inv_l in H as ->
  end; cbn; repeat (apply Forall2_cons; split); try apply List.Forall2_nil; try assumption;
  unfold slot_fits; cbn; apply in_width_0; lia.

Ltac solve_crepr :=
  split; [repeat constructor | intros []; reflexivity | intros []; reflexivity
         | solve_build_fits].

(** Splits [c_fits] for a concrete struct into one [in_width] per member. *)
Ltac solve_fits :=
  unfold c_fits; cbn; repeat (apply Forall2_cons; split);
  try apply List.Forall2_nil; unfold slot_fits; cbn; try lia.
