(* ===== verification/BpfMap.v ===== *)
(** * BPF maps and their helpers

    The run-time operations main.bpf.c uses on its maps: lookup, update, delete
    and stores through a value pointer.  A map holds byte images of keys and
    values, as the kernel does: a lookup compares the whole key image, padding
    included.  The helper results follow the bpf-helpers(7) documentation: a
    hash update of a new key in a full map fails with -E2BIG, a delete of an
    absent key with -ENOENT, an array element below [max_entries] always exists
    and starts zeroed, and an LRU map may evict any entries to make room. *)

From S2P Require Import Prelude CLayout.

Inductive map_type :=
  | BPF_MAP_TYPE_HASH
  | BPF_MAP_TYPE_ARRAY
  | BPF_MAP_TYPE_PERCPU_ARRAY
  | BPF_MAP_TYPE_LRU_HASH
  | BPF_MAP_TYPE_TASK_STORAGE
  | BPF_MAP_TYPE_PERF_EVENT_ARRAY.

#[export] Instance map_type_eq_dec : EqDecision map_type.
Proof. solve_decision. Defined.

(** What a map definition in the [.maps] section declares. *)
Record map_decl (K V : Type) := MapDecl {
  md_type : map_type;
  md_max_entries : Z;
  md_key : crepr K;
  md_value : crepr V;
}.
Arguments MapDecl {_ _} _ _ _ _.
Arguments md_type {_ _} _.
Arguments md_max_entries {_ _} _.
Arguments md_key {_ _} _.
Arguments md_value {_ _} _.

Abbreviation bpf_map := (gmap (list Z) (list Z)).

(** Negated errno values the helpers return. *)
Definition ENOENT : Z := 2.
Definition E2BIG : Z := 7.

Definition is_array (t : map_type) : bool :=
  match t with
  | BPF_MAP_TYPE_ARRAY | BPF_MAP_TYPE_PERCPU_ARRAY => true
  | _ => false
  end.

Section ops.
Context {K V : Type} (d : map_decl K V).

Definition key_image (k : K) : list Z := to_bytes (md_key d) k.
Definition value_image (v : V) : list Z := to_bytes (md_value d) v.

Definition zero_value : list Z := replicate (c_size (md_value d)) 0.

(** The index an array map takes its key to be. *)
Definition array_index (k : K) : Z := le_value (key_image k).

(** [bpf_map_lookup_elem]: [None] is the NULL pointer. *)
Definition map_lookup (m : bpf_map) (k : K) : option V :=
  of_bytes (md_value d) <$>
  (if is_array (md_type d)
    then if array_index k <? md_max_entries d
    then Some (default zero_value (m !! key_image k)) else None
    else m !! key_image k).

(** A store through the pointer a lookup of [k] returned. *)
Definition map_store (m : bpf_map) (k : K) (v : V) : bpf_map :=
  <[key_image k := value_image v]> m.

(** [bpf_map_update_elem] with flags 0 ([BPF_ANY]).  [evicted] is what an LRU
    map chose to evict; the other types ignore it. *)
Definition map_update (evicted : list (list Z)) (m : bpf_map) (k : K) (v : V) : Z * bpf_map :=
  match md_type d with
  | BPF_MAP_TYPE_ARRAY | BPF_MAP_TYPE_PERCPU_ARRAY =>
      if array_index k <? md_max_entries d then (0, map_store m k v) else (- E2BIG, m)
  | BPF_MAP_TYPE_LRU_HASH => (0, map_store (foldr delete m evicted) k v)
  | _ =>
      if bool_decide (is_Some (m !! key_image k)) || (Z.of_nat (size m) <? md_max_entries d)
      then (0, map_store m k v) else (- E2BIG, m)
  end.

(** [bpf_map_delete_elem] on a hash map. *)
Definition map_delete (m : bpf_map) (k : K) : Z * bpf_map :=
  if bool_decide (is_Some (m !! key_image k))
  then (0, delete (key_image k) m) else (- ENOENT, m).

Lemma map_lookup_hash m k :
  is_array (md_type d) = false ->
  map_lookup m k = of_bytes (md_value d) <$> m !! key_image k.
Proof. intros Ht. unfold map_lookup. by rewrite Ht. Qed.

Lemma map_lookup_fits `{!CReprOk (md_value d)} m k v :
  map_lookup m k = Some v -> c_fits (md_value d) v.
Proof.
  unfold map_lookup. rewrite fmap_Some. intros (bs & _ & ->). by apply of_bytes_fits.
Qed.

Lemma map_lookup_store_eq `{!CReprOk (md_value d)} m k v :
  is_array (md_type d) = false -> c_fits (md_value d) v ->
  map_lookup (map_store m k v) k = Some v.
Proof.
  intros Ht Hv. rewrite map_lookup_hash by done. unfold map_store.
  rewrite lookup_insert_eq. simpl. f_equal. by apply of_to_bytes.
Qed.

Lemma map_lookup_array_store_eq `{!CReprOk (md_value d)} m k v :
  is_array (md_type d) = true -> array_index k < md_max_entries d ->
  c_fits (md_value d) v ->
  map_lookup (map_store m k v) k = Some v.
Proof.
  intros Ht Hi Hv. unfold map_lookup. rewrite Ht. apply Z.ltb_lt in Hi. rewrite Hi.
  unfold map_store. rewrite lookup_insert_eq. simpl. f_equal. by apply of_to_bytes.
Qed.

Lemma map_lookup_store_ne `{!CReprOk (md_key d)} m k k' v :
  c_fits (md_key d) k -> c_fits (md_key d) k' -> k <> k' ->
  map_lookup (map_store m k v) k' = map_lookup m k'.
Proof.
  intros Hk Hk' Hne. unfold map_lookup, map_store.
  rewrite lookup_insert_ne; [done|]. intros Heq. apply Hne.
  by apply (to_bytes_inj (md_key d)).
Qed.

Lemma map_delete_lookup_eq m k : (map_delete m k).2 !! key_image k = None.
Proof.
  unfold map_delete. case_bool_decide as H; simpl.
  - apply lookup_delete_eq.
  - by apply eq_None_not_Some.
Qed.
End ops.

(** What an eviction leaves is part of what was there. *)
Lemma foldr_delete_sub (m : bpf_map) ks k v :
  foldr delete m ks !! k = Some v -> m !! k = Some v.
Proof.
  revert v. induction ks as [|k' ks IH]; intros v; simpl; [done|].
  rewrite lookup_delete_Some. intros [_ ?]. by apply IH.
Qed.

