(* ===== verification/Rust.v ===== *)
(** * The Rust side: strings, results and effects

    What the userspace files share.  A string is its UTF-8 bytes.  [io E S A] is
    a function that reads and writes a state [S] and returns [Result<A, E>];
    [x <-? p ;; q] is the [?] operator: an error ends the function, with the
    state as it was left.  A [for] loop whose body uses [?] is [for_each]. *)

From S2P Require Import Prelude.
From Stdlib Require Import Ascii.

(** Strings are byte lists. *)
Abbreviation bytes := (list Z).

(** The bytes of a literal. *)
Definition text (s : string) : bytes := (fun c => Z.of_nat (nat_of_ascii c)) <$> String.list_ascii_of_string s.

(** [str::split(sep)]: the pieces between separators, empty ones included. *)
Fixpoint split_on (sep : Z) (s : bytes) : list bytes :=
  match s with
  | [] => [[]]
  | c :: s' =>
      if c =? sep then [] :: split_on sep s'
      else match split_on sep s' with
           | seg :: segs => (c :: seg) :: segs
           | [] => [[c]]
           end
  end.

Section io.
Context {E S : Type}.

Definition io (A : Type) : Type := S -> (E + A) * S.

Definition ok {A} (a : A) : io A := fun s => (inr a, s).
Definition err {A} (e : E) : io A := fun s => (inl e, s).

Definition io_bind {A B} (p : io A) (k : A -> io B) : io B :=
  fun s => match p s with
    | (inr a, s') => k a s'
    | (inl e, s') => (inl e, s')
    end.

(** [for x in xs { f(x)?; }] *)
Fixpoint for_each {X} (f : X -> io unit) (xs : list X) : io unit :=
  match xs with
  | [] => ok tt
  | x :: xs' => io_bind (f x) (fun _ => for_each f xs')
  end.

(** The same loop with a [Vec] it pushes to. *)
Fixpoint collect_each {X Y} (f : X -> io (list Y)) (xs : list X) : io (list Y) :=
  match xs with
  | [] => ok []
  | x :: xs' =>
      io_bind (f x) (fun ys => io_bind (collect_each f xs') (fun zs => ok (ys ++ zs)))
  end.

(** Reading the state, and replacing it. *)
Definition io_get : io S := fun s => (inr s, s).
Definition io_put (s' : S) : io unit := fun _ => (inr tt, s').

(** [if let Err(e) = p { log }]: an error is swallowed. *)
Definition ignore_error {A} (p : io A) : io unit := fun s => (inr tt, (p s).2).
End io.
Arguments io : clear implicits.

Declare Scope rust_scope.
Delimit Scope rust_scope with rust.
Notation "x <-? p ;; q" := (io_bind p (fun x => q))
  (at level 60, p at next level, right associativity) : rust_scope.
Notation "p ;;? q" := (io_bind p (fun _ => q))
  (at level 60, right associativity) : rust_scope.
#[global] Open Scope rust_scope.

Lemma io_bind_assoc {E S A B C} (p : io E S A) (k : A -> io E S B) (l : B -> io E S C) s :
  ((x <-? (y <-? p ;; k y) ;; l x)) s = (y <-? p ;; x <-? k y ;; l x) s.
Proof. unfold io_bind. by destruct (p s) as [[e|a] s']. Qed.

Lemma io_bind_ok {E S A} (p : io E S A) s : (x <-? p ;; ok x) s = p s.
Proof. unfold io_bind, ok. by destruct (p s) as [[e|a] s']. Qed.

(** Functions that agree on every state can replace each other under a bind. *)
Lemma io_bind_ext {E S A B} (p p' : io E S A) (k k' : A -> io E S B) s :
  p s = p' s -> (forall a s', k a s' = k' a s') -> io_bind p k s = io_bind p' k' s.
Proof. unfold io_bind. intros -> Hk. by destruct (p' s) as [[e|a] s']. Qed.

Lemma for_each_app {E S X} (f : X -> io E S unit) xs ys s :
  for_each f (xs ++ ys) s = (for_each f xs ;;? for_each f ys) s.
Proof.
  revert s. induction xs as [|x xs IH]; intros s; [done|]. cbn [for_each app].
  rewrite io_bind_assoc. apply io_bind_ext; [done|]. intros _ s'. apply IH.
Qed.

Lemma for_each_ext {E S X} (f g : X -> io E S unit) xs s :
  (forall x s, f x s = g x s) -> for_each f xs s = for_each g xs s.
Proof.
  intros Hf. revert s. induction xs as [|x xs IH]; intros s; [done|]. cbn.
  apply io_bind_ext; [done|]. intros _ s'. apply IH.
Qed.

Lemma collect_each_ext {E S X Y} (f g : X -> io E S (list Y)) xs s :
  (forall x s, f x s = g x s) -> collect_each f xs s = collect_each g xs s.
Proof.
  intros Hf. revert s. induction xs as [|x xs IH]; intros s; [done|]. cbn.
  apply io_bind_ext; [done|]. intros ys s'. apply io_bind_ext; [apply IH|done].
Qed.

(** A successful sequence is two successful steps. *)
Lemma io_bind_inr {E S A B} (p : io E S A) (k : A -> io E S B) s b s' :
  io_bind p k s = (inr b, s') <-> exists a s1, p s = (inr a, s1) /\ k a s1 = (inr b, s').
Proof.
  unfold io_bind. destruct (p s) as [[e|a] s1]; naive_solver.
Qed.

(** *** What succeeds here does the same there

    [succeeds_as p q]: wherever [p] succeeds, [q] does too, with the same result
    and the same effect.  It goes through every construct. *)
Definition succeeds_as {E S A} (p q : io E S A) : Prop :=
  forall s a s', p s = (inr a, s') -> q s = (inr a, s').

#[export] Instance succeeds_as_preorder {E S A} : PreOrder (@succeeds_as E S A).
Proof. split; [by intros p s a s'|]. intros p q r Hpq Hqr s a s' Hp. by apply Hqr, Hpq. Qed.

Lemma succeeds_bind {E S A B} (p q : io E S A) (k l : A -> io E S B) :
  succeeds_as p q -> (forall a, succeeds_as (k a) (l a)) -> succeeds_as (io_bind p k) (io_bind q l).
Proof.
  intros Hp Hk s b s'. rewrite !io_bind_inr. intros (a & s1 & H1 & H2). exists a, s1.
  split; [by apply Hp|by apply Hk].
Qed.

Lemma succeeds_for_each {E S X} (f g : X -> io E S unit) xs :
  (forall x, succeeds_as (f x) (g x)) -> succeeds_as (for_each f xs) (for_each g xs).
Proof. intros Hf. induction xs; [done|]. by apply succeeds_bind. Qed.

Lemma succeeds_collect_each {E S X Y} (f g : X -> io E S (list Y)) xs :
  (forall x, succeeds_as (f x) (g x)) -> succeeds_as (collect_each f xs) (collect_each g xs).
Proof.
  intros Hf. induction xs; [done|]. apply succeeds_bind; [done|]. intros ys. by apply succeeds_bind.
Qed.

(** The last of a sequence, taken apart. *)
Lemma io_seq_split {E S} (p q q' r : io E S unit) :
  (forall s, (q s) = (q' ;;? r) s) -> forall s, (p ;;? q) s = ((p ;;? q') ;;? r) s.
Proof. intros Hq s. unfold io_bind. destruct (p s) as [[e|[]] s']; [done|apply Hq]. Qed.

(** An operation that always fails, after another. *)
Lemma io_fails_after {E S} (p q : io E S unit) :
  (forall s, exists e s', q s = (inl e, s')) -> forall s, exists e s', (p ;;? q) s = (inl e, s').
Proof. intros Hq s. unfold io_bind. destruct (p s) as [[e|[]] s1]; [by exists e, s1|apply Hq]. Qed.

Lemma io_fails_before {E S} (p q : io E S unit) :
  (forall s, exists e s', p s = (inl e, s')) -> forall s, exists e s', (p ;;? q) s = (inl e, s').
Proof. intros Hp s. unfold io_bind. destruct (Hp s) as (e & s' & ->). by exists e, s'. Qed.

Lemma for_each_fails {E S X} (f : X -> io E S unit) xs x :
  x ∈ xs -> (forall s, exists e s', f x s = (inl e, s')) -> forall s, exists e s', for_each f xs s = (inl e, s').
Proof.
  intros Hin Hf. induction Hin as [x xs|x y xs Hin IH]; intros s; cbn [for_each]; unfold io_bind.
  - destruct (Hf s) as (e & s' & ->). by exists e, s'.
  - destruct (f y s) as [[e|[]] s1]; [by exists e, s1|by apply IH].
Qed.
