(* ===== verification/Kernel.v ===== *)
(** * Kernel memory as the BPF programs read it

    The programs never dereference a kernel pointer directly: they read fields
    with [BPF_CORE_READ] and bytes with [bpf_probe_read_kernel], both of which
    leave zero when the address is not readable.  Kernel memory is a partial
    function from addresses to bytes.  Where a field lies is decided when the
    object is loaded (CO-RE relocates every access against the running kernel's
    BTF), so the offsets are an interface, [KernelLayout]; KernelTypes.v derives
    one instance from bpfjailer-bpf/src/vmlinux.h. *)

From S2P Require Import Prelude CLayout.

(** Byte at an address, [None] when reading it faults. *)
Definition mem := Z -> option Z.

(** [n] bytes from [addr], little-endian, zero when any of them faults. *)
Definition probe_read (m : mem) (addr : Z) (n : nat) : Z :=
  match mapM (fun i => m (u64 (addr + Z.of_nat i))) (seq 0 n) with
  | Some bs => le_value (map u8 bs)
  | None => 0
  end.

(** Where the fields the programs read lie. *)
Class KernelLayout := {
  off_dentry_d_parent : Z;
  off_dentry_d_name_len : Z;
  off_dentry_d_name_name : Z;
  off_dentry_d_inode : Z;
  off_mount_mnt : Z;
  off_mount_mnt_parent : Z;
  off_mount_mnt_mountpoint : Z;
  off_vfsmount_mnt_root : Z;
  off_file_f_path_dentry : Z;
  off_file_f_path_mnt : Z;
  off_file_f_inode : Z;
  off_inode_i_ino : Z;
  off_task_struct_fs : Z;
  off_fs_struct_root_dentry : Z;
  off_fs_struct_root_mnt : Z;
  off_linux_binprm_file : Z;
  off_socket_type : Z;
  off_sockaddr_sa_family : Z;
  off_sockaddr_in_sin_port : Z;
  off_sockaddr_in_sin_addr : Z;
  off_sockaddr_in6_sin6_port : Z;
}.

Definition read_ptr (m : mem) (addr : Z) : Z := probe_read m addr 8.

Lemma probe_read_range m addr n : in_width (8 * Z.of_nat n) (probe_read m addr n).
Proof.
  unfold probe_read. destruct (mapM _ _) as [bs|] eqn:E; [|apply in_width_0; lia].
  apply length_mapM in E. rewrite length_seq in E. subst n.
  rewrite <-(length_map u8 bs). apply le_value_range.
  apply Forall_fmap, Forall_true. intros b. unfold is_byte, wrap. simpl.
  apply Z.mod_pos_bound. lia.
Qed.

Section fields.
Context `{KL : KernelLayout}.
Implicit Types (m : mem) (p : Z).

(** Offsets are never applied without the 64-bit wrap of pointer arithmetic. *)
Definition field (p off : Z) : Z := u64 (p + off).

Definition d_parent m p := read_ptr m (field p off_dentry_d_parent).
Definition d_name_len m p := probe_read m (field p off_dentry_d_name_len) 4.
Definition d_name_name m p := read_ptr m (field p off_dentry_d_name_name).
Definition d_inode m p := read_ptr m (field p off_dentry_d_inode).
Definition mnt_mnt_root m p :=
  read_ptr m (field p (off_mount_mnt + off_vfsmount_mnt_root)).
Definition mnt_parent m p := read_ptr m (field p off_mount_mnt_parent).
Definition mnt_mountpoint m p := read_ptr m (field p off_mount_mnt_mountpoint).
Definition f_path_dentry m p := read_ptr m (field p off_file_f_path_dentry).
Definition f_path_mnt m p := read_ptr m (field p off_file_f_path_mnt).
Definition f_inode m p := read_ptr m (field p off_file_f_inode).
Definition i_ino m p := read_ptr m (field p off_inode_i_ino).
Definition task_fs m p := read_ptr m (field p off_task_struct_fs).
Definition fs_root_dentry m p := read_ptr m (field p off_fs_struct_root_dentry).
Definition fs_root_mnt m p := read_ptr m (field p off_fs_struct_root_mnt).
Definition bprm_file m p := read_ptr m (field p off_linux_binprm_file).
Definition sock_type m p := probe_read m (field p off_socket_type) 2.
Definition sa_family m p := probe_read m (field p off_sockaddr_sa_family) 2.
Definition sin_port m p := probe_read m (field p off_sockaddr_in_sin_port) 2.
Definition sin_addr m p := probe_read m (field p off_sockaddr_in_sin_addr) 4.
Definition sin6_port m p := probe_read m (field p off_sockaddr_in6_sin6_port) 2.

Lemma read_ptr_range m p : in_width 64 (read_ptr m p).
Proof. apply (probe_read_range m p 8). Qed.
End fields.

(** ** Building memories

    Memories for the concrete scenarios of the development: a list of little
    endian stores, the first covering store deciding. *)
Fixpoint mem_of (stores : list (Z * nat * Z)) : mem :=
  match stores with
  | [] => fun _ => None
  | (a, n, v) :: rest =>
      fun x => if (a <=? x) && (x <? a + Z.of_nat n)
               then le_bytes n v !! Z.to_nat (x - a) else mem_of rest x
  end.
