(* ===== verification/KernelTypes.v ===== *)
(** * Kernel types

    The kernel structures main.bpf.c reads, transcribed from
    bpfjailer-bpf/src/vmlinux.h member by member (scalar typedefs and enums are
    resolved to their sizes, pointers and function pointers to [Ptr]), together
    with every structure they embed by value, and the x86-64 layout rules that
    place their members.  [vmlinux_layout] is the [KernelLayout] these
    declarations give: the offsets the object carries before CO-RE relocates
    them. *)

From S2P Require Import Prelude CLayout Kernel.

(** ** C types *)

Inductive ctype :=
  | Int (size : Z)                        (* integer or enum, self-aligned *)
  | Ptr
  | Arr (n : Z) (t : ctype)
  | Bits (size width : Z)                 (* bit-field of a [size]-byte type *)
  | Struct (fields : list (string * ctype))
  | Union (fields : list (string * ctype)).

Definition z_align_up (n a : Z) : Z := (n + a - 1) / a * a.

(** Alignment in bytes; an unnamed bit-field does not align its struct. *)
Fixpoint alignof (t : ctype) : Z :=
  match t with
  | Int size => size
  | Ptr => 8
  | Arr _ t' => alignof t'
  | Bits size _ => size
  | Struct fs | Union fs =>
      (fix go (fs : list (string * ctype)) : Z :=
         match fs with
         | [] => 1
         | (name, t') :: fs' =>
             match t' with
             | Bits _ _ => if String.eqb name "" then go fs' else Z.max (alignof t') (go fs')
             | _ => Z.max (alignof t') (go fs')
             end
         end) fs
  end.

(** Bit at which a member starts when the ones before it end at [cur]: a
    bit-field stays in the storage unit it fits in. *)
Definition member_start (cur : Z) (t : ctype) : Z :=
  match t with
  | Bits size width =>
      let unit := 8 * size in
      if (0 <? width) && (cur mod unit + width <=? unit) then cur else z_align_up cur unit
  | _ => z_align_up cur (8 * alignof t)
  end.

Fixpoint sizeof (t : ctype) : Z :=
  match t with
  | Int size => size
  | Ptr => 8
  | Arr n t' => n * sizeof t'
  | Bits size _ => size
  | Struct fs =>
      z_align_up
        ((fix go (cur : Z) (fs : list (string * ctype)) : Z :=
            match fs with
            | [] => cur
            | (_, t') :: fs' =>
                let start := member_start cur t' in
                match t' with
                | Bits _ width => go (start + width) fs'
                | _ => go (start + 8 * sizeof t') fs'
                end
            end) 0 fs) (8 * alignof t) / 8
  | Union fs =>
      z_align_up
        ((fix go (fs : list (string * ctype)) : Z :=
            match fs with
            | [] => 0
            | (_, t') :: fs' => Z.max (sizeof t') (go fs')
            end) fs) (alignof t)
  end.

(** Bit offset and type of a named member, looking through unnamed structs and
    unions as C does. *)
Fixpoint find_member (t : ctype) (name : string) : option (Z * ctype) :=
  match t with
  | Struct fs =>
      (fix go (cur : Z) (fs : list (string * ctype)) : option (Z * ctype) :=
         match fs with
         | [] => None
         | (nm, t') :: fs' =>
             let start := member_start cur t' in
             let next := match t' with
                         | Bits _ width => start + width
                         | _ => start + 8 * sizeof t'
                         end in
             if String.eqb nm name then Some (start, t')
             else if String.eqb nm "" then
               match find_member t' name with
               | Some (o, t'') => Some (start + o, t'')
               | None => go next fs'
               end
             else go next fs'
         end) 0 fs
  | Union fs =>
      (fix go (fs : list (string * ctype)) : option (Z * ctype) :=
         match fs with
         | [] => None
         | (nm, t') :: fs' =>
             if String.eqb nm name then Some (0, t')
             else if String.eqb nm "" then
               match find_member t' name with
               | Some r => Some r
               | None => go fs'
               end
             else go fs'
         end) fs
  | _ => None
  end.

(** Byte offset and type of a dotted path such as [f_path.dentry]. *)
Fixpoint access (t : ctype) (path : list string) : option (Z * ctype) :=
  match path with
  | [] => Some (0, t)
  | name :: path' =>
      match find_member t name with
      | Some (bits, t') =>
          match access t' path' with
          | Some (o, t'') => Some (bits / 8 + o, t'')
          | None => None
          end
      | None => None
      end
  end.

Definition offsetof (t : ctype) (path : list string) : Z :=
  match access t path with
  | Some (o, _) => o
  | None => -1
  end.

(** ** vmlinux.h declarations *)

Definition struct_seqcount : ctype := Struct [
   ("sequence", Int 4)].

Definition struct_seqcount_spinlock : ctype := Struct [
   ("seqcount", struct_seqcount)].

Definition struct_hlist_bl_node : ctype := Struct [
   ("next", Ptr); ("pprev", Ptr)].

Definition struct_qstr : ctype := Struct [
   ("", Union [("", Struct [("hash", Int 4); ("len", Int 4)]); ("hash_len", Int 8)]);
   ("name", Ptr)].

Definition typedef_atomic_t : ctype := Struct [
   ("counter", Int 4)].

Definition struct_qspinlock : ctype := Struct [
   ("", Union [("val", typedef_atomic_t); ("", Struct [("locked", Int 1); ("pending", Int 1)]);
   ("", Struct [("locked_pending", Int 2); ("tail", Int 2)])])].

Definition struct_raw_spinlock : ctype := Struct [
   ("raw_lock", struct_qspinlock)].

Definition struct_spinlock : ctype := Struct [
   ("", Union [("rlock", struct_raw_spinlock)])].

Definition struct_lockref : ctype := Struct [
   ("", Union [("lock_count", Int 8); ("", Struct [("lock", struct_spinlock);
   ("count", Int 4)])])].

Definition struct_list_head : ctype := Struct [
   ("next", Ptr); ("prev", Ptr)].

Definition struct_hlist_node : ctype := Struct [
   ("next", Ptr); ("pprev", Ptr)].

Definition struct_hlist_head : ctype := Struct [
   ("first", Ptr)].

Definition struct_callback_head : ctype := Struct [
   ("next", Ptr); ("func", Ptr)].

Definition struct_dentry : ctype := Struct [
   ("d_flags", Int 4); ("d_seq", struct_seqcount_spinlock); ("d_hash", struct_hlist_bl_node);
   ("d_parent", Ptr); ("d_name", struct_qstr); ("d_inode", Ptr); ("d_iname", Arr 40 (Int 1));
   ("d_lockref", struct_lockref); ("d_op", Ptr); ("d_sb", Ptr); ("d_time", Int 8);
   ("d_fsdata", Ptr); ("", Union [("d_lru", struct_list_head); ("d_wait", Ptr)]);
   ("d_sib", struct_hlist_node); ("d_children", struct_hlist_head);
   ("d_u", Union [("d_alias", struct_hlist_node); ("d_in_lookup_hash", struct_hlist_bl_node);
   ("d_rcu", struct_callback_head)])].

Definition struct_vfsmount : ctype := Struct [
   ("mnt_root", Ptr); ("mnt_sb", Ptr); ("mnt_flags", Int 4); ("mnt_idmap", Ptr)].

Definition struct_rb_node : ctype := Struct [
   ("__rb_parent_color", Int 8); ("rb_right", Ptr); ("rb_left", Ptr)].

Definition struct_llist_node : ctype := Struct [
   ("next", Ptr)].

Definition struct_mount : ctype := Struct [
   ("mnt_hash", struct_hlist_node); ("mnt_parent", Ptr); ("mnt_mountpoint", Ptr);
   ("mnt", struct_vfsmount); ("", Union [("mnt_node", struct_rb_node);
   ("mnt_rcu", struct_callback_head); ("mnt_llist", struct_llist_node)]); ("mnt_pcp", Ptr);
   ("mnt_mounts", struct_list_head); ("mnt_child", struct_list_head);
   ("mnt_instance", struct_list_head); ("mnt_devname", Ptr); ("mnt_list", struct_list_head);
   ("mnt_expire", struct_list_head); ("mnt_share", struct_list_head);
   ("mnt_slave_list", struct_list_head); ("mnt_slave", struct_list_head); ("mnt_master", Ptr);
   ("mnt_ns", Ptr); ("mnt_mp", Ptr); ("", Union [("mnt_mp_list", struct_hlist_node);
   ("mnt_umount", struct_hlist_node)]); ("mnt_umounting", struct_list_head);
   ("mnt_fsnotify_marks", Ptr); ("mnt_fsnotify_mask", Int 4); ("mnt_id", Int 4);
   ("mnt_id_unique", Int 8); ("mnt_group_id", Int 4); ("mnt_expiry_mark", Int 4);
   ("mnt_pins", struct_hlist_head); ("mnt_stuck_children", struct_hlist_head)].

Definition struct_path : ctype := Struct [
   ("mnt", Ptr); ("dentry", Ptr)].

Definition typedef_atomic64_t : ctype := Struct [
   ("counter", Int 8)].

Definition struct_optimistic_spin_queue : ctype := Struct [
   ("tail", typedef_atomic_t)].

Definition struct_mutex : ctype := Struct [
   ("owner", typedef_atomic64_t); ("wait_lock", struct_raw_spinlock);
   ("osq", struct_optimistic_spin_queue); ("wait_list", struct_list_head)].

Definition struct_qrwlock : ctype := Struct [
   ("", Union [("cnts", typedef_atomic_t); ("", Struct [("wlocked", Int 1);
   ("__lstate", Arr 3 (Int 1))])]); ("wait_lock", struct_qspinlock)].

Definition typedef_rwlock_t : ctype := Struct [
   ("raw_lock", struct_qrwlock)].

Definition typedef_kuid_t : ctype := Struct [
   ("val", Int 4)].

Definition struct_fown_struct : ctype := Struct [
   ("lock", typedef_rwlock_t); ("pid", Ptr); ("pid_type", Int 4); ("uid", typedef_kuid_t);
   ("euid", typedef_kuid_t); ("signum", Int 4)].

Definition struct_file_ra_state : ctype := Struct [
   ("start", Int 8); ("size", Int 4); ("async_size", Int 4); ("ra_pages", Int 4);
   ("mmap_miss", Int 4); ("prev_pos", Int 8)].

Definition struct_file : ctype := Struct [
   ("", Union [("f_task_work", struct_callback_head); ("f_llist", struct_llist_node);
   ("f_iocb_flags", Int 4)]); ("f_lock", struct_spinlock); ("f_mode", Int 4);
   ("f_count", typedef_atomic64_t); ("f_pos_lock", struct_mutex); ("f_pos", Int 8);
   ("f_flags", Int 4); ("f_owner", struct_fown_struct); ("f_cred", Ptr);
   ("f_ra", struct_file_ra_state); ("f_path", struct_path); ("f_inode", Ptr); ("f_op", Ptr);
   ("f_version", Int 8); ("f_security", Ptr); ("private_data", Ptr); ("f_ep", Ptr);
   ("f_mapping", Ptr); ("f_wb_err", Int 4); ("f_sb_err", Int 4)].

Definition typedef_kgid_t : ctype := Struct [
   ("val", Int 4)].

Definition struct_timespec64 : ctype := Struct [
   ("tv_sec", Int 8); ("tv_nsec", Int 8)].

Definition struct_rw_semaphore : ctype := Struct [
   ("count", typedef_atomic64_t); ("owner", typedef_atomic64_t);
   ("osq", struct_optimistic_spin_queue); ("wait_lock", struct_raw_spinlock);
   ("wait_list", struct_list_head)].

Definition struct_xarray : ctype := Struct [
   ("xa_lock", struct_spinlock); ("xa_flags", Int 4); ("xa_head", Ptr)].

Definition struct_rb_root : ctype := Struct [
   ("rb_node", Ptr)].

Definition struct_rb_root_cached : ctype := Struct [
   ("rb_root", struct_rb_root); ("rb_leftmost", Ptr)].

Definition struct_address_space : ctype := Struct [
   ("host", Ptr); ("i_pages", struct_xarray); ("invalidate_lock", struct_rw_semaphore);
   ("gfp_mask", Int 4); ("i_mmap_writable", typedef_atomic_t);
   ("i_mmap", struct_rb_root_cached); ("nrpages", Int 8); ("writeback_index", Int 8);
   ("a_ops", Ptr); ("flags", Int 8); ("i_mmap_rwsem", struct_rw_semaphore); ("wb_err", Int 4);
   ("i_private_lock", struct_spinlock); ("i_private_list", struct_list_head);
   ("i_private_data", Ptr)].

Definition struct_inode : ctype := Struct [
   ("i_mode", Int 2); ("i_opflags", Int 2); ("i_uid", typedef_kuid_t);
   ("i_lru", struct_list_head); ("i_gid", typedef_kgid_t); ("i_flags", Int 4); ("i_acl", Ptr);
   ("i_default_acl", Ptr); ("i_op", Ptr); ("i_sb", Ptr); ("i_mapping", Ptr);
   ("i_security", Ptr); ("i_ino", Int 8); ("", Union [("i_nlink", Int 4);
   ("__i_nlink", Int 4)]); ("i_rdev", Int 4); ("i_size", Int 8);
   ("__i_atime", struct_timespec64); ("__i_mtime", struct_timespec64);
   ("__i_ctime", struct_timespec64); ("i_lock", struct_spinlock); ("i_bytes", Int 2);
   ("i_blkbits", Int 1); ("i_write_hint", Int 1); ("i_blocks", Int 8); ("i_state", Int 8);
   ("i_rwsem", struct_rw_semaphore); ("dirtied_when", Int 8); ("dirtied_time_when", Int 8);
   ("i_hash", struct_hlist_node); ("i_io_list", struct_list_head); ("i_wb", Ptr);
   ("i_wb_frn_winner", Int 4); ("i_wb_frn_avg_time", Int 2); ("i_wb_frn_history", Int 2);
   ("i_sb_list", struct_list_head); ("i_wb_list", struct_list_head);
   ("", Union [("i_dentry", struct_hlist_head); ("i_rcu", struct_callback_head)]);
   ("i_version", typedef_atomic64_t); ("i_sequence", typedef_atomic64_t);
   ("i_count", typedef_atomic_t); ("i_dio_count", typedef_atomic_t);
   ("i_writecount", typedef_atomic_t); ("i_readcount", typedef_atomic_t);
   ("", Union [("i_fop", Ptr); ("free_inode", Ptr)]); ("i_flctx", Ptr);
   ("i_data", struct_address_space); ("i_devices", struct_list_head);
   ("", Union [("i_pipe", Ptr); ("i_cdev", Ptr); ("i_link", Ptr); ("i_dir_seq", Int 4)]);
   ("i_generation", Int 4); ("i_fsnotify_mask", Int 4); ("i_fsnotify_marks", Ptr);
   ("i_crypt_info", Ptr); ("i_verity_info", Ptr); ("i_private", Ptr)].

Definition struct_fs_struct : ctype := Struct [
   ("users", Int 4); ("lock", struct_spinlock); ("seq", struct_seqcount_spinlock);
   ("umask", Int 4); ("in_exec", Int 4); ("root", struct_path); ("pwd", struct_path)].

Definition struct_rlimit : ctype := Struct [
   ("rlim_cur", Int 8); ("rlim_max", Int 8)].

Definition struct_linux_binprm : ctype := Struct [
   ("vma", Ptr); ("vma_pages", Int 8); ("mm", Ptr); ("p", Int 8); ("argmin", Int 8);
   ("have_execfd", Bits 4 1); ("execfd_creds", Bits 4 1); ("secureexec", Bits 4 1);
   ("point_of_no_return", Bits 4 1); ("comm_from_dentry", Bits 4 1); ("executable", Ptr);
   ("interpreter", Ptr); ("file", Ptr); ("cred", Ptr); ("unsafe", Int 4); ("per_clear", Int 4);
   ("argc", Int 4); ("envc", Int 4); ("filename", Ptr); ("interp", Ptr); ("fdpath", Ptr);
   ("interp_flags", Int 4); ("execfd", Int 4); ("loader", Int 8); ("exec", Int 8);
   ("rlim_stack", struct_rlimit); ("buf", Arr 256 (Int 1))].

Definition struct_wait_queue_head : ctype := Struct [
   ("lock", struct_spinlock); ("head", struct_list_head)].

Definition struct_socket_wq : ctype := Struct [
   ("wait", struct_wait_queue_head); ("fasync_list", Ptr); ("flags", Int 8);
   ("rcu", struct_callback_head); ("", Bits 8 64)].

Definition struct_socket : ctype := Struct [
   ("state", Int 4); ("type", Int 2); ("flags", Int 8); ("file", Ptr); ("sk", Ptr);
   ("ops", Ptr); ("", Bits 8 64); ("", Bits 8 64); ("", Bits 8 64); ("wq", struct_socket_wq)].

Definition struct_sockaddr : ctype := Struct [
   ("sa_family", Int 2); ("", Union [("sa_data_min", Arr 14 (Int 1));
   ("", Struct [("__empty_sa_data", Struct []); ("sa_data", Arr 0 (Int 1))])])].

Definition struct_in_addr : ctype := Struct [
   ("s_addr", Int 4)].

Definition struct_sockaddr_in : ctype := Struct [
   ("sin_family", Int 2); ("sin_port", Int 2); ("sin_addr", struct_in_addr);
   ("__pad", Arr 8 (Int 1))].

Definition struct_in6_addr : ctype := Struct [
   ("in6_u", Union [("u6_addr8", Arr 16 (Int 1)); ("u6_addr16", Arr 8 (Int 2));
   ("u6_addr32", Arr 4 (Int 4))])].

Definition struct_sockaddr_in6 : ctype := Struct [
   ("sin6_family", Int 2); ("sin6_port", Int 2); ("sin6_flowinfo", Int 4);
   ("sin6_addr", struct_in6_addr); ("sin6_scope_id", Int 4)].

Definition struct_thread_info : ctype := Struct [
   ("flags", Int 8); ("syscall_work", Int 8); ("status", Int 4); ("cpu", Int 4)].

Definition struct_refcount_struct : ctype := Struct [
   ("refs", typedef_atomic_t)].

Definition struct___call_single_node : ctype := Struct [
   ("llist", struct_llist_node); ("", Union [("u_flags", Int 4);
   ("a_flags", typedef_atomic_t)]); ("src", Int 2); ("dst", Int 2)].

Definition struct_load_weight : ctype := Struct [
   ("weight", Int 8); ("inv_weight", Int 4)].

Definition struct_sched_avg : ctype := Struct [
   ("last_update_time", Int 8); ("load_sum", Int 8); ("runnable_sum", Int 8);
   ("util_sum", Int 4); ("period_contrib", Int 4); ("load_avg", Int 8);
   ("runnable_avg", Int 8); ("util_avg", Int 8); ("util_est", Int 4)].

Definition struct_sched_entity : ctype := Struct [
   ("load", struct_load_weight); ("run_node", struct_rb_node); ("deadline", Int 8);
   ("min_vruntime", Int 8); ("group_node", struct_list_head); ("on_rq", Int 4);
   ("exec_start", Int 8); ("sum_exec_runtime", Int 8); ("prev_sum_exec_runtime", Int 8);
   ("vruntime", Int 8); ("vlag", Int 8); ("slice", Int 8); ("nr_migrations", Int 8);
   ("depth", Int 4); ("parent", Ptr); ("cfs_rq", Ptr); ("my_q", Ptr);
   ("runnable_weight", Int 8); ("", Bits 8 64); ("", Bits 8 64); ("avg", struct_sched_avg)].

Definition struct_sched_rt_entity : ctype := Struct [
   ("run_list", struct_list_head); ("timeout", Int 8); ("watchdog_stamp", Int 8);
   ("time_slice", Int 4); ("on_rq", Int 2); ("on_list", Int 2); ("back", Ptr)].

Definition struct_timerqueue_node : ctype := Struct [
   ("node", struct_rb_node); ("expires", Int 8)].

Definition struct_hrtimer : ctype := Struct [
   ("node", struct_timerqueue_node); ("_softexpires", Int 8); ("function", Ptr); ("base", Ptr);
   ("state", Int 1); ("is_rel", Int 1); ("is_soft", Int 1); ("is_hard", Int 1)].

Definition struct_sched_dl_entity : ctype := Struct [
   ("rb_node", struct_rb_node); ("dl_runtime", Int 8); ("dl_deadline", Int 8);
   ("dl_period", Int 8); ("dl_bw", Int 8); ("dl_density", Int 8); ("runtime", Int 8);
   ("deadline", Int 8); ("flags", Int 4); ("dl_throttled", Bits 4 1); ("dl_yielded", Bits 4 1);
   ("dl_non_contending", Bits 4 1); ("dl_overrun", Bits 4 1); ("dl_server", Bits 4 1);
   ("dl_timer", struct_hrtimer); ("inactive_timer", struct_hrtimer); ("rq", Ptr);
   ("server_has_tasks", Ptr); ("server_pick", Ptr); ("pi_se", Ptr)].

Definition struct_uclamp_se : ctype := Struct [
   ("value", Bits 4 11); ("bucket_id", Bits 4 3); ("active", Bits 4 1);
   ("user_defined", Bits 4 1)].

Definition struct_sched_statistics : ctype := Struct [
   ("wait_start", Int 8); ("wait_max", Int 8); ("wait_count", Int 8); ("wait_sum", Int 8);
   ("iowait_count", Int 8); ("iowait_sum", Int 8); ("sleep_start", Int 8);
   ("sleep_max", Int 8); ("sum_sleep_runtime", Int 8); ("block_start", Int 8);
   ("block_max", Int 8); ("sum_block_runtime", Int 8); ("exec_max", Int 8);
   ("slice_max", Int 8); ("nr_migrations_cold", Int 8); ("nr_failed_migrations_affine", Int 8);
   ("nr_failed_migrations_running", Int 8); ("nr_failed_migrations_hot", Int 8);
   ("nr_forced_migrations", Int 8); ("nr_wakeups", Int 8); ("nr_wakeups_sync", Int 8);
   ("nr_wakeups_migrate", Int 8); ("nr_wakeups_local", Int 8); ("nr_wakeups_remote", Int 8);
   ("nr_wakeups_affine", Int 8); ("nr_wakeups_affine_attempts", Int 8);
   ("nr_wakeups_passive", Int 8); ("nr_wakeups_idle", Int 8); ("core_forceidle_sum", Int 8);
   ("", Bits 8 64); ("", Bits 8 64); ("", Bits 8 64)].

Definition struct_cpumask : ctype := Struct [
   ("bits", Arr 128 (Int 8))].

Definition union_rcu_special : ctype := Union [
   ("b", Struct [("blocked", Int 1); ("need_qs", Int 1); ("exp_hint", Int 1);
   ("need_mb", Int 1)]); ("s", Int 4)].

Definition struct_sched_info : ctype := Struct [
   ("pcount", Int 8); ("run_delay", Int 8); ("last_arrival", Int 8); ("last_queued", Int 8)].

Definition struct_plist_node : ctype := Struct [
   ("prio", Int 4); ("prio_list", struct_list_head); ("node_list", struct_list_head)].

Definition struct_restart_block : ctype := Struct [
   ("arch_data", Int 8); ("fn", Ptr); ("", Union [("futex", Struct [("uaddr", Ptr);
   ("val", Int 4); ("flags", Int 4); ("bitset", Int 4); ("time", Int 8); ("uaddr2", Ptr)]);
   ("nanosleep", Struct [("clockid", Int 4); ("type", Int 4); ("", Union [("rmtp", Ptr);
   ("compat_rmtp", Ptr)]); ("expires", Int 8)]); ("poll", Struct [("ufds", Ptr);
   ("nfds", Int 4); ("has_timeout", Int 4); ("tv_sec", Int 8); ("tv_nsec", Int 8)])])].

Definition struct_prev_cputime : ctype := Struct [
   ("utime", Int 8); ("stime", Int 8); ("lock", struct_raw_spinlock)].

Definition struct_vtime : ctype := Struct [
   ("seqcount", struct_seqcount); ("starttime", Int 8); ("state", Int 4); ("cpu", Int 4);
   ("utime", Int 8); ("stime", Int 8); ("gtime", Int 8)].

Definition struct_timerqueue_head : ctype := Struct [
   ("rb_root", struct_rb_root_cached)].

Definition struct_posix_cputimer_base : ctype := Struct [
   ("nextevt", Int 8); ("tqhead", struct_timerqueue_head)].

Definition struct_posix_cputimers : ctype := Struct [
   ("bases", Arr 3 (struct_posix_cputimer_base)); ("timers_active", Int 4);
   ("expiry_active", Int 4)].

Definition struct_posix_cputimers_work : ctype := Struct [
   ("work", struct_callback_head); ("mutex", struct_mutex); ("scheduled", Int 4)].

Definition struct_sysv_sem : ctype := Struct [
   ("undo_list", Ptr)].

Definition struct_sysv_shm : ctype := Struct [
   ("shm_clist", struct_list_head)].

Definition typedef_sigset_t : ctype := Struct [
   ("sig", Arr 1 (Int 8))].

Definition struct_sigpending : ctype := Struct [
   ("list", struct_list_head); ("signal", typedef_sigset_t)].

Definition struct_seccomp : ctype := Struct [
   ("mode", Int 4); ("filter_count", typedef_atomic_t); ("filter", Ptr)].

Definition struct_syscall_user_dispatch : ctype := Struct [
   ("selector", Ptr); ("offset", Int 8); ("len", Int 8); ("on_dispatch", Int 1)].

Definition struct_wake_q_node : ctype := Struct [
   ("next", Ptr)].

Definition struct_task_io_accounting : ctype := Struct [
   ("rchar", Int 8); ("wchar", Int 8); ("syscr", Int 8); ("syscw", Int 8);
   ("read_bytes", Int 8); ("write_bytes", Int 8); ("cancelled_write_bytes", Int 8)].

Definition typedef_nodemask_t : ctype := Struct [
   ("bits", Arr 16 (Int 8))].

Definition struct_arch_tlbflush_unmap_batch : ctype := Struct [
   ("cpumask", struct_cpumask)].

Definition struct_tlbflush_unmap_batch : ctype := Struct [
   ("arch", struct_arch_tlbflush_unmap_batch); ("flush_required", Int 1); ("writable", Int 1)].

Definition struct_page_frag : ctype := Struct [
   ("page", Ptr); ("offset", Int 4); ("size", Int 4)].

Definition struct_latency_record : ctype := Struct [
   ("backtrace", Arr 12 (Int 8)); ("count", Int 4); ("time", Int 8); ("max", Int 8)].

Definition struct_kmap_ctrl : ctype := Struct [].

Definition struct_timer_list : ctype := Struct [
   ("entry", struct_hlist_node); ("expires", Int 8); ("function", Ptr); ("flags", Int 4)].

Definition struct_llist_head : ctype := Struct [
   ("first", Ptr)].

Definition struct_da_monitor : ctype := Struct [
   ("monitoring", Int 1); ("curr_state", Int 4)].

Definition union_rv_task_monitor : ctype := Union [
   ("da_mon", struct_da_monitor)].

Definition struct_desc_struct : ctype := Struct [
   ("limit0", Int 2); ("base0", Int 2); ("base1", Bits 2 8); ("type", Bits 2 4);
   ("s", Bits 2 1); ("dpl", Bits 2 2); ("p", Bits 2 1); ("limit1", Bits 2 4);
   ("avl", Bits 2 1); ("l", Bits 2 1); ("d", Bits 2 1); ("g", Bits 2 1); ("base2", Bits 2 8)].

Definition struct_thread_shstk : ctype := Struct [
   ("base", Int 8); ("size", Int 8)].

Definition struct_fpu_state_perm : ctype := Struct [
   ("__state_perm", Int 8); ("__state_size", Int 4); ("__user_state_size", Int 4)].

Definition struct_fregs_state : ctype := Struct [
   ("cwd", Int 4); ("swd", Int 4); ("twd", Int 4); ("fip", Int 4); ("fcs", Int 4);
   ("foo", Int 4); ("fos", Int 4); ("st_space", Arr 20 (Int 4)); ("status", Int 4)].

Definition struct_fxregs_state : ctype := Struct [
   ("cwd", Int 2); ("swd", Int 2); ("twd", Int 2); ("fop", Int 2);
   ("", Union [("", Struct [("rip", Int 8); ("rdp", Int 8)]); ("", Struct [("fip", Int 4);
   ("fcs", Int 4); ("foo", Int 4); ("fos", Int 4)])]); ("mxcsr", Int 4); ("mxcsr_mask", Int 4);
   ("st_space", Arr 32 (Int 4)); ("xmm_space", Arr 64 (Int 4)); ("padding", Arr 12 (Int 4));
   ("", Union [("padding1", Arr 12 (Int 4)); ("sw_reserved", Arr 12 (Int 4))])].

Definition struct_swregs_state : ctype := Struct [
   ("cwd", Int 4); ("swd", Int 4); ("twd", Int 4); ("fip", Int 4); ("fcs", Int 4);
   ("foo", Int 4); ("fos", Int 4); ("st_space", Arr 20 (Int 4)); ("ftop", Int 1);
   ("changed", Int 1); ("lookahead", Int 1); ("no_update", Int 1); ("rm", Int 1);
   ("alimit", Int 1); ("info", Ptr); ("entry_eip", Int 4)].

Definition struct_xstate_header : ctype := Struct [
   ("xfeatures", Int 8); ("xcomp_bv", Int 8); ("reserved", Arr 6 (Int 8))].

Definition struct_xregs_state : ctype := Struct [
   ("i387", struct_fxregs_state); ("header", struct_xstate_header);
   ("extended_state_area", Arr 0 (Int 1))].

Definition union_fpregs_state : ctype := Union [
   ("fsave", struct_fregs_state); ("fxsave", struct_fxregs_state);
   ("soft", struct_swregs_state); ("xsave", struct_xregs_state);
   ("__padding", Arr 4096 (Int 1))].

Definition struct_fpstate : ctype := Struct [
   ("size", Int 4); ("user_size", Int 4); ("xfeatures", Int 8); ("user_xfeatures", Int 8);
   ("xfd", Int 8); ("is_valloc", Bits 4 1); ("is_guest", Bits 4 1);
   ("is_confidential", Bits 4 1); ("in_use", Bits 4 1); ("", Bits 8 64); ("", Bits 8 64);
   ("", Bits 8 64); ("regs", union_fpregs_state)].

Definition struct_fpu : ctype := Struct [
   ("last_cpu", Int 4); ("avx512_timestamp", Int 8); ("fpstate", Ptr); ("__task_fpstate", Ptr);
   ("perm", struct_fpu_state_perm); ("guest_perm", struct_fpu_state_perm);
   ("__fpstate", struct_fpstate)].

Definition struct_thread_struct : ctype := Struct [
   ("tls_array", Arr 3 (struct_desc_struct)); ("sp", Int 8); ("es", Int 2); ("ds", Int 2);
   ("fsindex", Int 2); ("gsindex", Int 2); ("fsbase", Int 8); ("gsbase", Int 8);
   ("ptrace_bps", Arr 4 (Ptr)); ("virtual_dr6", Int 8); ("ptrace_dr7", Int 8); ("cr2", Int 8);
   ("trap_nr", Int 8); ("error_code", Int 8); ("io_bitmap", Ptr); ("iopl_emul", Int 8);
   ("iopl_warn", Bits 4 1); ("pkru", Int 4); ("features", Int 8); ("features_locked", Int 8);
   ("shstk", struct_thread_shstk); ("", Bits 8 64); ("fpu", struct_fpu)].

(** The members before and from [fs] on. *)
Definition task_struct_head : list (string * ctype) := [
   ("thread_info", struct_thread_info); ("__state", Int 4); ("saved_state", Int 4);
   ("stack", Ptr); ("usage", struct_refcount_struct); ("flags", Int 4); ("ptrace", Int 4);
   ("on_cpu", Int 4); ("wake_entry", struct___call_single_node); ("wakee_flips", Int 4);
   ("wakee_flip_decay_ts", Int 8); ("last_wakee", Ptr); ("recent_used_cpu", Int 4);
   ("wake_cpu", Int 4); ("on_rq", Int 4); ("prio", Int 4); ("static_prio", Int 4);
   ("normal_prio", Int 4); ("rt_priority", Int 4); ("se", struct_sched_entity);
   ("rt", struct_sched_rt_entity); ("dl", struct_sched_dl_entity); ("dl_server", Ptr);
   ("sched_class", Ptr); ("core_node", struct_rb_node); ("core_cookie", Int 8);
   ("core_occupation", Int 4); ("sched_task_group", Ptr);
   ("uclamp_req", Arr 2 (struct_uclamp_se)); ("uclamp", Arr 2 (struct_uclamp_se));
   ("", Bits 8 64); ("stats", struct_sched_statistics);
   ("preempt_notifiers", struct_hlist_head); ("btrace_seq", Int 4); ("policy", Int 4);
   ("nr_cpus_allowed", Int 4); ("cpus_ptr", Ptr); ("user_cpus_ptr", Ptr);
   ("cpus_mask", struct_cpumask); ("migration_pending", Ptr); ("migration_disabled", Int 2);
   ("migration_flags", Int 2); ("rcu_read_lock_nesting", Int 4);
   ("rcu_read_unlock_special", union_rcu_special); ("rcu_node_entry", struct_list_head);
   ("rcu_blocked_node", Ptr); ("rcu_tasks_nvcsw", Int 8); ("rcu_tasks_holdout", Int 1);
   ("rcu_tasks_idx", Int 1); ("rcu_tasks_idle_cpu", Int 4);
   ("rcu_tasks_holdout_list", struct_list_head); ("rcu_tasks_exit_cpu", Int 4);
   ("rcu_tasks_exit_list", struct_list_head); ("trc_reader_nesting", Int 4);
   ("trc_ipi_to_cpu", Int 4); ("trc_reader_special", union_rcu_special);
   ("trc_holdout_list", struct_list_head); ("trc_blkd_node", struct_list_head);
   ("trc_blkd_cpu", Int 4); ("sched_info", struct_sched_info); ("tasks", struct_list_head);
   ("pushable_tasks", struct_plist_node); ("pushable_dl_tasks", struct_rb_node); ("mm", Ptr);
   ("active_mm", Ptr); ("faults_disabled_mapping", Ptr); ("exit_state", Int 4);
   ("exit_code", Int 4); ("exit_signal", Int 4); ("pdeath_signal", Int 4); ("jobctl", Int 8);
   ("personality", Int 4); ("sched_reset_on_fork", Bits 4 1);
   ("sched_contributes_to_load", Bits 4 1); ("sched_migrated", Bits 4 1);
   ("sched_task_hot", Bits 4 1); ("", Bits 8 28); ("sched_remote_wakeup", Bits 4 1);
   ("sched_rt_mutex", Bits 4 1); ("in_execve", Bits 4 1); ("in_iowait", Bits 4 1);
   ("restore_sigmask", Bits 4 1); ("in_user_fault", Bits 4 1); ("in_lru_fault", Bits 4 1);
   ("no_cgroup_migration", Bits 4 1); ("frozen", Bits 4 1); ("use_memdelay", Bits 4 1);
   ("in_memstall", Bits 4 1); ("in_eventfd", Bits 4 1); ("pasid_activated", Bits 4 1);
   ("reported_split_lock", Bits 4 1); ("in_thrashing", Bits 4 1); ("atomic_flags", Int 8);
   ("restart_block", struct_restart_block); ("pid", Int 4); ("tgid", Int 4);
   ("stack_canary", Int 8); ("real_parent", Ptr); ("parent", Ptr);
   ("children", struct_list_head); ("sibling", struct_list_head); ("group_leader", Ptr);
   ("ptraced", struct_list_head); ("ptrace_entry", struct_list_head); ("thread_pid", Ptr);
   ("pid_links", Arr 4 (struct_hlist_node)); ("thread_node", struct_list_head);
   ("vfork_done", Ptr); ("set_child_tid", Ptr); ("clear_child_tid", Ptr);
   ("worker_private", Ptr); ("utime", Int 8); ("stime", Int 8); ("gtime", Int 8);
   ("prev_cputime", struct_prev_cputime); ("vtime", struct_vtime);
   ("tick_dep_mask", typedef_atomic_t); ("nvcsw", Int 8); ("nivcsw", Int 8);
   ("start_time", Int 8); ("start_boottime", Int 8); ("min_flt", Int 8); ("maj_flt", Int 8);
   ("posix_cputimers", struct_posix_cputimers);
   ("posix_cputimers_work", struct_posix_cputimers_work); ("ptracer_cred", Ptr);
   ("real_cred", Ptr); ("cred", Ptr); ("cached_requested_key", Ptr); ("comm", Arr 16 (Int 1));
   ("nameidata", Ptr); ("sysvsem", struct_sysv_sem); ("sysvshm", struct_sysv_shm);
   ("last_switch_count", Int 8); ("last_switch_time", Int 8)].

Definition task_struct_tail : list (string * ctype) := [
   ("fs", Ptr); ("files", Ptr); ("io_uring", Ptr); ("nsproxy", Ptr); ("signal", Ptr);
   ("sighand", Ptr); ("blocked", typedef_sigset_t); ("real_blocked", typedef_sigset_t);
   ("saved_sigmask", typedef_sigset_t); ("pending", struct_sigpending); ("sas_ss_sp", Int 8);
   ("sas_ss_size", Int 8); ("sas_ss_flags", Int 4); ("task_works", Ptr);
   ("audit_context", Ptr); ("loginuid", typedef_kuid_t); ("sessionid", Int 4);
   ("seccomp", struct_seccomp); ("syscall_dispatch", struct_syscall_user_dispatch);
   ("parent_exec_id", Int 8); ("self_exec_id", Int 8); ("alloc_lock", struct_spinlock);
   ("pi_lock", struct_raw_spinlock); ("wake_q", struct_wake_q_node);
   ("pi_waiters", struct_rb_root_cached); ("pi_top_task", Ptr); ("pi_blocked_on", Ptr);
   ("in_ubsan", Int 4); ("journal_info", Ptr); ("bio_list", Ptr); ("plug", Ptr);
   ("reclaim_state", Ptr); ("io_context", Ptr); ("capture_control", Ptr);
   ("ptrace_message", Int 8); ("last_siginfo", Ptr); ("ioac", struct_task_io_accounting);
   ("psi_flags", Int 4); ("acct_rss_mem1", Int 8); ("acct_vm_mem1", Int 8);
   ("acct_timexpd", Int 8); ("mems_allowed", typedef_nodemask_t);
   ("mems_allowed_seq", struct_seqcount_spinlock); ("cpuset_mem_spread_rotor", Int 4);
   ("cpuset_slab_spread_rotor", Int 4); ("cgroups", Ptr); ("cg_list", struct_list_head);
   ("closid", Int 4); ("rmid", Int 4); ("robust_list", Ptr); ("compat_robust_list", Ptr);
   ("pi_state_list", struct_list_head); ("pi_state_cache", Ptr);
   ("futex_exit_mutex", struct_mutex); ("futex_state", Int 4); ("perf_event_ctxp", Ptr);
   ("perf_event_mutex", struct_mutex); ("perf_event_list", struct_list_head);
   ("mempolicy", Ptr); ("il_prev", Int 2); ("pref_node_fork", Int 2); ("numa_scan_seq", Int 4);
   ("numa_scan_period", Int 4); ("numa_scan_period_max", Int 4); ("numa_preferred_nid", Int 4);
   ("numa_migrate_retry", Int 8); ("node_stamp", Int 8); ("last_task_numa_placement", Int 8);
   ("last_sum_exec_runtime", Int 8); ("numa_work", struct_callback_head); ("numa_group", Ptr);
   ("numa_faults", Ptr); ("total_numa_faults", Int 8); ("numa_faults_locality", Arr 3 (Int 8));
   ("numa_pages_migrated", Int 8); ("rseq", Ptr); ("rseq_len", Int 4); ("rseq_sig", Int 4);
   ("rseq_event_mask", Int 8); ("mm_cid", Int 4); ("last_mm_cid", Int 4);
   ("migrate_from_cpu", Int 4); ("mm_cid_active", Int 4); ("cid_work", struct_callback_head);
   ("tlb_ubc", struct_tlbflush_unmap_batch); ("splice_pipe", Ptr);
   ("task_frag", struct_page_frag); ("delays", Ptr); ("nr_dirtied", Int 4);
   ("nr_dirtied_pause", Int 4); ("dirty_paused_when", Int 8); ("latency_record_count", Int 4);
   ("latency_record", Arr 32 (struct_latency_record)); ("timer_slack_ns", Int 8);
   ("default_timer_slack_ns", Int 8); ("curr_ret_stack", Int 4); ("curr_ret_depth", Int 4);
   ("ret_stack", Ptr); ("ftrace_timestamp", Int 8); ("trace_overrun", typedef_atomic_t);
   ("tracing_graph_pause", typedef_atomic_t); ("trace_recursion", Int 8);
   ("memcg_in_oom", Ptr); ("memcg_oom_gfp_mask", Int 4); ("memcg_oom_order", Int 4);
   ("memcg_nr_pages_over_high", Int 4); ("active_memcg", Ptr); ("objcg", Ptr);
   ("throttle_disk", Ptr); ("utask", Ptr); ("sequential_io", Int 4);
   ("sequential_io_avg", Int 4); ("kmap_ctrl", struct_kmap_ctrl);
   ("rcu", struct_callback_head); ("rcu_users", struct_refcount_struct);
   ("pagefault_disabled", Int 4); ("oom_reaper_list", Ptr);
   ("oom_reaper_timer", struct_timer_list); ("stack_vm_area", Ptr);
   ("stack_refcount", struct_refcount_struct); ("patch_state", Int 4); ("security", Ptr);
   ("bpf_storage", Ptr); ("bpf_ctx", Ptr); ("mce_vaddr", Ptr); ("mce_kflags", Int 8);
   ("mce_addr", Int 8); ("mce_ripv", Bits 8 1); ("mce_whole_page", Bits 8 1);
   ("__mce_reserved", Bits 8 62); ("mce_kill_me", struct_callback_head); ("mce_count", Int 4);
   ("kretprobe_instances", struct_llist_head); ("rethooks", struct_llist_head);
   ("l1d_flush_kill", struct_callback_head); ("rv", Arr 1 (union_rv_task_monitor));
   ("user_event_mm", Ptr); ("thread", struct_thread_struct)].

Definition struct_task_struct : ctype := Struct (task_struct_head ++ task_struct_tail).

(** ** The layout of this kernel *)

Definition declared_layout : KernelLayout := {|
  off_dentry_d_parent := offsetof struct_dentry ["d_parent"];
  off_dentry_d_name_len := offsetof struct_dentry ["d_name"; "len"];
  off_dentry_d_name_name := offsetof struct_dentry ["d_name"; "name"];
  off_dentry_d_inode := offsetof struct_dentry ["d_inode"];
  off_mount_mnt := offsetof struct_mount ["mnt"];
  off_mount_mnt_parent := offsetof struct_mount ["mnt_parent"];
  off_mount_mnt_mountpoint := offsetof struct_mount ["mnt_mountpoint"];
  off_vfsmount_mnt_root := offsetof struct_vfsmount ["mnt_root"];
  off_file_f_path_dentry := offsetof struct_file ["f_path"; "dentry"];
  off_file_f_path_mnt := offsetof struct_file ["f_path"; "mnt"];
  off_file_f_inode := offsetof struct_file ["f_inode"];
  off_inode_i_ino := offsetof struct_inode ["i_ino"];
  off_task_struct_fs := offsetof struct_task_struct ["fs"];
  off_fs_struct_root_dentry := offsetof struct_fs_struct ["root"; "dentry"];
  off_fs_struct_root_mnt := offsetof struct_fs_struct ["root"; "mnt"];
  off_linux_binprm_file := offsetof struct_linux_binprm ["file"];
  off_socket_type := offsetof struct_socket ["type"];
  off_sockaddr_sa_family := offsetof struct_sockaddr ["sa_family"];
  off_sockaddr_in_sin_port := offsetof struct_sockaddr_in ["sin_port"];
  off_sockaddr_in_sin_addr := offsetof struct_sockaddr_in ["sin_addr"; "s_addr"];
  off_sockaddr_in6_sin6_port := offsetof struct_sockaddr_in6 ["sin6_port"];
|}.

(** The same record with the offsets evaluated. *)
Definition vmlinux_layout : KernelLayout := Eval vm_compute in declared_layout.
#[export] Existing Instance vmlinux_layout.
