(* ===== verification/Types.v ===== *)
(** * The data of main.bpf.c

    Constants, structs and map declarations of bpfjailer-bpf/src/main.bpf.c.
    Each struct is a record with the source's members (explicit padding members
    are listed in the representation only: the program never reads them and
    every initialiser leaves them zero) and has a [crepr], so that its byte
    image is the C one. *)

From S2P Require Import Prelude CLayout BpfMap.

(** ** Constants *)

Definition PROTO_TCP : Z := 6.
Definition PROTO_UDP : Z := 17.
Definition AF_INET : Z := 2.
Definition AF_INET6 : Z := 10.

(** [enum sock_type] of vmlinux.h, as far as the program names it. *)
Definition SOCK_STREAM : Z := 1.
Definition SOCK_DGRAM : Z := 2.

Definition PATH_STATE_ROOT : Z := 0.
Definition PATH_STATE_ACCEPT : Z := 0xFFFFFFFFFFFFFFFE.
Definition PATH_STATE_REJECT : Z := 0xFFFFFFFFFFFFFFFF.

Definition MAX_CGROUP_DEPTH : nat := 8.
Definition MAX_COMPONENTS : nat := 16.
Definition MAX_COMPONENT_HASH_LEN : nat := 64.
Definition FNV1A64_OFFSET_BASIS : Z := 0xcbf29ce484222325.
Definition FNV1A64_PRIME : Z := 0x00000100000001b3.
Definition MAX_PATH_WALK_STEPS : nat := 32.

Definition AUDIT_HOOK_FILE_OPEN : Z := 1.
Definition AUDIT_HOOK_SOCKET_BIND : Z := 2.
Definition AUDIT_HOOK_SOCKET_CONNECT : Z := 3.
Definition AUDIT_HOOK_BPRM_CHECK : Z := 4.
Definition AUDIT_HOOK_PATH_RENAME : Z := 5.
Definition AUDIT_HOOK_DNS_QUERY : Z := 6.
Definition AUDIT_DECISION_DENY : Z := 0.
Definition AUDIT_DECISION_ALLOW : Z := 1.

(** ** Structs *)

Record process_info := ProcessInfo {
  pi_pod_id : Z;
  pi_role_id : Z;
  pi_stack_depth : Z;
  pi_flags : Z;
}.

Record net_rule_key := NetRuleKey {
  nk_role_id : Z;
  nk_port : Z;
  nk_protocol : Z;
  nk_direction : Z;
}.

Record path_state_key := PathStateKey {
  sk_role_id : Z;
  sk_state : Z;
  sk_component_hash : Z;
}.

Record path_state_value := PathStateValue {
  sv_next_state : Z;
  sv_is_terminal : Z;
  sv_decision : Z;
  sv_wildcard : Z;
}.

Record path_cache_key := PathCacheKey {
  ck_role_id : Z;
  ck_dentry : Z;
  ck_mnt : Z;
  ck_inode : Z;
  ck_root_dentry : Z;
  ck_root_mnt : Z;
}.

Record path_cache_value := PathCacheValue {
  cv_decision : Z;
  cv_generation : Z;
}.

Record exec_enrollment_value := ExecEnrollmentValue {
  ev_pod_id : Z;
  ev_role_id : Z;
}.

Record ip_rule_key := IpRuleKey {
  ik_role_id : Z;
  ik_ip_addr : Z;
  ik_prefix_len : Z;
  ik_direction : Z;
}.

Record proxy_config := ProxyConfig {
  px_proxy_ip : Z;
  px_proxy_port : Z;
  px_require_proxy : Z;
}.

Record domain_rule_key := DomainRuleKey {
  dk_role_id : Z;
  dk_domain_hash : Z;
}.

Record dns_cache_key := DnsCacheKey {
  dc_role_id : Z;
  dc_ip_addr : Z;
}.

Record dns_cache_value := DnsCacheValue {
  dv_domain_hash : Z;
  dv_timestamp : Z;
}.

Record audit_event := AuditEvent {
  ae_timestamp : Z;
  ae_pid : Z;
  ae_role_id : Z;
  ae_decision : Z;
  ae_hook_type : Z;
  ae_context : Z;
  ae_pod_id : Z;
}.

(** The per-CPU walk buffer; [pc_hashes] is the 16-element array. *)
Record path_components := PathComponents {
  pc_hashes : list Z;
  pc_count : Z;
  pc_truncated : Z;
}.

#[export] Instance process_info_eq_dec : EqDecision process_info.
Proof. solve_decision. Defined.
#[export] Instance path_state_key_eq_dec : EqDecision path_state_key.
Proof. solve_decision. Defined.
#[export] Instance path_state_value_eq_dec : EqDecision path_state_value.
Proof. solve_decision. Defined.
#[export] Instance audit_event_eq_dec : EqDecision audit_event.
Proof. solve_decision. Defined.

(** ** Representations *)

Definition process_info_repr : crepr process_info :=
  CRepr [8; 4; 1; 1]%nat
    (fun p => [pi_pod_id p; pi_role_id p; pi_stack_depth p; pi_flags p])
    (fun l => match l with
              | [a; b; c; d] => ProcessInfo a b c d
              | _ => ProcessInfo 0 0 0 0
              end).

Definition net_rule_key_repr : crepr net_rule_key :=
  CRepr [4; 2; 1; 1]%nat
    (fun k => [nk_role_id k; nk_port k; nk_protocol k; nk_direction k])
    (fun l => match l with
              | [a; b; c; d] => NetRuleKey a b c d
              | _ => NetRuleKey 0 0 0 0
              end).

Definition path_state_key_repr : crepr path_state_key :=
  CRepr [4; 8; 8]%nat
    (fun k => [sk_role_id k; sk_state k; sk_component_hash k])
    (fun l => match l with
              | [a; b; c] => PathStateKey a b c
              | _ => PathStateKey 0 0 0
              end).

(** The last member is [_pad]. *)
Definition path_state_value_repr : crepr path_state_value :=
  CRepr [8; 1; 1; 1; 1]%nat
    (fun v => [sv_next_state v; sv_is_terminal v; sv_decision v; sv_wildcard v; 0])
    (fun l => match l with
              | [a; b; c; d; _] => PathStateValue a b c d
              | _ => PathStateValue 0 0 0 0
              end).

Definition path_cache_key_repr : crepr path_cache_key :=
  CRepr [4; 8; 8; 8; 8; 8]%nat
    (fun k => [ck_role_id k; ck_dentry k; ck_mnt k; ck_inode k; ck_root_dentry k; ck_root_mnt k])
    (fun l => match l with
              | [a; b; c; d; e; f] => PathCacheKey a b c d e f
              | _ => PathCacheKey 0 0 0 0 0 0
              end).

(** [u8 decision; u8 _pad[3]; u32 generation;] *)
Definition path_cache_value_repr : crepr path_cache_value :=
  CRepr [1; 1; 1; 1; 4]%nat
    (fun v => [cv_decision v; 0; 0; 0; cv_generation v])
    (fun l => match l with
              | [a; _; _; _; e] => PathCacheValue a e
              | _ => PathCacheValue 0 0
              end).

(** The last member is [_pad]. *)
Definition exec_enrollment_value_repr : crepr exec_enrollment_value :=
  CRepr [8; 4; 4]%nat
    (fun v => [ev_pod_id v; ev_role_id v; 0])
    (fun l => match l with
              | [a; b; _] => ExecEnrollmentValue a b
              | _ => ExecEnrollmentValue 0 0
              end).

(** The last two members are [_pad[2]]. *)
Definition ip_rule_key_repr : crepr ip_rule_key :=
  CRepr [4; 4; 1; 1; 1; 1]%nat
    (fun k => [ik_role_id k; ik_ip_addr k; ik_prefix_len k; ik_direction k; 0; 0])
    (fun l => match l with
              | [a; b; c; d; _; _] => IpRuleKey a b c d
              | _ => IpRuleKey 0 0 0 0
              end).

(** The last member is [_pad]. *)
Definition proxy_config_repr : crepr proxy_config :=
  CRepr [4; 2; 1; 1]%nat
    (fun c => [px_proxy_ip c; px_proxy_port c; px_require_proxy c; 0])
    (fun l => match l with
              | [a; b; c; _] => ProxyConfig a b c
              | _ => ProxyConfig 0 0 0
              end).

Definition domain_rule_key_repr : crepr domain_rule_key :=
  CRepr [4; 8]%nat
    (fun k => [dk_role_id k; dk_domain_hash k])
    (fun l => match l with
              | [a; b] => DomainRuleKey a b
              | _ => DomainRuleKey 0 0
              end).

Definition dns_cache_key_repr : crepr dns_cache_key :=
  CRepr [4; 4]%nat
    (fun k => [dc_role_id k; dc_ip_addr k])
    (fun l => match l with
              | [a; b] => DnsCacheKey a b
              | _ => DnsCacheKey 0 0
              end).

Definition dns_cache_value_repr : crepr dns_cache_value :=
  CRepr [8; 8]%nat
    (fun v => [dv_domain_hash v; dv_timestamp v])
    (fun l => match l with
              | [a; b] => DnsCacheValue a b
              | _ => DnsCacheValue 0 0
              end).

Definition audit_event_repr : crepr audit_event :=
  CRepr [8; 4; 4; 4; 4; 8; 8]%nat
    (fun e => [ae_timestamp e; ae_pid e; ae_role_id e; ae_decision e; ae_hook_type e;
               ae_context e; ae_pod_id e])
    (fun l => match l with
              | [a; b; c; d; e; f; g] => AuditEvent a b c d e f g
              | _ => AuditEvent 0 0 0 0 0 0 0
              end).

(** [u64 hashes[16]; u8 count; u8 truncated;] *)
Definition path_components_widths : list nat := (replicate MAX_COMPONENTS 8 ++ [1; 1])%nat.

#[export] Instance process_info_repr_ok : CReprOk process_info_repr.
Proof. solve_crepr. Qed.
#[export] Instance net_rule_key_repr_ok : CReprOk net_rule_key_repr.
Proof. solve_crepr. Qed.
#[export] Instance path_state_key_repr_ok : CReprOk path_state_key_repr.
Proof. solve_crepr. Qed.
#[export] Instance path_state_value_repr_ok : CReprOk path_state_value_repr.
Proof. solve_crepr. Qed.
#[export] Instance path_cache_key_repr_ok : CReprOk path_cache_key_repr.
Proof. solve_crepr. Qed.
#[export] Instance path_cache_value_repr_ok : CReprOk path_cache_value_repr.
Proof. solve_crepr. Qed.
#[export] Instance exec_enrollment_value_repr_ok : CReprOk exec_enrollment_value_repr.
Proof. solve_crepr. Qed.
#[export] Instance ip_rule_key_repr_ok : CReprOk ip_rule_key_repr.
Proof. solve_crepr. Qed.
#[export] Instance proxy_config_repr_ok : CReprOk proxy_config_repr.
Proof. solve_crepr. Qed.
#[export] Instance domain_rule_key_repr_ok : CReprOk domain_rule_key_repr.
Proof. solve_crepr. Qed.
#[export] Instance dns_cache_key_repr_ok : CReprOk dns_cache_key_repr.
Proof. solve_crepr. Qed.
#[export] Instance dns_cache_value_repr_ok : CReprOk dns_cache_value_repr.
Proof. solve_crepr. Qed.
#[export] Instance audit_event_repr_ok : CReprOk audit_event_repr.
Proof. solve_crepr. Qed.

(** ** Map declarations *)

Definition role_flags : map_decl Z Z :=
  MapDecl BPF_MAP_TYPE_HASH 1024 u32_repr u8_repr.
Definition network_rules : map_decl net_rule_key Z :=
  MapDecl BPF_MAP_TYPE_HASH 4096 net_rule_key_repr u8_repr.
Definition pending_enrollments : map_decl Z process_info :=
  MapDecl BPF_MAP_TYPE_HASH 4096 u32_repr process_info_repr.
Definition path_states : map_decl path_state_key path_state_value :=
  MapDecl BPF_MAP_TYPE_HASH 16384 path_state_key_repr path_state_value_repr.
Definition exec_states : map_decl path_state_key path_state_value :=
  MapDecl BPF_MAP_TYPE_HASH 4096 path_state_key_repr path_state_value_repr.
Definition path_decision_cache : map_decl path_cache_key path_cache_value :=
  MapDecl BPF_MAP_TYPE_LRU_HASH 4096 path_cache_key_repr path_cache_value_repr.
Definition cache_generation : map_decl Z Z :=
  MapDecl BPF_MAP_TYPE_ARRAY 1 u32_repr u32_repr.
Definition exec_enrollment : map_decl Z exec_enrollment_value :=
  MapDecl BPF_MAP_TYPE_HASH 1024 u64_repr exec_enrollment_value_repr.
Definition cgroup_enrollment : map_decl Z exec_enrollment_value :=
  MapDecl BPF_MAP_TYPE_HASH 1024 u64_repr exec_enrollment_value_repr.
Definition ip_rules : map_decl ip_rule_key Z :=
  MapDecl BPF_MAP_TYPE_HASH 4096 ip_rule_key_repr u8_repr.
Definition proxy_config_map : map_decl Z proxy_config :=
  MapDecl BPF_MAP_TYPE_HASH 256 u32_repr proxy_config_repr.
Definition domain_rules : map_decl domain_rule_key Z :=
  MapDecl BPF_MAP_TYPE_HASH 4096 domain_rule_key_repr u8_repr.
Definition dns_cache : map_decl dns_cache_key dns_cache_value :=
  MapDecl BPF_MAP_TYPE_HASH 8192 dns_cache_key_repr dns_cache_value_repr.
