(* ===== verification/KernelAbi.v ===== *)
(** * The BPF interface in vmlinux.h

    The rest of bpfjailer-bpf/src/vmlinux.h that main.bpf.c is written against:
    the enumerations its constants, map types, flags and helper calls come from,
    the argument structures its hooks are handed ([struct msghdr] for
    [socket_sendmsg], [union bpf_attr] for [bpf]) and the cgroup structures the
    cgroup-id helpers walk on the program's behalf.  The lemmas tie the
    constants of Types.v and the map types of BpfMap.v to the header. *)

From S2P Require Import Prelude CLayout BpfMap Kernel KernelTypes Types.

(** ** Enumerations *)

Definition enum_sock_type : list (string * Z) := [
   ("SOCK_STREAM", 1); ("SOCK_DGRAM", 2); ("SOCK_RAW", 3); ("SOCK_RDM", 4);
   ("SOCK_SEQPACKET", 5); ("SOCK_DCCP", 6); ("SOCK_PACKET", 10)].

Definition enum_bpf_map_type : list (string * Z) := [
   ("BPF_MAP_TYPE_UNSPEC", 0); ("BPF_MAP_TYPE_HASH", 1); ("BPF_MAP_TYPE_ARRAY", 2);
   ("BPF_MAP_TYPE_PROG_ARRAY", 3); ("BPF_MAP_TYPE_PERF_EVENT_ARRAY", 4);
   ("BPF_MAP_TYPE_PERCPU_HASH", 5); ("BPF_MAP_TYPE_PERCPU_ARRAY", 6);
   ("BPF_MAP_TYPE_STACK_TRACE", 7); ("BPF_MAP_TYPE_CGROUP_ARRAY", 8);
   ("BPF_MAP_TYPE_LRU_HASH", 9); ("BPF_MAP_TYPE_LRU_PERCPU_HASH", 10);
   ("BPF_MAP_TYPE_LPM_TRIE", 11); ("BPF_MAP_TYPE_ARRAY_OF_MAPS", 12);
   ("BPF_MAP_TYPE_HASH_OF_MAPS", 13); ("BPF_MAP_TYPE_DEVMAP", 14);
   ("BPF_MAP_TYPE_SOCKMAP", 15); ("BPF_MAP_TYPE_CPUMAP", 16); ("BPF_MAP_TYPE_XSKMAP", 17);
   ("BPF_MAP_TYPE_SOCKHASH", 18); ("BPF_MAP_TYPE_CGROUP_STORAGE_DEPRECATED", 19);
   ("BPF_MAP_TYPE_CGROUP_STORAGE", 19); ("BPF_MAP_TYPE_REUSEPORT_SOCKARRAY", 20);
   ("BPF_MAP_TYPE_PERCPU_CGROUP_STORAGE_DEPRECATED", 21);
   ("BPF_MAP_TYPE_PERCPU_CGROUP_STORAGE", 21); ("BPF_MAP_TYPE_QUEUE", 22);
   ("BPF_MAP_TYPE_STACK", 23); ("BPF_MAP_TYPE_SK_STORAGE", 24);
   ("BPF_MAP_TYPE_DEVMAP_HASH", 25); ("BPF_MAP_TYPE_STRUCT_OPS", 26);
   ("BPF_MAP_TYPE_RINGBUF", 27); ("BPF_MAP_TYPE_INODE_STORAGE", 28);
   ("BPF_MAP_TYPE_TASK_STORAGE", 29); ("BPF_MAP_TYPE_BLOOM_FILTER", 30);
   ("BPF_MAP_TYPE_USER_RINGBUF", 31); ("BPF_MAP_TYPE_CGRP_STORAGE", 32)].

Definition enum_bpf_cmd : list (string * Z) := [
   ("BPF_MAP_CREATE", 0); ("BPF_MAP_LOOKUP_ELEM", 1); ("BPF_MAP_UPDATE_ELEM", 2);
   ("BPF_MAP_DELETE_ELEM", 3); ("BPF_MAP_GET_NEXT_KEY", 4); ("BPF_PROG_LOAD", 5);
   ("BPF_OBJ_PIN", 6); ("BPF_OBJ_GET", 7); ("BPF_PROG_ATTACH", 8); ("BPF_PROG_DETACH", 9);
   ("BPF_PROG_TEST_RUN", 10); ("BPF_PROG_RUN", 10); ("BPF_PROG_GET_NEXT_ID", 11);
   ("BPF_MAP_GET_NEXT_ID", 12); ("BPF_PROG_GET_FD_BY_ID", 13); ("BPF_MAP_GET_FD_BY_ID", 14);
   ("BPF_OBJ_GET_INFO_BY_FD", 15); ("BPF_PROG_QUERY", 16); ("BPF_RAW_TRACEPOINT_OPEN", 17);
   ("BPF_BTF_LOAD", 18); ("BPF_BTF_GET_FD_BY_ID", 19); ("BPF_TASK_FD_QUERY", 20);
   ("BPF_MAP_LOOKUP_AND_DELETE_ELEM", 21); ("BPF_MAP_FREEZE", 22); ("BPF_BTF_GET_NEXT_ID", 23);
   ("BPF_MAP_LOOKUP_BATCH", 24); ("BPF_MAP_LOOKUP_AND_DELETE_BATCH", 25);
   ("BPF_MAP_UPDATE_BATCH", 26); ("BPF_MAP_DELETE_BATCH", 27); ("BPF_LINK_CREATE", 28);
   ("BPF_LINK_UPDATE", 29); ("BPF_LINK_GET_FD_BY_ID", 30); ("BPF_LINK_GET_NEXT_ID", 31);
   ("BPF_ENABLE_STATS", 32); ("BPF_ITER_CREATE", 33); ("BPF_LINK_DETACH", 34);
   ("BPF_PROG_BIND_MAP", 35)].

Definition enum_bpf_prog_type : list (string * Z) := [
   ("BPF_PROG_TYPE_UNSPEC", 0); ("BPF_PROG_TYPE_SOCKET_FILTER", 1);
   ("BPF_PROG_TYPE_KPROBE", 2); ("BPF_PROG_TYPE_SCHED_CLS", 3); ("BPF_PROG_TYPE_SCHED_ACT", 4);
   ("BPF_PROG_TYPE_TRACEPOINT", 5); ("BPF_PROG_TYPE_XDP", 6); ("BPF_PROG_TYPE_PERF_EVENT", 7);
   ("BPF_PROG_TYPE_CGROUP_SKB", 8); ("BPF_PROG_TYPE_CGROUP_SOCK", 9);
   ("BPF_PROG_TYPE_LWT_IN", 10); ("BPF_PROG_TYPE_LWT_OUT", 11); ("BPF_PROG_TYPE_LWT_XMIT", 12);
   ("BPF_PROG_TYPE_SOCK_OPS", 13); ("BPF_PROG_TYPE_SK_SKB", 14);
   ("BPF_PROG_TYPE_CGROUP_DEVICE", 15); ("BPF_PROG_TYPE_SK_MSG", 16);
   ("BPF_PROG_TYPE_RAW_TRACEPOINT", 17); ("BPF_PROG_TYPE_CGROUP_SOCK_ADDR", 18);
   ("BPF_PROG_TYPE_LWT_SEG6LOCAL", 19); ("BPF_PROG_TYPE_LIRC_MODE2", 20);
   ("BPF_PROG_TYPE_SK_REUSEPORT", 21); ("BPF_PROG_TYPE_FLOW_DISSECTOR", 22);
   ("BPF_PROG_TYPE_CGROUP_SYSCTL", 23); ("BPF_PROG_TYPE_RAW_TRACEPOINT_WRITABLE", 24);
   ("BPF_PROG_TYPE_CGROUP_SOCKOPT", 25); ("BPF_PROG_TYPE_TRACING", 26);
   ("BPF_PROG_TYPE_STRUCT_OPS", 27); ("BPF_PROG_TYPE_EXT", 28); ("BPF_PROG_TYPE_LSM", 29);
   ("BPF_PROG_TYPE_SK_LOOKUP", 30); ("BPF_PROG_TYPE_SYSCALL", 31);
   ("BPF_PROG_TYPE_NETFILTER", 32)].

Definition enum_bpf_attach_type : list (string * Z) := [
   ("BPF_CGROUP_INET_INGRESS", 0); ("BPF_CGROUP_INET_EGRESS", 1);
   ("BPF_CGROUP_INET_SOCK_CREATE", 2); ("BPF_CGROUP_SOCK_OPS", 3);
   ("BPF_SK_SKB_STREAM_PARSER", 4); ("BPF_SK_SKB_STREAM_VERDICT", 5); ("BPF_CGROUP_DEVICE", 6);
   ("BPF_SK_MSG_VERDICT", 7); ("BPF_CGROUP_INET4_BIND", 8); ("BPF_CGROUP_INET6_BIND", 9);
   ("BPF_CGROUP_INET4_CONNECT", 10); ("BPF_CGROUP_INET6_CONNECT", 11);
   ("BPF_CGROUP_INET4_POST_BIND", 12); ("BPF_CGROUP_INET6_POST_BIND", 13);
   ("BPF_CGROUP_UDP4_SENDMSG", 14); ("BPF_CGROUP_UDP6_SENDMSG", 15); ("BPF_LIRC_MODE2", 16);
   ("BPF_FLOW_DISSECTOR", 17); ("BPF_CGROUP_SYSCTL", 18); ("BPF_CGROUP_UDP4_RECVMSG", 19);
   ("BPF_CGROUP_UDP6_RECVMSG", 20); ("BPF_CGROUP_GETSOCKOPT", 21);
   ("BPF_CGROUP_SETSOCKOPT", 22); ("BPF_TRACE_RAW_TP", 23); ("BPF_TRACE_FENTRY", 24);
   ("BPF_TRACE_FEXIT", 25); ("BPF_MODIFY_RETURN", 26); ("BPF_LSM_MAC", 27);
   ("BPF_TRACE_ITER", 28); ("BPF_CGROUP_INET4_GETPEERNAME", 29);
   ("BPF_CGROUP_INET6_GETPEERNAME", 30); ("BPF_CGROUP_INET4_GETSOCKNAME", 31);
   ("BPF_CGROUP_INET6_GETSOCKNAME", 32); ("BPF_XDP_DEVMAP", 33);
   ("BPF_CGROUP_INET_SOCK_RELEASE", 34); ("BPF_XDP_CPUMAP", 35); ("BPF_SK_LOOKUP", 36);
   ("BPF_XDP", 37); ("BPF_SK_SKB_VERDICT", 38); ("BPF_SK_REUSEPORT_SELECT", 39);
   ("BPF_SK_REUSEPORT_SELECT_OR_MIGRATE", 40); ("BPF_PERF_EVENT", 41);
   ("BPF_TRACE_KPROBE_MULTI", 42); ("BPF_LSM_CGROUP", 43); ("BPF_STRUCT_OPS", 44);
   ("BPF_NETFILTER", 45); ("BPF_TCX_INGRESS", 46); ("BPF_TCX_EGRESS", 47);
   ("BPF_TRACE_UPROBE_MULTI", 48); ("BPF_CGROUP_UNIX_CONNECT", 49);
   ("BPF_CGROUP_UNIX_SENDMSG", 50); ("BPF_CGROUP_UNIX_RECVMSG", 51);
   ("BPF_CGROUP_UNIX_GETPEERNAME", 52); ("BPF_CGROUP_UNIX_GETSOCKNAME", 53);
   ("BPF_NETKIT_PRIMARY", 54); ("BPF_NETKIT_PEER", 55); ("__MAX_BPF_ATTACH_TYPE", 56)].

Definition bpf_func_id_low : list (string * Z) := [
   ("BPF_FUNC_unspec", 0); ("BPF_FUNC_map_lookup_elem", 1); ("BPF_FUNC_map_update_elem", 2);
   ("BPF_FUNC_map_delete_elem", 3); ("BPF_FUNC_probe_read", 4); ("BPF_FUNC_ktime_get_ns", 5);
   ("BPF_FUNC_trace_printk", 6); ("BPF_FUNC_get_prandom_u32", 7);
   ("BPF_FUNC_get_smp_processor_id", 8); ("BPF_FUNC_skb_store_bytes", 9);
   ("BPF_FUNC_l3_csum_replace", 10); ("BPF_FUNC_l4_csum_replace", 11);
   ("BPF_FUNC_tail_call", 12); ("BPF_FUNC_clone_redirect", 13);
   ("BPF_FUNC_get_current_pid_tgid", 14); ("BPF_FUNC_get_current_uid_gid", 15);
   ("BPF_FUNC_get_current_comm", 16); ("BPF_FUNC_get_cgroup_classid", 17);
   ("BPF_FUNC_skb_vlan_push", 18); ("BPF_FUNC_skb_vlan_pop", 19);
   ("BPF_FUNC_skb_get_tunnel_key", 20); ("BPF_FUNC_skb_set_tunnel_key", 21);
   ("BPF_FUNC_perf_event_read", 22); ("BPF_FUNC_redirect", 23);
   ("BPF_FUNC_get_route_realm", 24); ("BPF_FUNC_perf_event_output", 25);
   ("BPF_FUNC_skb_load_bytes", 26); ("BPF_FUNC_get_stackid", 27); ("BPF_FUNC_csum_diff", 28);
   ("BPF_FUNC_skb_get_tunnel_opt", 29); ("BPF_FUNC_skb_set_tunnel_opt", 30);
   ("BPF_FUNC_skb_change_proto", 31); ("BPF_FUNC_skb_change_type", 32);
   ("BPF_FUNC_skb_under_cgroup", 33); ("BPF_FUNC_get_hash_recalc", 34);
   ("BPF_FUNC_get_current_task", 35); ("BPF_FUNC_probe_write_user", 36);
   ("BPF_FUNC_current_task_under_cgroup", 37); ("BPF_FUNC_skb_change_tail", 38);
   ("BPF_FUNC_skb_pull_data", 39); ("BPF_FUNC_csum_update", 40);
   ("BPF_FUNC_set_hash_invalid", 41); ("BPF_FUNC_get_numa_node_id", 42);
   ("BPF_FUNC_skb_change_head", 43); ("BPF_FUNC_xdp_adjust_head", 44);
   ("BPF_FUNC_probe_read_str", 45); ("BPF_FUNC_get_socket_cookie", 46);
   ("BPF_FUNC_get_socket_uid", 47); ("BPF_FUNC_set_hash", 48); ("BPF_FUNC_setsockopt", 49);
   ("BPF_FUNC_skb_adjust_room", 50); ("BPF_FUNC_redirect_map", 51);
   ("BPF_FUNC_sk_redirect_map", 52); ("BPF_FUNC_sock_map_update", 53);
   ("BPF_FUNC_xdp_adjust_meta", 54); ("BPF_FUNC_perf_event_read_value", 55);
   ("BPF_FUNC_perf_prog_read_value", 56); ("BPF_FUNC_getsockopt", 57);
   ("BPF_FUNC_override_return", 58); ("BPF_FUNC_sock_ops_cb_flags_set", 59);
   ("BPF_FUNC_msg_redirect_map", 60); ("BPF_FUNC_msg_apply_bytes", 61);
   ("BPF_FUNC_msg_cork_bytes", 62); ("BPF_FUNC_msg_pull_data", 63); ("BPF_FUNC_bind", 64);
   ("BPF_FUNC_xdp_adjust_tail", 65); ("BPF_FUNC_skb_get_xfrm_state", 66);
   ("BPF_FUNC_get_stack", 67); ("BPF_FUNC_skb_load_bytes_relative", 68);
   ("BPF_FUNC_fib_lookup", 69); ("BPF_FUNC_sock_hash_update", 70);
   ("BPF_FUNC_msg_redirect_hash", 71); ("BPF_FUNC_sk_redirect_hash", 72);
   ("BPF_FUNC_lwt_push_encap", 73); ("BPF_FUNC_lwt_seg6_store_bytes", 74);
   ("BPF_FUNC_lwt_seg6_adjust_srh", 75); ("BPF_FUNC_lwt_seg6_action", 76);
   ("BPF_FUNC_rc_repeat", 77); ("BPF_FUNC_rc_keydown", 78); ("BPF_FUNC_skb_cgroup_id", 79);
   ("BPF_FUNC_get_current_cgroup_id", 80); ("BPF_FUNC_get_local_storage", 81);
   ("BPF_FUNC_sk_select_reuseport", 82); ("BPF_FUNC_skb_ancestor_cgroup_id", 83);
   ("BPF_FUNC_sk_lookup_tcp", 84); ("BPF_FUNC_sk_lookup_udp", 85); ("BPF_FUNC_sk_release", 86);
   ("BPF_FUNC_map_push_elem", 87); ("BPF_FUNC_map_pop_elem", 88);
   ("BPF_FUNC_map_peek_elem", 89); ("BPF_FUNC_msg_push_data", 90);
   ("BPF_FUNC_msg_pop_data", 91); ("BPF_FUNC_rc_pointer_rel", 92); ("BPF_FUNC_spin_lock", 93);
   ("BPF_FUNC_spin_unlock", 94); ("BPF_FUNC_sk_fullsock", 95); ("BPF_FUNC_tcp_sock", 96);
   ("BPF_FUNC_skb_ecn_set_ce", 97); ("BPF_FUNC_get_listener_sock", 98);
   ("BPF_FUNC_skc_lookup_tcp", 99); ("BPF_FUNC_tcp_check_syncookie", 100);
   ("BPF_FUNC_sysctl_get_name", 101); ("BPF_FUNC_sysctl_get_current_value", 102);
   ("BPF_FUNC_sysctl_get_new_value", 103); ("BPF_FUNC_sysctl_set_new_value", 104);
   ("BPF_FUNC_strtol", 105); ("BPF_FUNC_strtoul", 106)].

Definition bpf_func_id_high : list (string * Z) := [
   ("BPF_FUNC_sk_storage_get", 107); ("BPF_FUNC_sk_storage_delete", 108);
   ("BPF_FUNC_send_signal", 109); ("BPF_FUNC_tcp_gen_syncookie", 110);
   ("BPF_FUNC_skb_output", 111); ("BPF_FUNC_probe_read_user", 112);
   ("BPF_FUNC_probe_read_kernel", 113); ("BPF_FUNC_probe_read_user_str", 114);
   ("BPF_FUNC_probe_read_kernel_str", 115); ("BPF_FUNC_tcp_send_ack", 116);
   ("BPF_FUNC_send_signal_thread", 117); ("BPF_FUNC_jiffies64", 118);
   ("BPF_FUNC_read_branch_records", 119); ("BPF_FUNC_get_ns_current_pid_tgid", 120);
   ("BPF_FUNC_xdp_output", 121); ("BPF_FUNC_get_netns_cookie", 122);
   ("BPF_FUNC_get_current_ancestor_cgroup_id", 123); ("BPF_FUNC_sk_assign", 124);
   ("BPF_FUNC_ktime_get_boot_ns", 125); ("BPF_FUNC_seq_printf", 126);
   ("BPF_FUNC_seq_write", 127); ("BPF_FUNC_sk_cgroup_id", 128);
   ("BPF_FUNC_sk_ancestor_cgroup_id", 129); ("BPF_FUNC_ringbuf_output", 130);
   ("BPF_FUNC_ringbuf_reserve", 131); ("BPF_FUNC_ringbuf_submit", 132);
   ("BPF_FUNC_ringbuf_discard", 133); ("BPF_FUNC_ringbuf_query", 134);
   ("BPF_FUNC_csum_level", 135); ("BPF_FUNC_skc_to_tcp6_sock", 136);
   ("BPF_FUNC_skc_to_tcp_sock", 137); ("BPF_FUNC_skc_to_tcp_timewait_sock", 138);
   ("BPF_FUNC_skc_to_tcp_request_sock", 139); ("BPF_FUNC_skc_to_udp6_sock", 140);
   ("BPF_FUNC_get_task_stack", 141); ("BPF_FUNC_load_hdr_opt", 142);
   ("BPF_FUNC_store_hdr_opt", 143); ("BPF_FUNC_reserve_hdr_opt", 144);
   ("BPF_FUNC_inode_storage_get", 145); ("BPF_FUNC_inode_storage_delete", 146);
   ("BPF_FUNC_d_path", 147); ("BPF_FUNC_copy_from_user", 148); ("BPF_FUNC_snprintf_btf", 149);
   ("BPF_FUNC_seq_printf_btf", 150); ("BPF_FUNC_skb_cgroup_classid", 151);
   ("BPF_FUNC_redirect_neigh", 152); ("BPF_FUNC_per_cpu_ptr", 153);
   ("BPF_FUNC_this_cpu_ptr", 154); ("BPF_FUNC_redirect_peer", 155);
   ("BPF_FUNC_task_storage_get", 156); ("BPF_FUNC_task_storage_delete", 157);
   ("BPF_FUNC_get_current_task_btf", 158); ("BPF_FUNC_bprm_opts_set", 159);
   ("BPF_FUNC_ktime_get_coarse_ns", 160); ("BPF_FUNC_ima_inode_hash", 161);
   ("BPF_FUNC_sock_from_file", 162); ("BPF_FUNC_check_mtu", 163);
   ("BPF_FUNC_for_each_map_elem", 164); ("BPF_FUNC_snprintf", 165); ("BPF_FUNC_sys_bpf", 166);
   ("BPF_FUNC_btf_find_by_name_kind", 167); ("BPF_FUNC_sys_close", 168);
   ("BPF_FUNC_timer_init", 169); ("BPF_FUNC_timer_set_callback", 170);
   ("BPF_FUNC_timer_start", 171); ("BPF_FUNC_timer_cancel", 172);
   ("BPF_FUNC_get_func_ip", 173); ("BPF_FUNC_get_attach_cookie", 174);
   ("BPF_FUNC_task_pt_regs", 175); ("BPF_FUNC_get_branch_snapshot", 176);
   ("BPF_FUNC_trace_vprintk", 177); ("BPF_FUNC_skc_to_unix_sock", 178);
   ("BPF_FUNC_kallsyms_lookup_name", 179); ("BPF_FUNC_find_vma", 180); ("BPF_FUNC_loop", 181);
   ("BPF_FUNC_strncmp", 182); ("BPF_FUNC_get_func_arg", 183); ("BPF_FUNC_get_func_ret", 184);
   ("BPF_FUNC_get_func_arg_cnt", 185); ("BPF_FUNC_get_retval", 186);
   ("BPF_FUNC_set_retval", 187); ("BPF_FUNC_xdp_get_buff_len", 188);
   ("BPF_FUNC_xdp_load_bytes", 189); ("BPF_FUNC_xdp_store_bytes", 190);
   ("BPF_FUNC_copy_from_user_task", 191); ("BPF_FUNC_skb_set_tstamp", 192);
   ("BPF_FUNC_ima_file_hash", 193); ("BPF_FUNC_kptr_xchg", 194);
   ("BPF_FUNC_map_lookup_percpu_elem", 195); ("BPF_FUNC_skc_to_mptcp_sock", 196);
   ("BPF_FUNC_dynptr_from_mem", 197); ("BPF_FUNC_ringbuf_reserve_dynptr", 198);
   ("BPF_FUNC_ringbuf_submit_dynptr", 199); ("BPF_FUNC_ringbuf_discard_dynptr", 200);
   ("BPF_FUNC_dynptr_read", 201); ("BPF_FUNC_dynptr_write", 202);
   ("BPF_FUNC_dynptr_data", 203); ("BPF_FUNC_tcp_raw_gen_syncookie_ipv4", 204);
   ("BPF_FUNC_tcp_raw_gen_syncookie_ipv6", 205);
   ("BPF_FUNC_tcp_raw_check_syncookie_ipv4", 206);
   ("BPF_FUNC_tcp_raw_check_syncookie_ipv6", 207); ("BPF_FUNC_ktime_get_tai_ns", 208);
   ("BPF_FUNC_user_ringbuf_drain", 209); ("BPF_FUNC_cgrp_storage_get", 210);
   ("BPF_FUNC_cgrp_storage_delete", 211); ("__BPF_FUNC_MAX_ID", 212)].

Definition enum_bpf_func_id : list (string * Z) := bpf_func_id_low ++ bpf_func_id_high.

Definition enum_update_flags : list (string * Z) := [
   ("BPF_ANY", 0); ("BPF_NOEXIST", 1); ("BPF_EXIST", 2); ("BPF_F_LOCK", 4)].

Definition enum_map_flags : list (string * Z) := [
   ("BPF_F_NO_PREALLOC", 1); ("BPF_F_NO_COMMON_LRU", 2); ("BPF_F_NUMA_NODE", 4);
   ("BPF_F_RDONLY", 8); ("BPF_F_WRONLY", 16); ("BPF_F_STACK_BUILD_ID", 32);
   ("BPF_F_ZERO_SEED", 64); ("BPF_F_RDONLY_PROG", 128); ("BPF_F_WRONLY_PROG", 256);
   ("BPF_F_CLONE", 512); ("BPF_F_MMAPABLE", 1024); ("BPF_F_PRESERVE_ELEMS", 2048);
   ("BPF_F_INNER_MAP", 4096); ("BPF_F_LINK", 8192); ("BPF_F_PATH_FD", 16384)].

Definition enum_storage_flags : list (string * Z) := [
   ("BPF_LOCAL_STORAGE_GET_F_CREATE", 1); ("BPF_SK_STORAGE_GET_F_CREATE", 1)].

Definition enum_perf_flags : list (string * Z) := [
   ("BPF_F_INDEX_MASK", 4294967295); ("BPF_F_CURRENT_CPU", 4294967295);
   ("BPF_F_CTXLEN_MASK", 4503595332403200)].

(** The value of an enumerator. *)
Fixpoint enumerator (enum : list (string * Z)) (name : string) : option Z :=
  match enum with
  | [] => None
  | (nm, v) :: enum' => if String.eqb nm name then Some v else enumerator enum' name
  end.

(** ** Structures behind hook arguments and helpers *)

Definition struct_iovec : ctype := Struct [
   ("iov_base", Ptr); ("iov_len", Int 8)].

Definition struct_iov_iter : ctype := Struct [
   ("iter_type", Int 1); ("nofault", Int 1); ("data_source", Int 1); ("iov_offset", Int 8);
   ("", Union [("__ubuf_iovec", struct_iovec); ("", Struct [("", Union [("__iov", Ptr);
   ("kvec", Ptr); ("bvec", Ptr); ("xarray", Ptr); ("ubuf", Ptr)]); ("count", Int 8)])]);
   ("", Union [("nr_segs", Int 8); ("xarray_start", Int 8)])].

Definition struct_msghdr : ctype := Struct [
   ("msg_name", Ptr); ("msg_namelen", Int 4); ("msg_inq", Int 4);
   ("msg_iter", struct_iov_iter); ("", Union [("msg_control", Ptr);
   ("msg_control_user", Ptr)]); ("msg_control_is_user", Bits 1 1); ("msg_get_inq", Bits 1 1);
   ("msg_flags", Int 4); ("msg_controllen", Int 8); ("msg_iocb", Ptr); ("msg_ubuf", Ptr);
   ("sg_from_iter", Ptr)].

Definition struct_percpu_ref : ctype := Struct [
   ("percpu_count_ptr", Int 8); ("data", Ptr)].

Definition struct_work_struct : ctype := Struct [
   ("data", typedef_atomic64_t); ("entry", struct_list_head); ("func", Ptr)].

Definition struct_rcu_work : ctype := Struct [
   ("work", struct_work_struct); ("rcu", struct_callback_head); ("wq", Ptr)].

Definition struct_cgroup_subsys_state : ctype := Struct [
   ("cgroup", Ptr); ("ss", Ptr); ("refcnt", struct_percpu_ref); ("sibling", struct_list_head);
   ("children", struct_list_head); ("rstat_css_node", struct_list_head); ("id", Int 4);
   ("flags", Int 4); ("serial_nr", Int 8); ("online_cnt", typedef_atomic_t);
   ("destroy_work", struct_work_struct); ("destroy_rwork", struct_rcu_work); ("parent", Ptr)].

Definition struct_cgroup_file : ctype := Struct [
   ("kn", Ptr); ("notified_at", Int 8); ("notify_timer", struct_timer_list)].

Definition struct_cacheline_padding : ctype := Struct [
   ("x", Arr 0 (Int 1))].

Definition struct_task_cputime : ctype := Struct [
   ("stime", Int 8); ("utime", Int 8); ("sum_exec_runtime", Int 8)].

Definition struct_cgroup_base_stat : ctype := Struct [
   ("cputime", struct_task_cputime); ("forceidle_sum", Int 8)].

Definition struct_cgroup_bpf : ctype := Struct [
   ("effective", Arr 38 (Ptr)); ("progs", Arr 38 (struct_hlist_head));
   ("flags", Arr 38 (Int 1)); ("storages", struct_list_head); ("inactive", Ptr);
   ("refcnt", struct_percpu_ref); ("release_work", struct_work_struct)].

Definition struct_cgroup_freezer_state : ctype := Struct [
   ("freeze", Int 1); ("e_freeze", Int 4); ("nr_frozen_descendants", Int 4);
   ("nr_frozen_tasks", Int 4)].

Definition struct_cgroup : ctype := Struct [
   ("self", struct_cgroup_subsys_state); ("flags", Int 8); ("level", Int 4);
   ("max_depth", Int 4); ("nr_descendants", Int 4); ("nr_dying_descendants", Int 4);
   ("max_descendants", Int 4); ("nr_populated_csets", Int 4);
   ("nr_populated_domain_children", Int 4); ("nr_populated_threaded_children", Int 4);
   ("nr_threaded_children", Int 4); ("kill_seq", Int 4); ("kn", Ptr);
   ("procs_file", struct_cgroup_file); ("events_file", struct_cgroup_file);
   ("psi_files", Arr 3 (struct_cgroup_file)); ("subtree_control", Int 2);
   ("subtree_ss_mask", Int 2); ("old_subtree_control", Int 2); ("old_subtree_ss_mask", Int 2);
   ("subsys", Arr 14 (Ptr)); ("root", Ptr); ("cset_links", struct_list_head);
   ("e_csets", Arr 14 (struct_list_head)); ("dom_cgrp", Ptr); ("old_dom_cgrp", Ptr);
   ("rstat_cpu", Ptr); ("rstat_css_list", struct_list_head); ("", Bits 8 64); ("", Bits 8 64);
   ("_pad_", struct_cacheline_padding); ("rstat_flush_next", Ptr);
   ("last_bstat", struct_cgroup_base_stat); ("bstat", struct_cgroup_base_stat);
   ("prev_cputime", struct_prev_cputime); ("pidlists", struct_list_head);
   ("pidlist_mutex", struct_mutex); ("offline_waitq", struct_wait_queue_head);
   ("release_agent_work", struct_work_struct); ("psi", Ptr); ("bpf", struct_cgroup_bpf);
   ("congestion_count", typedef_atomic_t); ("freezer", struct_cgroup_freezer_state);
   ("bpf_cgrp_storage", Ptr); ("ancestors", Arr 0 (Ptr))].

Definition struct_css_set : ctype := Struct [
   ("subsys", Arr 14 (Ptr)); ("refcount", struct_refcount_struct); ("dom_cset", Ptr);
   ("dfl_cgrp", Ptr); ("nr_tasks", Int 4); ("tasks", struct_list_head);
   ("mg_tasks", struct_list_head); ("dying_tasks", struct_list_head);
   ("task_iters", struct_list_head); ("e_cset_node", Arr 14 (struct_list_head));
   ("threaded_csets", struct_list_head); ("threaded_csets_node", struct_list_head);
   ("hlist", struct_hlist_node); ("cgrp_links", struct_list_head);
   ("mg_src_preload_node", struct_list_head); ("mg_dst_preload_node", struct_list_head);
   ("mg_node", struct_list_head); ("mg_src_cgrp", Ptr); ("mg_dst_cgrp", Ptr);
   ("mg_dst_cset", Ptr); ("dead", Int 1); ("callback_head", struct_callback_head)].

Definition struct_kernfs_elem_dir : ctype := Struct [
   ("subdirs", Int 8); ("children", struct_rb_root); ("root", Ptr); ("rev", Int 8)].

Definition struct_kernfs_elem_symlink : ctype := Struct [
   ("target_kn", Ptr)].

Definition struct_kernfs_elem_attr : ctype := Struct [
   ("ops", Ptr); ("open", Ptr); ("size", Int 8); ("notify_next", Ptr)].

Definition struct_kernfs_node : ctype := Struct [
   ("count", typedef_atomic_t); ("active", typedef_atomic_t); ("parent", Ptr); ("name", Ptr);
   ("rb", struct_rb_node); ("ns", Ptr); ("hash", Int 4);
   ("", Union [("dir", struct_kernfs_elem_dir); ("symlink", struct_kernfs_elem_symlink);
   ("attr", struct_kernfs_elem_attr)]); ("priv", Ptr); ("id", Int 8); ("flags", Int 2);
   ("mode", Int 2); ("iattr", Ptr); ("rcu", struct_callback_head)].

(** The members up to line 29800, and the rest. *)
Definition bpf_attr_head : list (string * ctype) := [
   ("", Struct [("map_type", Int 4); ("key_size", Int 4); ("value_size", Int 4);
   ("max_entries", Int 4); ("map_flags", Int 4); ("inner_map_fd", Int 4); ("numa_node", Int 4);
   ("map_name", Arr 16 (Int 1)); ("map_ifindex", Int 4); ("btf_fd", Int 4);
   ("btf_key_type_id", Int 4); ("btf_value_type_id", Int 4);
   ("btf_vmlinux_value_type_id", Int 4); ("map_extra", Int 8)]);
   ("", Struct [("map_fd", Int 4); ("key", Int 8); ("", Union [("value", Int 8);
   ("next_key", Int 8)]); ("flags", Int 8)]); ("batch", Struct [("in_batch", Int 8);
   ("out_batch", Int 8); ("keys", Int 8); ("values", Int 8); ("count", Int 4);
   ("map_fd", Int 4); ("elem_flags", Int 8); ("flags", Int 8)]);
   ("", Struct [("prog_type", Int 4); ("insn_cnt", Int 4); ("insns", Int 8);
   ("license", Int 8); ("log_level", Int 4); ("log_size", Int 4); ("log_buf", Int 8);
   ("kern_version", Int 4); ("prog_flags", Int 4); ("prog_name", Arr 16 (Int 1));
   ("prog_ifindex", Int 4); ("expected_attach_type", Int 4); ("prog_btf_fd", Int 4);
   ("func_info_rec_size", Int 4); ("func_info", Int 8); ("func_info_cnt", Int 4);
   ("line_info_rec_size", Int 4); ("line_info", Int 8); ("line_info_cnt", Int 4);
   ("attach_btf_id", Int 4); ("", Union [("attach_prog_fd", Int 4);
   ("attach_btf_obj_fd", Int 4)]); ("core_relo_cnt", Int 4); ("fd_array", Int 8);
   ("core_relos", Int 8); ("core_relo_rec_size", Int 4); ("log_true_size", Int 4)]);
   ("", Struct [("pathname", Int 8); ("bpf_fd", Int 4); ("file_flags", Int 4);
   ("path_fd", Int 4)]); ("", Struct [("", Union [("target_fd", Int 4);
   ("target_ifindex", Int 4)]); ("attach_bpf_fd", Int 4); ("attach_type", Int 4);
   ("attach_flags", Int 4); ("replace_bpf_fd", Int 4); ("", Union [("relative_fd", Int 4);
   ("relative_id", Int 4)]); ("expected_revision", Int 8)]);
   ("test", Struct [("prog_fd", Int 4); ("retval", Int 4); ("data_size_in", Int 4);
   ("data_size_out", Int 4); ("data_in", Int 8); ("data_out", Int 8); ("repeat", Int 4);
   ("duration", Int 4); ("ctx_size_in", Int 4); ("ctx_size_out", Int 4); ("ctx_in", Int 8);
   ("ctx_out", Int 8); ("flags", Int 4); ("cpu", Int 4); ("batch_size", Int 4)]);
   ("", Struct [("", Union [("start_id", Int 4); ("prog_id", Int 4); ("map_id", Int 4);
   ("btf_id", Int 4); ("link_id", Int 4)]); ("next_id", Int 4); ("open_flags", Int 4)]);
   ("info", Struct [("bpf_fd", Int 4); ("info_len", Int 4); ("info", Int 8)])].

Definition bpf_attr_tail : list (string * ctype) := [
   ("query", Struct [("", Union [("target_fd", Int 4); ("target_ifindex", Int 4)]);
   ("attach_type", Int 4); ("query_flags", Int 4); ("attach_flags", Int 4);
   ("prog_ids", Int 8); ("", Union [("prog_cnt", Int 4); ("count", Int 4)]);
   ("prog_attach_flags", Int 8); ("link_ids", Int 8); ("link_attach_flags", Int 8);
   ("revision", Int 8)]); ("raw_tracepoint", Struct [("name", Int 8); ("prog_fd", Int 4)]);
   ("", Struct [("btf", Int 8); ("btf_log_buf", Int 8); ("btf_size", Int 4);
   ("btf_log_size", Int 4); ("btf_log_level", Int 4); ("btf_log_true_size", Int 4)]);
   ("task_fd_query", Struct [("pid", Int 4); ("fd", Int 4); ("flags", Int 4);
   ("buf_len", Int 4); ("buf", Int 8); ("prog_id", Int 4); ("fd_type", Int 4);
   ("probe_offset", Int 8); ("probe_addr", Int 8)]);
   ("link_create", Struct [("", Union [("prog_fd", Int 4); ("map_fd", Int 4)]);
   ("", Union [("target_fd", Int 4); ("target_ifindex", Int 4)]); ("attach_type", Int 4);
   ("flags", Int 4); ("", Union [("target_btf_id", Int 4); ("", Struct [("iter_info", Int 8);
   ("iter_info_len", Int 4)]); ("perf_event", Struct [("bpf_cookie", Int 8)]);
   ("kprobe_multi", Struct [("flags", Int 4); ("cnt", Int 4); ("syms", Int 8);
   ("addrs", Int 8); ("cookies", Int 8)]); ("tracing", Struct [("target_btf_id", Int 4);
   ("cookie", Int 8)]); ("netfilter", Struct [("pf", Int 4); ("hooknum", Int 4);
   ("priority", Int 4); ("flags", Int 4)]); ("tcx", Struct [("", Union [("relative_fd", Int 4);
   ("relative_id", Int 4)]); ("expected_revision", Int 8)]);
   ("uprobe_multi", Struct [("path", Int 8); ("offsets", Int 8); ("ref_ctr_offsets", Int 8);
   ("cookies", Int 8); ("cnt", Int 4); ("flags", Int 4); ("pid", Int 4)]);
   ("netkit", Struct [("", Union [("relative_fd", Int 4); ("relative_id", Int 4)]);
   ("expected_revision", Int 8)])])]); ("link_update", Struct [("link_fd", Int 4);
   ("", Union [("new_prog_fd", Int 4); ("new_map_fd", Int 4)]); ("flags", Int 4);
   ("", Union [("old_prog_fd", Int 4); ("old_map_fd", Int 4)])]);
   ("link_detach", Struct [("link_fd", Int 4)]); ("enable_stats", Struct [("type", Int 4)]);
   ("iter_create", Struct [("link_fd", Int 4); ("flags", Int 4)]);
   ("prog_bind_map", Struct [("prog_fd", Int 4); ("map_fd", Int 4); ("flags", Int 4)])].

Definition union_bpf_attr : ctype := Union (bpf_attr_head ++ bpf_attr_tail).

(** ** The program's constants are the header's *)

(** The number a map definition of the object carries for its type. *)
Definition map_type_number (t : map_type) : option Z :=
  enumerator enum_bpf_map_type
    match t with
    | BPF_MAP_TYPE_HASH => "BPF_MAP_TYPE_HASH"
    | BPF_MAP_TYPE_ARRAY => "BPF_MAP_TYPE_ARRAY"
    | BPF_MAP_TYPE_PERCPU_ARRAY => "BPF_MAP_TYPE_PERCPU_ARRAY"
    | BPF_MAP_TYPE_LRU_HASH => "BPF_MAP_TYPE_LRU_HASH"
    | BPF_MAP_TYPE_TASK_STORAGE => "BPF_MAP_TYPE_TASK_STORAGE"
    | BPF_MAP_TYPE_PERF_EVENT_ARRAY => "BPF_MAP_TYPE_PERF_EVENT_ARRAY"
    end.

(** Different map types are different to the kernel. *)
Lemma map_type_number_inj t t' : map_type_number t = map_type_number t' -> t = t'.
Proof. destruct t, t'; vm_compute; congruence. Qed.

Lemma socket_constants :
  enumerator enum_sock_type "SOCK_STREAM" = Some SOCK_STREAM
  /\ enumerator enum_sock_type "SOCK_DGRAM" = Some SOCK_DGRAM.
Proof. by vm_compute. Qed.

(** The helpers main.bpf.c calls. *)
Definition helpers_called : list string :=
  ["BPF_FUNC_map_lookup_elem"; "BPF_FUNC_map_update_elem"; "BPF_FUNC_map_delete_elem";
   "BPF_FUNC_probe_read_kernel"; "BPF_FUNC_ktime_get_ns"; "BPF_FUNC_get_current_pid_tgid";
   "BPF_FUNC_get_current_task_btf"; "BPF_FUNC_get_current_cgroup_id";
   "BPF_FUNC_get_current_ancestor_cgroup_id"; "BPF_FUNC_task_storage_get";
   "BPF_FUNC_perf_event_output"].

(** This kernel has every one of them, each under its own number. *)
Lemma helpers_available :
  Forall is_Some (enumerator enum_bpf_func_id <$> helpers_called)
  /\ NoDup (enumerator enum_bpf_func_id <$> helpers_called).
Proof.
  split.
  - vm_compute. repeat constructor; eauto.
  - apply (bool_decide_unpack _). vm_compute. exact I.
Qed.

(** What the programs are loaded as, and the command that loads them. *)
Lemma lsm_program_constants :
  enumerator enum_bpf_prog_type "BPF_PROG_TYPE_LSM" = Some 29
  /\ enumerator enum_bpf_attach_type "BPF_LSM_MAC" = Some 27
  /\ enumerator enum_bpf_cmd "BPF_PROG_LOAD" = Some 5.
Proof. by vm_compute. Qed.

(** Helper and map flags passed as numbers: [BPF_ANY] to the cache update. *)
Lemma flag_constants :
  enumerator enum_update_flags "BPF_ANY" = Some 0
  /\ enumerator enum_storage_flags "BPF_LOCAL_STORAGE_GET_F_CREATE" = Some 1
  /\ enumerator enum_map_flags "BPF_F_NO_PREALLOC" = Some 1
  /\ enumerator enum_perf_flags "BPF_F_CURRENT_CPU" = Some (2 ^ 32 - 1).
Proof. by vm_compute. Qed.

(** What the compiler computes for these declarations. *)
Lemma abi_layout :
  [sizeof struct_msghdr; sizeof struct_cgroup; sizeof struct_css_set; sizeof struct_kernfs_node;
   sizeof union_bpf_attr] = [104; 1920; 592; 144; 144]
  /\ [offsetof struct_task_struct ["cgroups"]; offsetof struct_css_set ["dfl_cgrp"];
      offsetof struct_cgroup ["kn"]; offsetof struct_cgroup ["level"];
      offsetof struct_cgroup ["ancestors"]; offsetof struct_kernfs_node ["id"]]
     = [3656; 128; 248; 208; 1920; 104].
Proof. by vm_compute. Qed.
