(* ===== verification/Machine.v ===== *)
(** * The BPF machine: program state, hook environment, monad

    [bpf_state] is everything the programs of main.bpf.c keep between hook
    invocations: the contents of the declared maps and the audit records handed
    to the perf buffer.  [hook_env] is what the kernel supplies to one
    invocation (current task, ids, clock, kernel memory, and the choices the
    helpers' documentation leaves open).  A program is a function in the state
    monad [prog]; the LSM verdict is its result.  One invocation is one
    uninterrupted step. *)

From S2P Require Import Prelude CLayout BpfMap Kernel Types.

Record bpf_state := BpfState {
  m_task_storage : gmap Z process_info;   (* keyed by the task's address *)
  m_role_flags : bpf_map;
  m_network_rules : bpf_map;
  m_pending_enrollments : bpf_map;
  m_path_states : bpf_map;
  m_exec_states : bpf_map;
  m_path_decision_cache : bpf_map;
  m_cache_generation : bpf_map;
  m_exec_enrollment : bpf_map;
  m_cgroup_enrollment : bpf_map;
  m_ip_rules : bpf_map;
  m_proxy_config : bpf_map;
  m_domain_rules : bpf_map;
  m_dns_cache : bpf_map;
  m_path_buf : path_components;           (* this CPU's element *)
  m_audit_events : list audit_event;      (* newest first *)
}.

Definition zero_path_components : path_components :=
  PathComponents (replicate MAX_COMPONENTS 0) 0 0.

(** The state right after the object is loaded: empty maps. *)
Definition init_state : bpf_state :=
  BpfState ∅ ∅ ∅ ∅ ∅ ∅ ∅ ∅ ∅ ∅ ∅ ∅ ∅ ∅ zero_path_components [].

Record hook_env := HookEnv {
  e_current_task : Z;                 (* bpf_get_current_task_btf() *)
  e_pid_tgid : Z;                     (* bpf_get_current_pid_tgid() *)
  e_ktime_ns : Z;                     (* bpf_ktime_get_ns() *)
  e_cgroup_id : Z;                    (* bpf_get_current_cgroup_id() *)
  e_ancestor_cgroup_id : nat -> Z;    (* bpf_get_current_ancestor_cgroup_id(level) *)
  e_mem : mem;                        (* kernel memory *)
  e_storage_alloc : Z -> bool;        (* whether task storage can be allocated *)
  e_lru_victims : list (list Z);      (* what an LRU update evicts *)
  e_lru_update_ok : bool;             (* whether that update finds memory *)
}.

(** ** State updates *)

Definition set_task_storage (f : gmap Z process_info -> gmap Z process_info) (s : bpf_state) : bpf_state :=
  BpfState (f (m_task_storage s)) (m_role_flags s) (m_network_rules s) (m_pending_enrollments s)
    (m_path_states s) (m_exec_states s) (m_path_decision_cache s) (m_cache_generation s)
    (m_exec_enrollment s) (m_cgroup_enrollment s) (m_ip_rules s) (m_proxy_config s)
    (m_domain_rules s) (m_dns_cache s) (m_path_buf s) (m_audit_events s).

Definition set_pending_enrollments (f : bpf_map -> bpf_map) (s : bpf_state) : bpf_state :=
  BpfState (m_task_storage s) (m_role_flags s) (m_network_rules s) (f (m_pending_enrollments s))
    (m_path_states s) (m_exec_states s) (m_path_decision_cache s) (m_cache_generation s)
    (m_exec_enrollment s) (m_cgroup_enrollment s) (m_ip_rules s) (m_proxy_config s)
    (m_domain_rules s) (m_dns_cache s) (m_path_buf s) (m_audit_events s).

Definition set_path_decision_cache (f : bpf_map -> bpf_map) (s : bpf_state) : bpf_state :=
  BpfState (m_task_storage s) (m_role_flags s) (m_network_rules s) (m_pending_enrollments s)
    (m_path_states s) (m_exec_states s) (f (m_path_decision_cache s)) (m_cache_generation s)
    (m_exec_enrollment s) (m_cgroup_enrollment s) (m_ip_rules s) (m_proxy_config s)
    (m_domain_rules s) (m_dns_cache s) (m_path_buf s) (m_audit_events s).

Definition set_cache_generation (f : bpf_map -> bpf_map) (s : bpf_state) : bpf_state :=
  BpfState (m_task_storage s) (m_role_flags s) (m_network_rules s) (m_pending_enrollments s)
    (m_path_states s) (m_exec_states s) (m_path_decision_cache s) (f (m_cache_generation s))
    (m_exec_enrollment s) (m_cgroup_enrollment s) (m_ip_rules s) (m_proxy_config s)
    (m_domain_rules s) (m_dns_cache s) (m_path_buf s) (m_audit_events s).

Definition set_path_buf (b : path_components) (s : bpf_state) : bpf_state :=
  BpfState (m_task_storage s) (m_role_flags s) (m_network_rules s) (m_pending_enrollments s)
    (m_path_states s) (m_exec_states s) (m_path_decision_cache s) (m_cache_generation s)
    (m_exec_enrollment s) (m_cgroup_enrollment s) (m_ip_rules s) (m_proxy_config s)
    (m_domain_rules s) (m_dns_cache s) b (m_audit_events s).

Definition set_audit_events (f : list audit_event -> list audit_event) (s : bpf_state) : bpf_state :=
  BpfState (m_task_storage s) (m_role_flags s) (m_network_rules s) (m_pending_enrollments s)
    (m_path_states s) (m_exec_states s) (m_path_decision_cache s) (m_cache_generation s)
    (m_exec_enrollment s) (m_cgroup_enrollment s) (m_ip_rules s) (m_proxy_config s)
    (m_domain_rules s) (m_dns_cache s) (m_path_buf s) (f (m_audit_events s)).

(** ** The monad *)

Definition prog (A : Type) : Type := bpf_state -> A * bpf_state.

Definition ret {A} (a : A) : prog A := fun s => (a, s).
Definition bind {A B} (p : prog A) (k : A -> prog B) : prog B :=
  fun s => let '(a, s') := p s in k a s'.
Definition get : prog bpf_state := fun s => (s, s).
Definition modify (f : bpf_state -> bpf_state) : prog unit := fun s => (tt, f s).

Declare Scope prog_scope.
Delimit Scope prog_scope with prog.
Notation "x <-- p ;; q" := (bind p (fun x => q))
  (at level 60, p at next level, right associativity) : prog_scope.
Notation "p ;;; q" := (bind p (fun _ => q))
  (at level 60, right associativity) : prog_scope.
#[global] Open Scope prog_scope.

(** Unfolds one invocation into its state transformer. *)
Ltac unfold_prog := unfold bind, ret, get, modify in *; cbn beta iota zeta in *.

(** ** Helper calls *)

(** [bpf_task_storage_get(&task_storage, task, NULL, 0)]. *)
Definition task_storage_get (task : Z) : prog (option process_info) :=
  s <-- get ;; ret (m_task_storage s !! task).

Definition zero_process_info : process_info := ProcessInfo 0 0 0 0.

(** The same call with [BPF_LOCAL_STORAGE_GET_F_CREATE]: a missing element is
    created zeroed, unless the allocation fails. *)
Definition task_storage_get_create (e : hook_env) (task : Z) : prog (option process_info) :=
  s <-- get ;;
  match m_task_storage s !! task with
  | Some info => ret (Some info)
  | None =>
      if e_storage_alloc e task
      then modify (set_task_storage <[task := zero_process_info]>) ;;;
           ret (Some zero_process_info)
      else ret None
  end.

(** Stores to every member of [*info], for the [info] of [task]. *)
Definition task_storage_write (task : Z) (info : process_info) : prog unit :=
  modify (set_task_storage <[task := info]>).

(** [bpf_get_current_pid_tgid() >> 32], stored in a [u32]. *)
Definition current_pid (e : hook_env) : Z := u32 (Z.shiftr (e_pid_tgid e) 32).

Definition emit_audit_event (e : hook_env)
    (pid role_id pod_id decision hook_type context : Z) : prog unit :=
  modify (set_audit_events
    (cons (AuditEvent (e_ktime_ns e) pid role_id decision hook_type context pod_id))).

(** The permission error the hooks return. *)
Definition EACCES : Z := 13.
Definition EPERM : Z := 1.

(** [cache_generation[0]]. *)
Definition generation (s : bpf_state) : Z :=
  default 0 (map_lookup cache_generation (m_cache_generation s) 0).

(** Whether a task is enrolled: it has storage with a non-zero pod. *)
Definition enrolled (s : bpf_state) (task : Z) : bool :=
  match m_task_storage s !! task with
  | Some info => negb (pi_pod_id info =? 0)
  | None => false
  end.

(** The element of a one-entry array always exists. *)
Lemma generation_lookup s :
  map_lookup cache_generation (m_cache_generation s) 0 = Some (generation s).
Proof. unfold generation, map_lookup. by case_match. Qed.
