(* ===== verification/Scenario.v ===== *)
(** * A small concrete system

    A kernel memory with a three-level path (/etc/shadow on one mount), a task,
    a socket and its addresses, laid out as vmlinux.h says, and a program state
    with one jailed task.  The witnesses evaluate the hooks on it. *)

From S2P Require Import Prelude CLayout BpfMap Kernel KernelTypes Types Machine.

Definition at_off (base off : Z) (n : nat) (v : Z) : Z * nat * Z := (base + off, n, v).

Definition dentry_stores (d parent name_ptr name_len inode : Z) : list (Z * nat * Z) :=
  [at_off d off_dentry_d_parent 8 parent; at_off d off_dentry_d_name_len 4 name_len;
   at_off d off_dentry_d_name_name 8 name_ptr; at_off d off_dentry_d_inode 8 inode].

Definition mount_stores (mnt root parent mountpoint : Z) : list (Z * nat * Z) :=
  [at_off mnt (off_mount_mnt + off_vfsmount_mnt_root) 8 root;
   at_off mnt off_mount_mnt_parent 8 parent; at_off mnt off_mount_mnt_mountpoint 8 mountpoint].

Definition file_stores (file dentry vfsmnt inode : Z) : list (Z * nat * Z) :=
  [at_off file off_file_f_path_dentry 8 dentry; at_off file off_file_f_path_mnt 8 vfsmnt;
   at_off file off_file_f_inode 8 inode].

Definition task_stores (task fs root_dentry root_mnt : Z) : list (Z * nat * Z) :=
  [at_off task off_task_struct_fs 8 fs; at_off fs off_fs_struct_root_dentry 8 root_dentry;
   at_off fs off_fs_struct_root_mnt 8 root_mnt].

Definition name_stores (p : Z) (bs : list Z) : list (Z * nat * Z) := [(p, length bs, le_value bs)].

(** "etc", "shadow" and "home" *)
Definition name_etc : list Z := [101; 116; 99].
Definition name_shadow : list Z := [115; 104; 97; 100; 111; 119].
Definition name_home : list Z := [104; 111; 109; 101].

(** Addresses. *)
Definition R : Z := 0x1000.
Definition ETC : Z := 0x1100.
Definition SHADOW : Z := 0x1200.
Definition HOME : Z := 0x1300.
Definition MNT : Z := 0x2000.
Definition VFS : Z := 0x2020.
Definition FILE : Z := 0x3000.
Definition INODE : Z := 0x4000.
Definition TASK : Z := 0x5000.
Definition FS : Z := 0x7000.
Definition BPRM : Z := 0x9000.
Definition SOCK : Z := 0xA000.
Definition ADDR4 : Z := 0xB000.
Definition ADDR6 : Z := 0xB100.
Definition CHILD : Z := 0xC000.

(** 10.1.2.3 as [sin_addr.s_addr] reads on a little-endian machine. *)
Definition IP4 : Z := le_value [10; 1; 2; 3].

(** /etc/shadow, with [shadow]'s parent left to choose. *)
Definition fs_stores (shadow_parent : Z) : list (Z * nat * Z) :=
  dentry_stores R R 0 0 0x4300
  ++ dentry_stores ETC R 0x8000 3 0x4100
  ++ dentry_stores HOME R 0x8020 4 0x4200
  ++ dentry_stores SHADOW shadow_parent 0x8010 6 INODE
  ++ mount_stores MNT R MNT R
  ++ file_stores FILE SHADOW VFS INODE
  ++ task_stores TASK FS R VFS
  ++ name_stores 0x8000 name_etc ++ name_stores 0x8010 name_shadow
  ++ name_stores 0x8020 name_home
  ++ [at_off INODE off_inode_i_ino 8 77; at_off BPRM off_linux_binprm_file 8 FILE;
      at_off SOCK off_socket_type 2 SOCK_STREAM;
      at_off ADDR4 off_sockaddr_sa_family 2 AF_INET;
      at_off ADDR4 off_sockaddr_in_sin_port 2 (le_value [1; 187]);
      at_off ADDR4 off_sockaddr_in_sin_addr 4 IP4;
      at_off ADDR6 off_sockaddr_sa_family 2 AF_INET6;
      at_off ADDR6 off_sockaddr_in6_sin6_port 2 (le_value [1; 187])].

(** The file is /etc/shadow; after a rename it is /home/shadow. *)
Definition mem_etc : mem := mem_of (fs_stores ETC).
Definition mem_home : mem := mem_of (fs_stores HOME).

(** The hook environment of [TASK], pid 42. *)
Definition env_with (m : mem) : hook_env :=
  HookEnv TASK (Z.shiftl 42 32) 1000 0 (fun _ => 0) m (fun _ => true) [] true.

(** Map contents from key/value pairs. *)
Definition contents {K V} (d : map_decl K V) (kvs : list (K * V)) : bpf_map :=
  foldr (fun kv m => map_store d m kv.1 kv.2) ∅ kvs.

(** [TASK] jailed in pod 1 under role 7. *)
Definition jailed_info : process_info := ProcessInfo 1 7 0 0.

Definition jailed_state (flags : Z) (states : list (path_state_key * path_state_value)) : bpf_state :=
  BpfState {[TASK := jailed_info]} (contents role_flags [(7, flags)]) ∅ ∅
    (contents path_states states) (contents exec_states states) ∅ ∅ ∅ ∅ ∅ ∅ ∅ ∅
    zero_path_components [].
