(* ===== verification/Layout.v ===== *)
(** * What the layout rules promise

    KernelTypes.v computes where the members of a kernel structure lie; here the
    computation is held to what a C compiler promises of it.  Every part of a
    well-formed type, at any depth, lies inside it and on a multiple of its
    alignment, and parts that are not members of a common union share no bit
    ([placed_sound], [separate_disjoint]).  The readers of Kernel.v are held to
    it in turn: each returns exactly what the kernel stores in the member it is
    named after, and nothing stored elsewhere in the structure changes that
    ([core_reads_independent]). *)

From S2P Require Import Prelude CLayout BpfMap Kernel KernelTypes Types KernelAbi Machine Scenario.

(** ** Parts of a type *)

(** The bits an object of the type takes. *)
Definition extent (t : ctype) : Z :=
  match t with
  | Bits _ width => width
  | _ => 8 * sizeof t
  end.

(** The members of a structure with the bits they start at, the first placed no
    earlier than [cur]. *)
Fixpoint members (cur : Z) (fs : list (string * ctype)) : list (Z * ctype) :=
  match fs with
  | [] => []
  | (_, t) :: fs => (member_start cur t, t) :: members (member_start cur t + extent t) fs
  end.

Fixpoint members_end (cur : Z) (fs : list (string * ctype)) : Z :=
  match fs with
  | [] => cur
  | (_, t) :: fs => members_end (member_start cur t + extent t) fs
  end.

Definition parts (t : ctype) : list (Z * ctype) :=
  match t with
  | Arr n t' => (fun i => (8 * (i * sizeof t'), t')) <$> seqZ 0 n
  | Struct fs => members 0 fs
  | Union fs => (fun f => (0, f.2)) <$> fs
  | _ => []
  end.

(** The part at a position: which member, which member of that, and so on. *)
Fixpoint placed (t : ctype) (pos : list nat) : option (Z * ctype) :=
  match pos with
  | [] => Some (0, t)
  | i :: pos =>
      match parts t !! i with
      | Some (o, t') => (fun r => (o + r.1, r.2)) <$> placed t' pos
      | None => None
      end
  end.

(** Two positions part ways at a structure or an array. *)
Inductive separate : ctype -> list nat -> list nat -> Prop :=
| separate_here t i j p q : (forall fs, t <> Union fs) -> i <> j -> separate t (i :: p) (j :: q)
| separate_inside t i o t' p q :
    parts t !! i = Some (o, t') -> separate t' p q -> separate t (i :: p) (i :: q).

(** ** Well-formed types *)

Definition machine_size (n : Z) : bool := bool_decide (n ∈ [1; 2; 4; 8; 16]).

Definition is_bits (t : ctype) : bool := match t with Bits _ _ => true | _ => false end.

Fixpoint wf_type (t : ctype) : bool :=
  match t with
  | Int size => machine_size size
  | Ptr => true
  | Arr n t' => (0 <=? n) && negb (is_bits t') && wf_type t'
  | Bits size width => machine_size size && (0 <=? width) && (width <=? 8 * size)
  | Struct fs | Union fs => forallb (fun f => wf_type f.2) fs
  end.

(** Induction through the members. *)
Section ctype_nested.
Context (P : ctype -> Prop).
Context (HInt : forall size, P (Int size)) (HPtr : P Ptr) (HArr : forall n t, P t -> P (Arr n t)).
Context (HBits : forall size width, P (Bits size width)).
Context (HStruct : forall fs, Forall (fun f : string * ctype => P f.2) fs -> P (Struct fs)).
Context (HUnion : forall fs, Forall (fun f : string * ctype => P f.2) fs -> P (Union fs)).

Fixpoint ctype_nested (t : ctype) : P t :=
  let all := fix all (fs : list (string * ctype)) : Forall (fun f : string * ctype => P f.2) fs :=
    match fs with
    | [] => Forall_nil_2 _
    | f :: fs => Forall_cons_2 _ _ _ (ctype_nested f.2) (all fs)
    end in
  match t with
  | Int size => HInt size
  | Ptr => HPtr
  | Arr n t' => HArr n t' (ctype_nested t')
  | Bits size width => HBits size width
  | Struct fs => HStruct fs (all fs)
  | Union fs => HUnion fs (all fs)
  end.
End ctype_nested.

(** ** The recursive definitions, member by member *)

Fixpoint fields_align (fs : list (string * ctype)) : Z :=
  match fs with
  | [] => 1
  | (name, t) :: fs => if is_bits t && String.eqb name "" then fields_align fs else Z.max (alignof t) (fields_align fs)
  end.

Lemma alignof_struct fs : alignof (Struct fs) = fields_align fs.
Proof. induction fs as [|[name t] fs IH]; [done|]. cbn [alignof fields_align] in *. rewrite IH. by destruct t. Qed.

Lemma alignof_union fs : alignof (Union fs) = fields_align fs.
Proof. exact (alignof_struct fs). Qed.

Lemma sizeof_struct fs : sizeof (Struct fs) = z_align_up (members_end 0 fs) (8 * alignof (Struct fs)) / 8.
Proof.
  cbn [sizeof]. f_equal. f_equal. generalize 0. induction fs as [|[name t] fs IH]; intros cur; [done|].
  cbn [members_end]. rewrite <-IH. by destruct t.
Qed.

Lemma sizeof_union fs :
  sizeof (Union fs) = z_align_up (foldr (fun f : string * ctype => Z.max (sizeof f.2)) 0 fs) (alignof (Union fs)).
Proof. cbn [sizeof]. f_equal. induction fs as [|[name t] fs IH]; [done|]. cbn [foldr]. by rewrite IH. Qed.

(** ** Alignment *)

Lemma machine_size_cases n : machine_size n = true <-> n = 1 \/ n = 2 \/ n = 4 \/ n = 8 \/ n = 16.
Proof. unfold machine_size. rewrite bool_decide_eq_true. set_solver. Qed.

Lemma machine_max a b :
  machine_size a = true -> machine_size b = true ->
  machine_size (Z.max a b) = true /\ (a | Z.max a b) /\ (b | Z.max a b).
Proof.
  rewrite !machine_size_cases. intros Ha Hb.
  intuition subst; first [exact eq_refl | by apply Z.mod_divide].
Qed.

Lemma wf_fields fs : wf_type (Struct fs) = true <-> Forall (fun f => wf_type f.2 = true) fs.
Proof. cbn [wf_type]. by rewrite forallb_forall, Forall_forall; setoid_rewrite <-list_elem_of_In. Qed.

Lemma fields_align_machine fs :
  Forall (fun f => machine_size (alignof f.2) = true) fs -> machine_size (fields_align fs) = true.
Proof.
  induction 1 as [|[name t] fs Ht _ IH]; [done|]. cbn [fields_align]. case_match; [done|]. by apply machine_max.
Qed.

Lemma alignof_machine t : wf_type t = true -> machine_size (alignof t) = true.
Proof.
  induction t as [size| |n t IH|size width|fs IH|fs IH] using ctype_nested; cbn [wf_type alignof]; intros Hw.
  - done.
  - done.
  - apply IH. rewrite !andb_true_iff in Hw. tauto.
  - rewrite !andb_true_iff in Hw. tauto.
  - change (machine_size (alignof (Struct fs)) = true). rewrite alignof_struct. apply fields_align_machine.
    apply wf_fields in Hw. rewrite Forall_forall in *. auto.
  - change (machine_size (alignof (Union fs)) = true). rewrite alignof_union. apply fields_align_machine.
    apply wf_fields in Hw. rewrite Forall_forall in *. auto.
Qed.

Lemma alignof_pos t : wf_type t = true -> 0 < alignof t.
Proof. intros Hw%alignof_machine%machine_size_cases. lia. Qed.

(** A member that counts towards the alignment divides it. *)
Lemma fields_align_divides fs f :
  Forall (fun f => wf_type f.2 = true) fs -> f ∈ fs -> is_bits f.2 = false -> (alignof f.2 | fields_align fs).
Proof.
  induction 1 as [|[name t] fs Ht Hfs IH]; [by intros ?%elem_of_nil|]. intros Hin Hb. cbn [fields_align].
  assert (machine_size (fields_align fs) = true) as Hm.
  { apply fields_align_machine. eapply Forall_impl; [exact Hfs|]. intros g. apply alignof_machine. }
  destruct (machine_max _ _ (alignof_machine t Ht) Hm) as (_ & H1 & H2).
  apply elem_of_cons in Hin as [->|Hin]; cbn [snd] in *.
  - by rewrite Hb.
  - case_match; [by apply IH|]. etransitivity; [by apply IH|done].
Qed.

Lemma z_align_up_spec n a : 0 < a -> n <= z_align_up n a /\ (a | z_align_up n a).
Proof.
  intros Ha. unfold z_align_up. split; [|by exists ((n + a - 1) / a)].
  pose proof (Z.div_mod (n + a - 1) a ltac:(lia)). pose proof (Z.mod_pos_bound (n + a - 1) a Ha). nia.
Qed.

(** ** Sizes *)

Lemma member_start_ge cur t : wf_type t = true -> cur <= member_start cur t.
Proof.
  intros Hw. pose proof (alignof_pos t Hw) as Ha.
  destruct t as [| | |size width| |]; try (apply z_align_up_spec; lia).
  cbn [member_start]. case_match; [done|]. apply z_align_up_spec. cbn [alignof] in Ha. lia.
Qed.

Lemma member_start_aligned cur t :
  wf_type t = true -> is_bits t = false -> (8 * alignof t | member_start cur t).
Proof.
  intros Hw Hb. pose proof (alignof_pos t Hw) as Ha. destruct t; try done; apply z_align_up_spec; lia.
Qed.

Lemma members_end_ge cur fs :
  Forall (fun f => wf_type f.2 = true /\ 0 <= extent f.2) fs -> cur <= members_end cur fs.
Proof.
  intros Hfs. revert cur. induction Hfs as [|[name t] fs [Hw He] _ IH]; intros cur; [done|]. cbn [members_end].
  pose proof (member_start_ge cur t Hw). specialize (IH (member_start cur t + extent t)). cbn [snd] in *. lia.
Qed.

Lemma struct_size fs :
  wf_type (Struct fs) = true -> 0 <= members_end 0 fs ->
  members_end 0 fs <= 8 * sizeof (Struct fs) /\ (alignof (Struct fs) | sizeof (Struct fs)).
Proof.
  intros Hw He. pose proof (alignof_pos _ Hw) as Ha. rewrite sizeof_struct.
  destruct (z_align_up_spec (members_end 0 fs) (8 * alignof (Struct fs)) ltac:(lia)) as [H1 [k Hk]].
  replace (k * (8 * alignof (Struct fs))) with (k * alignof (Struct fs) * 8) in Hk by lia.
  rewrite Hk in *. rewrite Z.div_mul by lia. split; [lia|]. by exists k.
Qed.

Lemma union_max fs f : f ∈ fs -> sizeof f.2 <= foldr (fun f : string * ctype => Z.max (sizeof f.2)) 0 fs.
Proof. induction fs as [|g fs IH]; [by intros ?%elem_of_nil|]. intros [->|Hin]%elem_of_cons; cbn; [lia|]. specialize (IH Hin). lia. Qed.

Lemma union_size fs :
  wf_type (Union fs) = true ->
  0 <= sizeof (Union fs) /\ (forall f, f ∈ fs -> sizeof f.2 <= sizeof (Union fs))
  /\ (alignof (Union fs) | sizeof (Union fs)).
Proof.
  intros Hw. pose proof (alignof_pos _ Hw) as Ha. rewrite sizeof_union.
  destruct (z_align_up_spec (foldr (fun f : string * ctype => Z.max (sizeof f.2)) 0 fs) _ Ha) as [H1 H2].
  assert (0 <= foldr (fun f : string * ctype => Z.max (sizeof f.2)) 0 fs) as H0 by (clear; induction fs; cbn; lia).
  split_and!; [lia| |done]. intros f Hf%union_max. lia.
Qed.

Lemma sizeof_ok t : wf_type t = true -> 0 <= sizeof t /\ (alignof t | sizeof t).
Proof.
  induction t as [size| |n t IH|size width|fs IH|fs IH] using ctype_nested; intros Hw; cbn [wf_type] in Hw.
  - apply machine_size_cases in Hw. cbn. split; [lia|done].
  - cbn. split; [lia|done].
  - rewrite !andb_true_iff in Hw. destruct Hw as [[Hn _] Hw]. destruct (IH Hw) as [H1 H2]. cbn [sizeof alignof].
    split; [|by apply Z.divide_mul_r]. apply Z.leb_le in Hn. nia.
  - rewrite !andb_true_iff, machine_size_cases in Hw. cbn. split; [lia|done].
  - assert (0 <= members_end 0 fs) as He.
    { apply members_end_ge. apply wf_fields in Hw. rewrite Forall_forall in *. intros [name t] Hin. cbn [snd] in *.
      specialize (Hw _ Hin). specialize (IH _ Hin). cbn [snd] in *. split; [done|].
      destruct t; cbn [extent]; try (destruct (IH Hw); lia). cbn [wf_type] in Hw. rewrite !andb_true_iff in Hw. lia. }
    destruct (struct_size fs Hw He). split; [lia|done].
  - by destruct (union_size fs Hw) as (? & _ & ?).
Qed.

Lemma extent_ok t : wf_type t = true -> 0 <= extent t <= 8 * sizeof t.
Proof.
  intros Hw. pose proof (sizeof_ok t Hw) as [H _]. destruct t; cbn [extent sizeof] in *; try lia.
  cbn [wf_type] in Hw. rewrite !andb_true_iff in Hw. lia.
Qed.

Lemma wf_extents fs :
  wf_type (Struct fs) = true -> Forall (fun f => wf_type f.2 = true /\ 0 <= extent f.2) fs.
Proof. intros Hw%wf_fields. eapply Forall_impl; [exact Hw|]. intros f Hf. split; [done|]. by apply extent_ok. Qed.

(** ** Parts, one level down *)

Lemma members_sound cur fs i o t :
  Forall (fun f => wf_type f.2 = true /\ 0 <= extent f.2) fs -> members cur fs !! i = Some (o, t) ->
  cur <= o /\ o + extent t <= members_end cur fs
  /\ (exists f, f ∈ fs /\ f.2 = t) /\ (is_bits t = false -> (8 * alignof t | o)).
Proof.
  intros Hfs. revert cur i. induction Hfs as [|[name t0] fs [Hw He] Hfs IH]; intros cur i Hi; [done|]. cbn [snd] in *.
  pose proof (member_start_ge cur t0 Hw) as Hs. cbn [members members_end] in *. destruct i as [|i].
  - injection Hi as <- <-. split_and!; [done|by apply members_end_ge|by eexists (_, t0); split; [apply list_elem_of_here|]|].
    by apply member_start_aligned.
  - apply IH in Hi as (H1 & H2 & (f & Hin & <-) & H3). split_and!; [lia|done| |done].
    exists f. by split; [apply list_elem_of_further|].
Qed.

Lemma members_ordered cur fs i j o o' t t' :
  Forall (fun f => wf_type f.2 = true /\ 0 <= extent f.2) fs -> (i < j)%nat ->
  members cur fs !! i = Some (o, t) -> members cur fs !! j = Some (o', t') -> o + extent t <= o'.
Proof.
  intros Hfs. revert cur i j. induction Hfs as [|[name t0] fs [Hw He] Hfs IH]; intros cur i j Hij Hi Hj; [done|].
  cbn [members] in *. destruct j as [|j]; [lia|]. destruct i as [|i].
  - injection Hi as <- <-. by apply members_sound in Hj as [? _].
  - exact (IH _ i j ltac:(lia) Hi Hj).
Qed.

Lemma part_sound t i o t' :
  wf_type t = true -> parts t !! i = Some (o, t') ->
  wf_type t' = true /\ 0 <= o /\ o + extent t' <= extent t
  /\ (is_bits t' = false -> (8 * alignof t' | o) /\ (alignof t' | alignof t)).
Proof.
  intros Hw Hi. destruct t as [| |n t| |fs|fs]; try done; cbn [parts extent] in *.
  - apply list_lookup_fmap_Some in Hi as (k & [= -> ->] & Hk). apply lookup_seqZ in Hk as [-> Hk].
    cbn [wf_type] in Hw. rewrite !andb_true_iff in Hw. destruct Hw as [[_ Hb] Hw].
    destruct (sizeof_ok t Hw) as [Hs Hd]. assert (extent t = 8 * sizeof t) as -> by by destruct t. cbn [sizeof alignof].
    split_and!; [done|nia..|]. intros _. split; [|done]. apply Z.mul_divide_mono_l. by apply Z.divide_mul_r.
  - pose proof (wf_extents fs Hw) as Hfs. apply members_sound in Hi as (H1 & H2 & (f & Hin & <-) & H3); [|done].
    apply wf_fields in Hw as Hws. destruct (struct_size fs Hw) as [Hsz _]; [by apply members_end_ge|].
    rewrite Forall_forall in Hws. split_and!; [by apply Hws|done|lia|]. intros Hb. split; [by apply H3|].
    rewrite alignof_struct. apply fields_align_divides; [by apply Forall_forall|done|done].
  - apply list_lookup_fmap_Some in Hi as (f & [= -> ->] & Hin%list_elem_of_lookup_2).
    apply wf_fields in Hw as Hws. rewrite Forall_forall in Hws. specialize (Hws f Hin) as Hwf.
    destruct (union_size fs Hw) as (_ & Hmax & _). specialize (Hmax f Hin). pose proof (extent_ok f.2 Hwf).
    split_and!; [done|done|lia|]. intros Hb. split; [apply Z.divide_0_r|]. rewrite alignof_union.
    apply fields_align_divides; [by apply Forall_forall|done|done].
Qed.

Lemma parts_disjoint t i j o o' t1 t2 :
  wf_type t = true -> (forall fs, t <> Union fs) -> i <> j ->
  parts t !! i = Some (o, t1) -> parts t !! j = Some (o', t2) -> o + extent t1 <= o' \/ o' + extent t2 <= o.
Proof.
  intros Hw Hu Hne Hi Hj. destruct t as [| |n t| |fs|fs]; try done; cbn [parts] in *; [| |by destruct (Hu fs)].
  - apply list_lookup_fmap_Some in Hi as (a & [= -> ->] & Ha%lookup_seqZ).
    apply list_lookup_fmap_Some in Hj as (b & [= -> ->] & Hb%lookup_seqZ).
    cbn [wf_type] in Hw. rewrite !andb_true_iff in Hw. destruct Hw as [[_ Hbits] Hw].
    destruct (sizeof_ok t Hw) as [Hs _]. assert (extent t = 8 * sizeof t) as -> by by destruct t.
    destruct Ha as [-> Ha], Hb as [-> Hb]. destruct (Z.lt_ge_cases (Z.of_nat i) (Z.of_nat j)); [left|right]; nia.
  - apply wf_extents in Hw. destruct (Nat.lt_ge_cases i j); [left|right].
    + by apply (members_ordered 0 fs i j o o' t1 t2).
    + apply (members_ordered 0 fs j i o' o t2 t1); [done|lia|done..].
Qed.

(** ** Parts at any depth *)

Lemma placed_sound t pos o t' :
  wf_type t = true -> placed t pos = Some (o, t') ->
  wf_type t' = true /\ 0 <= o /\ o + extent t' <= extent t
  /\ (is_bits t' = false -> (8 * alignof t' | o) /\ (alignof t' | alignof t)).
Proof.
  revert t o. induction pos as [|i pos IH]; intros t o Hw Hp; cbn [placed] in Hp.
  - injection Hp as <- <-. split_and!; [done|lia..|]. intros _. split; [apply Z.divide_0_r|done].
  - destruct (parts t !! i) as [[o1 t1]|] eqn:Hi; [|done]. apply fmap_Some in Hp as ([o2 t2] & Hp & [= -> ->]).
    destruct (part_sound t i o1 t1 Hw Hi) as (Hw1 & H1 & H2 & H3).
    destruct (IH t1 o2 Hw1 Hp) as (Hw2 & H4 & H5 & H6). cbn [fst snd]. split_and!; [done|lia..|].
    intros Hb. destruct (H6 Hb) as [Ha1 Ha2]. destruct (is_bits t1) eqn:Hb1.
    + destruct t1; try done. destruct pos as [|k pos]; [|by destruct k]. by injection Hp as <- <-.
    + destruct (H3 eq_refl) as [Ha3 Ha4]. split; [|by etransitivity]. apply Z.divide_add_r; [|done].
      etransitivity; [|exact Ha3]. by apply Z.mul_divide_mono_l.
Qed.

Lemma separate_disjoint t p q o o' t1 t2 :
  separate t p q -> wf_type t = true -> placed t p = Some (o, t1) -> placed t q = Some (o', t2) ->
  o + extent t1 <= o' \/ o' + extent t2 <= o.
Proof.
  intros Hs. revert o o'. induction Hs as [t i j p q Hu Hne|t i a t' p q Hi Hs IH]; intros o o' Hw Hp Hq; cbn [placed] in *.
  - destruct (parts t !! i) as [[a u]|] eqn:Hi; [|done]. destruct (parts t !! j) as [[b v]|] eqn:Hj; [|done].
    apply fmap_Some in Hp as ([c ?] & Hp & [= -> ->]). apply fmap_Some in Hq as ([d ?] & Hq & [= -> ->]). cbn [fst snd] in *.
    destruct (part_sound t i a u Hw Hi) as (Hw1 & H1 & H2 & _). destruct (part_sound t j b v Hw Hj) as (Hw2 & H3 & H4 & _).
    destruct (placed_sound u p _ _ Hw1 Hp) as (_ & ? & ? & _). destruct (placed_sound v q _ _ Hw2 Hq) as (_ & ? & ? & _).
    destruct (parts_disjoint t i j a b u v Hw Hu Hne Hi Hj); lia.
  - rewrite Hi in Hp, Hq. apply fmap_Some in Hp as ([c ?] & Hp & [= -> ->]).
    apply fmap_Some in Hq as ([d ?] & Hq & [= -> ->]). cbn [fst snd] in *.
    destruct (part_sound t i a t' Hw Hi) as (Hw1 & _). destruct (IH c d Hw1 Hp Hq); lia.
Qed.

(** ** Named members and their positions *)

Fixpoint member_pos (t : ctype) (name : string) : option (list nat) :=
  match t with
  | Struct fs | Union fs =>
      (fix go (i : nat) (fs : list (string * ctype)) : option (list nat) :=
         match fs with
         | [] => None
         | (nm, t') :: fs =>
             if String.eqb nm name then Some [i]
             else if String.eqb nm "" then
               match member_pos t' name with
               | Some pos => Some (i :: pos)
               | None => go (S i) fs
               end
             else go (S i) fs
         end) 0%nat fs
  | _ => None
  end.

Fixpoint path_pos (t : ctype) (path : list string) : option (list nat) :=
  match path with
  | [] => Some []
  | name :: path =>
      pos ← member_pos t name; part ← placed t pos; rest ← path_pos part.2 path; Some (pos ++ rest)
  end.

(** ** What the programs read *)

Section reads.
Implicit Types (m : mem).

(** Of the object at [base], the memories differ at most where the part lies: in
    the bytes that hold some of its bits. *)
Definition stored_in (t : ctype) (base o size : Z) m m' : Prop :=
  forall k, 0 <= k < sizeof t -> 8 * k + 8 <= o \/ o + size <= 8 * k -> m' (u64 (base + k)) = m (u64 (base + k)).

Lemma probe_read_ext m m' addr n :
  (forall k, 0 <= k < Z.of_nat n -> m' (u64 (addr + k)) = m (u64 (addr + k))) ->
  probe_read m' addr n = probe_read m addr n.
Proof.
  intros Hm. unfold probe_read. assert (forall l, Forall (fun k => (k < n)%nat) l ->
    mapM (fun i => m' (u64 (addr + Z.of_nat i))) l = mapM (fun i => m (u64 (addr + Z.of_nat i))) l) as Hl.
  { induction 1 as [|k l Hk _ IH]; [done|]. cbn [mapM]. rewrite Hm by lia. by rewrite IH. }
  rewrite Hl; [done|]. apply Forall_seq. lia.
Qed.

Lemma u64_field base off k : u64 (field base off + k) = u64 (base + (off + k)).
Proof. unfold field, wrap. rewrite Zplus_mod_idemp_l. f_equal. lia. Qed.

(** A store to one part leaves the reads of a part apart from it. *)
Lemma read_beside t p q off o t1 t2 m m' base width :
  wf_type t = true -> separate t p q -> placed t p = Some (8 * off, t1) -> placed t q = Some (o, t2) ->
  extent t1 = 8 * width -> stored_in t base o (extent t2) m m' ->
  probe_read m' (field base off) (Z.to_nat width) = probe_read m (field base off) (Z.to_nat width).
Proof.
  intros Hw Hs Hp Hq Hwd Hm. pose proof (separate_disjoint t p q (8 * off) o t1 t2 Hs Hw Hp Hq) as Hd.
  destruct (placed_sound t p _ _ Hw Hp) as (_ & H1 & H2 & _). pose proof (extent_ok t Hw).
  apply probe_read_ext. intros k Hk. rewrite u64_field. apply Hm; lia.
Qed.
End reads.

(** The structures the programs and the kernel's side of their hooks use. *)
Definition declared : list ctype :=
  [struct_dentry; struct_vfsmount; struct_mount; struct_file; struct_inode; struct_fs_struct; struct_task_struct;
   struct_linux_binprm; struct_socket; struct_sockaddr; struct_sockaddr_in; struct_sockaddr_in6; struct_msghdr;
   struct_cgroup; struct_css_set; struct_kernfs_node; union_bpf_attr].

Lemma declared_wf t : t ∈ declared -> wf_type t = true.
Proof.
  assert (forallb wf_type declared = true) as H by (vm_compute; exact eq_refl).
  intros Hin. rewrite forallb_forall in H. by apply H, list_elem_of_In.
Qed.

(** In every one of them, every part at any depth lies inside the structure,
    every part that is not a bit-field on a multiple of its alignment, and two
    parts share a bit only if some union holds them both. *)
Lemma declared_layouts_sound (t : ctype) (p q : list nat) (o o' : Z) (t1 t2 : ctype) :
  t ∈ declared -> placed t p = Some (o, t1) -> placed t q = Some (o', t2) ->
  (0 <= o /\ o + extent t1 <= 8 * sizeof t)
  /\ (is_bits t1 = false -> o mod (8 * alignof t1) = 0)
  /\ (separate t p q -> o + extent t1 <= o' \/ o' + extent t2 <= o).
Proof.
  intros Hin%declared_wf Hp Hq. destruct (placed_sound t p o t1 Hin Hp) as (Hw & H1 & H2 & H3).
  pose proof (extent_ok t Hin). split_and!; [lia..| |].
  - intros Hb. apply Z.mod_divide; [|by apply H3]. pose proof (alignof_pos t1 Hw). lia.
  - intros Hs. by apply (separate_disjoint t p q o o').
Qed.

(** ** The readers *)

(** The readers of Kernel.v at the offsets vmlinux.h gives, each with the
    structure its argument points to and the member the C code names. *)
Definition core_readers : list (ctype * list string * (mem -> Z -> Z)) := [
  (struct_dentry, ["d_parent"], d_parent);
  (struct_dentry, ["d_name"; "len"], d_name_len);
  (struct_dentry, ["d_name"; "name"], d_name_name);
  (struct_dentry, ["d_inode"], d_inode);
  (struct_mount, ["mnt"; "mnt_root"], mnt_mnt_root);
  (struct_mount, ["mnt_parent"], mnt_parent);
  (struct_mount, ["mnt_mountpoint"], mnt_mountpoint);
  (struct_file, ["f_path"; "dentry"], f_path_dentry);
  (struct_file, ["f_path"; "mnt"], f_path_mnt);
  (struct_file, ["f_inode"], f_inode);
  (struct_inode, ["i_ino"], i_ino);
  (struct_task_struct, ["fs"], task_fs);
  (struct_fs_struct, ["root"; "dentry"], fs_root_dentry);
  (struct_fs_struct, ["root"; "mnt"], fs_root_mnt);
  (struct_linux_binprm, ["file"], bprm_file);
  (struct_socket, ["type"], sock_type);
  (struct_sockaddr, ["sa_family"], sa_family);
  (struct_sockaddr_in, ["sin_port"], sin_port);
  (struct_sockaddr_in, ["sin_addr"; "s_addr"], sin_addr);
  (struct_sockaddr_in6, ["sin6_port"], sin6_port)].

(** The part of the object at [base] that starts at byte [off] holds [v]. *)
Definition part_holds (m : mem) (base off : Z) (part : ctype) (v : Z) : Prop :=
  in_width (extent part) v
  /\ forall k : nat, Z.of_nat k < sizeof part ->
       m (u64 (base + (off + Z.of_nat k))) = le_bytes (Z.to_nat (sizeof part)) v !! k.

Lemma probe_read_holds (m : mem) (base off : Z) (part : ctype) (v : Z) :
  0 <= sizeof part -> extent part = 8 * sizeof part -> part_holds m base off part v ->
  probe_read m (field base off) (Z.to_nat (sizeof part)) = v.
Proof.
  intros Hs He [Hv Hb]. rewrite He in Hv. set (n := Z.to_nat (sizeof part)) in *.
  unfold probe_read. assert (mapM (fun i => m (u64 (field base off + Z.of_nat i))) (seq 0 n) = Some (le_bytes n v)) as ->.
  { apply mapM_Some, Forall2_same_length_lookup. split; [by rewrite length_seq, length_le_bytes|].
    intros i x y [-> Hi]%lookup_seq Hy. rewrite u64_field, Hb by lia. exact Hy. }
  assert (map u8 (le_bytes n v) = le_bytes n v) as ->.
  { apply list_eq_Forall2. rewrite Forall2_fmap_l. apply Forall_Forall2_diag.
    eapply Forall_impl; [apply le_bytes_bytes|]. intros b Hb'. by apply wrap_small. }
  apply le_value_le_bytes. by replace (8 * Z.of_nat n) with (8 * sizeof part) by lia.
Qed.

(** A reader is a read of one part, at its width. *)
Definition reads_part (r : ctype * list string * (mem -> Z -> Z)) : Prop :=
  let '(t, path, read) := r in
  wf_type t = true /\ exists pos off part, path_pos t path = Some pos /\ placed t pos = Some (8 * off, part)
  /\ extent part = 8 * sizeof part /\ off mod alignof part = 0
  /\ forall m base, read m base = probe_read m (field base off) (Z.to_nat (sizeof part)).

Ltac solve_reads_part :=
  match goal with |- reads_part (?t, ?path, _) =>
    let pos := eval vm_compute in (default [] (path_pos t path)) in
    let part := eval vm_compute in (default (0, Ptr) (placed t pos)) in
    let off := eval vm_compute in (part.1 / 8) in
    let u := eval vm_compute in (part.2) in
    split; [vm_compute; exact eq_refl|]; exists pos, off, u;
    split_and!; [vm_compute; exact eq_refl..|intros m base; exact eq_refl]
  end.

Lemma core_readers_parts : Forall reads_part core_readers.
Proof. repeat (apply Forall_cons; split); [solve_reads_part..|by apply Forall_nil]. Qed.

(** ** Properties *)

(** C30. Every read of a kernel structure that main.bpf.c makes is exact: it
    names a member that vmlinux.h declares, at a multiple of its alignment;
    whatever number of its width the member holds, the reader returns that
    number, from any object in any memory; and whatever is stored in any other
    part of the structure, bit-fields included, unless a union holds both, what
    the reader returns stays the same. *)
Theorem core_reads_independent (t : ctype) (path : list string) (read : mem -> Z -> Z) :
  (t, path, read) ∈ core_readers ->
  exists pos off part, path_pos t path = Some pos /\ placed t pos = Some (8 * off, part)
  /\ off mod alignof part = 0
  /\ forall base m,
     (forall v, part_holds m base off part v -> read m base = v)
     /\ (forall q o other m', separate t pos q -> placed t q = Some (o, other) ->
          stored_in t base o (extent other) m m' -> read m' base = read m base).
Proof.
  intros Hin. pose proof core_readers_parts as Hall. rewrite Forall_forall in Hall.
  destruct (Hall _ Hin) as (Hw & pos & off & part & Hpos & Hp & He & Ha & Hr).
  exists pos, off, part. split_and!; [done..|]. intros base m.
  destruct (placed_sound t pos _ _ Hw Hp) as (Hwp & _). pose proof (sizeof_ok part Hwp) as [Hs _]. split.
  - intros v Hv. rewrite Hr. by apply probe_read_holds.
  - intros q o other m' Hsep Hq Hm. rewrite !Hr.
    by apply (read_beside t pos q off o part other m m' base (sizeof part)).
Qed.

(** A store that covers exactly a part. *)
Lemma stored_front t base b (n : nat) v stores :
  0 <= base -> base + sizeof t <= 2 ^ 64 ->
  stored_in t base (8 * b) (8 * Z.of_nat n) (mem_of stores) (mem_of ((base + b, n, v) :: stores)).
Proof.
  intros H0 H1 k Hk Hout. rewrite wrap_small by (unfold in_width; lia). cbn [mem_of].
  destruct (base + b <=? base + k) eqn:Ha; [|done]. destruct (base + k <? base + b + Z.of_nat n) eqn:Hb; [|done].
  apply Z.leb_le in Ha. apply Z.ltb_lt in Hb. lia.
Qed.

(** The dentry an open file names does not depend on its position; and the type
    of a socket is what its member holds. *)
Lemma core_reads_independent_witness :
  f_path_dentry (mem_of ((FILE + offsetof struct_file ["f_pos"], 8%nat, 100) :: fs_stores ETC)) FILE = SHADOW
  /\ sock_type (mem_of [(SOCK + offsetof struct_socket ["type"], 2%nat, 5)]) SOCK = 5.
Proof.
  split.
  - destruct (core_reads_independent struct_file ["f_path"; "dentry"] f_path_dentry) as (pos & off & part & Hpos & _ & _ & Hr).
    + unfold core_readers. do 7 apply list_elem_of_further. apply list_elem_of_here.
    + assert (path_pos struct_file ["f_path"; "dentry"] = Some [10; 1]%nat) as Hpos' by (vm_compute; exact eq_refl).
      rewrite Hpos' in Hpos. injection Hpos as <-.
      assert (placed struct_file [5%nat] = Some (8 * offsetof struct_file ["f_pos"], Int 8)) as Hp by (vm_compute; exact eq_refl).
      assert (separate struct_file [10; 1]%nat [5%nat]) as Hs by (by apply separate_here).
      destruct (Hr FILE (mem_of (fs_stores ETC))) as [_ H].
      pose proof (stored_front struct_file FILE (offsetof struct_file ["f_pos"]) 8 100 (fs_stores ETC)
        ltac:(vm_compute; congruence) ltac:(vm_compute; congruence)) as Hst.
      rewrite (H [5%nat] _ (Int 8) _ Hs Hp Hst). vm_compute. exact eq_refl.
  - destruct (core_reads_independent struct_socket ["type"] sock_type) as (pos & off & part & Hpos & Hp & _ & Hr).
    + unfold core_readers. do 15 apply list_elem_of_further. apply list_elem_of_here.
    + assert (path_pos struct_socket ["type"] = Some [1]%nat) as Hpos' by (vm_compute; exact eq_refl).
      rewrite Hpos' in Hpos. injection Hpos as <-.
      assert (placed struct_socket [1%nat] = Some (8 * 4, Int 2)) as Hp' by (vm_compute; exact eq_refl).
      rewrite Hp' in Hp. injection Hp as Hoff <-. assert (off = 4) as -> by lia.
      apply Hr. split; [vm_compute; split; congruence|].
      intros k Hk. cbn in Hk. destruct k as [|[|k]]; [vm_compute; exact eq_refl..|lia].
Defined.
