(* ===== verification/Hash.v ===== *)
(** * Component hashing

    [hash_component] of bpfjailer-bpf/src/main.bpf.c and its userspace twin
    [fnv1a_hash_u64] of bpfjailer-common/src/hash.rs, which must agree byte for
    byte for any policy to match. *)

From S2P Require Import Prelude CLayout BpfMap Kernel Types.

(** One round: [hash ^= c; hash *= FNV1A64_PRIME;] in 64 bits. *)
Definition fnv_round (hash c : Z) : Z := u64 (Z.lxor hash c * FNV1A64_PRIME).

(** The loop of [hash_component] from index [i], with [fuel] iterations left. *)
Fixpoint hash_loop (m : mem) (name len : Z) (fuel : nat) (i : Z) (hash hashed : Z) : Z * Z :=
  match fuel with
  | O => (hash, hashed)
  | S fuel' =>
      if len <=? i then (hash, hashed)
      else let c := probe_read m (u64 (name + i)) 1 in
           if c =? 0 then (hash, hashed)
           else hash_loop m name len fuel' (i + 1) (fnv_round hash c) (u32 (hashed + 1))
  end.

Definition hash_component (m : mem) (name len : Z) : Z :=
  let '(hash, hashed) := hash_loop m name len MAX_COMPONENT_HASH_LEN 0 FNV1A64_OFFSET_BASIS 0 in
  fnv_round hash hashed.

(** hash.rs *)
Definition MAX_HASH_LEN : nat := 64.

Definition fnv1a_hash_u64 (s : list Z) : Z :=
  let '(hash, hashed) :=
    fold_left (fun '(hash, hashed) c => (fnv_round hash c, hashed + 1))
      (take MAX_HASH_LEN s) (FNV1A64_OFFSET_BASIS, 0) in
  fnv_round hash hashed.

(** [fnv1a_digest]: no length cap, no length fold. *)
Definition fnv1a_digest (bytes : list Z) : Z :=
  fold_left fnv_round bytes FNV1A64_OFFSET_BASIS.

(** ** The round function is a bijection of the 64-bit state *)

Lemma fnv_round_range h c : in_width 64 (fnv_round h c).
Proof. unfold fnv_round. auto with widths. Qed.
#[export] Hint Resolve fnv_round_range : widths.

(** The prime is odd, hence invertible modulo 2^64. *)
Definition FNV1A64_PRIME_INV : Z := 0xce965057aff6957b.

Lemma prime_inv_ok : u64 (FNV1A64_PRIME * FNV1A64_PRIME_INV) = 1.
Proof. vm_compute. reflexivity. Qed.

Lemma mul_prime_inj x y :
  in_width 64 x -> in_width 64 y ->
  u64 (x * FNV1A64_PRIME) = u64 (y * FNV1A64_PRIME) -> x = y.
Proof.
  intros Hx Hy Heq.
  assert (forall z, in_width 64 z -> u64 (u64 (z * FNV1A64_PRIME) * FNV1A64_PRIME_INV) = z) as Hinv.
  { intros z Hz. unfold wrap. rewrite Zmult_mod_idemp_l, <-Z.mul_assoc, <-Zmult_mod_idemp_r.
    pose proof prime_inv_ok as Hp. unfold wrap in Hp. rewrite Hp, Z.mul_1_r.
    by apply wrap_small. }
  rewrite <-(Hinv x Hx), <-(Hinv y Hy). by rewrite Heq.
Qed.

Lemma fnv_round_inj_hash h h' c :
  in_width 64 h -> in_width 64 h' -> in_width 64 c ->
  fnv_round h c = fnv_round h' c -> h = h'.
Proof.
  intros Hh Hh' Hc Heq. apply mul_prime_inj in Heq; [|auto with widths..].
  apply (f_equal (fun z => Z.lxor z c)) in Heq.
  by rewrite !Z.lxor_assoc, Z.lxor_nilpotent, !Z.lxor_0_r in Heq.
Qed.

Lemma fnv_round_inj_byte h c c' :
  in_width 64 h -> in_width 64 c -> in_width 64 c' ->
  fnv_round h c = fnv_round h c' -> c = c'.
Proof.
  intros Hh Hc Hc' Heq. apply mul_prime_inj in Heq; [|auto with widths..].
  apply (f_equal (Z.lxor h)) in Heq.
  by rewrite <-!Z.lxor_assoc, Z.lxor_nilpotent, !Z.lxor_0_l in Heq.
Qed.

Lemma is_byte_width b : is_byte b -> in_width 64 b.
Proof. unfold is_byte, in_width. intros. lia. Qed.
#[export] Hint Resolve is_byte_width : widths.

Lemma basis_range : in_width 64 FNV1A64_OFFSET_BASIS.
Proof. by vm_compute. Qed.
#[export] Hint Resolve basis_range : widths.

(** ** The two implementations as one fold *)

Lemma hash_fold_fst (bs : list Z) h n :
  fold_left (fun '(hash, hashed) c => (fnv_round hash c, hashed + 1)) bs (h, n)
  = (fold_left fnv_round bs h, n + Z.of_nat (length bs)).
Proof.
  revert h n. induction bs as [|b bs IH]; intros h n; simpl.
  - f_equal. lia.
  - rewrite IH. f_equal. lia.
Qed.

Lemma fnv1a_hash_u64_digest s :
  fnv1a_hash_u64 s
  = fnv_round (fnv1a_digest (take MAX_HASH_LEN s)) (Z.of_nat (length (take MAX_HASH_LEN s))).
Proof. unfold fnv1a_hash_u64. by rewrite hash_fold_fst, Z.add_0_l. Qed.

Lemma fold_round_range bs h : in_width 64 h -> in_width 64 (fold_left fnv_round bs h).
Proof. revert h. induction bs; simpl; auto with widths. Qed.

(** The state after a common suffix distinguishes the states before it. *)
Lemma fold_round_inj bs h h' :
  in_width 64 h -> in_width 64 h' -> Forall is_byte bs ->
  fold_left fnv_round bs h = fold_left fnv_round bs h' -> h = h'.
Proof.
  intros Hh Hh' Hbs. revert h h' Hh Hh'.
  induction Hbs as [|b bs Hb _ IH]; intros h h' Hh Hh' Heq; [done|]. simpl in Heq.
  apply IH in Heq; [|auto with widths..]. by apply fnv_round_inj_hash in Heq; auto with widths.
Qed.

(** The bytes of a name in kernel memory: readable, none of them NUL. *)
Definition name_at (m : mem) (name : Z) (bs : list Z) : Prop :=
  forall i b, bs !! i = Some b ->
    probe_read m (u64 (name + Z.of_nat i)) 1 = b /\ 0 < b < 256.

Lemma hash_loop_fold m name bs fuel i h :
  name_at m name bs -> (i <= length bs)%nat -> Z.of_nat (length bs) < 2 ^ 32 ->
  hash_loop m name (Z.of_nat (length bs)) fuel (Z.of_nat i) h (Z.of_nat i)
  = (fold_left fnv_round (take fuel (drop i bs)) h,
     Z.of_nat (i + length (take fuel (drop i bs)))).
Proof.
  intros Hname. revert i h. induction fuel as [|fuel IH]; intros i h Hi Hlen; simpl.
  { f_equal. lia. }
  destruct (Z.leb_spec (Z.of_nat (length bs)) (Z.of_nat i)) as [Hge|Hlt].
  { rewrite drop_ge by lia. simpl. f_equal. lia. }
  destruct (lookup_lt_is_Some_2 bs i) as [b Hb]; [lia|].
  destruct (Hname i b Hb) as [-> Hbyte].
  destruct (Z.eqb_spec b 0); [lia|].
  rewrite (drop_S bs b i Hb). simpl.
  rewrite (wrap_small 32) by (unfold in_width; lia).
  replace (Z.of_nat i + 1) with (Z.of_nat (S i)) by lia.
  rewrite IH by lia. f_equal. lia.
Qed.

(** The kernel's hash of a name in memory is the hash userspace computes for
    the same bytes. *)
Lemma hash_component_spec m name bs :
  name_at m name bs -> Z.of_nat (length bs) < 2 ^ 32 ->
  hash_component m name (Z.of_nat (length bs)) = fnv1a_hash_u64 bs.
Proof.
  intros Hname Hlen. unfold hash_component.
  pose proof (hash_loop_fold m name bs MAX_COMPONENT_HASH_LEN 0 FNV1A64_OFFSET_BASIS
                Hname ltac:(lia) Hlen) as Hloop.
  change (Z.of_nat 0) with 0 in Hloop. rewrite Hloop, fnv1a_hash_u64_digest. done.
Qed.

Lemma hash_component_range m name len : in_width 64 (hash_component m name len).
Proof. unfold hash_component. destruct (hash_loop _ _ _ _ _ _ _). auto with widths. Qed.

Lemma fnv1a_hash_u64_range s : in_width 64 (fnv1a_hash_u64 s).
Proof. rewrite fnv1a_hash_u64_digest. auto with widths. Qed.
#[export] Hint Resolve hash_component_range fnv1a_hash_u64_range : widths.

(** A decision procedure for [name_at]. *)
Definition name_atb (m : mem) (name : Z) (bs : list Z) : bool :=
  forallb (fun '(i, b) => (probe_read m (u64 (name + Z.of_nat i)) 1 =? b) && (0 <? b) && (b <? 256))
    (imap pair bs).

Lemma name_atb_ok m name bs : name_atb m name bs = true -> name_at m name bs.
Proof.
  unfold name_atb. rewrite forallb_forall. intros H i b Hb.
  specialize (H (i, b)). rewrite !andb_true_iff, Z.eqb_eq, !Z.ltb_lt in H.
  destruct H as [[? ?] ?]; [|done].
  apply list_elem_of_In, list_elem_of_lookup. exists i. by rewrite list_lookup_imap, Hb.
Qed.

Lemma name_at_bytes m name bs : name_at m name bs -> Forall is_byte bs.
Proof.
  intros H. apply Forall_lookup. intros i b Hb. destruct (H i b Hb). unfold is_byte. lia.
Qed.

(** Names that differ in one byte within the hashed prefix hash differently. *)
Lemma fnv1a_one_byte pre suf a b :
  is_byte a -> is_byte b -> a <> b -> Forall is_byte pre -> Forall is_byte suf ->
  (length (pre ++ a :: suf) <= MAX_HASH_LEN)%nat ->
  fnv1a_hash_u64 (pre ++ a :: suf) <> fnv1a_hash_u64 (pre ++ b :: suf).
Proof.
  intros Ha Hb Hne Hpre Hsuf Hlen Heq. rewrite !fnv1a_hash_u64_digest in Heq.
  rewrite !take_ge in Heq by (rewrite length_app in *; simpl in *; lia).
  rewrite !length_app in Heq. simpl in Heq.
  assert (in_width 64 (Z.of_nat (length pre + S (length suf)))) as Hw.
  { rewrite length_app in Hlen. simpl in Hlen. unfold MAX_HASH_LEN in Hlen. unfold in_width. lia. }
  apply fnv_round_inj_hash in Heq; [|apply fold_round_range; auto with widths..|done].
  unfold fnv1a_digest in Heq. rewrite !fold_left_app in Heq. simpl in Heq.
  apply fold_round_inj in Heq; [|auto with widths..|done].
  apply fnv_round_inj_byte in Heq; [done|apply fold_round_range; auto with widths|auto with widths..].
Qed.

(** ** Properties *)

(** C29. For a name of fewer than 2^32 non-NUL bytes in kernel memory, the
    kernel-side [hash_component] returns the digest the userspace
    [fnv1a_hash_u64] computes for the same bytes. *)
Theorem hash_component_agrees (m : mem) (name : Z) (bs : list Z) :
  name_at m name bs -> Z.of_nat (length bs) < 2 ^ 32 ->
  hash_component m name (Z.of_nat (length bs)) = fnv1a_hash_u64 bs.
Proof. apply hash_component_spec. Qed.

(** The name "etc" at 0x8000. *)
Definition etc_mem : mem := mem_of [(0x8000, 3%nat, le_value [101; 116; 99])].

Lemma hash_component_agrees_witness :
  hash_component etc_mem 0x8000 3 = 0xc4414a607a454d4a.
Proof.
  assert (name_at etc_mem 0x8000 [101; 116; 99]) as Hn by (apply name_atb_ok; vm_compute; reflexivity).
  transitivity (fnv1a_hash_u64 [101; 116; 99]).
  - apply (hash_component_agrees etc_mem 0x8000 [101; 116; 99] Hn). vm_compute. reflexivity.
  - vm_compute. reflexivity.
Defined.

(** Two names of at most 64 bytes that differ in exactly one byte never
    collide: their component hashes are different. *)
Theorem hash_component_one_byte (m : mem) (name name' a b : Z) (pre suf : list Z) :
  name_at m name (pre ++ a :: suf) -> name_at m name' (pre ++ b :: suf) -> a <> b ->
  (length (pre ++ a :: suf) <= MAX_COMPONENT_HASH_LEN)%nat ->
  hash_component m name (Z.of_nat (length (pre ++ a :: suf)))
  <> hash_component m name' (Z.of_nat (length (pre ++ b :: suf))).
Proof.
  intros H1 H2 Hne Hlen. unfold MAX_COMPONENT_HASH_LEN in Hlen.
  assert (length (pre ++ b :: suf) = length (pre ++ a :: suf)) as Hl by by rewrite !length_app.
  apply name_at_bytes in H1 as Hb1. apply name_at_bytes in H2 as Hb2.
  rewrite Forall_app, Forall_cons in Hb1, Hb2. destruct Hb1 as (? & ? & ?), Hb2 as (? & ? & ?).
  rewrite !hash_component_spec by (try done; lia).
  by apply fnv1a_one_byte.
Qed.

(** "cat" at 0x8000 and "car" at 0x9000. *)
Definition cat_mem : mem :=
  mem_of [(0x8000, 3%nat, le_value [99; 97; 116]); (0x9000, 3%nat, le_value [99; 97; 114])].

Lemma hash_component_one_byte_witness :
  hash_component cat_mem 0x8000 3 <> hash_component cat_mem 0x9000 3.
Proof.
  apply (hash_component_one_byte cat_mem 0x8000 0x9000 116 114 [99; 97] []).
  - apply name_atb_ok. vm_compute. reflexivity.
  - apply name_atb_ok. vm_compute. reflexivity.
  - lia.
  - vm_compute. lia.
Defined.

(** Names that agree on their first 64 bytes collide, whatever follows and
    whatever their lengths: the byte count folded into the digest stops at 64. *)
Theorem hash_component_prefix_alias (m : mem) (name name' : Z) (bs bs' : list Z) :
  name_at m name bs -> name_at m name' bs' ->
  Z.of_nat (length bs) < 2 ^ 32 -> Z.of_nat (length bs') < 2 ^ 32 ->
  take MAX_COMPONENT_HASH_LEN bs = take MAX_COMPONENT_HASH_LEN bs' ->
  hash_component m name (Z.of_nat (length bs)) = hash_component m name' (Z.of_nat (length bs')).
Proof.
  intros H1 H2 Hl1 Hl2 Heq. rewrite !hash_component_spec by done.
  rewrite !fnv1a_hash_u64_digest. unfold MAX_HASH_LEN. unfold MAX_COMPONENT_HASH_LEN in Heq.
  by rewrite Heq.
Qed.

(** 65 and 70 times the letter a. *)
Definition long_mem : mem :=
  mem_of [(0x8000, 65%nat, le_value (replicate 65 97)); (0x9000, 70%nat, le_value (replicate 70 97))].

Lemma hash_component_prefix_alias_witness :
  hash_component long_mem 0x8000 65 = hash_component long_mem 0x9000 70.
Proof.
  apply (hash_component_prefix_alias long_mem 0x8000 0x9000 (replicate 65 97) (replicate 70 97)).
  - apply name_atb_ok. vm_compute. reflexivity.
  - apply name_atb_ok. vm_compute. reflexivity.
  - vm_compute. reflexivity.
  - vm_compute. reflexivity.
  - reflexivity.
Defined.
