(* ===== verification/PathWalk.v ===== *)
(** * Walking a path

    [collect_path_components] of bpfjailer-bpf/src/main.bpf.c climbs from a
    dentry to the task's root, crossing mount boundaries, and records the hash
    of every component, leaf first.  [resolves] states what the path of a
    dentry is as the task sees it, without the buffer and without the step
    bound; the theorems relate the two. *)

From S2P Require Import Prelude CLayout BpfMap Kernel KernelTypes Types Machine Scenario Hash.

Record fs_root := FsRoot {
  fr_dentry : Z;
  fr_mnt : Z;
}.

Section walk.
Context `{KL : KernelLayout}.

(** [struct mount] containing a [struct vfsmount], and back; NULL maps to NULL. *)
Definition real_mount (vfsmnt : Z) : Z :=
  if vfsmnt =? 0 then 0 else u64 (vfsmnt - off_mount_mnt).

Definition mount_vfs (mnt : Z) : Z :=
  if mnt =? 0 then 0 else u64 (mnt + off_mount_mnt).

Definition task_fs_root (m : mem) (task : Z) : fs_root :=
  FsRoot (fs_root_dentry m (task_fs m task)) (fs_root_mnt m (task_fs m task)).

(** [buf->hashes[idx] = h; buf->count = idx + 1;] guarded by the bound. *)
Definition push_component (buf : path_components) (h : Z) : path_components :=
  let idx := pc_count buf in
  if idx <? Z.of_nat MAX_COMPONENTS
  then PathComponents (<[Z.to_nat idx := h]> (pc_hashes buf)) (u8 (idx + 1)) (pc_truncated buf)
  else buf.

(** Whether the dentry has a name to record: [len > 0 && name]. *)
Definition named (m : mem) (dentry : Z) : bool :=
  (0 <? d_name_len m dentry) && negb (d_name_name m dentry =? 0).

Definition dentry_hash (m : mem) (dentry : Z) : Z :=
  hash_component m (d_name_name m dentry) (d_name_len m dentry).

(** The bounded loop; the boolean is [reached_root]. *)
Fixpoint collect_loop (m : mem) (root : fs_root) (steps : nat)
    (dentry mnt vfsmnt : Z) (buf : path_components) : bool * path_components :=
  match steps with
  | O => (false, buf)
  | S steps' =>
      if (dentry =? fr_dentry root) && (vfsmnt =? fr_mnt root) then (true, buf)
      else if dentry =? mnt_mnt_root m mnt then
      let parent_mnt := mnt_parent m mnt in
      if (parent_mnt =? 0) || (parent_mnt =? mnt) then (true, buf)
      else
      let dentry' := mnt_mountpoint m mnt in
      let vfsmnt' := mount_vfs parent_mnt in
      if (dentry' =? 0) || (vfsmnt' =? 0) then (false, buf)
      else collect_loop m root steps' dentry' parent_mnt vfsmnt' buf
      else
      let parent := d_parent m dentry in
      if (parent =? 0) || (parent =? dentry) then (false, buf)
      else if Z.of_nat MAX_COMPONENTS <=? pc_count buf then (false, buf)
      else
      collect_loop m root steps' parent mnt vfsmnt
        (if named m dentry then push_component buf (dentry_hash m dentry) else buf)
  end.

(** Returns [buf->count] and the buffer it filled.  The array keeps what the
    previous walk left beyond [count]. *)
Definition collect_path_components (m : mem) (dentry vfsmnt : Z) (root : fs_root)
    (buf : path_components) : Z * path_components :=
  let buf0 := PathComponents (pc_hashes buf) 0 0 in
  let mnt := real_mount vfsmnt in
  if (dentry =? 0) || (mnt =? 0) then (0, buf0)
  else
  let '(reached_root, buf1) := collect_loop m root MAX_PATH_WALK_STEPS dentry mnt vfsmnt buf0 in
  let buf2 := if reached_root then buf1
  else PathComponents (pc_hashes buf1) (pc_count buf1) 1 in
  (pc_count buf2, buf2).

(** ** What the path of a dentry is *)

Definition at_root (root : fs_root) (dentry vfsmnt : Z) : Prop :=
  dentry = fr_dentry root /\ vfsmnt = fr_mnt root.

(** [resolves m root d mnt v n ds]: climbing from dentry [d] in mount [mnt]
    reaches the root of the task's view in [n] steps, through the dentries
    [ds] (leaf first; mount roots are crossed, not listed). *)
Inductive resolves (m : mem) (root : fs_root) : Z -> Z -> Z -> nat -> list Z -> Prop :=
| resolves_root d mnt v :
    at_root root d v -> resolves m root d mnt v 0 []
| resolves_global_root d mnt v :
    ~ at_root root d v -> d = mnt_mnt_root m mnt ->
    mnt_parent m mnt = 0 \/ mnt_parent m mnt = mnt ->
    resolves m root d mnt v 0 []
| resolves_cross d mnt v n ds :
    ~ at_root root d v -> d = mnt_mnt_root m mnt ->
    mnt_parent m mnt <> 0 -> mnt_parent m mnt <> mnt ->
    mnt_mountpoint m mnt <> 0 -> mount_vfs (mnt_parent m mnt) <> 0 ->
    resolves m root (mnt_mountpoint m mnt) (mnt_parent m mnt)
    (mount_vfs (mnt_parent m mnt)) n ds ->
    resolves m root d mnt v (S n) ds
| resolves_climb d mnt v n ds :
    ~ at_root root d v -> d <> mnt_mnt_root m mnt ->
    d_parent m d <> 0 -> d_parent m d <> d ->
    resolves m root (d_parent m d) mnt v n ds ->
    resolves m root d mnt v (S n) (d :: ds).

(** The hashes recorded for a list of climbed dentries. *)
Definition component_hashes (m : mem) (ds : list Z) : list Z :=
  dentry_hash m <$> filter (fun d => named m d = true) ds.

(** ** The buffer *)

Definition buf_ok (buf : path_components) : Prop :=
  length (pc_hashes buf) = MAX_COMPONENTS /\ 0 <= pc_count buf <= Z.of_nat MAX_COMPONENTS.

(** What a buffer means: the hashes recorded in it. *)
Definition buf_components (buf : path_components) : list Z :=
  take (Z.to_nat (pc_count buf)) (pc_hashes buf).

Lemma length_buf_components buf :
  buf_ok buf -> Z.of_nat (length (buf_components buf)) = pc_count buf.
Proof. intros [Hl Hc]. unfold buf_components. rewrite length_take, Hl. lia. Qed.

Lemma push_component_ok buf h : buf_ok buf -> buf_ok (push_component buf h).
Proof.
  intros [Hl Hc]. unfold push_component. case_match eqn:E; [|done].
  apply Z.ltb_lt in E. unfold buf_ok, MAX_COMPONENTS in *. split; cbn [pc_hashes pc_count].
  - by rewrite length_insert.
  - rewrite wrap_small by (unfold in_width; lia). lia.
Qed.

Lemma push_component_spec buf h :
  buf_ok buf -> pc_count buf < Z.of_nat MAX_COMPONENTS ->
  buf_components (push_component buf h) = buf_components buf ++ [h]
  /\ pc_count (push_component buf h) = pc_count buf + 1
  /\ pc_truncated (push_component buf h) = pc_truncated buf.
Proof.
  intros [Hl Hc] Hlt. unfold push_component, buf_components. apply Z.ltb_lt in Hlt as Hb.
  rewrite Hb. simpl. unfold MAX_COMPONENTS in *.
  rewrite wrap_small by (unfold in_width; lia). split_and!; [|done..].
  replace (Z.to_nat (pc_count buf + 1)) with (S (Z.to_nat (pc_count buf))) by lia.
  erewrite take_S_r by (apply list_lookup_insert_eq; lia).
  by rewrite take_insert_ge by lia.
Qed.

(** ** The loop against [resolves] *)

Lemma at_root_spec root d v :
  reflect (at_root root d v) ((d =? fr_dentry root) && (v =? fr_mnt root)).
Proof.
  unfold at_root. apply iff_reflect.
  rewrite andb_true_iff, !Z.eqb_eq. done.
Qed.

Lemma component_hashes_cons m d ds :
  component_hashes m (d :: ds)
  = (if named m d then [dentry_hash m d] else []) ++ component_hashes m ds.
Proof.
  unfold component_hashes. rewrite filter_cons.
  destruct (named m d); simpl; done.
Qed.

Definition record_dentry (m : mem) (d : Z) (buf : path_components) : path_components :=
  if named m d then push_component buf (dentry_hash m d) else buf.

Lemma record_dentry_spec m d buf :
  buf_ok buf -> pc_count buf < Z.of_nat MAX_COMPONENTS ->
  buf_ok (record_dentry m d buf)
  /\ buf_components (record_dentry m d buf)
  = buf_components buf ++ (if named m d then [dentry_hash m d] else [])
  /\ pc_count (record_dentry m d buf) <= pc_count buf + 1
  /\ pc_truncated (record_dentry m d buf) = pc_truncated buf.
Proof.
  intros Hok Hlt. unfold record_dentry. destruct (named m d).
  - destruct (push_component_spec buf (dentry_hash m d) Hok Hlt) as (? & ? & ?).
    split_and!; [by apply push_component_ok|done|lia|done].
  - rewrite app_nil_r. split_and!; auto; lia.
Qed.

(** A walk that reports the root followed the task's path: the buffer gained
    exactly the hashes of the dentries on it. *)
Lemma collect_loop_sound m root steps d mnt v buf buf' :
  buf_ok buf ->
  collect_loop m root steps d mnt v buf = (true, buf') ->
  buf_ok buf' /\ pc_truncated buf' = pc_truncated buf /\
  exists n ds, (n < steps)%nat /\ resolves m root d mnt v n ds /\
  buf_components buf' = buf_components buf ++ component_hashes m ds.
Proof.
  revert d mnt v buf. induction steps as [|steps IH]; intros d mnt v buf Hok; simpl; [done|].
  destruct (at_root_spec root d v) as [Hroot|Hroot].
  { intros [= <-]. split_and!; [done..|]. exists 0%nat, []. rewrite app_nil_r.
    split_and!; [lia|by constructor|done]. }
  destruct (Z.eqb_spec d (mnt_mnt_root m mnt)) as [Hmr|Hmr].
  - destruct (Z.eqb_spec (mnt_parent m mnt) 0) as [Hp|Hp];
      [|destruct (Z.eqb_spec (mnt_parent m mnt) mnt) as [Hp'|Hp']]; simpl.
    1,2: intros [= <-]; split_and!; [done..|]; exists 0%nat, []; rewrite app_nil_r;
      split_and!; [lia|apply resolves_global_root; auto|done].
    destruct (Z.eqb_spec (mnt_mountpoint m mnt) 0) as [|Hd]; [done|].
    destruct (Z.eqb_spec (mount_vfs (mnt_parent m mnt)) 0) as [|Hv]; simpl; [done|].
    intros (? & ? & n & ds & ? & ? & ?)%IH; [|done]. split_and!; [done..|].
    exists (S n), ds. split_and!; [lia|by apply resolves_cross|done].
  - destruct (Z.eqb_spec (d_parent m d) 0) as [|Hp]; [done|].
    destruct (Z.eqb_spec (d_parent m d) d) as [|Hp']; simpl; [done|].
    destruct (Z.leb_spec (Z.of_nat MAX_COMPONENTS) (pc_count buf)) as [|Hlt]; [done|].
    destruct (record_dentry_spec m d buf Hok Hlt) as (Hok' & Hc & _ & Ht).
    fold (record_dentry m d buf).
    intros (? & ? & n & ds & ? & ? & Hc')%IH; [|done]. split_and!; [done|congruence|].
    exists (S n), (d :: ds). split_and!; [lia|by apply resolves_climb|].
    by rewrite Hc', Hc, component_hashes_cons, <-app_assoc.
Qed.

(** Within the bounds the walk finds the path. *)
Lemma collect_loop_complete m root steps d mnt v buf n ds :
  resolves m root d mnt v n ds ->
  (n < steps)%nat -> buf_ok buf ->
  pc_count buf + Z.of_nat (length ds) <= Z.of_nat MAX_COMPONENTS ->
  exists buf', collect_loop m root steps d mnt v buf = (true, buf')
  /\ buf_ok buf' /\ pc_truncated buf' = pc_truncated buf
  /\ buf_components buf' = buf_components buf ++ component_hashes m ds.
Proof.
  intros Hres. revert steps buf.
  induction Hres as [d mnt v Hroot|d mnt v Hroot Hmr Hp
      |d mnt v n ds Hroot Hmr Hp Hp' Hd Hv _ IH|d mnt v n ds Hroot Hmr Hp Hp' _ IH];
    intros [|steps] buf Hn Hok Hlen; try lia; simpl;
    destruct (at_root_spec root d v); try done.
  - exists buf. by rewrite app_nil_r.
  - exists buf. rewrite app_nil_r. apply Z.eqb_eq in Hmr as ->.
    destruct Hp as [Hp|Hp]; apply Z.eqb_eq in Hp; rewrite Hp, ?orb_true_r; done.
  - apply Z.eqb_eq in Hmr as ->. apply Z.eqb_neq in Hp, Hp', Hd, Hv.
    rewrite Hp, Hp', Hd, Hv. simpl. apply IH; [lia|done|done].
  - apply Z.eqb_neq in Hmr, Hp, Hp'. rewrite Hmr, Hp, Hp'. simpl in *.
    destruct (Z.leb_spec (Z.of_nat MAX_COMPONENTS) (pc_count buf)) as [|Hlt]; [lia|].
    destruct (record_dentry_spec m d buf Hok Hlt) as (Hok' & Hc & Hn' & Ht).
    fold (record_dentry m d buf).
    destruct (IH steps (record_dentry m d buf)) as (buf' & -> & ? & ? & Hc');
      [lia|done|lia|].
    exists buf'. split_and!; [done|done|congruence|].
    by rewrite Hc', Hc, component_hashes_cons, <-app_assoc.
Qed.

Lemma collect_loop_ok m root steps d mnt v buf :
  buf_ok buf ->
  buf_ok (collect_loop m root steps d mnt v buf).2
  /\ pc_truncated (collect_loop m root steps d mnt v buf).2 = pc_truncated buf.
Proof.
  revert d mnt v buf. induction steps as [|steps IH]; intros d mnt v buf Hok; simpl; [done|].
  repeat case_match; auto.
  destruct (IH (d_parent m d) mnt v (push_component buf (dentry_hash m d)))
    as [? ->]; [by apply push_component_ok|].
  split; [done|]. unfold push_component. by case_match.
Qed.

(** Two walks agree on a path: [resolves] is functional. *)
Lemma resolves_det m root d mnt v n ds n' ds' :
  resolves m root d mnt v n ds -> resolves m root d mnt v n' ds' -> n = n' /\ ds = ds'.
Proof.
  intros H. revert n' ds'. induction H; intros n' ds'; inversion 1; subst;
    first [by split | exfalso; tauto
      | match goal with IH : forall _ _, _, Hr : resolves _ _ _ _ _ ?k _ |- _ = S ?k /\ _ =>
      by destruct (IH _ _ Hr) as [<- <-] end].
Qed.


(** ** Stale buffer contents do not matter

    The array of the per-CPU buffer is never cleared; two buffers that agree
    on what they mean are interchangeable. *)

Definition buf_equiv (b1 b2 : path_components) : Prop :=
  buf_ok b1 /\ buf_ok b2 /\ pc_count b1 = pc_count b2
  /\ pc_truncated b1 = pc_truncated b2 /\ buf_components b1 = buf_components b2.

#[global] Instance buf_equiv_per : RelationClasses.PER buf_equiv.
Proof.
  unfold buf_equiv. split.
  - intros b1 b2 (? & ? & ? & ? & ?). by split_and!.
  - intros b1 b2 b3 (? & ? & ? & ? & ?) (? & ? & ? & ? & ?).
    split_and!; [done..|congruence|congruence|congruence].
Qed.

#[global] Instance push_component_proper :
    Proper (buf_equiv ==> (=) ==> buf_equiv) push_component.
Proof.
  intros b1 b2 (Hok1 & Hok2 & Hc & Ht & Hb) h ? <-.
  destruct (Z.lt_ge_cases (pc_count b1) (Z.of_nat MAX_COMPONENTS)) as [Hlt|Hge].
  - unfold buf_equiv.
    destruct (push_component_spec b1 h Hok1 Hlt) as (Ha1 & Hn1 & Hr1).
    destruct (push_component_spec b2 h Hok2) as (Ha2 & Hn2 & Hr2); [congruence|].
    split_and!; [by apply push_component_ok..|lia|congruence|congruence].
  - unfold push_component. rewrite <-Hc. destruct (Z.ltb_spec (pc_count b1) (Z.of_nat MAX_COMPONENTS));
      [lia|]. by split_and!.
Qed.

Lemma collect_loop_proper m root steps d mnt v b1 b2 :
  buf_equiv b1 b2 ->
  (collect_loop m root steps d mnt v b1).1 = (collect_loop m root steps d mnt v b2).1
  /\ buf_equiv (collect_loop m root steps d mnt v b1).2 (collect_loop m root steps d mnt v b2).2.
Proof.
  revert d mnt v b1 b2. induction steps as [|steps IH]; intros d mnt v b1 b2 Hb; simpl; [done|].
  assert (pc_count b1 = pc_count b2) as Hc by apply Hb. rewrite Hc.
  repeat case_match; auto. apply IH. by apply push_component_proper.
Qed.

#[local] Arguments collect_loop : simpl never.

(** ** The whole collector *)

Lemma reset_ok buf : length (pc_hashes buf) = MAX_COMPONENTS ->
  buf_ok (PathComponents (pc_hashes buf) 0 0).
Proof. intros. unfold buf_ok. simpl. split; [done|lia]. Qed.

Lemma reset_components hs t : buf_components (PathComponents hs 0 t) = [].
Proof. done. Qed.

Lemma collect_ok m d v root buf :
  length (pc_hashes buf) = MAX_COMPONENTS ->
  buf_ok (collect_path_components m d v root buf).2.
Proof.
  unfold collect_path_components. generalize MAX_PATH_WALK_STEPS as steps.
  intros steps Hl. case_match; [by apply reset_ok|].
  pose proof (collect_loop_ok m root steps d (real_mount v) v _ (reset_ok buf Hl))
    as [Hok _].
  destruct (collect_loop _ _ _ _ _ _ _) as [[] b]; simpl in *; [done|].
  destruct Hok. by split.
Qed.

(** An untruncated, non-trivial walk saw the whole path. *)
Lemma collect_sound m d v root buf :
  length (pc_hashes buf) = MAX_COMPONENTS ->
  pc_truncated (collect_path_components m d v root buf).2 = 0 ->
  d <> 0 -> real_mount v <> 0 ->
  exists n ds, (n < MAX_PATH_WALK_STEPS)%nat
  /\ resolves m root d (real_mount v) v n ds
  /\ buf_components (collect_path_components m d v root buf).2 = component_hashes m ds.
Proof.
  unfold collect_path_components. generalize MAX_PATH_WALK_STEPS as steps.
  intros steps Hl Ht Hd Hv. apply Z.eqb_neq in Hd, Hv. rewrite Hd, Hv in *. simpl orb in *. cbv iota in *.
  destruct (collect_loop _ _ _ _ _ _ _) as [[] b] eqn:E; simpl in *; [|done].
  apply collect_loop_sound in E as (_ & _ & n & ds & ? & ? & Hc); [|by apply reset_ok].
  rewrite reset_components in Hc. eauto.
Qed.

Lemma collect_complete m d v root buf n ds :
  length (pc_hashes buf) = MAX_COMPONENTS ->
  d <> 0 -> real_mount v <> 0 ->
  resolves m root d (real_mount v) v n ds ->
  (n < MAX_PATH_WALK_STEPS)%nat -> (length ds <= MAX_COMPONENTS)%nat ->
  pc_truncated (collect_path_components m d v root buf).2 = 0
  /\ buf_components (collect_path_components m d v root buf).2 = component_hashes m ds.
Proof.
  unfold collect_path_components. generalize MAX_PATH_WALK_STEPS as steps.
  intros steps Hl Hd Hv Hres Hn Hds.
  apply Z.eqb_neq in Hd, Hv. rewrite Hd, Hv. simpl orb. cbv iota.
  destruct (collect_loop_complete m root steps d (real_mount v) v
      (PathComponents (pc_hashes buf) 0 0) n ds) as (b & -> & ? & Ht & Hc);
    [done|done|by apply reset_ok|simpl; lia|].
  simpl. by rewrite Hc.
Qed.

Lemma collect_stale m d v root b1 b2 :
  length (pc_hashes b1) = MAX_COMPONENTS -> length (pc_hashes b2) = MAX_COMPONENTS ->
  buf_equiv (collect_path_components m d v root b1).2 (collect_path_components m d v root b2).2.
Proof.
  unfold collect_path_components. generalize MAX_PATH_WALK_STEPS as steps. intros steps H1 H2.
  assert (buf_equiv (PathComponents (pc_hashes b1) 0 0) (PathComponents (pc_hashes b2) 0 0)) as Hb.
  { unfold buf_equiv. split_and!; [by apply reset_ok..|done|done|done]. }
  case_match; [done|].
  destruct (collect_loop_proper m root steps d (real_mount v) v _ _ Hb) as [Hr Hb'].
  destruct (collect_loop _ _ _ _ _ _ (PathComponents (pc_hashes b1) _ _)) as [[] c1],
    (collect_loop _ _ _ _ _ _ (PathComponents (pc_hashes b2) _ _)) as [[] c2]; simpl in *; try done.
  destruct Hb' as ([? ?] & [? ?] & ? & ? & ?). by split_and!.
Qed.
End walk.

(** ** Properties *)

(** Converting a [struct vfsmount] pointer to the [struct mount] around it
    and back gives the same pointer, and likewise the other way round, as long
    as neither conversion lands on NULL. *)
Lemma mount_conversions_inverse `{KL : KernelLayout} (v mnt : Z) :
  in_width 64 v -> in_width 64 mnt -> real_mount v <> 0 -> mount_vfs mnt <> 0 ->
  mount_vfs (real_mount v) = v /\ real_mount (mount_vfs mnt) = mnt.
Proof.
  intros Hv Hm Hr Hw. split.
  - unfold mount_vfs. pose proof (proj2 (Z.eqb_neq _ _) Hr) as ->. unfold real_mount in *.
    destruct (Z.eqb_spec v 0); [done|]. unfold wrap.
    rewrite Zplus_mod_idemp_l, Z.sub_add. by apply wrap_small.
  - unfold real_mount. pose proof (proj2 (Z.eqb_neq _ _) Hw) as ->. unfold mount_vfs in *.
    destruct (Z.eqb_spec mnt 0); [done|]. unfold wrap.
    rewrite Zminus_mod_idemp_l, Z.add_simpl_r. by apply wrap_small.
Qed.

(** C22. A walk that is not marked truncated followed the path the task sees
    from the file to the task's root: the hashes it recorded are exactly those
    of the named dentries on that path, leaf first. *)
Theorem walk_sound `{KL : KernelLayout} (m : mem) (d v : Z) (root : fs_root) (buf : path_components) :
  length (pc_hashes buf) = MAX_COMPONENTS -> d <> 0 -> real_mount v <> 0 ->
  pc_truncated (collect_path_components m d v root buf).2 = 0 ->
  exists n ds, (n < MAX_PATH_WALK_STEPS)%nat
    /\ resolves m root d (real_mount v) v n ds
    /\ buf_components (collect_path_components m d v root buf).2 = component_hashes m ds.
Proof. intros. by apply collect_sound. Qed.

Lemma walk_sound_witness :
  exists n ds, (n < MAX_PATH_WALK_STEPS)%nat
    /\ resolves mem_etc (task_fs_root mem_etc TASK) SHADOW (real_mount VFS) VFS n ds
    /\ buf_components (collect_path_components mem_etc SHADOW VFS (task_fs_root mem_etc TASK)
         zero_path_components).2 = component_hashes mem_etc ds.
Proof. apply walk_sound; vm_compute; congruence. Defined.

(** C23. Every path of at most 16 entries, counting the unnamed ones the walk
    climbs through as well, that needs fewer than 32 steps, mount crossings
    included, is collected in full and not marked truncated. *)
Theorem walk_complete `{KL : KernelLayout} (m : mem) (d v : Z) (root : fs_root)
    (buf : path_components) (n : nat) (ds : list Z) :
  length (pc_hashes buf) = MAX_COMPONENTS -> d <> 0 -> real_mount v <> 0 ->
  resolves m root d (real_mount v) v n ds ->
  (n < MAX_PATH_WALK_STEPS)%nat -> (length ds <= MAX_COMPONENTS)%nat ->
  pc_truncated (collect_path_components m d v root buf).2 = 0
  /\ buf_components (collect_path_components m d v root buf).2 = component_hashes m ds.
Proof. intros. by eapply collect_complete. Qed.

(** /etc/shadow in the scenario. *)
Lemma shadow_resolves :
  resolves mem_etc (task_fs_root mem_etc TASK) SHADOW (real_mount VFS) VFS 2 [SHADOW; ETC].
Proof.
  apply resolves_climb; [intros [H _]; vm_compute in H; congruence|vm_compute; congruence..|].
  replace (d_parent mem_etc SHADOW) with ETC by (vm_compute; reflexivity).
  apply resolves_climb; [intros [H _]; vm_compute in H; congruence|vm_compute; congruence..|].
  apply resolves_root. split; vm_compute; reflexivity.
Qed.

Lemma walk_complete_witness :
  buf_components (collect_path_components mem_etc SHADOW VFS (task_fs_root mem_etc TASK)
    zero_path_components).2 = component_hashes mem_etc [SHADOW; ETC].
Proof.
  apply (walk_complete mem_etc SHADOW VFS (task_fs_root mem_etc TASK) zero_path_components 2
    [SHADOW; ETC] ltac:(reflexivity) ltac:(vm_compute; congruence) ltac:(vm_compute; congruence)
    shadow_resolves); unfold MAX_PATH_WALK_STEPS, MAX_COMPONENTS; simpl; lia.
Defined.

(** C24. A path with more than 16 named components, or one that takes 32 steps
    or more, is marked truncated: it is never mistaken for its own suffix. *)
Theorem walk_truncates `{KL : KernelLayout} (m : mem) (d v : Z) (root : fs_root)
    (buf : path_components) (n : nat) (ds : list Z) :
  length (pc_hashes buf) = MAX_COMPONENTS -> d <> 0 -> real_mount v <> 0 ->
  resolves m root d (real_mount v) v n ds ->
  (MAX_PATH_WALK_STEPS <= n)%nat \/ (MAX_COMPONENTS < length (component_hashes m ds))%nat ->
  pc_truncated (collect_path_components m d v root buf).2 <> 0.
Proof.
  intros Hl Hd Hv Hres Hbig Ht.
  destruct (collect_sound m d v root buf Hl Ht Hd Hv) as (n' & ds' & Hn' & Hres' & Hc).
  destruct (resolves_det _ _ _ _ _ _ _ _ _ Hres Hres') as [<- <-].
  destruct Hbig as [Hbig|Hbig]; [lia|].
  pose proof (length_buf_components _ (collect_ok m d v root buf Hl)) as Hlen.
  rewrite Hc in Hlen. pose proof (collect_ok m d v root buf Hl) as [_ Hcount]. lia.
Qed.

(** A chain of 17 directories below the root, all named "etc". *)
Definition deep_mem : mem :=
  mem_of (dentry_stores R R 0 0 0 ++ mount_stores MNT R MNT R ++ name_stores 0x8000 name_etc
    ++ concat (map (fun i => dentry_stores (0x10000 + 0x100 * Z.of_nat i)
         (if (i =? 0)%nat then R else 0x10000 + 0x100 * (Z.of_nat i - 1)) 0x8000 3 0) (seq 0 17))).

(** The dentry chain from index [i] down to the first directory. *)
Fixpoint deep_chain (i : nat) : list Z :=
  (0x10000 + 0x100 * Z.of_nat i) :: match i with O => [] | S i' => deep_chain i' end.

Lemma deep_resolves :
  resolves deep_mem (FsRoot R VFS) (0x10000 + 0x100 * 16) (real_mount VFS) VFS 17 (deep_chain 16).
Proof.
  assert (forall i, (i <= 16)%nat ->
    resolves deep_mem (FsRoot R VFS) (0x10000 + 0x100 * Z.of_nat i) (real_mount VFS) VFS (S i)
      (deep_chain i)) as H; [|apply (H 16%nat); lia].
  assert (Forall (fun i =>
    (0x10000 + 0x100 * Z.of_nat i =? R) = false
    /\ (0x10000 + 0x100 * Z.of_nat i =? mnt_mnt_root deep_mem (real_mount VFS)) = false
    /\ d_parent deep_mem (0x10000 + 0x100 * Z.of_nat i)
       = if (i =? 0)%nat then R else 0x10000 + 0x100 * (Z.of_nat i - 1)) (seq 0 17)) as Hc.
  { repeat (apply Forall_cons; split); [vm_compute; auto..|]. apply Forall_nil. exact I. }
  rewrite Forall_forall in Hc.
  induction i as [|i IH]; intros Hi; (edestruct Hc as (Hr & Hm & Hp);
    [apply elem_of_seq; split; [apply Nat.le_0_l|]; simpl; eapply Nat.lt_succ_r; exact Hi|]);
    apply Z.eqb_neq in Hr, Hm; cbn [deep_chain]; apply resolves_climb;
    [intros [Heq _]; contradiction|done|rewrite Hp; simpl; unfold R; lia|rewrite Hp; simpl; unfold R; lia| |
     intros [Heq _]; contradiction|done|rewrite Hp; simpl; lia|rewrite Hp; simpl; lia|]; rewrite Hp.
  - apply resolves_root. split; reflexivity.
  - simpl Nat.eqb. cbv iota. replace (Z.of_nat (S i) - 1) with (Z.of_nat i) by lia. apply IH. lia.
Qed.

Lemma walk_truncates_witness :
  pc_truncated (collect_path_components deep_mem (0x10000 + 0x100 * 16) VFS (FsRoot R VFS)
    zero_path_components).2 <> 0.
Proof.
  apply (walk_truncates deep_mem (0x10000 + 0x100 * 16) VFS (FsRoot R VFS) zero_path_components 17
    (deep_chain 16) ltac:(reflexivity) ltac:(lia) ltac:(vm_compute; congruence) deep_resolves).
  right. vm_compute. lia.
Defined.
