(* ===== verification/StateMachine.v ===== *)
(** * The path state machine

    [check_path_state_machine] of bpfjailer-bpf/src/main.bpf.c walks the
    transitions userspace compiled from a role's patterns over the components a
    path walk collected.  [run] is the same decision stated over the list of
    component hashes from the root down, with no buffer, index or bound;
    [check_refines_run] relates them. *)

From S2P Require Import Prelude CLayout BpfMap Kernel KernelTypes Types Machine Scenario Hash PathWalk.

(** What a transition table answers; [path_states] and [exec_states] are both
    read this way. *)
Abbreviation transitions := (path_state_key -> option path_state_value).

Section machine.
Context (delta : transitions) (role_id : Z).

(** [val->decision ? 1 : -13] *)
Definition verdict_of (v : path_state_value) : Z :=
  if sv_decision v =? 0 then -13 else 1.

(** The exact key first, then the wildcard key of the same state. *)
Definition transition (state h : Z) : option path_state_value :=
  match delta (PathStateKey role_id state h) with
  | Some v => Some v
  | None => delta (PathStateKey role_id state 0)
  end.

(** The check after the loop: is the state reached accepting by itself? *)
Definition final_verdict (state : Z) : Z :=
  match delta (PathStateKey role_id state 0) with
  | Some v => if sv_is_terminal v =? 0 then 0 else verdict_of v
  | None => 0
  end.

(** The bounded loop from index [i]; [count] and [hashes] are the buffer's. *)
Fixpoint sm_loop (count : Z) (hashes : list Z) (fuel : nat) (i state : Z) : Z :=
  match fuel with
  | O => final_verdict state
  | S fuel' =>
      if count <=? i then final_verdict state
      else
      let idx := u32 (count - 1 - i) in
      if Z.of_nat MAX_COMPONENTS <=? idx then final_verdict state
      else
      let idx := Z.land idx (Z.of_nat MAX_COMPONENTS - 1) in
      let h := default 0 (hashes !! Z.to_nat idx) in
      match transition state h with
      | None => 0
      | Some v =>
          if sv_is_terminal v =? 0
          then sm_loop count hashes fuel' (i + 1) (sv_next_state v)
          else verdict_of v
      end
  end.

Definition sm_check (buf : path_components) : Z :=
  if pc_count buf =? 0 then 0
  else if negb (pc_truncated buf =? 0) then 0
  else
  let count := if Z.of_nat MAX_COMPONENTS <? pc_count buf
  then Z.of_nat MAX_COMPONENTS else pc_count buf in
  sm_loop count (pc_hashes buf) MAX_COMPONENTS 0 PATH_STATE_ROOT.

(** ** The decision, root to leaf *)

Fixpoint run (state : Z) (path : list Z) : Z :=
  match path with
  | [] => final_verdict state
  | h :: path' =>
      match transition state h with
      | None => 0
      | Some v => if sv_is_terminal v =? 0 then run (sv_next_state v) path' else verdict_of v
      end
  end.

Lemma sm_loop_run count hashes fuel i state :
  length hashes = MAX_COMPONENTS -> 0 <= i <= count -> count <= Z.of_nat MAX_COMPONENTS ->
  count - i <= Z.of_nat fuel ->
  sm_loop count hashes fuel i state = run state (reverse (take (Z.to_nat (count - i)) hashes)).
Proof.
  intros Hl. revert i state. induction fuel as [|fuel IH]; intros i state Hi Hc Hf; simpl.
  { replace (count - i) with 0 by lia. done. }
  destruct (Z.leb_spec count i); [by replace (count - i) with 0 by lia|].
  unfold MAX_COMPONENTS in *.
  rewrite (wrap_small 32) by (unfold in_width; lia).
  destruct (Z.leb_spec (Z.of_nat 16) (count - 1 - i)); [lia|].
  replace (Z.of_nat 16 - 1) with (Z.ones 4) by done.
  rewrite Z.land_ones by lia. change (2 ^ 4) with 16. rewrite Z.mod_small by lia.
  destruct (lookup_lt_is_Some_2 hashes (Z.to_nat (count - 1 - i))) as [h Hh]; [lia|].
  rewrite Hh. simpl default.
  replace (Z.to_nat (count - i)) with (S (Z.to_nat (count - 1 - i))) by lia.
  rewrite (take_S_r _ _ _ Hh), reverse_app. simpl.
  destruct (transition state h) as [v|]; [|done].
  destruct (sv_is_terminal v =? 0); [|done].
  rewrite IH by lia. do 4 f_equal. lia.
Qed.

Lemma sm_check_run buf :
  buf_ok buf ->
  sm_check buf
  = if (pc_count buf =? 0) || negb (pc_truncated buf =? 0) then 0
  else run PATH_STATE_ROOT (reverse (buf_components buf)).
Proof.
  intros [Hl Hc]. unfold sm_check.
  destruct (pc_count buf =? 0); [done|].
  destruct (pc_truncated buf =? 0); cbn [negb orb]; [|done].
  destruct (Z.ltb_spec (Z.of_nat MAX_COMPONENTS) (pc_count buf)); [lia|].
  rewrite sm_loop_run by (try lia; done). unfold buf_components. do 4 f_equal. lia.
Qed.

#[global] Instance sm_check_proper : Proper (buf_equiv ==> (=)) sm_check.
Proof.
  intros b1 b2 (Hok1 & Hok2 & Hc & Ht & Hb).
  by rewrite !sm_check_run, Hc, Ht, Hb.
Qed.

Lemma verdict_of_range v : verdict_of v = 1 \/ verdict_of v = -13.
Proof. unfold verdict_of. case_match; auto. Qed.

Lemma final_verdict_range state : final_verdict state ∈ [1; 0; -13].
Proof.
  unfold final_verdict. destruct (delta _) as [v|]; [|set_solver].
  destruct (verdict_of_range v) as [-> | ->]; case_match; set_solver.
Qed.

Lemma run_range state path : run state path ∈ [1; 0; -13].
Proof.
  revert state. induction path as [|h path IH]; intros state; simpl;
    [apply final_verdict_range|].
  destruct (transition state h) as [v|]; [|set_solver]. case_match; [apply IH|].
  destruct (verdict_of_range v) as [-> | ->]; set_solver.
Qed.

End machine.

(** The verdict depends only on the role's own transitions. *)
Lemma run_ext delta delta' role_id state path :
  (forall st h, delta (PathStateKey role_id st h) = delta' (PathStateKey role_id st h)) ->
  run delta role_id state path = run delta' role_id state path.
Proof.
  intros Hext. revert state. induction path as [|h path IH]; intros state; simpl.
  - unfold final_verdict. by rewrite Hext.
  - unfold transition. rewrite !Hext. repeat case_match; auto.
Qed.

(** [check_path_state_machine(&states, role_id, buf)], over the contents of
    the map it is given. *)
Definition check_path_state_machine
    (states : map_decl path_state_key path_state_value) (contents : bpf_map)
    (role_id : Z) (buf : path_components) : Z :=
  sm_check (map_lookup states contents) role_id buf.

(** The first four bytes of a transition key are the role. *)
Lemma key_role_bytes (states : map_decl path_state_key path_state_value) k :
  md_key states = path_state_key_repr -> take 4 (key_image states k) = le_bytes 4 (sk_role_id k).
Proof. intros Hk. unfold key_image. rewrite Hk. destruct k. done. Qed.

(** ** Properties *)

(** C21. On a well-formed buffer the bounded, index-juggling walk returns the
    verdict of [run] over the recorded components from the root down; an empty
    or truncated walk matches no rule. *)
Theorem check_refines_run (states : map_decl path_state_key path_state_value) (contents : bpf_map)
    (role_id : Z) (buf : path_components) :
  buf_ok buf ->
  check_path_state_machine states contents role_id buf
  = if (pc_count buf =? 0) || negb (pc_truncated buf =? 0) then 0
    else run (map_lookup states contents) role_id PATH_STATE_ROOT (reverse (buf_components buf)).
Proof. apply sm_check_run. Qed.

(** /etc denied for role 7. *)
Definition deny_etc : list (path_state_key * path_state_value) :=
  [(PathStateKey 7 0 (fnv1a_hash_u64 name_etc), PathStateValue PATH_STATE_REJECT 1 0 0)].

(** What a walk of /etc/shadow leaves. *)
Definition shadow_buf : path_components :=
  PathComponents (fnv1a_hash_u64 name_shadow :: fnv1a_hash_u64 name_etc :: replicate 14 0) 2 0.

Lemma shadow_buf_ok : buf_ok shadow_buf.
Proof. split; vm_compute; [reflexivity|split; congruence]. Qed.

Lemma check_refines_run_witness :
  check_path_state_machine path_states (contents path_states deny_etc) 7 shadow_buf
  = run (map_lookup path_states (contents path_states deny_etc)) 7 0
      [fnv1a_hash_u64 name_etc; fnv1a_hash_u64 name_shadow].
Proof.
  transitivity (if (pc_count shadow_buf =? 0) || negb (pc_truncated shadow_buf =? 0) then 0
    else run (map_lookup path_states (contents path_states deny_etc)) 7 PATH_STATE_ROOT
           (reverse (buf_components shadow_buf))).
  - apply check_refines_run, shadow_buf_ok.
  - reflexivity.
Defined.

(** Roles are isolated: a transition written for one role never changes a
    verdict of another. *)
Theorem roles_isolated (states : map_decl path_state_key path_state_value) (contents : bpf_map)
    (role_id role_id' st h : Z) (v : path_state_value) (buf : path_components) :
  md_key states = path_state_key_repr -> is_array (md_type states) = false ->
  in_width 32 role_id -> in_width 32 role_id' -> role_id <> role_id' -> buf_ok buf ->
  check_path_state_machine states (map_store states contents (PathStateKey role_id' st h) v) role_id buf
  = check_path_state_machine states contents role_id buf.
Proof.
  intros Hk Ht Hr Hr' Hne Hok. unfold check_path_state_machine. rewrite !sm_check_run by done.
  case_match; [done|]. apply run_ext. intros st' h'. rewrite !map_lookup_hash by done.
  unfold map_store. rewrite lookup_insert_ne; [done|]. intros Heq. apply Hne.
  apply (f_equal (take 4)) in Heq. rewrite !key_role_bytes in Heq by done. simpl sk_role_id in Heq.
  rewrite <-(le_value_le_bytes 4 role_id Hr), <-(le_value_le_bytes 4 role_id' Hr'). by rewrite Heq.
Qed.

Lemma roles_isolated_witness :
  check_path_state_machine path_states
    (map_store path_states (contents path_states deny_etc)
      (PathStateKey 8 0 (fnv1a_hash_u64 name_etc)) (PathStateValue PATH_STATE_ACCEPT 1 1 0)) 7 shadow_buf
  = check_path_state_machine path_states (contents path_states deny_etc) 7 shadow_buf.
Proof.
  apply roles_isolated; [reflexivity|reflexivity|vm_compute; split; congruence
    |vm_compute; split; congruence|lia|apply shadow_buf_ok].
Defined.
