(* ===== verification/Enrollment.v ===== *)
(** * Enrollment and inheritance

    [check_pending_enrollment] (userspace asked for a pid to be jailed; the
    first hook it runs into moves the request into its task storage) and the
    [task_alloc] hook (a child inherits its parent's jail), both of
    bpfjailer-bpf/src/main.bpf.c. *)

From S2P Require Import Prelude CLayout BpfMap Kernel KernelTypes Types Machine Scenario.

Definition check_pending_enrollment (e : hook_env) (task pid : Z) : prog unit :=
  s <-- get ;;
  match map_lookup pending_enrollments (m_pending_enrollments s) pid with
  | None => ret tt
  | Some pending =>
      if pi_pod_id pending =? 0 then ret tt
      else
        info <-- task_storage_get_create e task ;;
        match info with
        | Some _ => task_storage_write task pending
        | None => ret tt
        end ;;;
        modify (set_pending_enrollments (fun m => (map_delete pending_enrollments m pid).2))
  end.

Definition task_alloc (e : hook_env) (task : Z) : prog Z :=
  info <-- task_storage_get_create e task ;;
  match info with
  | None => ret 0
  | Some _ =>
      parent_info <-- task_storage_get (e_current_task e) ;;
      match parent_info with
      | Some parent =>
          if negb (pi_pod_id parent =? 0)
          then task_storage_write task parent
          else task_storage_write task zero_process_info
      | None => task_storage_write task zero_process_info
      end ;;;
      ret 0
  end.

(** ** Pending enrollments *)

(** The request waiting for [pid], if it names a pod. *)
Definition pending_for (s : bpf_state) (pid : Z) : option process_info :=
  match map_lookup pending_enrollments (m_pending_enrollments s) pid with
  | Some p => if pi_pod_id p =? 0 then None else Some p
  | None => None
  end.

(** Everything but the task storage and the pending requests. *)
Definition enrollment_frame (s s' : bpf_state) : Prop :=
  m_role_flags s' = m_role_flags s /\ m_network_rules s' = m_network_rules s
  /\ m_path_states s' = m_path_states s /\ m_exec_states s' = m_exec_states s
  /\ m_path_decision_cache s' = m_path_decision_cache s
  /\ m_cache_generation s' = m_cache_generation s
  /\ m_exec_enrollment s' = m_exec_enrollment s
  /\ m_cgroup_enrollment s' = m_cgroup_enrollment s
  /\ m_ip_rules s' = m_ip_rules s /\ m_proxy_config s' = m_proxy_config s
  /\ m_domain_rules s' = m_domain_rules s /\ m_dns_cache s' = m_dns_cache s
  /\ m_path_buf s' = m_path_buf s /\ m_audit_events s' = m_audit_events s.

#[export] Instance enrollment_frame_preorder : PreOrder enrollment_frame.
Proof.
  unfold enrollment_frame. split.
  - intros s. by split_and!.
  - intros s1 s2 s3 H1 H2. destruct_and!. split_and!; congruence.
Qed.

Lemma check_pending_frame e task pid s :
  enrollment_frame s (check_pending_enrollment e task pid s).2.
Proof.
  unfold check_pending_enrollment, task_storage_get_create, task_storage_write. unfold_prog.
  repeat (case_match; simplify_eq; try reflexivity); by split_and!.
Qed.

(** With nothing waiting, nothing happens. *)
Lemma check_pending_none e task pid s :
  pending_for s pid = None -> check_pending_enrollment e task pid s = (tt, s).
Proof.
  unfold pending_for, check_pending_enrollment. unfold_prog.
  repeat (case_match; try done).
Qed.

(** A waiting request reaches the storage of the task that ran into it, when
    that storage exists or can be allocated, and is gone in every case. *)
Lemma check_pending_some e task pid s p :
  pending_for s pid = Some p ->
  (check_pending_enrollment e task pid s).2
  = set_pending_enrollments (fun m => (map_delete pending_enrollments m pid).2)
      (if bool_decide (is_Some (m_task_storage s !! task)) || e_storage_alloc e task
       then set_task_storage <[task := p]> s else s).
Proof.
  unfold pending_for, check_pending_enrollment, task_storage_get_create, task_storage_write.
  unfold_prog. intros Hp. repeat (case_match; simplify_eq; try done); simpl.
  - f_equal. unfold set_task_storage. simpl. by rewrite insert_insert_eq.
Qed.

Lemma check_pending_storage e task pid s t :
  t <> task ->
  m_task_storage (check_pending_enrollment e task pid s).2 !! t = m_task_storage s !! t.
Proof.
  intros Hne. destruct (pending_for s pid) as [p|] eqn:Hp.
  - rewrite (check_pending_some _ _ _ _ _ Hp). simpl. case_match; simpl; [|done].
    by rewrite lookup_insert_ne.
  - by rewrite (check_pending_none _ _ _ _ Hp).
Qed.

Lemma check_pending_self e task pid s :
  m_task_storage (check_pending_enrollment e task pid s).2 !! task
  = match pending_for s pid with
    | Some p => if bool_decide (is_Some (m_task_storage s !! task)) || e_storage_alloc e task
                then Some p else m_task_storage s !! task
    | None => m_task_storage s !! task
    end.
Proof.
  destruct (pending_for s pid) as [p|] eqn:Hp.
  - rewrite (check_pending_some _ _ _ _ _ Hp). simpl. case_match; simpl; [|done].
    by rewrite lookup_insert_eq.
  - by rewrite (check_pending_none _ _ _ _ Hp).
Qed.

(** A request names a pod. *)
Lemma pending_for_pod s pid p : pending_for s pid = Some p -> pi_pod_id p <> 0.
Proof.
  unfold pending_for. repeat case_match; try done. intros [= <-]. by apply Z.eqb_neq.
Qed.

(** Once looked for, a request is gone. *)
Lemma check_pending_gone e task pid s p :
  pending_for s pid = Some p ->
  pending_for (check_pending_enrollment e task pid s).2 pid = None.
Proof.
  intros Hp. rewrite (check_pending_some _ _ _ _ _ Hp). unfold pending_for.
  cbn [m_pending_enrollments set_pending_enrollments].
  rewrite map_lookup_hash by done. by rewrite map_delete_lookup_eq.
Qed.

(** ** Inheritance *)

(** A fork is never refused. *)
Lemma task_alloc_verdict e task s : (task_alloc e task s).1 = 0.
Proof.
  unfold task_alloc, task_storage_get_create, task_storage_get, task_storage_write.
  unfold_prog. repeat (case_match; simplify_eq; simpl); done.
Qed.

Lemma task_alloc_storage e task s t :
  t <> task -> m_task_storage (task_alloc e task s).2 !! t = m_task_storage s !! t.
Proof.
  intros Hne. unfold task_alloc, task_storage_get_create, task_storage_get, task_storage_write.
  unfold_prog. repeat (case_match; simplify_eq; simpl); rewrite ?lookup_insert_ne; done.
Qed.

Lemma task_alloc_frame e task s :
  enrollment_frame s (task_alloc e task s).2
  /\ m_pending_enrollments (task_alloc e task s).2 = m_pending_enrollments s.
Proof.
  unfold task_alloc, task_storage_get_create, task_storage_get, task_storage_write. unfold_prog.
  repeat (case_match; simplify_eq; simpl); split; try done; by split_and!.
Qed.

(** What the child's storage holds after [task_alloc]: the parent's, when the
    parent is enrolled, and a cleared one otherwise. *)
Lemma task_alloc_child e task s :
  task <> e_current_task e ->
  bool_decide (is_Some (m_task_storage s !! task)) || e_storage_alloc e task = true ->
  m_task_storage (task_alloc e task s).2 !! task
  = Some (match m_task_storage s !! e_current_task e with
          | Some parent => if pi_pod_id parent =? 0 then zero_process_info else parent
          | None => zero_process_info
          end).
Proof.
  intros Hne Hok.
  unfold task_alloc, task_storage_get_create, task_storage_get, task_storage_write. unfold_prog.
  destruct (m_task_storage s !! task) as [i|] eqn:Et; simpl in *.
  - repeat (case_match; simplify_eq; simpl in *); by rewrite lookup_insert_eq.
  - rewrite Hok. simpl. rewrite lookup_insert_ne by done.
    repeat (case_match; simplify_eq; simpl in *); by rewrite lookup_insert_eq.
Qed.

(** A hook that cannot allocate storage leaves the state alone. *)
Lemma task_alloc_fail e task s :
  m_task_storage s !! task = None -> e_storage_alloc e task = false ->
  task_alloc e task s = (0, s).
Proof.
  intros Ht Ha. unfold task_alloc, task_storage_get_create. unfold_prog.
  by rewrite Ht, Ha.
Qed.

(** ** Properties *)

(** The storage of [task] exists or can be created. *)
Definition storage_available (e : hook_env) (s : bpf_state) (task : Z) : bool :=
  bool_decide (is_Some (m_task_storage s !! task)) || e_storage_alloc e task.

(** A child forked by a jailed task starts with its parent's record, pod,
    role, depth and flags alike; a child of an unjailed task starts cleared.
    The fork itself is never refused and no other task's record is touched. *)
Theorem fork_inherits (e : hook_env) (task : Z) (s : bpf_state) :
  task <> e_current_task e -> storage_available e s task = true ->
  (task_alloc e task s).1 = 0
  /\ m_task_storage (task_alloc e task s).2 !! task
     = Some (match m_task_storage s !! e_current_task e with
             | Some parent => if pi_pod_id parent =? 0 then zero_process_info else parent
             | None => zero_process_info
             end)
  /\ (forall t, t <> task -> m_task_storage (task_alloc e task s).2 !! t = m_task_storage s !! t).
Proof.
  intros Hne Ha. split_and!.
  - apply task_alloc_verdict.
  - by apply task_alloc_child.
  - intros t. apply task_alloc_storage.
Qed.

Lemma fork_inherits_witness :
  m_task_storage (task_alloc (env_with mem_etc) CHILD (jailed_state 0 [])).2 !! CHILD
  = Some jailed_info.
Proof.
  apply (fork_inherits (env_with mem_etc) CHILD (jailed_state 0 []));
    [vm_compute; congruence|reflexivity].
Defined.

(** When the storage of a new child cannot be allocated the fork still
    succeeds and the child runs outside its parent's jail. *)
Theorem fork_fails_open (e : hook_env) (task : Z) (s : bpf_state) :
  storage_available e s task = false ->
  task_alloc e task s = (0, s) /\ enrolled (task_alloc e task s).2 task = false.
Proof.
  unfold storage_available. intros [Hs Ha]%orb_false_iff.
  apply bool_decide_eq_false, eq_None_not_Some in Hs.
  rewrite task_alloc_fail by done. split; [done|]. unfold enrolled. simpl. by rewrite Hs.
Qed.

(** The same task, with no memory left for task storage. *)
Definition env_no_storage : hook_env :=
  HookEnv TASK (Z.shiftl 42 32) 1000 0 (fun _ => 0) mem_etc (fun _ => false) [] true.

Lemma fork_fails_open_witness :
  enrolled (jailed_state 0 []) TASK = true
  /\ enrolled (task_alloc env_no_storage CHILD (jailed_state 0 [])).2 CHILD = false.
Proof. split; [reflexivity|]. apply fork_fails_open. reflexivity. Defined.

(** A request waiting for a pid reaches, in full, the record of the first
    task of that process that looks for it, and is then gone; no other task and
    no policy map changes. *)
Theorem pending_migrates (e : hook_env) (task pid : Z) (s : bpf_state) (p : process_info) :
  pending_for s pid = Some p -> storage_available e s task = true ->
  let s' := (check_pending_enrollment e task pid s).2 in
  m_task_storage s' !! task = Some p /\ enrolled s' task = true /\ pending_for s' pid = None
  /\ (forall t, t <> task -> m_task_storage s' !! t = m_task_storage s !! t)
  /\ enrollment_frame s s'.
Proof.
  intros Hp Ha s'.
  assert (m_task_storage s' !! task = Some p) as Hs.
  { unfold s'. rewrite check_pending_self, Hp. fold (storage_available e s task). by rewrite Ha. }
  split_and!; [done| | |intros t; apply check_pending_storage|apply check_pending_frame].
  - unfold enrolled. rewrite Hs. apply pending_for_pod, Z.eqb_neq in Hp. by rewrite Hp.
  - by eapply check_pending_gone.
Qed.

(** An unjailed [TASK], with a request for pid 42 waiting. *)
Definition requested_state : bpf_state :=
  BpfState ∅ ∅ ∅ (contents pending_enrollments [(42, jailed_info)]) ∅ ∅ ∅ ∅ ∅ ∅ ∅ ∅ ∅ ∅
    zero_path_components [].

Lemma pending_migrates_witness :
  enrolled requested_state TASK = false
  /\ enrolled (check_pending_enrollment (env_with mem_etc) TASK 42 requested_state).2 TASK = true.
Proof.
  split; [reflexivity|].
  apply (pending_migrates (env_with mem_etc) TASK 42 requested_state jailed_info);
    [vm_compute; reflexivity|reflexivity].
Defined.

(** A request is consumed by one task: the other threads of the process
    find nothing, whoever asks next, and when the first task's storage cannot
    be allocated the request is lost and nobody is jailed. *)
Theorem pending_consumed_once (e e' : hook_env) (task task' pid : Z) (s : bpf_state) (p : process_info) :
  pending_for s pid = Some p -> task' <> task ->
  let s' := (check_pending_enrollment e task pid s).2 in
  check_pending_enrollment e' task' pid s' = (tt, s')
  /\ m_task_storage s' !! task' = m_task_storage s !! task'
  /\ (storage_available e s task = false -> m_task_storage s' = m_task_storage s).
Proof.
  intros Hp Hne s'. split_and!.
  - apply check_pending_none. by eapply check_pending_gone.
  - by apply check_pending_storage.
  - unfold s', storage_available. intros Ha. rewrite (check_pending_some _ _ _ _ _ Hp), Ha. done.
Qed.

Lemma pending_consumed_once_witness :
  let s' := (check_pending_enrollment env_no_storage TASK 42 requested_state).2 in
  check_pending_enrollment (env_with mem_etc) CHILD 42 s' = (tt, s') /\ m_task_storage s' = ∅.
Proof.
  destruct (pending_consumed_once env_no_storage (env_with mem_etc) TASK CHILD 42 requested_state
    jailed_info) as (H1 & _ & H2); [vm_compute; reflexivity|vm_compute; congruence|].
  split; [exact H1|]. apply H2. reflexivity.
Defined.
