(* ===== verification/Satellites.v ===== *)
(** * The other BPF objects

    The smaller programs beside main.bpf.c: bpfjailer-bpf/src/process_tracking.bpf.c
    (a second copy of the fork hook), the placeholder hooks of
    path_matching.bpf.c, networking.bpf.c and signed_binary.bpf.c, and the
    task-storage test of test_task_storage/src/main.bpf.c. *)

From S2P Require Import Prelude CLayout BpfMap Kernel KernelTypes Types Machine Scenario Enrollment.

(** ** process_tracking.bpf.c *)

Module ProcessTracking.
Definition pod_to_role : map_decl Z Z := MapDecl BPF_MAP_TYPE_HASH 1024 u64_repr u32_repr.

Definition process_tracking_task_alloc (e : hook_env) (task : Z) : prog Z :=
  info <-- task_storage_get_create e task ;;
  match info with
  | None => ret 0
  | Some _ =>
      parent_info <-- task_storage_get (e_current_task e) ;;
      match parent_info with
      | Some parent =>
          if negb (pi_pod_id parent =? 0)
          then task_storage_write task parent
          else task_storage_write task (ProcessInfo 0 0 0 0)
      | None => task_storage_write task (ProcessInfo 0 0 0 0)
      end ;;;
      ret 0
  end.

(** The two copies of the fork hook are one function. *)
Lemma task_alloc_copies_agree e task s :
  process_tracking_task_alloc e task s = task_alloc e task s.
Proof. done. Qed.

(** Attached to the same hook over the same map, the second changes nothing
    the first did not. *)
Lemma task_alloc_idempotent e task s :
  task <> e_current_task e ->
  process_tracking_task_alloc e task (task_alloc e task s).2 = task_alloc e task s.
Proof.
  intros Hne. rewrite task_alloc_copies_agree.
  destruct (storage_available e s task) eqn:Ha; unfold storage_available in Ha.
  - pose proof (task_alloc_child e task s Hne Ha) as Hc.
    pose proof (task_alloc_storage e task s (e_current_task e) (not_eq_sym Hne)) as Hp.
    rewrite (surjective_pairing (task_alloc e task s)) at 2. rewrite task_alloc_verdict.
    destruct (task_alloc e task s) as [r s1]. simpl in Hc, Hp |- *.
    unfold task_alloc, task_storage_get_create, task_storage_get, task_storage_write. unfold_prog.
    rewrite Hc, Hp. destruct s1 as [ts]. simpl in *. unfold set_task_storage. simpl.
    destruct (m_task_storage s !! e_current_task e) as [parent|]; simpl;
      [destruct (pi_pod_id parent =? 0); simpl|]; by rewrite insert_id.
  - apply orb_false_iff in Ha as [Hs Ha]. apply bool_decide_eq_false, eq_None_not_Some in Hs.
    rewrite (task_alloc_fail e task s Hs Ha). by apply task_alloc_fail.
Qed.
End ProcessTracking.

(** ** path_matching.bpf.c, networking.bpf.c, signed_binary.bpf.c *)

Module Placeholders.
Definition MAX_PATH_COMPONENTS : Z := 255.
Definition MAX_COMPONENT_LEN : Z := 255.

Definition path_decision_cache : map_decl Z Z := MapDecl BPF_MAP_TYPE_HASH 1024 u64_repr u32_repr.
Definition path_patterns : map_decl Z Z := MapDecl BPF_MAP_TYPE_HASH 10240 u32_repr u8_repr.
Definition allowed_ports : map_decl Z Z := MapDecl BPF_MAP_TYPE_HASH 1024 u32_repr u16_repr.
Definition allowed_addresses : map_decl Z Z := MapDecl BPF_MAP_TYPE_HASH 1024 u32_repr u8_repr.
Definition verified_binaries : map_decl Z Z := MapDecl BPF_MAP_TYPE_HASH 1024 u64_repr u8_repr.

Definition path_matching_file_open (file : Z) : prog Z := ret 0.
Definition networking_socket_bind (sock address addrlen : Z) : prog Z := ret 0.
Definition networking_socket_connect (sock address addrlen : Z) : prog Z := ret 0.
Definition networking_socket_sendmsg (sock msg size : Z) : prog Z := ret 0.
Definition networking_socket_recvmsg (sock msg size flags : Z) : prog Z := ret 0.
Definition signed_binary_mmap_file (file reqprot prot flags : Z) : prog Z := ret 0.
End Placeholders.

(** ** test_task_storage *)

Module TaskStorageTest.
Record test_value := TestValue {
  tv_counter : Z;
  tv_flags : Z;
}.

Definition test_value_repr : crepr test_value :=
  CRepr [8; 4]%nat (fun v => [tv_counter v; tv_flags v])
    (fun l => match l with
    | [a; b] => TestValue a b
    | _ => TestValue 0 0
    end).

#[export] Instance test_value_repr_ok : CReprOk test_value_repr.
Proof. solve_crepr. Qed.

(** The storage of the current task, not of the new one. *)
Definition test_task_alloc (e : hook_env) (task : Z) (storage : gmap Z test_value)
    : Z * gmap Z test_value :=
  let current_task := e_current_task e in
  if bool_decide (is_Some (storage !! current_task)) || e_storage_alloc e current_task
  then (0, <[current_task := TestValue 1 0]> storage)
  else (0, storage).

(** The counter does not count: however often a task forks it reads 1. *)
Lemma test_counter_saturates e task task' storage :
  (test_task_alloc e task' (test_task_alloc e task storage).2) = test_task_alloc e task storage.
Proof.
  unfold test_task_alloc.
  destruct (bool_decide (is_Some (storage !! e_current_task e)) || e_storage_alloc e (e_current_task e))
    eqn:Ha; simpl; [|by rewrite Ha].
  rewrite lookup_insert_eq, bool_decide_eq_true_2 by eauto. simpl. by rewrite insert_insert_eq.
Qed.
End TaskStorageTest.
