(* ===== verification/Hooks.v ===== *)
(** * What the LSM hooks share

    The denial path (audit record and error return), the well-formedness of the
    program state that every hook keeps, and the statement that a verdict is
    audited exactly when it denies. *)

From S2P Require Import Prelude CLayout BpfMap Kernel Types Machine Enrollment.

(** Emit a denial and return the error: [emit_audit_event(...); return -err;] *)
Definition audit_deny_with (err : Z) (e : hook_env) (info : process_info) (hook_type context : Z)
    : prog Z :=
  emit_audit_event e (current_pid e) (pi_role_id info) (pi_pod_id info)
    AUDIT_DECISION_DENY hook_type context ;;;
  ret (- err).

Abbreviation audit_deny := (audit_deny_with EACCES).

(** ** Well-formed states *)

Definition storage_fits (s : bpf_state) : Prop :=
  map_Forall (fun _ info => c_fits process_info_repr info) (m_task_storage s).

(** The well-formedness every hook relies on and keeps: stored records fit
    their struct, and the walk buffer has its declared length. *)
Definition state_ok (s : bpf_state) : Prop :=
  storage_fits s /\ length (pc_hashes (m_path_buf s)) = MAX_COMPONENTS.

Lemma pending_for_fits s pid p : pending_for s pid = Some p -> c_fits process_info_repr p.
Proof.
  unfold pending_for. repeat case_match; try done. intros [= <-].
  by eapply (map_lookup_fits pending_enrollments).
Qed.

Lemma zero_process_info_fits : c_fits process_info_repr zero_process_info.
Proof. solve_fits; apply in_width_0; lia. Qed.

Lemma check_pending_state_ok e task pid s :
  state_ok s -> state_ok (check_pending_enrollment e task pid s).2.
Proof.
  intros [Hs Hb]. destruct (pending_for s pid) as [p|] eqn:Hp.
  - rewrite (check_pending_some _ _ _ _ _ Hp). case_match; [|done]. split; [|done].
    apply map_Forall_insert_2; [|done]. by eapply pending_for_fits.
  - by rewrite (check_pending_none _ _ _ _ Hp).
Qed.

Lemma task_alloc_state_ok e task s : state_ok s -> state_ok (task_alloc e task s).2.
Proof.
  intros [Hs Hb]. pose proof zero_process_info_fits as Hz.
  unfold task_alloc, task_storage_get_create, task_storage_get, task_storage_write. unfold_prog.
  repeat (case_match; simplify_eq; simpl); split; try done; unfold storage_fits; simpl;
    repeat apply map_Forall_insert_2; try done;
    repeat match goal with
    | H : <[_ := _]> _ !! _ = Some _ |- _ =>
        apply lookup_insert_Some in H as [[_ <-]|[_ H]]; try done
    | H : m_task_storage _ !! _ = Some _ |- _ => apply Hs in H
    end; done.
Qed.

(** ** Frames *)

(** Only the cache, the walk buffer and the audit log. *)
Definition decision_frame (s s' : bpf_state) : Prop :=
  m_task_storage s' = m_task_storage s /\ m_role_flags s' = m_role_flags s
  /\ m_network_rules s' = m_network_rules s
  /\ m_pending_enrollments s' = m_pending_enrollments s
  /\ m_path_states s' = m_path_states s /\ m_exec_states s' = m_exec_states s
  /\ m_cache_generation s' = m_cache_generation s
  /\ m_exec_enrollment s' = m_exec_enrollment s
  /\ m_cgroup_enrollment s' = m_cgroup_enrollment s
  /\ m_ip_rules s' = m_ip_rules s /\ m_proxy_config s' = m_proxy_config s
  /\ m_domain_rules s' = m_domain_rules s /\ m_dns_cache s' = m_dns_cache s.

#[export] Instance decision_frame_preorder : PreOrder decision_frame.
Proof.
  unfold decision_frame. split.
  - intros s. by split_and!.
  - intros s1 s2 s3 H1 H2. destruct_and!. split_and!; congruence.
Qed.

(** ** Audited verdicts *)

(** A hook outcome that allows silently, or denies with [err] after exactly one
    audit record of type [hook_type]. *)
Definition audited_verdict (e : hook_env) (err hook_type : Z) (s : bpf_state)
    (res : Z * bpf_state) : Prop :=
  (res.1 = 0 /\ m_audit_events res.2 = m_audit_events s)
  \/ (res.1 = - err /\ exists role_id pod_id context,
        m_audit_events res.2
        = AuditEvent (e_ktime_ns e) (current_pid e) role_id AUDIT_DECISION_DENY hook_type
            context pod_id :: m_audit_events s).

Lemma audited_allow e err hook s s' :
  m_audit_events s' = m_audit_events s -> audited_verdict e err hook s (0, s').
Proof. by left. Qed.

Lemma audited_deny e err hook ctx info s s' :
  m_audit_events s' = m_audit_events s ->
  audited_verdict e err hook s (audit_deny_with err e info hook ctx s').
Proof. intros Hs. right. split; [done|]. simpl. rewrite Hs. eauto. Qed.

#[export] Hint Resolve audited_allow audited_deny : jailer.
