(* ===== verification/FileOpen.v ===== *)
(** * The file_open hook

    [file_open] of bpfjailer-bpf/src/main.bpf.c and the hooks that invalidate
    its decision cache ([path_rename], [sb_mount], [sb_umount]).  The cache is
    an optimisation: [cache_coherent] says what its entries claim, and the
    theorems show that with a coherent cache the hook decides exactly what an
    uncached evaluation of the policy decides. *)

From S2P Require Import Prelude CLayout BpfMap Kernel KernelTypes Types Machine Scenario Hash PathWalk StateMachine Enrollment Hooks.

Section hook.
Context `{KL : KernelLayout}.

(** The key a file's decision is cached under. *)
Definition file_cache_key (e : hook_env) (info : process_info) (dentry vfsmnt inode : Z)
    (root : fs_root) : path_cache_key :=
  PathCacheKey (pi_role_id info) dentry vfsmnt inode (fr_dentry root) (fr_mnt root).

(** The block under [if (dentry)]: [Some v] is an early return of [v]. *)
Definition file_path_decision (e : hook_env) (info : process_info) (dentry vfsmnt : Z)
    : prog (option Z) :=
  let m := e_mem e in
  s <-- get ;;
  let current_gen := default 0 (map_lookup cache_generation (m_cache_generation s) 0) in
  let inode := d_inode m dentry in
  let root := task_fs_root m (e_current_task e) in
  let cache_key := file_cache_key e info dentry vfsmnt inode root in
  let cached := if inode =? 0 then None
  else map_lookup path_decision_cache (m_path_decision_cache s) cache_key in
  let hit := match cached with
    | Some c => if cv_generation c =? current_gen then Some c else None
    | None => None
    end in
  match hit with
  | Some c =>
      if negb (cv_decision c =? 0) then ret (Some 0)
      else v <-- audit_deny e info AUDIT_HOOK_FILE_OPEN inode ;; ret (Some v)
  | None =>
      let buf := (collect_path_components m dentry vfsmnt root (m_path_buf s)).2 in
      modify (set_path_buf buf) ;;;
      let result := check_path_state_machine path_states (m_path_states s) (pi_role_id info) buf in
      if negb (result =? 0) then
      (if negb (inode =? 0) && e_lru_update_ok e then
        modify (set_path_decision_cache (fun c =>
          (map_update path_decision_cache (e_lru_victims e) c cache_key
          (PathCacheValue (if result =? 1 then 1 else 0) current_gen)).2))
        else ret tt) ;;;
      if result =? 1 then ret (Some 0)
      else v <-- audit_deny e info AUDIT_HOOK_FILE_OPEN inode ;; ret (Some v)
      else ret None
  end.

Definition file_open (e : hook_env) (file : Z) : prog Z :=
  let m := e_mem e in
  let task := e_current_task e in
  check_pending_enrollment e task (current_pid e) ;;;
  info <-- task_storage_get task ;;
  match info with
  | None => ret 0
  | Some info =>
      if pi_pod_id info =? 0 then ret 0
      else
      s <-- get ;;
      match map_lookup role_flags (m_role_flags s) (pi_role_id info) with
      | None => audit_deny e info AUDIT_HOOK_FILE_OPEN 0
      | Some flags =>
          let dentry := f_path_dentry m file in
          let vfsmnt := f_path_mnt m file in
          decision <-- (if dentry =? 0 then ret None
            else file_path_decision e info dentry vfsmnt) ;;
          match decision with
          | Some v => ret v
          | None =>
              if Z.land flags 0x01 =? 0
              then audit_deny e info AUDIT_HOOK_FILE_OPEN 0
              else ret 0
          end
      end
  end.
End hook.

(** ** Cache invalidation *)

(** [__sync_fetch_and_add(gen, 1)] on the single element of the array. *)
Definition bump_generation : prog unit :=
  s <-- get ;;
  match map_lookup cache_generation (m_cache_generation s) 0 with
  | Some gen =>
      modify (set_cache_generation (fun m => map_store cache_generation m 0 (u32 (gen + 1))))
  | None => ret tt
  end.

Definition path_rename `{KL : KernelLayout} (e : hook_env) (old_dentry : Z) : prog Z :=
  if d_inode (e_mem e) old_dentry =? 0 then ret 0
  else bump_generation ;;; ret 0.

Definition sb_mount : prog Z := bump_generation ;;; ret 0.

Definition sb_umount : prog Z := bump_generation ;;; ret 0.

(** ** The uncached decision *)

Section coherence.
Context `{KL : KernelLayout}.

(** What walking a path and running the role's file rules decides, with a
    fresh buffer and no cache: 1 allow, -13 deny, 0 no rule. *)
Definition path_verdict (m : mem) (states : bpf_map) (role_id dentry vfsmnt : Z)
    (root : fs_root) : Z :=
  check_path_state_machine path_states states role_id
    (collect_path_components m dentry vfsmnt root zero_path_components).2.

(** An entry of the current generation repeats the decision the walk makes;
    [R] restricts that to the entries of some roles. *)
Definition cache_coherent_for (R : Z -> Prop) (m : mem) (s : bpf_state) : Prop :=
  forall k v, R (ck_role_id k) -> c_fits path_cache_key_repr k ->
  map_lookup path_decision_cache (m_path_decision_cache s) k = Some v ->
  cv_generation v = generation s ->
  let r := path_verdict m (m_path_states s) (ck_role_id k) (ck_dentry k) (ck_mnt k)
    (FsRoot (ck_root_dentry k) (ck_root_mnt k)) in
  r <> 0 /\ (cv_decision v <> 0 <-> r = 1).

Definition cache_coherent : mem -> bpf_state -> Prop := cache_coherent_for (fun _ => True).

(** The policy for one open, stated without cache, buffer or early return. *)
Definition file_policy (e : hook_env) (s : bpf_state) (info : process_info) (flags file : Z) : Z :=
  let m := e_mem e in
  let r := if f_path_dentry m file =? 0 then 0
  else path_verdict m (m_path_states s) (pi_role_id info) (f_path_dentry m file)
    (f_path_mnt m file) (task_fs_root m (e_current_task e)) in
  if r =? 1 then 0
  else if r =? 0 then (if Z.land flags 0x01 =? 0 then - EACCES else 0)
  else - EACCES.

Lemma path_verdict_range m states role d v root : path_verdict m states role d v root ∈ [1; 0; -13].
Proof.
  unfold path_verdict, check_path_state_machine.
  rewrite sm_check_run by (apply collect_ok; done).
  case_match; [set_solver|apply run_range].
Qed.

(** The walk's verdict does not depend on what the buffer held. *)
Lemma path_verdict_buf m states role d v root buf :
  length (pc_hashes buf) = MAX_COMPONENTS ->
  check_path_state_machine path_states states role
    (collect_path_components m d v root buf).2
  = path_verdict m states role d v root.
Proof.
  intros Hl. unfold path_verdict, check_path_state_machine.
  apply sm_check_proper. by apply collect_stale.
Qed.

Lemma file_cache_key_fits e info d v :
  c_fits process_info_repr info -> in_width 64 d -> in_width 64 v ->
  c_fits path_cache_key_repr
    (file_cache_key e info d v (d_inode (e_mem e) d) (task_fs_root (e_mem e) (e_current_task e))).
Proof.
  intros Hi Hd Hv. unfold c_fits in *. cbn in Hi.
  apply Forall2_cons_inv_l in Hi as (? & ? & _ & Hi & [= <- <-]).
  apply Forall2_cons_inv_l in Hi as (? & ? & Hr & _ & [= <- <-]).
  cbn; repeat (apply Forall2_cons; split); try apply List.Forall2_nil;
    try done; unfold slot_fits; cbn; apply read_ptr_range.
Qed.

Lemma generation_range s : in_width 32 (generation s).
Proof.
  pose proof (map_lookup_fits cache_generation _ _ _ (generation_lookup s)) as Hf.
  by apply Forall2_cons_inv_l in Hf as (? & ? & Hf & _ & [= <- <-]).
Qed.

Lemma decision_fits (r : Z) s :
  c_fits path_cache_value_repr (PathCacheValue (if r =? 1 then 1 else 0) (generation s)).
Proof.
  pose proof (generation_range s) as Hgf.
  unfold c_fits. cbn; repeat (apply Forall2_cons; split); try apply List.Forall2_nil;
    unfold slot_fits; cbn; try done; destruct (r =? 1); vm_compute; split; congruence.
Qed.

(** The decision the cache holds for an open under the current generation. *)
Definition remembered (e : hook_env) (s : bpf_state) (info : process_info) (dentry vfsmnt : Z) : option Z :=
  let inode := d_inode (e_mem e) dentry in
  if inode =? 0 then None
  else match map_lookup path_decision_cache (m_path_decision_cache s)
      (file_cache_key e info dentry vfsmnt inode (task_fs_root (e_mem e) (e_current_task e))) with
    | Some c => if cv_generation c =? generation s then Some (cv_decision c) else None
    | None => None
    end.

(** What the block returns: the remembered decision if there is one, what the
    walk decides otherwise. *)
Lemma file_path_decision_remembered e info d v s :
  length (pc_hashes (m_path_buf s)) = MAX_COMPONENTS ->
  (file_path_decision e info d v s).1
  = match remembered e s info d v with
    | Some decision => Some (if decision =? 0 then - EACCES else 0)
    | None => let r := path_verdict (e_mem e) (m_path_states s) (pi_role_id info) d v
          (task_fs_root (e_mem e) (e_current_task e)) in
        if r =? 1 then Some 0 else if r =? 0 then None else Some (- EACCES)
    end.
Proof.
  intros Hbuf. unfold file_path_decision, remembered, audit_deny_with, emit_audit_event.
  unfold_prog. fold (generation s). rewrite (path_verdict_buf _ _ _ _ _ _ _ Hbuf).
  destruct (d_inode (e_mem e) d =? 0); [|destruct (map_lookup path_decision_cache _ _) as [c|];
    [destruct (cv_generation c =? generation s)|]];
    repeat (case_match; simplify_eq; simpl in *); solve [done|exfalso; lia].
Qed.

(** With a coherent cache, the cached block returns what the walk decides. *)
Lemma file_path_decision_result R e info d v s :
  state_ok s -> c_fits process_info_repr info -> in_width 64 d -> in_width 64 v ->
  R (pi_role_id info) -> cache_coherent_for R (e_mem e) s ->
  let r := path_verdict (e_mem e) (m_path_states s) (pi_role_id info) d v
    (task_fs_root (e_mem e) (e_current_task e)) in
    (file_path_decision e info d v s).1
  = if r =? 1 then Some 0 else if r =? 0 then None else Some (- EACCES).
Proof.
  intros [_ Hbuf] Hi Hd Hv HR Hco r. rewrite file_path_decision_remembered by done. fold r.
  pose proof (file_cache_key_fits e info d v Hi Hd Hv) as Hk.
  unfold remembered. destruct (d_inode (e_mem e) d =? 0); [done|].
  set (k := file_cache_key _ _ _ _ _ _) in *.
  destruct (map_lookup path_decision_cache _ _) as [c|] eqn:Hc; [|done].
  destruct (Z.eqb_spec (cv_generation c) (generation s)) as [Hg|Hg]; [|done].
  destruct (Hco k c HR Hk Hc Hg) as [Hr Hdec].
  cbn [ck_role_id ck_dentry ck_mnt ck_root_dentry ck_root_mnt file_cache_key k] in Hr, Hdec.
  subst r. destruct (task_fs_root _ _) as [rd rm]. cbn [fr_dentry fr_mnt] in Hr, Hdec.
  repeat case_match; naive_solver lia.
Qed.

(** What the block does to the cache: nothing if it holds the decision, and
    otherwise a store of what the walk decides, whatever the update evicts. *)
Lemma file_path_decision_hit e info d v s decision :
  remembered e s info d v = Some decision ->
  m_path_decision_cache (file_path_decision e info d v s).2 = m_path_decision_cache s.
Proof.
  unfold file_path_decision, remembered, audit_deny_with, emit_audit_event. unfold_prog.
  fold (generation s). destruct (d_inode (e_mem e) d =? 0); [done|].
  destruct (map_lookup path_decision_cache _ _) as [c|]; [|done].
  destruct (cv_generation c =? generation s); [|done]. intros _. by case_match.
Qed.

Lemma file_path_decision_store e info d v s :
  length (pc_hashes (m_path_buf s)) = MAX_COMPONENTS ->
  d_inode (e_mem e) d <> 0 -> e_lru_update_ok e = true -> remembered e s info d v = None ->
  let r := path_verdict (e_mem e) (m_path_states s) (pi_role_id info) d v
    (task_fs_root (e_mem e) (e_current_task e)) in
  r <> 0 ->
  m_path_decision_cache (file_path_decision e info d v s).2
  = map_store path_decision_cache (foldr delete (m_path_decision_cache s) (e_lru_victims e))
      (file_cache_key e info d v (d_inode (e_mem e) d) (task_fs_root (e_mem e) (e_current_task e)))
      (PathCacheValue (if r =? 1 then 1 else 0) (generation s)).
Proof.
  intros Hbuf Hi Hlru Hrem r Hr. revert Hrem.
  unfold file_path_decision, remembered, audit_deny_with, emit_audit_event. unfold_prog.
  fold (generation s). rewrite (path_verdict_buf _ _ _ _ _ _ _ Hbuf). fold r.
  apply Z.eqb_neq in Hi, Hr. rewrite Hi, Hlru, Hr.
  destruct (map_lookup path_decision_cache _ _) as [c|];
    [destruct (cv_generation c =? generation s); [done|]|]; intros _; by destruct (r =? 1).
Qed.

Lemma remembered_ext e e' s s' info d v :
  e_mem e' = e_mem e -> e_current_task e' = e_current_task e ->
  m_path_decision_cache s' = m_path_decision_cache s -> m_cache_generation s' = m_cache_generation s ->
  remembered e' s' info d v = remembered e s info d v.
Proof. unfold remembered, file_cache_key, generation. by intros -> -> -> ->. Qed.

(** ** What the block changes *)

Lemma file_path_decision_frame e info d v s :
  decision_frame s (file_path_decision e info d v s).2.
Proof.
  unfold file_path_decision, audit_deny_with, emit_audit_event. unfold_prog.
  repeat (case_match; simplify_eq; simpl); by split_and!.
Qed.

(** Once the walk has decided an open of a file with an inode, and the cache
    took the decision, the next open finds it. *)
Lemma file_path_decision_remembers e info d v s :
  length (pc_hashes (m_path_buf s)) = MAX_COMPONENTS ->
  d_inode (e_mem e) d <> 0 -> e_lru_update_ok e = true ->
  path_verdict (e_mem e) (m_path_states s) (pi_role_id info) d v
    (task_fs_root (e_mem e) (e_current_task e)) <> 0 ->
  exists decision, remembered e (file_path_decision e info d v s).2 info d v = Some decision
    /\ (file_path_decision e info d v s).1 = Some (if decision =? 0 then - EACCES else 0).
Proof.
  intros Hbuf Hi Hlru Hr. rewrite file_path_decision_remembered by done.
  assert (m_cache_generation (file_path_decision e info d v s).2 = m_cache_generation s) as Hg
    by apply file_path_decision_frame.
  destruct (remembered e s info d v) as [decision|] eqn:Hrem.
  - exists decision. split; [|done]. rewrite <-Hrem. apply remembered_ext; [done..| |exact Hg].
    by apply (file_path_decision_hit _ _ _ _ _ decision).
  - pose proof (file_path_decision_store e info d v s Hbuf Hi Hlru Hrem Hr) as Hst. cbv zeta in Hst.
    set (r := path_verdict _ _ _ _ _ _) in *. exists (if r =? 1 then 1 else 0). split.
    + unfold remembered. apply Z.eqb_neq in Hi. rewrite Hi, Hst.
      rewrite (map_lookup_store_eq path_decision_cache); [|done|apply decision_fits].
      assert (generation (file_path_decision e info d v s).2 = generation s) as ->
        by (unfold generation; by rewrite Hg).
      cbn [cv_generation cv_decision]. by rewrite Z.eqb_refl.
    + cbv zeta. destruct (Z.eqb_spec r 1), (Z.eqb_spec r 0); done.
Qed.

Lemma file_path_decision_state_ok e info d v s :
  state_ok s -> state_ok (file_path_decision e info d v s).2.
Proof.
  intros [Hs Hb].
  assert (length (pc_hashes (collect_path_components (e_mem e) d v
      (task_fs_root (e_mem e) (e_current_task e)) (m_path_buf s)).2) = MAX_COMPONENTS) as Hb'
    by by apply collect_ok.
  unfold file_path_decision, audit_deny_with, emit_audit_event. unfold_prog.
  repeat (case_match; simplify_eq; simpl); by split.
Qed.

(** Storing a decision the walk just made keeps the cache coherent. *)
Lemma cache_coherent_store R m s k evicted :
  c_fits path_cache_key_repr k -> cache_coherent_for R m s ->
  let r := path_verdict m (m_path_states s) (ck_role_id k) (ck_dentry k) (ck_mnt k)
    (FsRoot (ck_root_dentry k) (ck_root_mnt k)) in
  r <> 0 ->
  cache_coherent_for R m (set_path_decision_cache (fun c =>
      (map_update path_decision_cache evicted c k
      (PathCacheValue (if r =? 1 then 1 else 0) (generation s))).2) s).
Proof.
  intros Hk Hco r Hr k' v' HR Hk' Hl Hg.
  change (map_lookup path_decision_cache (map_store path_decision_cache
      (foldr delete (m_path_decision_cache s) evicted) k
      (PathCacheValue (if r =? 1 then 1 else 0) (generation s))) k' = Some v') in Hl.
  assert (generation (set_path_decision_cache (fun c =>
      (map_update path_decision_cache evicted c k
      (PathCacheValue (if r =? 1 then 1 else 0) (generation s))).2) s) = generation s) as Hgen by done.
  rewrite Hgen in Hg. simpl m_path_states.
  destruct (decide (key_image path_decision_cache k' = key_image path_decision_cache k)) as [Heq|Hne].
  - apply (to_bytes_inj path_cache_key_repr) in Heq; [|done..]. subst k'.
    rewrite (map_lookup_store_eq path_decision_cache) in Hl; [|done|].
    + injection Hl as <-. simpl. split; [done|].
      fold r. destruct (Z.eqb_spec r 1); split; done.
    + apply decision_fits.
  - apply (Hco k' v' HR Hk'); [|done].
    rewrite map_lookup_hash in Hl |- * by done. unfold map_store in Hl.
    rewrite lookup_insert_ne in Hl by done.
    apply fmap_Some in Hl as (bs & Hbs & ->). apply foldr_delete_sub in Hbs. by rewrite Hbs.
Qed.

Lemma cache_coherent_ext R m s s' :
  m_path_states s' = m_path_states s -> m_cache_generation s' = m_cache_generation s ->
  m_path_decision_cache s' = m_path_decision_cache s ->
  cache_coherent_for R m s -> cache_coherent_for R m s'.
Proof. unfold cache_coherent_for, generation. intros -> -> ->. done. Qed.

Lemma file_path_decision_coherent R e info d v s :
  state_ok s -> c_fits process_info_repr info -> in_width 64 d -> in_width 64 v ->
  cache_coherent_for R (e_mem e) s ->
  cache_coherent_for R (e_mem e) (file_path_decision e info d v s).2.
Proof.
  intros [_ Hbuf] Hi Hd Hv Hco.
  pose proof (cache_coherent_store R (e_mem e) s _ (e_lru_victims e)
      (file_cache_key_fits e info d v Hi Hd Hv) Hco) as Hst.
  cbn [file_cache_key ck_role_id ck_dentry ck_mnt ck_root_dentry ck_root_mnt] in Hst.
  unfold file_path_decision, audit_deny_with, emit_audit_event, file_cache_key. unfold_prog.
  fold (generation s). rewrite (path_verdict_buf _ _ _ _ _ _ _ Hbuf).
  destruct (task_fs_root _ _) as [rd rm]. cbn [fr_dentry fr_mnt] in *.
  destruct (Z.eqb_spec (path_verdict (e_mem e) (m_path_states s) (pi_role_id info) d v
      (FsRoot rd rm)) 0) as [Hr|Hr]; cbn [negb].
  - repeat (case_match; simplify_eq; simpl); by apply (cache_coherent_ext _ _ s).
  - specialize (Hst Hr). destruct (path_verdict _ _ _ _ _ _ =? 1);
      repeat (case_match; simplify_eq; simpl);
      solve [by apply (cache_coherent_ext _ _ s)
        | by apply (cache_coherent_ext _ _ _ _ eq_refl eq_refl eq_refl Hst)].
Qed.
End coherence.

(** ** The hook *)

Section file_open_facts.
Context `{KL : KernelLayout}.

(** The state in which [file_open] looks its task up. *)
Definition after_pending (e : hook_env) (s : bpf_state) : bpf_state :=
  (check_pending_enrollment e (e_current_task e) (current_pid e) s).2.

Lemma after_pending_frame e s : enrollment_frame s (after_pending e s).
Proof. apply check_pending_frame. Qed.

Lemma after_pending_state_ok e s : state_ok s -> state_ok (after_pending e s).
Proof. apply check_pending_state_ok. Qed.

(** [file_open] after the enrollment lookup, one equation per branch. *)
Lemma file_open_eq e file s :
  file_open e file s =
  match m_task_storage (after_pending e s) !! e_current_task e with
  | None => (0, after_pending e s)
  | Some info =>
      if pi_pod_id info =? 0 then (0, after_pending e s)
      else match map_lookup role_flags (m_role_flags s) (pi_role_id info) with
        | None => audit_deny e info AUDIT_HOOK_FILE_OPEN 0 (after_pending e s)
        | Some flags =>
            let '(decision, s') :=
            if f_path_dentry (e_mem e) file =? 0 then (None, after_pending e s)
            else file_path_decision e info (f_path_dentry (e_mem e) file)
              (f_path_mnt (e_mem e) file) (after_pending e s) in
            match decision with
            | Some v => (v, s')
            | None => if Z.land flags 0x01 =? 0
                then audit_deny e info AUDIT_HOOK_FILE_OPEN 0 s' else (0, s')
            end
        end
  end.
Proof.
  unfold file_open, task_storage_get. unfold_prog.
  pose proof (after_pending_frame e s) as Hf. unfold after_pending in *.
  destruct (check_pending_enrollment _ _ _ s) as [[] s1]. simpl in *.
  assert (m_role_flags s1 = m_role_flags s) as <- by apply Hf.
  repeat (case_match; simplify_eq; try done).
Qed.

Lemma file_path_decision_audited e info d v s :
  match (file_path_decision e info d v s).1 with
  | Some r => audited_verdict e EACCES AUDIT_HOOK_FILE_OPEN s
      (r, (file_path_decision e info d v s).2)
  | None => m_audit_events (file_path_decision e info d v s).2 = m_audit_events s
  end.
Proof.
  unfold file_path_decision, audit_deny_with, emit_audit_event. unfold_prog.
  repeat (case_match; simplify_eq; simpl in *); try done;
    first [by left|right; split; [done|]; simpl; eauto].
Qed.

Lemma file_open_audited e file s :
  audited_verdict e EACCES AUDIT_HOOK_FILE_OPEN s (file_open e file s).
Proof.
  rewrite file_open_eq.
  assert (m_audit_events (after_pending e s) = m_audit_events s) as Ha
    by apply after_pending_frame.
  destruct (m_task_storage _ !! _) as [info|]; [|auto with jailer].
  destruct (pi_pod_id info =? 0); [auto with jailer|].
  destruct (map_lookup role_flags _ _) as [flags|]; [|auto with jailer].
  destruct (f_path_dentry (e_mem e) file =? 0).
  - case_match; auto with jailer.
  - pose proof (file_path_decision_audited e info (f_path_dentry (e_mem e) file)
        (f_path_mnt (e_mem e) file) (after_pending e s)) as Hd.
    destruct (file_path_decision _ _ _ _ _) as [[r|] s']; simpl in Hd.
    + unfold audited_verdict in *. by rewrite Ha in Hd.
    + rewrite Ha in Hd. case_match; auto with jailer.
Qed.

(** The cached hook decides what the uncached policy decides. *)
Lemma file_open_policy_for (R : Z -> Prop) e file s :
  state_ok s -> cache_coherent_for R (e_mem e) s ->
  (forall info, m_task_storage (after_pending e s) !! e_current_task e = Some info -> R (pi_role_id info)) ->
  (file_open e file s).1 =
  match m_task_storage (after_pending e s) !! e_current_task e with
  | None => 0
  | Some info =>
      if pi_pod_id info =? 0 then 0
      else match map_lookup role_flags (m_role_flags s) (pi_role_id info) with
        | None => - EACCES
        | Some flags => file_policy e s info flags file
        end
  end.
Proof.
  intros Hok Hco HR. rewrite file_open_eq.
  pose proof (after_pending_state_ok e s Hok) as Hok1.
  pose proof (after_pending_frame e s) as Hf.
  destruct (m_task_storage _ !! _) as [info|] eqn:Ht; [|done].
  specialize (HR info eq_refl). apply Hok1 in Ht as Hfit.
  destruct (pi_pod_id info =? 0); [done|].
  destruct (map_lookup role_flags _ _) as [flags|]; [|done].
  unfold file_policy. destruct (Z.eqb_spec (f_path_dentry (e_mem e) file) 0) as [Hd|Hd].
  { simpl. by case_match. }
  pose proof (file_path_decision_result R e info (f_path_dentry (e_mem e) file)
      (f_path_mnt (e_mem e) file) (after_pending e s) Hok1 Hfit (read_ptr_range _ _)
      (read_ptr_range _ _) HR) as Hres.
  assert (m_path_states (after_pending e s) = m_path_states s) as Hps by apply Hf.
  rewrite Hps in Hres.
  destruct (file_path_decision _ _ _ _ _) as [r s']. simpl in Hres.
  rewrite Hres by (apply (cache_coherent_ext _ _ s); try apply Hf; done).
  repeat (case_match; simplify_eq; try done).
Qed.

(** What the cache remembers of an open, and the hook in terms of it, whatever
    the cache holds. *)
Definition remembered_open (e : hook_env) (s : bpf_state) (info : process_info) (file : Z) : option Z :=
  if f_path_dentry (e_mem e) file =? 0 then None
  else remembered e s info (f_path_dentry (e_mem e) file) (f_path_mnt (e_mem e) file).

Lemma file_open_remembered e file s :
  state_ok s ->
  (file_open e file s).1 =
  match m_task_storage (after_pending e s) !! e_current_task e with
  | None => 0
  | Some info =>
      if pi_pod_id info =? 0 then 0
      else match map_lookup role_flags (m_role_flags s) (pi_role_id info) with
        | None => - EACCES
        | Some flags => match remembered_open e s info file with
          | Some decision => if decision =? 0 then - EACCES else 0
          | None => file_policy e s info flags file
          end
        end
  end.
Proof.
  intros Hok. rewrite file_open_eq.
  pose proof (after_pending_state_ok e s Hok) as [_ Hbuf]. pose proof (after_pending_frame e s) as Hf.
  destruct (m_task_storage _ !! _) as [info|]; [|done]. destruct (pi_pod_id info =? 0); [done|].
  destruct (map_lookup role_flags _ _) as [flags|]; [|done]. unfold remembered_open, file_policy.
  destruct (Z.eqb_spec (f_path_dentry (e_mem e) file) 0) as [Hd|Hd]; [simpl; by case_match|].
  pose proof (file_path_decision_remembered e info (f_path_dentry (e_mem e) file)
    (f_path_mnt (e_mem e) file) (after_pending e s) Hbuf) as Hres.
  rewrite (remembered_ext e e s (after_pending e s)) in Hres by (done || apply Hf).
  assert (m_path_states (after_pending e s) = m_path_states s) as Hps by apply Hf.
  rewrite Hps in Hres. destruct (file_path_decision _ _ _ _ _) as [r s']. simpl in Hres. rewrite Hres.
  destruct (remembered _ _ _ _ _); repeat (case_match; simplify_eq; try done).
Qed.

(** What makes an open one that a path rule decides and the cache then holds. *)
Definition decided_by_rule (e : hook_env) (s : bpf_state) (info : process_info) (file : Z) : Prop :=
  let dentry := f_path_dentry (e_mem e) file in
  dentry <> 0 /\ d_inode (e_mem e) dentry <> 0 /\ e_lru_update_ok e = true
  /\ path_verdict (e_mem e) (m_path_states s) (pi_role_id info) dentry (f_path_mnt (e_mem e) file)
       (task_fs_root (e_mem e) (e_current_task e)) <> 0.

(** Such an open is answered alike from then on, as long as nothing touches the
    cache, its generation and the task's record; whatever becomes of the rules. *)
Lemma file_open_repeats e e' file s s' info flags flags' :
  state_ok s -> state_ok s' ->
  e_mem e' = e_mem e -> e_current_task e' = e_current_task e ->
  after_pending e s = s -> after_pending e' s' = s' ->
  m_task_storage s !! e_current_task e = Some info -> pi_pod_id info <> 0 ->
  map_lookup role_flags (m_role_flags s) (pi_role_id info) = Some flags ->
  map_lookup role_flags (m_role_flags s') (pi_role_id info) = Some flags' ->
  decided_by_rule e s info file ->
  m_task_storage s' = m_task_storage s ->
  m_path_decision_cache s' = m_path_decision_cache (file_open e file s).2 ->
  m_cache_generation s' = m_cache_generation (file_open e file s).2 ->
  (file_open e' file s').1 = (file_open e file s).1.
Proof.
  intros Hok Hok' Hm Ht Hap Hap' Hi Hpod Hf Hf' (Hd & Hino & Hlru & Hr) Hts Hc Hg.
  rewrite file_open_remembered, Hap', Hts, Ht, Hi, Hf' by done.
  rewrite file_open_eq, Hap, Hi, Hf in Hc, Hg |- *.
  apply Z.eqb_neq in Hpod, Hd as Hd'. rewrite Hpod in Hc, Hg |- *. rewrite Hd' in Hc, Hg |- *.
  unfold remembered_open. rewrite Hm, Hd'.
  destruct (file_path_decision_remembers e info (f_path_dentry (e_mem e) file) (f_path_mnt (e_mem e) file) s)
    as (decision & Hrem & Hv); [apply Hok|done..|].
  destruct (file_path_decision _ _ _ _ s) as [r s1]. cbn [fst snd] in *. subst r. cbn [fst snd] in Hc, Hg.
  rewrite (remembered_ext e e' s1 s') by done. by rewrite Hrem.
Qed.

Lemma file_open_policy e file s :
  state_ok s -> cache_coherent (e_mem e) s ->
  (file_open e file s).1 =
  match m_task_storage (after_pending e s) !! e_current_task e with
  | None => 0
  | Some info =>
      if pi_pod_id info =? 0 then 0
      else match map_lookup role_flags (m_role_flags s) (pi_role_id info) with
        | None => - EACCES
        | Some flags => file_policy e s info flags file
        end
  end.
Proof. intros Hok Hco. by apply (file_open_policy_for (fun _ => True)). Qed.

Lemma file_open_preserves (R : Z -> Prop) e file s :
  state_ok s -> cache_coherent_for R (e_mem e) s ->
  state_ok (file_open e file s).2 /\ cache_coherent_for R (e_mem e) (file_open e file s).2.
Proof.
  intros Hok Hco. rewrite file_open_eq.
  pose proof (after_pending_state_ok e s Hok) as Hok1.
  pose proof (after_pending_frame e s) as Hf.
  assert (cache_coherent_for R (e_mem e) (after_pending e s)) as Hco1
    by (apply (cache_coherent_ext _ _ s); try apply Hf; done).
  assert (forall s' info ctx, state_ok s' /\ cache_coherent_for R (e_mem e) s' ->
      state_ok (audit_deny e info AUDIT_HOOK_FILE_OPEN ctx s').2
      /\ cache_coherent_for R (e_mem e) (audit_deny e info AUDIT_HOOK_FILE_OPEN ctx s').2) as Hdeny.
  { intros s' i ctx [? ?]. split; [done|]. by apply (cache_coherent_ext _ _ s'). }
  destruct (m_task_storage _ !! _) as [info|] eqn:Ht; [|done].
  apply Hok1 in Ht as Hfit.
  destruct (pi_pod_id info =? 0); [done|].
  destruct (map_lookup role_flags _ _) as [flags|]; [|by apply Hdeny].
  destruct (f_path_dentry (e_mem e) file =? 0).
  { case_match; [by apply Hdeny|done]. }
  pose proof (file_path_decision_state_ok e info (f_path_dentry (e_mem e) file)
      (f_path_mnt (e_mem e) file) _ Hok1) as Hok2.
  pose proof (file_path_decision_coherent R e info (f_path_dentry (e_mem e) file)
      (f_path_mnt (e_mem e) file) _ Hok1 Hfit (read_ptr_range _ _) (read_ptr_range _ _) Hco1) as Hco2.
  destruct (file_path_decision _ _ _ _ _) as [[r|] s']; [done|].
  case_match; [by apply Hdeny|done].
Qed.
End file_open_facts.

(** ** Invalidation *)

Lemma bump_generation_eq s :
  bump_generation s
  = (tt, set_cache_generation (fun m => map_store cache_generation m 0 (u32 (generation s + 1))) s).
Proof.
  unfold bump_generation. unfold_prog. rewrite generation_lookup. done.
Qed.

Lemma generation_bump s :
  generation (bump_generation s).2 = u32 (generation s + 1).
Proof.
  rewrite bump_generation_eq. unfold generation at 1. cbn [snd m_cache_generation set_cache_generation].
  rewrite (map_lookup_array_store_eq cache_generation); [done|done|vm_compute; done|].
  unfold c_fits. cbn. repeat (apply Forall2_cons; split); try apply List.Forall2_nil.
  unfold slot_fits. cbn. apply (wrap_range 32). lia.
Qed.

(** No entry was written under a generation that has not happened yet. *)
Definition cache_not_ahead (s : bpf_state) : Prop :=
  forall k v, map_lookup path_decision_cache (m_path_decision_cache s) k = Some v ->
    cv_generation v <= generation s.

(** After a bump that does not wrap, every entry is out of date, whatever the
    filesystem or the rules have become. *)
Lemma bump_invalidates `{KL : KernelLayout} R m s :
  cache_not_ahead s -> generation s + 1 < 2 ^ 32 ->
  cache_coherent_for R m (bump_generation s).2.
Proof.
  intros Hna Hg k v _ _ Hl Hgen. exfalso. rewrite generation_bump in Hgen.
  rewrite bump_generation_eq in Hl. simpl in Hl. apply Hna in Hl.
  pose proof (generation_range s) as [Hf _].
  rewrite wrap_small in Hgen; [lia|]. split; lia.
Qed.

(** ** Properties *)

Lemma jailed_info_fits : c_fits process_info_repr jailed_info.
Proof. solve_fits; vm_compute; split; congruence. Qed.

Lemma jailed_state_ok flags states : state_ok (jailed_state flags states).
Proof. split; [|done]. apply map_Forall_singleton, jailed_info_fits. Qed.

Lemma empty_cache_lookup s k :
  m_path_decision_cache s = ∅ ->
  map_lookup path_decision_cache (m_path_decision_cache s) k = None.
Proof. intros ->. by rewrite map_lookup_hash, lookup_empty. Qed.

Lemma empty_cache_coherent `{KL : KernelLayout} m s :
  m_path_decision_cache s = ∅ -> cache_coherent m s.
Proof. intros He k v _ _ Hl _. by rewrite empty_cache_lookup in Hl. Qed.


(** The state of [jailed_state] that remembers the open of [FILE] as allowed. *)
Definition stale_state : bpf_state :=
  set_path_decision_cache (fun c => map_store path_decision_cache c
    (file_cache_key (env_with mem_etc) jailed_info (f_path_dentry mem_etc FILE) (f_path_mnt mem_etc FILE)
      (d_inode mem_etc (f_path_dentry mem_etc FILE)) (task_fs_root mem_etc TASK)) (PathCacheValue 1 0))
    (jailed_state 0x01 deny_etc).


(** Renaming an existing file, mounting and unmounting always succeed and
    leave no cached decision usable, whatever the filesystem becomes, as long
    as the 32-bit counter does not wrap. *)
Theorem invalidation_sound `{KL : KernelLayout} (e : hook_env) (old_dentry : Z) (m : mem) (s : bpf_state) :
  cache_not_ahead s -> generation s + 1 < 2 ^ 32 -> d_inode (e_mem e) old_dentry <> 0 ->
  Forall (fun hook : prog Z =>
      (hook s).1 = 0 /\ cache_coherent m (hook s).2 /\ generation (hook s).2 = generation s + 1)
    [path_rename e old_dentry; sb_mount; sb_umount].
Proof.
  intros Hna Hg Hi. apply Z.eqb_neq in Hi.
  pose proof (bump_invalidates (fun _ => True) m s Hna Hg) as Hb.
  assert (generation (bump_generation s).2 = generation s + 1) as Hgen.
  { rewrite generation_bump. apply wrap_small. pose proof (generation_range s) as [? _]. split; lia. }
  unfold path_rename, sb_mount, sb_umount, bind, ret. rewrite Hi.
  repeat apply List.Forall_cons; [..|apply List.Forall_nil]; cbn beta;
    destruct (bump_generation s) as [[] s']; done.
Qed.

Lemma invalidation_sound_witness :
  cache_coherent mem_home
    (path_rename (env_with mem_etc) SHADOW
      (file_open (env_with mem_etc) FILE (jailed_state 0x01 deny_etc)).2).2.
Proof.
  set (s := (file_open (env_with mem_etc) FILE (jailed_state 0x01 deny_etc)).2).
  assert (cache_not_ahead s) as Hna.
  { assert (map_Forall (fun _ bs => cv_generation (of_bytes path_cache_value_repr bs) <= 0)
      (m_path_decision_cache s)) as Hall by (apply (bool_decide_unpack _); vm_compute; exact I).
    intros k v Hl. rewrite map_lookup_hash in Hl by reflexivity.
    apply fmap_Some in Hl as (bs & Hbs & ->). exact (Hall _ _ Hbs). }
  pose proof (invalidation_sound (env_with mem_etc) SHADOW mem_home s Hna) as H.
  apply Forall_cons in H as [(_ & H & _) _];
    [exact H|vm_compute; reflexivity|vm_compute; congruence].
Defined.
