(* ===== verification/Network.v ===== *)
(** * Network policy

    The address, domain, proxy and port checks of bpfjailer-bpf/src/main.bpf.c
    and the [socket_bind] and [socket_connect] hooks that combine them. *)

From Stdlib Require Import Sorting.Sorted.
From S2P Require Import Prelude CLayout BpfMap Kernel KernelTypes Types Machine Scenario Enrollment Hooks.

(** ** Byte order *)

Definition bpf_ntohs (val : Z) : Z := u16 (Z.lor (Z.shiftr val 8) (Z.shiftl val 8)).

(** [__builtin_bswap32] *)
Definition bswap32 (x : Z) : Z := le_value (reverse (le_bytes 4 x)).

(** [for (i = 0; i < 32; i++) if (i < prefix) mask |= (1 << (31 - i));] *)
Definition prefix_mask (prefix : Z) : Z :=
  fold_left (fun mask i =>
    if Z.of_nat i <? prefix then u32 (Z.lor mask (Z.shiftl 1 (31 - Z.of_nat i))) else mask)
      (seq 0 32) 0.

Definition ip_matches_cidr (ip_addr rule_ip prefix_len : Z) : Z :=
  if prefix_len =? 0 then 1
  else if 32 <=? prefix_len then (if ip_addr =? rule_ip then 1 else 0)
  else let mask := bswap32 (prefix_mask prefix_len) in
       if Z.land ip_addr mask =? Z.land rule_ip mask then 1 else 0.

(** ** The checks *)

(** [*rule ? 1 : -13] *)
Definition rule_verdict (rule : Z) : Z := if rule =? 0 then -13 else 1.

(** The prefixes tried after the exact address, in order. *)
Definition cidr_prefixes : list Z := [24; 16; 12; 8; 0].

(** The mask of one iteration, in network byte order. *)
Definition lookup_mask (prefix : Z) : Z :=
  if 0 <? prefix then bswap32 (prefix_mask prefix) else 0.

Fixpoint cidr_loop (s : bpf_state) (role_id ip_addr direction : Z) (prefixes : list Z) : Z :=
  match prefixes with
  | [] => 0
  | prefix :: prefixes' =>
      match map_lookup ip_rules (m_ip_rules s)
              (IpRuleKey role_id (Z.land ip_addr (lookup_mask prefix)) prefix direction) with
      | Some rule => rule_verdict rule
      | None => cidr_loop s role_id ip_addr direction prefixes'
      end
  end.

Definition check_ip_access (s : bpf_state) (role_id ip_addr direction : Z) : Z :=
  match map_lookup ip_rules (m_ip_rules s) (IpRuleKey role_id ip_addr 32 direction) with
  | Some rule => rule_verdict rule
  | None => cidr_loop s role_id ip_addr direction cidr_prefixes
  end.

Definition is_proxy_connection (s : bpf_state) (role_id ip_addr port : Z) : Z :=
  match map_lookup proxy_config_map (m_proxy_config s) role_id with
  | None => 0
  | Some config =>
      if px_require_proxy config =? 0 then 0
      else if (ip_addr =? px_proxy_ip config) && (port =? px_proxy_port config) then 1 else 0
  end.

Definition check_domain_access (s : bpf_state) (role_id ip_addr : Z) : Z :=
  if ip_addr =? 0 then 0
  else match map_lookup dns_cache (m_dns_cache s) (DnsCacheKey role_id ip_addr) with
       | None => 0
       | Some cached =>
           match map_lookup domain_rules (m_domain_rules s)
                   (DomainRuleKey role_id (dv_domain_hash cached)) with
           | None => 0
           | Some allow => rule_verdict allow
           end
       end.

Definition check_proxy_requirement (s : bpf_state) (role_id ip_addr port : Z) : Z :=
  match map_lookup proxy_config_map (m_proxy_config s) role_id with
  | None => 0
  | Some config =>
      if px_require_proxy config =? 0 then 0
      else if (ip_addr =? px_proxy_ip config) && (port =? px_proxy_port config) then 0
      else if Z.land ip_addr 0x000000FF =? 0x0000007F then 0
      else -13
  end.

Section hooks.
Context `{KL : KernelLayout}.

Definition check_network_access (s : bpf_state) (m : mem) (role_id sock address direction : Z) : Z :=
  let protocol := if sock_type m sock =? SOCK_STREAM then Some PROTO_TCP
  else if sock_type m sock =? SOCK_DGRAM then Some PROTO_UDP
  else None in
  match protocol with
  | None => 0
  | Some protocol =>
      let family := sa_family m address in
      let port := if family =? AF_INET then Some (bpf_ntohs (sin_port m address))
      else if family =? AF_INET6 then Some (bpf_ntohs (sin6_port m address))
      else None in
      match port with
      | None => 0
      | Some port =>
          match map_lookup network_rules (m_network_rules s)
              (NetRuleKey role_id port protocol direction) with
          | Some rule => rule_verdict rule
          | None =>
              match map_lookup network_rules (m_network_rules s)
                  (NetRuleKey role_id 0 protocol direction) with
              | Some rule => rule_verdict rule
              | None => 0
              end
          end
      end
  end.

(** The role flag and the port rules, as both hooks end. *)
Definition network_fallback (e : hook_env) (info : process_info) (hook_type context : Z)
    (flags result : Z) : prog Z :=
  if Z.land flags 0x02 =? 0 then
  if result =? 1 then ret 0 else audit_deny e info hook_type context
  else if result =? -13 then audit_deny e info hook_type context
  else ret 0.

Definition socket_bind (e : hook_env) (sock address : Z) : prog Z :=
  info <-- task_storage_get (e_current_task e) ;;
  match info with
  | None => ret 0
  | Some info =>
      if pi_pod_id info =? 0 then ret 0
      else
      s <-- get ;;
      match map_lookup role_flags (m_role_flags s) (pi_role_id info) with
      | None => audit_deny e info AUDIT_HOOK_SOCKET_BIND 0
      | Some flags =>
          let result := check_network_access s (e_mem e) (pi_role_id info) sock address 0 in
          network_fallback e info AUDIT_HOOK_SOCKET_BIND 0 flags result
      end
  end.

(** Destination address (zero unless IPv4) and port. *)
Definition destination (m : mem) (address : Z) : Z * Z :=
  let family := sa_family m address in
  if family =? AF_INET then (sin_addr m address, bpf_ntohs (sin_port m address))
  else if family =? AF_INET6 then (0, bpf_ntohs (sin6_port m address))
  else (0, 0).

Definition socket_connect (e : hook_env) (sock address : Z) : prog Z :=
  info <-- task_storage_get (e_current_task e) ;;
  match info with
  | None => ret 0
  | Some info =>
      if pi_pod_id info =? 0 then ret 0
      else
      s <-- get ;;
      let role_id := pi_role_id info in
      match map_lookup role_flags (m_role_flags s) role_id with
      | None => audit_deny e info AUDIT_HOOK_SOCKET_CONNECT 0
      | Some flags =>
          let '(dest_ip, dest_port) := destination (e_mem e) address in
          if negb (dest_ip =? 0) && (check_proxy_requirement s role_id dest_ip dest_port =? -13)
          then audit_deny e info AUDIT_HOOK_SOCKET_CONNECT dest_ip
          else
          let domain_result := if negb (dest_ip =? 0)
          then check_domain_access s role_id dest_ip else 0 in
          if domain_result =? -13 then audit_deny e info AUDIT_HOOK_SOCKET_CONNECT dest_ip
          else if domain_result =? 1 then ret 0
          else
          let ip_result := if negb (dest_ip =? 0)
          then check_ip_access s role_id dest_ip 1 else 0 in
          if ip_result =? -13 then audit_deny e info AUDIT_HOOK_SOCKET_CONNECT dest_ip
          else if ip_result =? 1 then ret 0
          else
          let result := check_network_access s (e_mem e) role_id sock address 1 in
          network_fallback e info AUDIT_HOOK_SOCKET_CONNECT dest_ip flags result
      end
  end.

(** The message hook only observes. *)
Definition socket_sendmsg (e : hook_env) (sock msg size : Z) : prog Z := ret 0.
End hooks.

(** ** Byte order facts *)

Lemma le_bytes_land n a b :
  le_bytes n (Z.land a b) = zip_with Z.land (le_bytes n a) (le_bytes n b).
Proof.
  revert a b. induction n as [|n IH]; intros a b; [done|]. simpl. f_equal.
  - change 256 with (2 ^ 8). rewrite <-!Z.land_ones by lia.
    apply Z.bits_inj'. intros i _. rewrite !Z.land_spec.
    destruct (Z.testbit a i), (Z.testbit b i), (Z.testbit (Z.ones 8) i); done.
  - rewrite <-IH. f_equal. change 256 with (2 ^ 8).
    rewrite <-!Z.shiftr_div_pow2 by lia. apply Z.shiftr_land.
Qed.

Lemma le_value_land xs ys :
  Forall is_byte xs -> Forall is_byte ys -> length xs = length ys ->
  le_value (zip_with Z.land xs ys) = Z.land (le_value xs) (le_value ys).
Proof.
  intros Hx Hy Hl.
  rewrite <-(le_bytes_le_value xs Hx) at 1. rewrite <-(le_bytes_le_value ys Hy) at 1.
  rewrite <-Hl, <-le_bytes_land. apply le_value_le_bytes.
  apply in_width_land_l; [lia|]. by apply le_value_range.
Qed.

Lemma reverse_bytes l : Forall is_byte l -> Forall is_byte (reverse l).
Proof. by rewrite Forall_reverse. Qed.

Lemma bswap32_range x : in_width 32 (bswap32 x).
Proof.
  unfold bswap32. pose proof (le_value_range (reverse (le_bytes 4 x))) as H.
  rewrite length_reverse, length_le_bytes in H. apply H, reverse_bytes, le_bytes_bytes.
Qed.
#[export] Hint Resolve bswap32_range : widths.

Lemma bswap32_involutive x : in_width 32 x -> bswap32 (bswap32 x) = x.
Proof.
  intros Hx. unfold bswap32.
  pose proof (le_bytes_le_value (reverse (le_bytes 4 x))
    (reverse_bytes _ (le_bytes_bytes 4 x))) as H.
  rewrite length_reverse, length_le_bytes in H. rewrite H, reverse_involutive.
  by apply le_value_le_bytes.
Qed.

Lemma bswap32_inj x y : in_width 32 x -> in_width 32 y -> bswap32 x = bswap32 y -> x = y.
Proof.
  intros Hx Hy Heq. rewrite <-(bswap32_involutive x Hx), <-(bswap32_involutive y Hy). by rewrite Heq.
Qed.

Lemma bswap32_land a b : bswap32 (Z.land a b) = Z.land (bswap32 a) (bswap32 b).
Proof.
  unfold bswap32. rewrite le_bytes_land.
  rewrite <-le_value_land by
    (rewrite ?length_reverse, ?length_le_bytes; auto using reverse_bytes with jailer).
  done.
Qed.

(** A port as two bytes on the wire, most significant first. *)
Lemma bpf_ntohs_wire b0 b1 :
  is_byte b0 -> is_byte b1 -> bpf_ntohs (le_value [b0; b1]) = 256 * b0 + b1.
Proof.
  unfold is_byte, bpf_ntohs. intros H0 H1. simpl le_value. rewrite Z.mul_0_r, Z.add_0_r.
  rewrite Z.shiftr_div_pow2, Z.shiftl_mul_pow2 by lia. change (2 ^ 8) with 256.
  replace ((b0 + 256 * b1) / 256) with b1 by (apply (Z.div_unique _ _ _ b0); lia).
  unfold wrap. change (2 ^ 16) with 65536.
  rewrite <-(Z.lxor_lor b1), <-Z.add_nocarry_lxor.
  2,3: apply Z.bits_inj'; intros i Hi; rewrite Z.land_spec, Z.bits_0;
    change 256 with (2 ^ 8); rewrite Z.mul_pow2_bits by lia;
    destruct (Z.lt_ge_cases i 8);
    [rewrite (Z.testbit_neg_r _ (i - 8)) by lia; apply andb_false_r
    |rewrite (Z.bits_above_log2 b1 i);
      [done|lia|destruct (Z.eq_dec b1 0) as [->|];
        [simpl; lia|assert (Z.log2 b1 < 8) by (apply Z.log2_lt_pow2; lia); lia]]].
  replace (b1 + (b0 + 256 * b1) * 256) with ((256 * b0 + b1) + b1 * 65536) by lia.
  rewrite Z.mod_add by lia. apply Z.mod_small. lia.
Qed.

(** ** Prefix masks *)

Lemma prefix_mask_value p : 0 <= p <= 32 -> prefix_mask p = 2 ^ 32 - 2 ^ (32 - p).
Proof.
  intros Hp.
  assert (Forall (fun p => prefix_mask p = 2 ^ 32 - 2 ^ (32 - p)) (seqZ 0 33)) as Hall
    by (repeat constructor).
  rewrite Forall_forall in Hall. apply Hall, elem_of_seqZ. lia.
Qed.

(** The network part of an address given as a host-order number. *)
Definition network_of (addr p : Z) : Z := addr / 2 ^ (32 - p) * 2 ^ (32 - p).

Lemma land_prefix_mask x p :
  in_width 32 x -> 0 <= p <= 32 -> Z.land x (prefix_mask p) = network_of x p.
Proof.
  intros Hx Hp. rewrite prefix_mask_value by done.
  replace (2 ^ 32 - 2 ^ (32 - p)) with (Z.shiftl (Z.ones p) (32 - p)).
  2:{ rewrite Z.shiftl_mul_pow2, Z.ones_equiv by lia.
      replace (2 ^ 32) with (2 ^ p * 2 ^ (32 - p)); [lia|].
      rewrite <-Z.pow_add_r by lia. f_equal. lia. }
  unfold network_of. rewrite <-Z.shiftl_mul_pow2, <-Z.shiftr_div_pow2 by lia.
  apply in_width_testbit in Hx as [Hx0 Hx]; [|lia].
  apply Z.bits_inj'. intros i Hi. rewrite Z.land_spec, !Z.shiftl_spec by lia.
  destruct (Z.lt_ge_cases i (32 - p)).
  { rewrite !(Z.testbit_neg_r _ (i - (32 - p))) by lia. apply andb_false_r. }
  rewrite Z.shiftr_spec by lia. replace (i - (32 - p) + (32 - p)) with i by lia.
  destruct (Z.lt_ge_cases i 32).
  - rewrite Z.ones_spec_low by lia. apply andb_true_r.
  - rewrite Hx by lia. done.
Qed.

Lemma lookup_mask_bswap p : 0 <= p <= 32 -> lookup_mask p = bswap32 (prefix_mask p).
Proof.
  intros Hp. unfold lookup_mask. destruct (Z.ltb_spec 0 p); [done|].
  replace p with 0 by lia. done.
Qed.

(** Masking an address as the kernel holds it is taking its network part. *)
Lemma land_lookup_mask ip p :
  in_width 32 ip -> 0 <= p <= 32 ->
  Z.land ip (lookup_mask p) = bswap32 (network_of (bswap32 ip) p).
Proof.
  intros Hip Hp. rewrite lookup_mask_bswap by done.
  rewrite <-land_prefix_mask by auto with widths.
  by rewrite bswap32_land, bswap32_involutive.
Qed.

(** ** CIDR matching *)

Lemma network_of_0 x : in_width 32 x -> network_of x 0 = 0.
Proof. intros Hx. unfold network_of. rewrite Z.div_small; [done|apply Hx]. Qed.

Lemma network_of_32 x : network_of x 32 = x.
Proof. unfold network_of. simpl. rewrite Z.div_1_r. lia. Qed.

Lemma network_of_range x p : in_width 32 x -> 0 <= p <= 32 -> in_width 32 (network_of x p).
Proof.
  intros Hx Hp. rewrite <-land_prefix_mask by done. apply in_width_land_l; [lia|done].
Qed.

(** The matcher compares the first [prefix_len] bits of the addresses. *)
Lemma ip_matches_cidr_spec ip rule p :
  in_width 32 ip -> in_width 32 rule -> 0 <= p ->
  ip_matches_cidr ip rule p = 1 <->
  network_of (bswap32 ip) (Z.min p 32) = network_of (bswap32 rule) (Z.min p 32).
Proof.
  intros Hip Hrule Hp. unfold ip_matches_cidr.
  destruct (Z.eqb_spec p 0) as [->|Hp0].
  { simpl Z.min. rewrite !network_of_0 by auto with widths. done. }
  destruct (Z.leb_spec 32 p).
  - rewrite Z.min_r, !network_of_32 by lia. destruct (Z.eqb_spec ip rule) as [->|Hne]; [done|].
    split; [done|]. intros Heq. by apply bswap32_inj in Heq.
  - rewrite Z.min_l by lia. rewrite <-lookup_mask_bswap by lia.
    rewrite !land_lookup_mask by (try lia; done).
    destruct (Z.eqb_spec (bswap32 (network_of (bswap32 ip) p))
      (bswap32 (network_of (bswap32 rule) p))) as [Heq|Hne].
    + split; [|done]. intros _.
      apply bswap32_inj in Heq; [done|apply network_of_range; auto with widths..].
    + split; [done|]. intros Heq. by rewrite Heq in Hne.
Qed.

(** ** Address rules: the longest listed prefix decides *)

(** The prefix lengths the kernel looks up, longest first. *)
Definition supported_prefixes : list Z := 32 :: cidr_prefixes.

(** The rule of one prefix length that covers [addr] (host order). *)
Definition ip_rule_at (s : bpf_state) (role_id direction addr p : Z) : option Z :=
  map_lookup ip_rules (m_ip_rules s)
    (IpRuleKey role_id (bswap32 (network_of addr p)) p direction).

Fixpoint first_rule (s : bpf_state) (role_id direction addr : Z) (ps : list Z) : option Z :=
  match ps with
  | [] => None
  | p :: ps' => match ip_rule_at s role_id direction addr p with
                | Some r => Some r
                | None => first_rule s role_id direction addr ps'
                end
  end.

Lemma cidr_loop_first s role ip dir ps :
  in_width 32 ip -> Forall (fun p => 0 <= p <= 32) ps ->
  cidr_loop s role ip dir ps = from_option rule_verdict 0 (first_rule s role dir (bswap32 ip) ps).
Proof.
  intros Hip. induction 1 as [|p ps Hp _ IH]; simpl; [done|].
  rewrite land_lookup_mask by done. unfold ip_rule_at at 1.
  destruct (map_lookup _ _ _); [done|]. apply IH.
Qed.

Lemma check_ip_access_first s role ip dir :
  in_width 32 ip ->
  check_ip_access s role ip dir
  = from_option rule_verdict 0 (first_rule s role dir (bswap32 ip) supported_prefixes).
Proof.
  intros Hip. unfold check_ip_access, supported_prefixes. cbn [first_rule].
  unfold ip_rule_at at 1. rewrite network_of_32, bswap32_involutive by done.
  destruct (map_lookup ip_rules _ _); [done|].
  apply cidr_loop_first; [done|]. repeat constructor; lia.
Qed.

Lemma first_rule_longest s role dir addr ps p r :
  Sorted (fun a b => b < a) ps -> p ∈ ps ->
  ip_rule_at s role dir addr p = Some r ->
  (forall q, q ∈ ps -> p < q -> ip_rule_at s role dir addr q = None) ->
  first_rule s role dir addr ps = Some r.
Proof.
  intros Hs Hin Hr Hlong. apply Sorted_StronglySorted in Hs; [|intros a b c; lia].
  induction Hs as [|q ps _ IH Hq]; [set_solver|]. simpl.
  apply elem_of_cons in Hin as [->|Hin]; [by rewrite Hr|].
  rewrite Hlong; [|set_solver|].
  - apply IH; [done|]. intros q' Hq' ?. apply Hlong; set_solver.
  - rewrite Forall_forall in Hq. by apply Hq.
Qed.

Lemma first_rule_none s role dir addr ps :
  (forall q, q ∈ ps -> ip_rule_at s role dir addr q = None) ->
  first_rule s role dir addr ps = None.
Proof.
  induction ps as [|q ps IH]; intros H; [done|]. simpl. rewrite H by set_solver.
  apply IH. set_solver.
Qed.

Lemma check_ip_access_longest s role ip dir p r :
  in_width 32 ip -> p ∈ supported_prefixes ->
  ip_rule_at s role dir (bswap32 ip) p = Some r ->
  (forall q, q ∈ supported_prefixes -> p < q -> ip_rule_at s role dir (bswap32 ip) q = None) ->
  check_ip_access s role ip dir = rule_verdict r.
Proof.
  intros Hip Hp Hr Hlong. rewrite check_ip_access_first by done.
  rewrite (first_rule_longest _ _ _ _ _ p r); [done| |done..].
  repeat constructor; lia.
Qed.

Lemma check_ip_access_none s role ip dir :
  in_width 32 ip ->
  (forall q, q ∈ supported_prefixes -> ip_rule_at s role dir (bswap32 ip) q = None) ->
  check_ip_access s role ip dir = 0.
Proof. intros Hip H. rewrite check_ip_access_first, first_rule_none by done. done. Qed.

(** ** The hooks *)

Section hook_facts.
Context `{KL : KernelLayout}.

Lemma network_fallback_audited e info hook ctx flags result s :
  audited_verdict e EACCES hook s (network_fallback e info hook ctx flags result s).
Proof. unfold network_fallback, ret. repeat case_match; auto with jailer. Qed.

Lemma socket_bind_audited e sock address s :
  audited_verdict e EACCES AUDIT_HOOK_SOCKET_BIND s (socket_bind e sock address s).
Proof.
  unfold socket_bind, task_storage_get. unfold_prog.
  repeat (case_match; simplify_eq; auto using network_fallback_audited with jailer).
Qed.

Lemma socket_connect_audited e sock address s :
  audited_verdict e EACCES AUDIT_HOOK_SOCKET_CONNECT s (socket_connect e sock address s).
Proof.
  unfold socket_connect, task_storage_get. unfold_prog.
  repeat (case_match; simplify_eq; auto using network_fallback_audited with jailer).
Qed.

(** Network hooks change nothing but the audit log. *)
Lemma socket_bind_frame e sock address s :
  (socket_bind e sock address s).2 = s
  \/ exists ev, (socket_bind e sock address s).2 = set_audit_events (cons ev) s.
Proof.
  unfold socket_bind, task_storage_get, network_fallback, audit_deny_with, emit_audit_event.
  unfold_prog. repeat (case_match; simplify_eq; simpl); eauto.
Qed.

Lemma socket_connect_frame e sock address s :
  (socket_connect e sock address s).2 = s
  \/ exists ev, (socket_connect e sock address s).2 = set_audit_events (cons ev) s.
Proof.
  unfold socket_connect, task_storage_get, network_fallback, audit_deny_with, emit_audit_event.
  unfold_prog. repeat (case_match; simplify_eq; simpl); eauto.
Qed.

(** What the role flag and the port rules allow together. *)
Definition port_allows (flags result : Z) : Prop :=
  result = 1 \/ (result <> -13 /\ Z.land flags 0x02 <> 0).

Lemma network_fallback_allows e info hook ctx flags result s :
  (network_fallback e info hook ctx flags result s).1 = 0 <-> port_allows flags result.
Proof.
  unfold network_fallback, port_allows.
  destruct (Z.eqb_spec (Z.land flags 2) 0), (Z.eqb_spec result 1), (Z.eqb_spec result (-13));
    subst; simpl; try done; naive_solver lia.
Qed.

(** The rules for an IPv4 destination, most specific statement first. *)
Definition connect_allows (s : bpf_state) (m : mem) (role_id flags sock address : Z) : Prop :=
  let '(ip, port) := destination m address in
  let port_result := check_network_access s m role_id sock address 1 in
  if ip =? 0 then port_allows flags port_result
  else
  check_proxy_requirement s role_id ip port <> -13
  /\ (check_domain_access s role_id ip = 1
    \/ (check_domain_access s role_id ip <> -13
      /\ (check_ip_access s role_id ip 1 = 1
      \/ (check_ip_access s role_id ip 1 <> -13 /\ port_allows flags port_result)))).

Lemma socket_connect_allows e sock address s info flags :
  m_task_storage s !! e_current_task e = Some info -> pi_pod_id info <> 0 ->
  map_lookup role_flags (m_role_flags s) (pi_role_id info) = Some flags ->
  (socket_connect e sock address s).1 = 0
  <-> connect_allows s (e_mem e) (pi_role_id info) flags sock address.
Proof.
  intros Ht Hp Hf. unfold socket_connect, connect_allows, task_storage_get. unfold_prog.
  rewrite Ht. apply Z.eqb_neq in Hp. cbv beta iota. rewrite Hp, Hf. cbv beta iota.
  destruct (destination (e_mem e) address) as [ip port].
  destruct (Z.eqb_spec ip 0); cbn [negb andb Z.eqb]; [apply network_fallback_allows|].
  destruct (Z.eqb_spec (check_proxy_requirement s (pi_role_id info) ip port) (-13)).
  { simpl. split; [done|naive_solver]. }
  destruct (Z.eqb_spec (check_domain_access s (pi_role_id info) ip) (-13)).
  { simpl. split; [done|]. naive_solver lia. }
  destruct (Z.eqb_spec (check_domain_access s (pi_role_id info) ip) 1).
  { simpl. naive_solver. }
  destruct (Z.eqb_spec (check_ip_access s (pi_role_id info) ip 1) (-13)).
  { simpl. split; [done|]. naive_solver lia. }
  destruct (Z.eqb_spec (check_ip_access s (pi_role_id info) ip 1) 1).
  { simpl. naive_solver. }
  rewrite network_fallback_allows. naive_solver.
Qed.

Lemma socket_bind_allows e sock address s info flags :
  m_task_storage s !! e_current_task e = Some info -> pi_pod_id info <> 0 ->
  map_lookup role_flags (m_role_flags s) (pi_role_id info) = Some flags ->
  (socket_bind e sock address s).1 = 0
  <-> port_allows flags (check_network_access s (e_mem e) (pi_role_id info) sock address 0).
Proof.
  intros Ht Hp Hf. unfold socket_bind, task_storage_get. unfold_prog.
  rewrite Ht. apply Z.eqb_neq in Hp. cbv beta iota. rewrite Hp, Hf. cbv beta iota. apply network_fallback_allows.
Qed.

(** The loopback test of the proxy check: first octet 127. *)
Lemma loopback_first_octet ip : Z.land ip 0xFF = 0x7F <-> head (le_bytes 4 ip) = Some 127.
Proof.
  change 0xFF with (Z.ones 8). rewrite Z.land_ones by lia.
  cbn [le_bytes head]. change (2 ^ 8) with 256. split; [by intros ->|by intros [=]].
Qed.

(** What the proxy requirement refuses. *)
Lemma proxy_requirement_refuses s role_id ip port config :
  map_lookup proxy_config_map (m_proxy_config s) role_id = Some config ->
  px_require_proxy config <> 0 ->
  check_proxy_requirement s role_id ip port = -13
  <-> is_proxy_connection s role_id ip port = 0 /\ head (le_bytes 4 ip) <> Some 127.
Proof.
  intros Hc Hr. apply Z.eqb_neq in Hr. unfold check_proxy_requirement, is_proxy_connection.
  rewrite Hc, Hr, <-loopback_first_octet.
  destruct ((ip =? px_proxy_ip config) && (port =? px_proxy_port config)); [naive_solver lia|].
  destruct (Z.eqb_spec (Z.land ip 0xFF) 0x7F); naive_solver lia.
Qed.

(** A non-IPv4 destination, or 0.0.0.0, has no address to check. *)
Lemma destination_zero m address :
  sa_family m address <> AF_INET \/ sin_addr m address = 0 -> (destination m address).1 = 0.
Proof.
  unfold destination. destruct (Z.eqb_spec (sa_family m address) AF_INET); [|by case_match].
  naive_solver.
Qed.

(** An enrolled task whose role has no flags cannot connect at all. *)
Lemma socket_connect_no_flags e sock address s info :
  m_task_storage s !! e_current_task e = Some info -> pi_pod_id info <> 0 ->
  map_lookup role_flags (m_role_flags s) (pi_role_id info) = None ->
  (socket_connect e sock address s).1 = - EACCES.
Proof.
  intros Ht Hp Hf. unfold socket_connect, task_storage_get. unfold_prog.
  rewrite Ht. apply Z.eqb_neq in Hp. cbv beta iota. by rewrite Hp, Hf.
Qed.
End hook_facts.

(** ** Properties *)

(** A connect by a jailed task is let through exactly when the layered
    rules say so: the proxy requirement can only refuse; then a domain rule,
    an address rule and finally a port rule with the network flag decide, the
    first one that speaks winning. *)
Theorem connect_decides `{KL : KernelLayout} (e : hook_env) (sock address : Z) (s : bpf_state)
    (info : process_info) (flags : Z) :
  m_task_storage s !! e_current_task e = Some info -> pi_pod_id info <> 0 ->
  map_lookup role_flags (m_role_flags s) (pi_role_id info) = Some flags ->
  (socket_connect e sock address s).1 = 0
  <-> connect_allows s (e_mem e) (pi_role_id info) flags sock address.
Proof. apply socket_connect_allows. Qed.

(** [jailed_state] with the network tables to choose. *)
Definition network_state (flags : Z) (ports : list (net_rule_key * Z)) (ips : list (ip_rule_key * Z))
    (proxies : list (Z * proxy_config)) : bpf_state :=
  BpfState {[TASK := jailed_info]} (contents role_flags [(7, flags)]) (contents network_rules ports) ∅
    ∅ ∅ ∅ ∅ ∅ ∅ (contents ip_rules ips) (contents proxy_config_map proxies) ∅ ∅
    zero_path_components [].

(** Port 443 denied, the address allowed: the address rule decides. *)
Definition allow_ip_deny_port : bpf_state :=
  network_state 0 [(NetRuleKey 7 443 PROTO_TCP 1, 0)] [(IpRuleKey 7 IP4 32 1, 1)] [].

Lemma connect_decides_witness :
  connect_allows allow_ip_deny_port mem_etc 7 0 SOCK ADDR4.
Proof.
  apply (connect_decides (env_with mem_etc) SOCK ADDR4 allow_ip_deny_port jailed_info 0);
    [reflexivity|vm_compute; congruence|reflexivity|vm_compute; reflexivity].
Defined.

(** A bind by a jailed task is let through exactly when a port rule allows
    it, or none forbids it and the role has the network flag. *)
Theorem bind_decides `{KL : KernelLayout} (e : hook_env) (sock address : Z) (s : bpf_state)
    (info : process_info) (flags : Z) :
  m_task_storage s !! e_current_task e = Some info -> pi_pod_id info <> 0 ->
  map_lookup role_flags (m_role_flags s) (pi_role_id info) = Some flags ->
  (socket_bind e sock address s).1 = 0
  <-> port_allows flags (check_network_access s (e_mem e) (pi_role_id info) sock address 0).
Proof. apply socket_bind_allows. Qed.

(** All TCP ports closed to role 7 for binding, 443 open. *)
Definition bind_443 : bpf_state :=
  network_state 2 [(NetRuleKey 7 443 PROTO_TCP 0, 1); (NetRuleKey 7 0 PROTO_TCP 0, 0)] [] [].

Lemma bind_decides_witness :
  (socket_bind (env_with mem_etc) SOCK ADDR6 bind_443).1 = 0.
Proof.
  apply (bind_decides (env_with mem_etc) SOCK ADDR6 bind_443 jailed_info 2);
    [reflexivity|vm_compute; congruence|reflexivity|left; vm_compute; reflexivity].
Defined.

(** C25. Under a proxy requirement every IPv4 connect that is let through,
    except one to 0.0.0.0, which the hook does not check, goes to the proxy
    itself or to the loopback network, whatever the domain, address and port
    rules and the role's flags say. *)
Theorem proxy_enforced `{KL : KernelLayout} (e : hook_env) (sock address : Z) (s : bpf_state)
    (info : process_info) (config : proxy_config) (ip port : Z) :
  m_task_storage s !! e_current_task e = Some info -> pi_pod_id info <> 0 ->
  map_lookup proxy_config_map (m_proxy_config s) (pi_role_id info) = Some config ->
  px_require_proxy config <> 0 ->
  destination (e_mem e) address = (ip, port) -> ip <> 0 ->
  (socket_connect e sock address s).1 = 0 ->
  (ip = px_proxy_ip config /\ port = px_proxy_port config) \/ head (le_bytes 4 ip) = Some 127.
Proof.
  intros Ht Hp Hc Hr Hd Hip H0.
  destruct (map_lookup role_flags (m_role_flags s) (pi_role_id info)) as [flags|] eqn:Hf.
  2:{ by rewrite (socket_connect_no_flags _ _ _ _ _ Ht Hp Hf) in H0. }
  apply (socket_connect_allows _ _ _ _ _ _ Ht Hp Hf) in H0. unfold connect_allows in H0.
  rewrite Hd in H0. apply Z.eqb_neq in Hip. rewrite Hip in H0. destruct H0 as [Hx _].
  destruct (decide (head (le_bytes 4 ip) = Some 127)) as [|Hl]; [by right|left].
  apply Z.eqb_neq in Hr as Hr'.
  destruct (Z.eq_dec (is_proxy_connection s (pi_role_id info) ip port) 0) as [Hz|Hz].
  { destruct Hx. by apply (proxy_requirement_refuses _ _ _ _ _ Hc Hr). }
  unfold is_proxy_connection in Hz. rewrite Hc, Hr' in Hz.
  destruct (Z.eqb_spec ip (px_proxy_ip config)), (Z.eqb_spec port (px_proxy_port config)); done.
Qed.

(** Everything through 10.1.2.3:443, with all else allowed. *)
Definition proxied_state : bpf_state :=
  network_state 2 [] [] [(7, ProxyConfig IP4 443 1)].

Lemma proxy_enforced_witness :
  (IP4 = px_proxy_ip (ProxyConfig IP4 443 1) /\ 443 = px_proxy_port (ProxyConfig IP4 443 1))
  \/ head (le_bytes 4 IP4) = Some 127.
Proof.
  apply (proxy_enforced (env_with mem_etc) SOCK ADDR4 proxied_state jailed_info
    (ProxyConfig IP4 443 1) IP4 443); vm_compute; congruence.
Defined.

(** A destination that is not IPv4, or is 0.0.0.0, is decided by the role's
    flags and port rules alone: no proxy requirement, domain rule or address
    rule can change the verdict. *)
Theorem non_ipv4_unfiltered `{KL : KernelLayout} (e : hook_env) (sock address : Z) (s s' : bpf_state) :
  sa_family (e_mem e) address <> AF_INET \/ sin_addr (e_mem e) address = 0 ->
  m_task_storage s' = m_task_storage s -> m_role_flags s' = m_role_flags s ->
  m_network_rules s' = m_network_rules s ->
  (socket_connect e sock address s').1 = (socket_connect e sock address s).1.
Proof.
  intros Hd%destination_zero Ht Hf Hn. unfold socket_connect, task_storage_get. unfold_prog.
  assert (forall role, check_network_access s' (e_mem e) role sock address 1
    = check_network_access s (e_mem e) role sock address 1) as Hcn
    by (intros; unfold check_network_access; by rewrite Hn).
  destruct (destination (e_mem e) address) as [ip port]. simpl in Hd. subst ip. rewrite Ht.
  destruct (m_task_storage s !! _) as [info|]; [|done]. destruct (pi_pod_id info =? 0); [done|].
  rewrite Hf. destruct (map_lookup role_flags _ _) as [flags|]; [|done]. simpl. rewrite Hcn.
  unfold network_fallback. by repeat case_match.
Qed.

(** Required to use the proxy, an IPv6 connect still goes anywhere. *)
Lemma non_ipv4_unfiltered_witness :
  (socket_connect (env_with mem_etc) SOCK ADDR6 proxied_state).1 = 0
  /\ (socket_connect (env_with mem_etc) SOCK ADDR6 proxied_state).1
     = (socket_connect (env_with mem_etc) SOCK ADDR6 (network_state 2 [] [] [])).1.
Proof.
  split; [vm_compute; reflexivity|].
  apply non_ipv4_unfiltered; [left; vm_compute; congruence|reflexivity..].
Defined.
