(* ===== verification/Codec.v ===== *)
(** * The userspace encoders

    The byte layouts bpfjailer-common/src/codec.rs writes into the maps and the
    flag byte bpfjailer-common/src/flags.rs packs.  They are written by hand in
    the source, offset by offset; the theorems show that they are the C images
    the kernel side looks up. *)

From S2P Require Import Prelude CLayout BpfMap Kernel Types Machine Hash Enrollment Hooks Network.

(** [k[lo..lo + bs.len()].copy_from_slice(bs)] *)
Definition copy_at (lo : nat) (bs k : list Z) : list Z :=
  take lo k ++ bs ++ drop (lo + length bs) k.

(** [x.to_ne_bytes()] of a [w]-byte integer on a little-endian host. *)
Definition to_ne_bytes (w : nat) (x : Z) : list Z := le_bytes w x.

Definition bool_byte (b : bool) : Z := if b then 1 else 0.

Definition codec_path_state_key (role_id state component_hash : Z) : list Z :=
  copy_at 16 (to_ne_bytes 8 component_hash)
    (copy_at 8 (to_ne_bytes 8 state)
      (copy_at 0 (to_ne_bytes 4 role_id) (replicate 24 0))).

Definition codec_path_state_value (next_state : Z) (is_terminal allow wildcard : bool) : list Z :=
  let v := copy_at 0 (to_ne_bytes 8 next_state) (replicate 16 0) in
  <[11%nat := 0]> (<[10%nat := bool_byte wildcard]>
    (<[9%nat := bool_byte allow]> (<[8%nat := bool_byte is_terminal]> v))).

Definition codec_net_rule_key (role_id port protocol direction : Z) : list Z :=
  <[7%nat := direction]> (<[6%nat := protocol]>
    (copy_at 4 (to_ne_bytes 2 port) (copy_at 0 (to_ne_bytes 4 role_id) (replicate 8 0)))).

Definition codec_domain_rule_key (role_id : Z) (domain : list Z) : list Z :=
  copy_at 8 (to_ne_bytes 8 (fnv1a_hash_u64 domain))
    (copy_at 0 (to_ne_bytes 4 role_id) (replicate 16 0)).

Definition codec_enrollment_value (pod_id role_id : Z) : list Z :=
  copy_at 8 (to_ne_bytes 4 role_id) (copy_at 0 (to_ne_bytes 8 pod_id) (replicate 16 0)).

Definition codec_process_info_value (pod_id role_id stack_depth flags : Z) : list Z :=
  <[13%nat := flags]> (<[12%nat := stack_depth]>
    (copy_at 8 (to_ne_bytes 4 role_id) (copy_at 0 (to_ne_bytes 8 pod_id) (replicate 16 0)))).

(** [Ipv4Addr]: its four octets, most significant first. *)
Record ipv4 := Ipv4 { oct0 : Z; oct1 : Z; oct2 : Z; oct3 : Z }.

#[export] Instance ipv4_eq_dec : EqDecision ipv4.
Proof. solve_decision. Defined.

Definition octets (ip : ipv4) : list Z := [oct0 ip; oct1 ip; oct2 ip; oct3 ip].

(** [u32::from_be_bytes(ip.octets())] and [Ipv4Addr::from(u32)]. *)
Definition ipv4_to_u32 (ip : ipv4) : Z := le_value (reverse (octets ip)).
Definition ipv4_of_u32 (x : Z) : ipv4 :=
  match le_bytes 4 x with
  | [b0; b1; b2; b3] => Ipv4 b3 b2 b1 b0
  | _ => Ipv4 0 0 0 0
  end.

Definition mask_ipv4 (ip : ipv4) (prefix_len : Z) : ipv4 :=
  let mask := if prefix_len =? 0 then 0
              else if 32 <=? prefix_len then 0xFFFFFFFF
              else u32 (Z.shiftl 0xFFFFFFFF (32 - prefix_len)) in
  ipv4_of_u32 (Z.land (ipv4_to_u32 ip) mask).

Definition codec_ip_rule_key (role_id : Z) (ip : ipv4) (prefix_len direction : Z) : list Z :=
  let masked := mask_ipv4 ip prefix_len in
  <[9%nat := direction]> (<[8%nat := prefix_len]>
    (copy_at 4 (octets masked) (copy_at 0 (to_ne_bytes 4 role_id) (replicate 12 0)))).

Definition codec_proxy_config_value (ip : ipv4) (port : Z) (required : bool) : list Z :=
  <[6%nat := bool_byte required]>
    (copy_at 4 (to_ne_bytes 2 port) (copy_at 0 (octets ip) (replicate 8 0))).

Definition codec_dns_cache_key (role_id : Z) (ip : ipv4) : list Z :=
  copy_at 4 (octets ip) (copy_at 0 (to_ne_bytes 4 role_id) (replicate 8 0)).

Definition codec_dns_cache_value (domain_hash timestamp : Z) : list Z :=
  copy_at 8 (to_ne_bytes 8 timestamp) (copy_at 0 (to_ne_bytes 8 domain_hash) (replicate 16 0)).

(** ** Flags *)

Record PolicyFlags := MkPolicyFlags {
  allow_file_access : bool;
  allow_network : bool;
  allow_exec : bool;
  require_signed_binary : bool;
  allow_setuid : bool;
  allow_ptrace : bool;
  allow_module_load : bool;
  allow_bpf_load : bool;
  require_proxy : bool;
}.

Definition policy_flags_to_u8 (flags : PolicyFlags) : Z :=
  let set (b : bool) (bit byte : Z) := if b then Z.lor byte bit else byte in
  set (allow_bpf_load flags) 0x80
    (set (allow_module_load flags) 0x40
      (set (allow_ptrace flags) 0x20
        (set (allow_setuid flags) 0x10
          (set (require_signed_binary flags) 0x08
            (set (allow_exec flags) 0x04
              (set (allow_network flags) 0x02
                (set (allow_file_access flags) 0x01 0))))))).

(** ** Addresses *)

Definition ipv4_ok (ip : ipv4) : Prop := Forall is_byte (octets ip).

Lemma Ipv4_ok a b c d :
  is_byte a -> is_byte b -> is_byte c -> is_byte d -> ipv4_ok (Ipv4 a b c d).
Proof. intros. unfold ipv4_ok. cbn. repeat (apply Forall_cons; split); done. Qed.

(** [sin_addr.s_addr] for this address, as the kernel reads it. *)
Definition s_addr (ip : ipv4) : Z := le_value (octets ip).

Lemma s_addr_range ip : ipv4_ok ip -> in_width 32 (s_addr ip).
Proof. intros H. apply (le_value_range _ H). Qed.

Lemma le_bytes_s_addr ip : ipv4_ok ip -> le_bytes 4 (s_addr ip) = octets ip.
Proof. intros H. apply (le_bytes_le_value _ H). Qed.

Lemma ipv4_to_u32_bswap ip : ipv4_ok ip -> ipv4_to_u32 ip = bswap32 (s_addr ip).
Proof. intros H. unfold ipv4_to_u32, bswap32. by rewrite le_bytes_s_addr. Qed.

Lemma octets_ipv4_of_u32 x : octets (ipv4_of_u32 x) = reverse (le_bytes 4 x).
Proof. done. Qed.

Lemma rust_mask p :
  0 <= p <= 32 ->
  (if p =? 0 then 0 else if 32 <=? p then 0xFFFFFFFF else u32 (Z.shiftl 0xFFFFFFFF (32 - p)))
  = prefix_mask p.
Proof.
  intros Hp.
  assert (Forall (fun p => (if p =? 0 then 0 else if 32 <=? p then 0xFFFFFFFF
    else u32 (Z.shiftl 0xFFFFFFFF (32 - p))) = prefix_mask p) (seqZ 0 33)) as Hall
    by (repeat constructor).
  rewrite Forall_forall in Hall. apply (Hall p), elem_of_seqZ. lia.
Qed.

(** The masked octets are the address the kernel masks to. *)
Lemma mask_ipv4_octets ip p :
  ipv4_ok ip -> 0 <= p <= 32 ->
  octets (mask_ipv4 ip p) = le_bytes 4 (Z.land (s_addr ip) (lookup_mask p)).
Proof.
  intros Hip Hp. unfold mask_ipv4. rewrite rust_mask by done.
  rewrite octets_ipv4_of_u32, ipv4_to_u32_bswap by done.
  rewrite land_prefix_mask by auto with widths.
  rewrite land_lookup_mask by (try apply s_addr_range; done).
  unfold bswap32 at 2. set (l := reverse _).
  assert (length l = 4%nat) as Hl by (unfold l; by rewrite length_reverse, length_le_bytes).
  rewrite <-Hl. symmetry. apply le_bytes_le_value, reverse_bytes, le_bytes_bytes.
Qed.

(** ** Images *)

Lemma bool_byte_is_byte b : is_byte (bool_byte b).
Proof. unfold is_byte. destruct b; simpl; lia. Qed.

Lemma bool_byte_mod b : bool_byte b mod 256 = bool_byte b.
Proof. by destruct b. Qed.

(** A transition value as the kernel reads it back. *)
Lemma path_state_value_reads next_state terminal allow wildcard :
  in_width 64 next_state ->
  of_bytes path_state_value_repr (codec_path_state_value next_state terminal allow wildcard)
  = PathStateValue next_state (bool_byte terminal) (bool_byte allow) (bool_byte wildcard).
Proof.
  intros Hn. pose proof (bool_byte_is_byte terminal). pose proof (bool_byte_is_byte allow).
  pose proof (bool_byte_is_byte wildcard).
  set (v := PathStateValue _ _ _ _).
  assert (codec_path_state_value next_state terminal allow wildcard = to_bytes path_state_value_repr v) as ->.
  { unfold codec_path_state_value, to_bytes. cbn -[Z.div Z.modulo bool_byte]. by rewrite !bool_byte_mod. }
  apply of_to_bytes; [apply _|]. solve_fits; try done; apply in_width_0; lia.
Qed.

(** The masked address of a rule key, folded into the key image. *)
Lemma codec_ip_rule_key_image role_id ip p direction :
  ipv4_ok ip -> 0 <= p <= 32 -> is_byte direction ->
  codec_ip_rule_key role_id ip p direction
  = key_image ip_rules (IpRuleKey role_id (Z.land (s_addr ip) (lookup_mask p)) p direction).
Proof.
  intros Hip Hp Hd. unfold codec_ip_rule_key. rewrite mask_ipv4_octets by done.
  unfold key_image, to_bytes, is_byte in *. cbn -[Z.land lookup_mask Z.div Z.modulo].
  rewrite (Z.mod_small p), (Z.mod_small direction) by lia. done.
Qed.

Lemma codec_net_rule_key_image role_id port protocol direction :
  is_byte protocol -> is_byte direction ->
  codec_net_rule_key role_id port protocol direction
  = key_image network_rules (NetRuleKey role_id port protocol direction).
Proof.
  intros Hp Hd. unfold codec_net_rule_key, key_image, to_bytes, is_byte in *. cbn -[Z.div Z.modulo].
  by rewrite (Z.mod_small protocol), (Z.mod_small direction).
Qed.

Lemma codec_domain_rule_key_image role_id domain :
  codec_domain_rule_key role_id domain
  = key_image domain_rules (DomainRuleKey role_id (fnv1a_hash_u64 domain)).
Proof. unfold codec_domain_rule_key. by set (h := fnv1a_hash_u64 domain). Qed.

Lemma codec_dns_cache_key_image role_id ip :
  ipv4_ok ip -> codec_dns_cache_key role_id ip = key_image dns_cache (DnsCacheKey role_id (s_addr ip)).
Proof.
  intros Hip. unfold codec_dns_cache_key. rewrite <-le_bytes_s_addr by done. by set (a := s_addr ip).
Qed.

(** An image built by hand reads back as the value it was built from. *)
Lemma image_reads {A} (r : crepr A) `{!CReprOk r} (a : A) (bs : list Z) :
  c_fits r a -> bs = to_bytes r a -> of_bytes r bs = a.
Proof. intros ? ->. by apply of_to_bytes. Qed.

Lemma process_info_value_reads pod_id role_id depth flags :
  in_width 64 pod_id -> in_width 32 role_id -> is_byte depth -> is_byte flags ->
  of_bytes process_info_repr (codec_process_info_value pod_id role_id depth flags)
  = ProcessInfo pod_id role_id depth flags.
Proof.
  intros Hpod Hrole Hdepth Hflags.
  apply image_reads; [apply _|solve_fits; try done; apply in_width_0; lia|].
  unfold codec_process_info_value, to_bytes, is_byte in *. cbn -[Z.div Z.modulo].
  by rewrite (Z.mod_small depth), (Z.mod_small flags).
Qed.

Lemma enrollment_value_reads pod_id role_id :
  in_width 64 pod_id -> in_width 32 role_id ->
  of_bytes exec_enrollment_value_repr (codec_enrollment_value pod_id role_id)
  = ExecEnrollmentValue pod_id role_id.
Proof. intros. apply image_reads; [apply _|solve_fits; try done; apply in_width_0; lia|done]. Qed.

Lemma proxy_config_value_reads ip port required :
  ipv4_ok ip -> in_width 16 port ->
  of_bytes proxy_config_repr (codec_proxy_config_value ip port required)
  = ProxyConfig (s_addr ip) port (bool_byte required).
Proof.
  intros Hip Hport. pose proof (s_addr_range ip Hip). pose proof (bool_byte_is_byte required).
  apply image_reads; [apply _|solve_fits; try done; apply in_width_0; lia|].
  unfold codec_proxy_config_value. rewrite <-le_bytes_s_addr by done.
  set (a := s_addr ip). unfold to_bytes. cbn -[Z.div Z.modulo bool_byte a]. by rewrite bool_byte_mod.
Qed.

Lemma dns_cache_value_reads hash ts :
  in_width 64 hash -> in_width 64 ts ->
  of_bytes dns_cache_value_repr (codec_dns_cache_value hash ts) = DnsCacheValue hash ts.
Proof. intros. apply image_reads; [apply _|solve_fits; done|done]. Qed.

(** A map with one more rule in it. *)
Definition with_ip_rule (s s' : bpf_state) (role_id : Z) (ip : ipv4) (p direction : Z) (allow : bool)
    : Prop :=
  m_ip_rules s' = <[codec_ip_rule_key role_id ip p direction := [bool_byte allow]]> (m_ip_rules s).

(** C27. The key images userspace writes are exactly the images the kernel side
    looks up, for every keyed policy map: same offsets, same widths, padding
    zero, addresses in network byte order and masked the same way. *)
Theorem codec_keys_agree (role_id state hash port protocol direction p : Z) (domain : list Z) (ip : ipv4) :
  ipv4_ok ip -> 0 <= p <= 32 -> is_byte protocol -> is_byte direction ->
  codec_path_state_key role_id state hash = key_image path_states (PathStateKey role_id state hash)
  /\ codec_net_rule_key role_id port protocol direction
     = key_image network_rules (NetRuleKey role_id port protocol direction)
  /\ codec_domain_rule_key role_id domain
     = key_image domain_rules (DomainRuleKey role_id (fnv1a_hash_u64 domain))
  /\ codec_dns_cache_key role_id ip = key_image dns_cache (DnsCacheKey role_id (s_addr ip))
  /\ codec_ip_rule_key role_id ip p direction
     = key_image ip_rules (IpRuleKey role_id (Z.land (s_addr ip) (lookup_mask p)) p direction).
Proof.
  intros Hip Hp Hpr Hd. split_and!.
  - done.
  - by apply codec_net_rule_key_image.
  - apply codec_domain_rule_key_image.
  - by apply codec_dns_cache_key_image.
  - by apply codec_ip_rule_key_image.
Qed.

Lemma codec_keys_agree_witness :
  codec_ip_rule_key 7 (Ipv4 10 1 2 3) 24 1
  = key_image ip_rules (IpRuleKey 7 (Z.land (s_addr (Ipv4 10 1 2 3)) (lookup_mask 24)) 24 1).
Proof.
  assert (ipv4_ok (Ipv4 10 1 2 3)) as Hip by (apply Ipv4_ok; unfold is_byte; lia).
  apply (codec_keys_agree 7 0 0 443 6 1 24 [] (Ipv4 10 1 2 3) Hip); unfold is_byte; lia.
Defined.

(** C28. The value images userspace writes read back, on the kernel side, as the
    fields it meant, for every policy value with fields in their widths. *)
Theorem codec_values_agree (next_state pod_id role_id depth flags port hash ts : Z)
    (terminal allow wildcard required : bool) (ip : ipv4) :
  in_width 64 next_state -> in_width 64 pod_id -> in_width 32 role_id -> is_byte depth ->
  is_byte flags -> in_width 16 port -> in_width 64 hash -> in_width 64 ts -> ipv4_ok ip ->
  of_bytes path_state_value_repr (codec_path_state_value next_state terminal allow wildcard)
  = PathStateValue next_state (bool_byte terminal) (bool_byte allow) (bool_byte wildcard)
  /\ of_bytes process_info_repr (codec_process_info_value pod_id role_id depth flags)
     = ProcessInfo pod_id role_id depth flags
  /\ of_bytes exec_enrollment_value_repr (codec_enrollment_value pod_id role_id)
     = ExecEnrollmentValue pod_id role_id
  /\ of_bytes proxy_config_repr (codec_proxy_config_value ip port required)
     = ProxyConfig (s_addr ip) port (bool_byte required)
  /\ of_bytes dns_cache_value_repr (codec_dns_cache_value hash ts) = DnsCacheValue hash ts.
Proof.
  intros. split_and!.
  - by apply path_state_value_reads.
  - by apply process_info_value_reads.
  - by apply enrollment_value_reads.
  - by apply proxy_config_value_reads.
  - by apply dns_cache_value_reads.
Qed.

Lemma codec_values_agree_witness :
  of_bytes proxy_config_repr (codec_proxy_config_value (Ipv4 10 0 2 3) 8080 true)
  = ProxyConfig (s_addr (Ipv4 10 0 2 3)) 8080 1.
Proof.
  apply (codec_values_agree 0 0 0 0 0 8080 0 0 false false false true (Ipv4 10 0 2 3));
    try (vm_compute; split; congruence). apply Ipv4_ok; unfold is_byte; lia.
Defined.

(** The packed flag byte, bit by bit. *)
Lemma flag_bits (f : PolicyFlags) :
  (Z.land (policy_flags_to_u8 f) 0x01 <> 0 <-> allow_file_access f = true)
  /\ (Z.land (policy_flags_to_u8 f) 0x02 <> 0 <-> allow_network f = true)
  /\ (Z.land (policy_flags_to_u8 f) 0x04 <> 0 <-> allow_exec f = true)
  /\ (Z.land (policy_flags_to_u8 f) 0x20 <> 0 <-> allow_ptrace f = true)
  /\ (Z.land (policy_flags_to_u8 f) 0x40 <> 0 <-> allow_module_load f = true)
  /\ (Z.land (policy_flags_to_u8 f) 0x80 <> 0 <-> allow_bpf_load f = true)
  /\ is_byte (policy_flags_to_u8 f).
Proof.
  destruct f as [[] [] [] [] [] [] [] [] rp]; vm_compute; naive_solver congruence.
Qed.

(** Each bit of the packed flag byte that a hook tests is set exactly when
    the policy grants that permission. *)
Theorem policy_flags_bits (f : PolicyFlags) :
  (Z.land (policy_flags_to_u8 f) 0x01 <> 0 <-> allow_file_access f = true)
  /\ (Z.land (policy_flags_to_u8 f) 0x02 <> 0 <-> allow_network f = true)
  /\ (Z.land (policy_flags_to_u8 f) 0x04 <> 0 <-> allow_exec f = true)
  /\ (Z.land (policy_flags_to_u8 f) 0x20 <> 0 <-> allow_ptrace f = true)
  /\ (Z.land (policy_flags_to_u8 f) 0x40 <> 0 <-> allow_module_load f = true)
  /\ (Z.land (policy_flags_to_u8 f) 0x80 <> 0 <-> allow_bpf_load f = true)
  /\ is_byte (policy_flags_to_u8 f).
Proof. apply flag_bits. Qed.

(** ** Address rules end to end *)

(** The prefix length sits in byte 8 of a rule key. *)
Lemma ip_key_prefix_byte k : key_image ip_rules k !! 8%nat = Some (ik_prefix_len k mod 256).
Proof. destruct k. done. Qed.

(** A rule does not answer lookups of another prefix length. *)
Lemma with_ip_rule_other s s' role_id ip p direction allow k :
  with_ip_rule s s' role_id ip p direction allow ->
  ipv4_ok ip -> 0 <= p <= 32 -> is_byte direction ->
  0 <= ik_prefix_len k <= 32 -> ik_prefix_len k <> p ->
  map_lookup ip_rules (m_ip_rules s') k = map_lookup ip_rules (m_ip_rules s) k.
Proof.
  intros Hw Hip Hp Hd Hk Hne. rewrite !map_lookup_hash by done. rewrite Hw, lookup_insert_ne; [done|].
  rewrite codec_ip_rule_key_image by done. intros Heq.
  apply (f_equal (fun l => l !! 8%nat)) in Heq. rewrite !ip_key_prefix_byte in Heq.
  injection Heq as Heq. cbn in Heq. rewrite !Z.mod_small in Heq by lia. congruence.
Qed.

Lemma with_ip_rule_same s s' role_id ip p direction allow :
  with_ip_rule s s' role_id ip p direction allow ->
  ipv4_ok ip -> 0 <= p <= 32 -> is_byte direction ->
  ip_rule_at s' role_id direction (bswap32 (s_addr ip)) p = Some (bool_byte allow).
Proof.
  intros Hw Hip Hp Hd. unfold ip_rule_at. rewrite map_lookup_hash by done. rewrite Hw.
  rewrite codec_ip_rule_key_image, land_lookup_mask by (try apply s_addr_range; done).
  rewrite lookup_insert_eq. by destruct allow.
Qed.

Lemma supported_range q : q ∈ supported_prefixes -> 0 <= q <= 32.
Proof. unfold supported_prefixes, cidr_prefixes. set_solver by lia. Qed.

(** A CIDR rule of a supported prefix length, written by userspace, decides
    every address of its network for which no rule with a longer prefix
    exists. *)
Theorem ip_rule_enforced (s s' : bpf_state) (role_id p direction : Z) (net ip : ipv4) (allow : bool) :
  with_ip_rule s s' role_id net p direction allow ->
  ipv4_ok net -> ipv4_ok ip -> is_byte direction -> p ∈ supported_prefixes ->
  network_of (ipv4_to_u32 ip) p = network_of (ipv4_to_u32 net) p ->
  (forall q, q ∈ supported_prefixes -> p < q ->
     ip_rule_at s role_id direction (ipv4_to_u32 ip) q = None) ->
  check_ip_access s' role_id (s_addr ip) direction = if allow then 1 else -13.
Proof.
  intros Hw Hnet Hip Hd Hp Hin Hlong. pose proof (supported_range p Hp) as Hp'.
  rewrite !ipv4_to_u32_bswap in * by done.
  rewrite (check_ip_access_longest s' role_id (s_addr ip) direction p (bool_byte allow));
    [by destruct allow|by apply s_addr_range|done| |].
  - unfold ip_rule_at. rewrite Hin. by apply (with_ip_rule_same s).
  - intros q Hq Hpq. pose proof (supported_range q Hq).
    unfold ip_rule_at. erewrite with_ip_rule_other; [by apply Hlong|done..|cbn; lia].
Qed.

(** 10.0.0.0/8 denied, on an empty table. *)
Definition deny_ten : bpf_state :=
  BpfState ∅ ∅ ∅ ∅ ∅ ∅ ∅ ∅ ∅ ∅ {[codec_ip_rule_key 7 (Ipv4 10 0 0 0) 8 1 := [0]]} ∅ ∅ ∅
    zero_path_components [].

Lemma ip_rule_enforced_witness :
  check_ip_access deny_ten 7 (s_addr (Ipv4 10 1 2 3)) 1 = -13.
Proof.
  apply (ip_rule_enforced init_state deny_ten 7 8 1 (Ipv4 10 0 0 0) (Ipv4 10 1 2 3) false).
  - reflexivity.
  - apply Ipv4_ok; unfold is_byte; lia.
  - apply Ipv4_ok; unfold is_byte; lia.
  - unfold is_byte. lia.
  - unfold supported_prefixes, cidr_prefixes. set_solver.
  - vm_compute. reflexivity.
  - intros q Hq _. unfold ip_rule_at. rewrite map_lookup_hash by reflexivity.
    change (m_ip_rules init_state) with (∅ : bpf_map). by rewrite lookup_empty.
Defined.

(** A CIDR rule whose prefix length is not one the kernel looks up (32, 24,
    16, 12, 8, 0) changes no verdict, although userspace accepts and writes it. *)
Theorem unsupported_prefix_ignored (s s' : bpf_state) (role_id p direction : Z) (net : ipv4) (allow : bool)
    (role_id' ip' direction' : Z) :
  with_ip_rule s s' role_id net p direction allow ->
  ipv4_ok net -> is_byte direction -> 0 <= p <= 32 -> p ∉ supported_prefixes ->
  in_width 32 ip' ->
  check_ip_access s' role_id' ip' direction' = check_ip_access s role_id' ip' direction'.
Proof.
  intros Hw Hnet Hd Hp Hns Hip. rewrite !check_ip_access_first by done. f_equal.
  assert (forall ps, ps ⊆ supported_prefixes ->
    first_rule s' role_id' direction' (bswap32 ip') ps
    = first_rule s role_id' direction' (bswap32 ip') ps) as Hall; [|by apply Hall].
  induction ps as [|q ps IH]; intros Hsub; [done|]. simpl.
  assert (q ∈ supported_prefixes) as Hq by set_solver.
  rewrite IH by set_solver. unfold ip_rule_at.
  erewrite (with_ip_rule_other s s'); [done|done..| |].
  - cbn. by apply supported_range.
  - cbn. congruence.
Qed.

(** 10.1.0.0/20 denied: the address it covers is still undecided. *)
Definition deny_twenty : bpf_state :=
  BpfState ∅ ∅ ∅ ∅ ∅ ∅ ∅ ∅ ∅ ∅ {[codec_ip_rule_key 7 (Ipv4 10 1 0 0) 20 1 := [0]]} ∅ ∅ ∅
    zero_path_components [].

Lemma unsupported_prefix_ignored_witness :
  check_ip_access deny_twenty 7 (s_addr (Ipv4 10 1 2 3)) 1
  = check_ip_access init_state 7 (s_addr (Ipv4 10 1 2 3)) 1.
Proof.
  apply (unsupported_prefix_ignored init_state deny_twenty 7 20 1 (Ipv4 10 1 0 0) false).
  - reflexivity.
  - apply Ipv4_ok; unfold is_byte; lia.
  - unfold is_byte. lia.
  - lia.
  - unfold supported_prefixes, cidr_prefixes. set_solver by lia.
  - vm_compute. split; congruence.
Defined.
