(* ===== verification/Patterns.v ===== *)
(** * Compiling a role's path rules

    [pattern_components], [path_state_entries] and [path_state_entries_for_role]
    of bpfjailer-common/src/codec.rs: userspace turns the path patterns of a role
    into the transitions the kernel walks.  The trie is built in a vector of
    nodes that refer to each other by index, and emitted by a depth-first walk
    with an explicit stack, as in the source.  [effective_decision] states what
    the rules mean (the most specific rule covering a path decides), and
    [role_rules_enforced] that the kernel, walking the compiled transitions,
    returns it. *)

From S2P Require Import Prelude CLayout BpfMap Rust Kernel KernelTypes Types Machine Scenario Hash PathWalk StateMachine Enrollment Hooks Network Codec.

(** ** Patterns *)

Definition SLASH : Z := 47.
Definition STAR : bytes := [42].
Definition STARSTAR : bytes := [42; 42].

Definition pattern_components (pattern : bytes) : list bytes :=
  filter (fun s => s <> [] /\ s <> STARSTAR) (split_on SLASH pattern).

(** [components.join("/")] *)
Fixpoint join_slash (cs : list bytes) : bytes :=
  match cs with
  | [] => []
  | [c] => c
  | c :: cs' => c ++ SLASH :: join_slash cs'
  end.

(** The decimal digits of a [u32], as [format!] prints it. *)
Fixpoint decimal_digits (fuel : nat) (n : Z) (acc : bytes) : bytes :=
  match fuel with
  | O => acc
  | S fuel' =>
      let acc' := (48 + n mod 10) :: acc in
      if n / 10 =? 0 then acc' else decimal_digits fuel' (n / 10) acc'
  end.

Definition decimal (n : Z) : bytes := decimal_digits 10 n [].

Definition state_after (role_id : Z) (components : list bytes) : Z :=
  match components with
  | [] => 0
  | _ => fnv1a_hash_u64 (decimal role_id ++ 58 :: join_slash components)
  end.

Definition terminal_state (allow : bool) : Z :=
  if allow then PATH_STATE_ACCEPT else PATH_STATE_REJECT.

(** A row of the map: key and value image. *)
Abbreviation path_state_entry := (bytes * bytes)%type.

Definition component_key (component : bytes) : Z :=
  if decide (component = STAR) then 0 else fnv1a_hash_u64 component.

(** ** One pattern on its own *)

Fixpoint pattern_loop (role_id : Z) (allow : bool) (before rest : list bytes) (state : Z)
    : list path_state_entry * Z :=
  match rest with
  | [] => ([], state)
  | component :: rest' =>
      let is_last := bool_decide (rest' = []) in
      let is_wildcard := bool_decide (component = STAR) in
      let upto := before ++ [component] in
      let next_state := if is_last then terminal_state allow
                        else fnv1a_hash_u64 (decimal role_id ++ 58 :: join_slash upto) in
      let '(out, final) := pattern_loop role_id allow upto rest' next_state in
      ((codec_path_state_key role_id state (component_key component),
        codec_path_state_value next_state is_last allow is_wildcard) :: out, final)
  end.

Definition path_state_entries (role_id : Z) (pattern : bytes) (allow : bool)
    : list path_state_entry :=
  let '(out, state) := pattern_loop role_id allow [] (pattern_components pattern) 0 in
  if bool_decide (last pattern = Some SLASH) && negb (bool_decide (out = []))
  then out ++ [(codec_path_state_key role_id state 0,
                codec_path_state_value (terminal_state allow) true allow true)]
  else out.

(** ** The trie of a role *)

Record rule_node := RuleNode {
  rn_components : list bytes;
  rn_children : list (bytes * nat);     (* in key order, as a BTreeMap iterates *)
  rn_decision : option bool;
  rn_decided_by : option bytes;
  rn_created_by : bytes;
}.

Definition root_node : rule_node := RuleNode [] [] None None [].

(** Byte-wise lexicographic order. *)
Fixpoint bytes_ltb (a b : bytes) : bool :=
  match a, b with
  | _, [] => false
  | [], _ :: _ => true
  | x :: a', y :: b' => (x <? y) || ((x =? y) && bytes_ltb a' b')
  end.

Fixpoint children_get (children : list (bytes * nat)) (c : bytes) : option nat :=
  match children with
  | [] => None
  | (c', j) :: children' => if decide (c' = c) then Some j else children_get children' c
  end.

(** [BTreeMap::insert] of an absent key. *)
Fixpoint children_insert (c : bytes) (j : nat) (children : list (bytes * nat)) : list (bytes * nat) :=
  match children with
  | [] => [(c, j)]
  | (c', j') :: children' =>
      if bytes_ltb c c' then (c, j) :: children else (c', j') :: children_insert c j children'
  end.

Definition add_child (c : bytes) (j : nat) (n : rule_node) : rule_node :=
  RuleNode (rn_components n) (children_insert c j (rn_children n)) (rn_decision n)
    (rn_decided_by n) (rn_created_by n).

Definition decide_node (allow : bool) (pattern : bytes) (n : rule_node) : rule_node :=
  RuleNode (rn_components n) (rn_children n) (Some allow) (Some pattern) (rn_created_by n).

(** [nodes[i]]; the index is always in range. *)
Definition node_at (nodes : list rule_node) (i : nat) : rule_node := default root_node (nodes !! i).

(** Follow or create the children for the remaining components. *)
Fixpoint descend (pattern : bytes) (nodes : list rule_node) (at_ : nat) (before rest : list bytes)
    : list rule_node * nat :=
  match rest with
  | [] => (nodes, at_)
  | component :: rest' =>
      let upto := before ++ [component] in
      match children_get (rn_children (node_at nodes at_)) component with
      | Some next => descend pattern nodes next upto rest'
      | None =>
          let next := length nodes in
          let pushed := nodes ++ [RuleNode upto [] None None pattern] in
          descend pattern (alter (add_child component next) at_ pushed) next upto rest'
      end
  end.

Definition add_rule (nodes : list rule_node) (rule : bytes * bool) : list rule_node :=
  let '(pattern, allow) := rule in
  match pattern_components pattern with
  | [] => nodes
  | components =>
      let '(nodes', at_) := descend pattern nodes 0 [] components in
      alter (decide_node allow pattern) at_ nodes'
  end.

Definition build_nodes (rules : list (bytes * bool)) : list rule_node :=
  fold_left add_rule rules [root_node].

(** ** Emitting the transitions *)

(** The nearest ancestor-or-self decision, with the pattern that made it. *)
Definition node_effective (n : rule_node) (inherited : option (bool * bytes)) : option (bool * bytes) :=
  match rn_decision n, rn_decided_by n with
  | Some d, Some by_ => Some (d, by_)
  | _, _ => inherited
  end.

(** The inherited decision at the wildcard slot of a node with children, or the
    two patterns that conflict there. *)
Definition own_entries (role_id : Z) (nodes : list rule_node) (n : rule_node)
    (effective : option (bool * bytes)) : list path_state_entry * list (bytes * bytes) :=
  match rn_children n, effective with
  | _ :: _, Some (decision, by_) =>
      match children_get (rn_children n) STAR with
      | Some star => ([], [(by_, rn_created_by (node_at nodes star))])
      | None => ([(codec_path_state_key role_id (state_after role_id (rn_components n)) 0,
                   codec_path_state_value (terminal_state decision) true decision true)], [])
      end
  | _, _ => ([], [])
  end.

Definition child_entry (role_id : Z) (nodes : list rule_node) (n : rule_node)
    (child : bytes * nat) : path_state_entry :=
  let '(component, j) := child in
  let c := node_at nodes j in
  let wildcard := bool_decide (component = STAR) in
  let value :=
    match rn_children c with
    | _ :: _ => codec_path_state_value (state_after role_id (rn_components c)) false false wildcard
    | [] => let decision := default false (rn_decision c) in
            codec_path_state_value (terminal_state decision) true decision wildcard
    end in
  (codec_path_state_key role_id (state_after role_id (rn_components n)) (component_key component), value).

(** [while let Some(..) = stack.pop()]; the head of the list is the top.  [None]
    is running out of fuel, which [emit_total] rules out. *)
Fixpoint emit (role_id : Z) (nodes : list rule_node) (fuel : nat)
    (stack : list (nat * option (bool * bytes))) (out : list path_state_entry)
    (conflicts : list (bytes * bytes)) : option (list path_state_entry * list (bytes * bytes)) :=
  match stack with
  | [] => Some (out, conflicts)
  | (index, inherited) :: stack' =>
      match fuel with
      | O => None
      | S fuel' =>
          let n := node_at nodes index in
          let effective := node_effective n inherited in
          let '(own, conflict) := own_entries role_id nodes n effective in
          emit role_id nodes fuel'
            (reverse (map (fun '(_, j) => (j, effective)) (rn_children n)) ++ stack')
            (out ++ own ++ map (child_entry role_id nodes n) (rn_children n))
            (conflicts ++ conflict)
      end
  end.

(** [inr] is [Ok]; [inl] is [Err] with the conflicting pairs of patterns, before
    the messages are formatted, sorted and deduplicated. *)
Definition path_state_entries_for_role (role_id : Z) (rules : list (bytes * bool))
    : list (bytes * bytes) + list path_state_entry :=
  let nodes := build_nodes rules in
  match emit role_id nodes (length nodes) [(0%nat, None)] [] [] with
  | Some (out, []) => inr out
  | Some (_, conflicts) => inl conflicts
  | None => inl []
  end.

(** [write_states]: update the map with each entry in turn.  The flag is [Ok];
    the first update that fails, a new key in a full map, ends the loop with the
    entries before it written. *)
Fixpoint write_states (states : map_decl path_state_key path_state_value) (contents : bpf_map)
    (entries : list path_state_entry) : bool * bpf_map :=
  match entries with
  | [] => (true, contents)
  | (k, v) :: entries' =>
      if bool_decide (is_Some (contents !! k)) || (Z.of_nat (size contents) <? md_max_entries states)
      then write_states states (<[k := v]> contents) entries'
      else (false, contents)
  end.

(** ** What the rules say *)

(** The last rule naming exactly [p]. *)
Definition rule_decision (rules : list (bytes * bool)) (p : list bytes) : option bool :=
  fold_left (fun acc '(pattern, allow) =>
    if decide (pattern_components pattern = p /\ p <> []) then Some allow else acc) rules None.

(** The decision of the longest prefix of a path that some rule names. *)
Fixpoint effective_rev (rules : list (bytes * bool)) (rev_path : list bytes) : option bool :=
  match rule_decision rules (reverse rev_path) with
  | Some d => Some d
  | None => match rev_path with
            | [] => None
            | _ :: rev_path' => effective_rev rules rev_path'
            end
  end.

Definition effective_decision (rules : list (bytes * bool)) (path : list bytes) : option bool :=
  effective_rev rules (reverse path).

(** The paths the trie has nodes for: the prefixes of the rules. *)
Definition is_node (rules : list (bytes * bool)) (p : list bytes) : Prop :=
  p = [] \/ exists rule, rule ∈ rules /\ p `prefix_of` pattern_components rule.1.

Lemma effective_snoc rules p c :
  effective_decision rules (p ++ [c])
  = match rule_decision rules (p ++ [c]) with
    | Some d => Some d
    | None => effective_decision rules p
    end.
Proof.
  unfold effective_decision. rewrite reverse_snoc. cbn [effective_rev].
  by rewrite reverse_cons, reverse_involutive.
Qed.

Lemma prefix_snoc_inv {A} (p l : list A) (c : A) :
  p `prefix_of` l ++ [c] -> p `prefix_of` l \/ p = l ++ [c].
Proof.
  intros [k Hk]. destruct k as [|x k _] using rev_ind; [right; by rewrite app_nil_r in Hk|left].
  rewrite app_assoc in Hk. apply app_inj_tail in Hk as [-> _]. by apply prefix_app_r.
Qed.

(** No rule names the root itself. *)
Lemma root_undecided rules : effective_decision rules [] = None.
Proof.
  assert (rule_decision rules [] = None) as Hr.
  { unfold rule_decision. induction rules as [|[pattern allow] rs IH] using rev_ind; [done|].
    rewrite fold_left_app. cbn. rewrite decide_False; [done|]. naive_solver. }
  unfold effective_decision. cbn. by rewrite Hr.
Qed.

(** [effective_decision] in words: some prefix is named and no longer one is. *)
Lemma effective_decision_spec rules path d :
  effective_decision rules path = Some d <->
  exists p, p `prefix_of` path /\ rule_decision rules p = Some d
    /\ forall q, q `prefix_of` path -> (length p < length q)%nat -> rule_decision rules q = None.
Proof.
  revert d. induction path as [|c path IH] using rev_ind; intros d.
  - change (effective_decision rules []) with
      (match rule_decision rules [] with Some d => Some d | None => None end).
    assert ((match rule_decision rules [] with Some d => Some d | None => None end)
      = rule_decision rules []) as -> by (by case_match).
    split.
    + intros Hd. exists []. split_and!; [done|done|]. intros q ->%prefix_nil_inv Hq. simpl in Hq. lia.
    + intros (p & ->%prefix_nil_inv & Hd & _). done.
  - rewrite effective_snoc. split.
    + destruct (rule_decision rules (path ++ [c])) as [d'|] eqn:Hr.
      * intros [= ->]. exists (path ++ [c]). split_and!; [done|done|].
        intros q Hq%prefix_length Hl. lia.
      * intros (p & Hp & Hd & Hmax)%IH. exists p. split_and!; [by apply prefix_app_r|done|].
        intros q Hq Hl. apply prefix_snoc_inv in Hq as [Hq| ->]; [by apply Hmax|done].
    + intros (p & Hp & Hd & Hmax). apply prefix_snoc_inv in Hp as [Hp| ->].
      * rewrite Hmax; [|done|rewrite length_app; apply prefix_length in Hp; simpl; lia].
        apply IH. exists p. split_and!; [done|done|]. intros q Hq Hl.
        apply Hmax; [by apply prefix_app_r|done].
      * by rewrite Hd.
Qed.

(** ** The trie represents the rules *)

Lemma children_get_Some l c j :
  NoDup l.*1 -> children_get l c = Some j <-> (c, j) ∈ l.
Proof.
  induction l as [|[c' j'] l IH]; simpl; [set_solver|].
  intros [Hn Hnd]%NoDup_cons. case_decide as Hc.
  - subst c'. split; [intros [= ->]; set_solver|]. intros [[= ->]|Hin]%elem_of_cons; [done|].
    destruct Hn. apply list_elem_of_fmap. by exists (c, j).
  - rewrite IH by done. set_solver.
Qed.

Lemma children_get_None l c : children_get l c = None <-> c ∉ l.*1.
Proof.
  induction l as [|[c' j'] l IH]; simpl; [set_solver|].
  case_decide; [set_solver|]. rewrite IH. set_solver.
Qed.

Lemma children_insert_perm c j l : children_insert c j l ≡ₚ (c, j) :: l.
Proof.
  induction l as [|[c' j'] l IH]; simpl; [done|]. case_match; [done|].
  rewrite IH. apply Permutation_swap.
Qed.

(** [T] is the set of paths with a node, [dec] the decision each carries. *)
Record trie_ok (T : list bytes -> Prop) (dec : list bytes -> option bool)
    (nodes : list rule_node) : Prop := {
  tr_root : exists n, nodes !! 0%nat = Some n /\ rn_components n = [];
  tr_inj : forall i j n n', nodes !! i = Some n -> nodes !! j = Some n' ->
    rn_components n = rn_components n' -> i = j;
  tr_paths : forall p, T p <-> exists i n, nodes !! i = Some n /\ rn_components n = p;
  tr_keys : forall i n, nodes !! i = Some n -> NoDup (rn_children n).*1;
  tr_children : forall i n c j, nodes !! i = Some n ->
    (c, j) ∈ rn_children n
    <-> exists n', nodes !! j = Some n' /\ rn_components n' = rn_components n ++ [c];
  tr_decision : forall i n, nodes !! i = Some n ->
    rn_decision n = dec (rn_components n) /\ (is_Some (rn_decision n) -> is_Some (rn_decided_by n));
}.

(** Membership in the vector after a push and an update of node [at_]. *)
Lemma lookup_pushed (f : rule_node -> rule_node) nodes at_ new i m :
  (at_ < length nodes)%nat ->
  alter f at_ (nodes ++ [new]) !! i = Some m
  <-> (i = length nodes /\ m = new)
      \/ exists n, nodes !! i = Some n /\ m = if decide (i = at_) then f n else n.
Proof.
  intros Hat. destruct (decide (i = at_)) as [->|Hne].
  - rewrite list_lookup_alter_eq, fmap_Some. setoid_rewrite lookup_snoc_Some. split.
    + intros (n & [[_ ?]|[-> _]] & ->); [eauto|lia].
    + intros [[-> _]|(n & ? & ->)]; [lia|]. eauto.
  - rewrite list_lookup_alter_ne by done. rewrite lookup_snoc_Some. split.
    + intros [[_ ?]|[-> <-]]; eauto.
    + intros [[-> ->]|(n & ? & ->)]; [by right|]. left. split; [by eapply lookup_lt_Some|done].
Qed.

(** The vector after a child is pushed and entered at its parent: the child, and
    the old nodes with the parent's children extended. *)
Lemma pushed_cases nodes at_ c new (Hlt : (at_ < length nodes)%nat) i m :
  alter (add_child c (length nodes)) at_ (nodes ++ [new]) !! i = Some m ->
  (i = length nodes /\ m = new)
  \/ exists m0, nodes !! i = Some m0 /\ rn_components m = rn_components m0
       /\ rn_decision m = rn_decision m0 /\ rn_decided_by m = rn_decided_by m0
       /\ rn_children m ≡ₚ (if decide (i = at_) then [(c, length nodes)] else []) ++ rn_children m0.
Proof.
  intros [?|(m0 & ? & ->)]%lookup_pushed; [by left| |done]. right. exists m0.
  case_decide; split_and!; try done. apply children_insert_perm.
Qed.

Lemma pushed_keeps nodes at_ c new (Hlt : (at_ < length nodes)%nat) i m0 :
  nodes !! i = Some m0 ->
  exists m, alter (add_child c (length nodes)) at_ (nodes ++ [new]) !! i = Some m
    /\ rn_components m = rn_components m0.
Proof.
  intros Hm. eexists. split; [apply lookup_pushed; [done|right; by eauto]|]. by case_decide.
Qed.

Lemma trie_push T dec nodes at_ n c pattern :
  trie_ok T dec nodes -> nodes !! at_ = Some n ->
  ~ T (rn_components n ++ [c]) -> dec (rn_components n ++ [c]) = None ->
  (forall p q, T (p ++ q) -> T p) ->
  trie_ok (fun p => T p \/ p = rn_components n ++ [c]) dec
    (alter (add_child c (length nodes)) at_
      (nodes ++ [RuleNode (rn_components n ++ [c]) [] None None pattern])).
Proof.
  intros Hok Hat HnT Hdec Hclosed. pose proof (lookup_lt_Some _ _ _ Hat) as Hlt.
  set (new := RuleNode _ _ _ _ _).
  assert (forall i m, nodes !! i = Some m -> rn_components m <> rn_components n ++ [c]) as Hfresh.
  { intros i m Hm Heq. apply HnT, (tr_paths _ _ _ Hok). eauto. }
  pose proof (pushed_cases nodes at_ c new Hlt) as Hinv. pose proof (pushed_keeps nodes at_ c new Hlt) as Hkeep.
  assert (alter (add_child c (length nodes)) at_ (nodes ++ [new]) !! length nodes = Some new) as Hnew
    by (apply lookup_pushed; auto).
  split.
  - destruct (tr_root _ _ _ Hok) as (r & Hr & Hrc). destruct (Hkeep _ _ Hr) as (m & ? & ?).
    exists m. split; [done|]. congruence.
  - intros i j m m' [[-> ->]|(m0 & Hm & Hmc & _)]%Hinv [[-> ->]|(m0' & Hm' & Hmc' & _)]%Hinv Heq.
    + done.
    + exfalso. apply (Hfresh _ _ Hm'). cbn in Heq. congruence.
    + exfalso. apply (Hfresh _ _ Hm). cbn in Heq. congruence.
    + eapply (tr_inj _ _ _ Hok); [done..|congruence].
  - intros p. rewrite (tr_paths _ _ _ Hok). split.
    + intros [(i & m0 & Hm & <-)| ->]; [|by eauto].
      destruct (Hkeep _ _ Hm) as (m & ? & ?). eauto.
    + intros (i & m & [[-> ->]|(m0 & Hm & Hmc & _)]%Hinv & <-); [by right|left]. eauto.
  - intros i m [[-> ->]|(m0 & Hm & _ & _ & _ & Hch)]%Hinv; [apply NoDup_nil_2|].
    rewrite Hch. pose proof (tr_keys _ _ _ Hok _ _ Hm) as Hnd. case_decide as Hi; [|done].
    subst i. rewrite Hat in Hm. injection Hm as <-. cbn. apply NoDup_cons. split; [|done].
    intros ([c' j] & -> & Hin)%list_elem_of_fmap.
    apply (tr_children _ _ _ Hok _ _ _ _ Hat) in Hin as (n' & Hn' & Hc'). by apply (Hfresh _ _ Hn').
  - intros i m c0 j [[-> ->]|(m0 & Hm & Hmc & _ & _ & Hch)]%Hinv.
    + cbn. split; [set_solver|]. intros (n' & Hn' & Hc'). exfalso.
      apply Hinv in Hn' as [[-> ->]|(m0 & Hm0 & Hmc0 & _)].
      * cbn in Hc'. apply (f_equal length) in Hc'. rewrite !length_app in Hc'. simpl in Hc'. lia.
      * apply HnT, (Hclosed _ [c0]), (tr_paths _ _ _ Hok). exists j, m0. split; [done|]. congruence.
    + rewrite Hch, elem_of_app, (tr_children _ _ _ Hok _ _ _ _ Hm), Hmc. split.
      * intros [Hin|(n' & Hn' & Hc')].
        -- case_decide; [|set_solver]. subst i. apply list_elem_of_singleton in Hin as [= -> ->].
           exists new. split; [done|]. rewrite Hat in Hm. injection Hm as <-. done.
        -- destruct (Hkeep _ _ Hn') as (m' & ? & ?). exists m'. split; [done|]. congruence.
      * intros (n' & [[-> ->]|(m' & Hm' & Hmc' & _)]%Hinv & Hc').
        -- left. cbn in Hc'. apply app_inj_tail in Hc' as [Hc' ->].
           assert (i = at_) as ->; [|rewrite decide_True by done; set_solver].
           eapply (tr_inj _ _ _ Hok); done.
        -- right. exists m'. split; [done|]. congruence.
  - intros i m [[-> ->]|(m0 & Hm & -> & -> & -> & _)]%Hinv; [|by apply (tr_decision _ _ _ Hok i)].
    cbn. rewrite Hdec. split; [done|]. by intros [? ?].
Qed.

Lemma trie_ok_iff T T' dec dec' nodes :
  (forall p, T p <-> T' p) -> (forall p, dec p = dec' p) ->
  trie_ok T dec nodes -> trie_ok T' dec' nodes.
Proof.
  intros HT Hdec [? ? Hp ? ? Hd]. split; try done.
  - intros p. by rewrite <-HT.
  - intros i n Hn. rewrite <-Hdec. by apply (Hd i).
Qed.

(** Prefix-closed sets of paths, with decisions only inside. *)
Definition closed_paths (T : list bytes -> Prop) (dec : list bytes -> option bool) : Prop :=
  (forall p q, T (p ++ q) -> T p) /\ (forall p, ~ T p -> dec p = None).

Lemma closed_prefix T dec q :
  closed_paths T dec -> closed_paths (fun p => T p \/ p `prefix_of` q) dec.
Proof.
  intros [Hc Hd]. split.
  - intros p r [?|?]; [left; by eapply Hc|right]. etrans; [|done]. by apply prefix_app_r.
  - intros p Hn. apply Hd. tauto.
Qed.

Lemma node_at_lookup nodes i n : nodes !! i = Some n -> node_at nodes i = n.
Proof. unfold node_at. by intros ->. Qed.

Lemma descend_ok pattern rest : forall T dec nodes at_ n before,
  trie_ok T dec nodes -> closed_paths T dec ->
  nodes !! at_ = Some n -> rn_components n = before ->
  trie_ok (fun p => T p \/ p `prefix_of` before ++ rest) dec
    (descend pattern nodes at_ before rest).1
  /\ exists n', (descend pattern nodes at_ before rest).1
                  !! (descend pattern nodes at_ before rest).2 = Some n'
       /\ rn_components n' = before ++ rest.
Proof.
  induction rest as [|c rest IH]; intros T dec nodes at_ n before Hok Hcl Hat Hn.
  - rewrite app_nil_r. split; [|by exists n]. eapply trie_ok_iff; [|done..].
    intros p. split; [by left|]. intros [?|[q Hq]]; [done|]. destruct Hcl as [Hc _].
    apply (Hc p q). rewrite <-Hq, <-Hn. apply (tr_paths _ _ _ Hok). eauto.
  - simpl. rewrite (node_at_lookup _ _ _ Hat).
    assert (before ++ c :: rest = (before ++ [c]) ++ rest) as Hsplit by by rewrite <-app_assoc.
    destruct (children_get (rn_children n) c) as [next|] eqn:Hget.
    + apply children_get_Some in Hget; [|by eapply (tr_keys _ _ _ Hok)].
      apply (tr_children _ _ _ Hok _ _ _ _ Hat) in Hget as (n' & Hn' & Hc').
      rewrite Hsplit. eapply IH; [done..|congruence].
    + assert (~ T (before ++ [c])) as HnT.
      { intros (j & n' & Hj & Hc')%(tr_paths _ _ _ Hok).
        apply children_get_None in Hget. apply Hget, list_elem_of_fmap. exists (c, j). split; [done|].
        apply (tr_children _ _ _ Hok _ _ _ _ Hat). exists n'. by rewrite Hn. }
      destruct Hcl as [Hc Hd].
      assert (closed_paths (fun p => T p \/ p = before ++ [c]) dec) as Hcl1.
      { split; [|intros p Hp; apply Hd; tauto]. intros p q [?|Hq]; [left; by eapply Hc|].
        assert (p `prefix_of` before ++ [c]) as Hp by (exists q; by rewrite Hq).
        apply prefix_snoc_inv in Hp as [[q' Hp]| ->]; [left|by right].
        apply (Hc p q'). rewrite <-Hp, <-Hn. apply (tr_paths _ _ _ Hok). eauto. }
      rewrite <-Hn in *. pose proof (trie_push _ _ _ _ _ c pattern Hok Hat HnT (Hd _ HnT) Hc) as Hok1.
      assert (alter (add_child c (length nodes)) at_
        (nodes ++ [RuleNode (rn_components n ++ [c]) [] None None pattern]) !! length nodes
        = Some (RuleNode (rn_components n ++ [c]) [] None None pattern)) as Hnew.
      { apply lookup_pushed; [by eapply lookup_lt_Some|by left]. }
      destruct (IH _ _ _ _ _ _ Hok1 Hcl1 Hnew eq_refl) as [Hok2 Hex]. rewrite Hsplit.
      split; [|done]. eapply trie_ok_iff; [|done..]. intros p. split; [|tauto].
      intros [[?| ->]|?]; [by left|right|by right]. by apply prefix_app_r.
Qed.

Lemma trie_decide T dec nodes at_ n allow pattern :
  trie_ok T dec nodes -> nodes !! at_ = Some n ->
  trie_ok T (fun p => if decide (rn_components n = p) then Some allow else dec p)
    (alter (decide_node allow pattern) at_ nodes).
Proof.
  intros Hok Hat.
  assert (forall i m, alter (decide_node allow pattern) at_ nodes !! i = Some m ->
    exists m0, nodes !! i = Some m0 /\ rn_components m = rn_components m0
      /\ rn_children m = rn_children m0
      /\ m = if decide (at_ = i) then decide_node allow pattern m0 else m0) as Hinv.
  { intros i m. rewrite list_lookup_alter. case_decide as Hi; [subst i|naive_solver].
    rewrite fmap_Some. naive_solver. }
  assert (forall i m0, nodes !! i = Some m0 -> exists m,
    alter (decide_node allow pattern) at_ nodes !! i = Some m /\ rn_components m = rn_components m0)
    as Hkeep.
  { intros i m0 Hm. rewrite list_lookup_alter. case_decide as Hi; [subst i|by eauto].
    rewrite Hm. by eexists. }
  split.
  - destruct (tr_root _ _ _ Hok) as (r & Hr & Hrc). destruct (Hkeep _ _ Hr) as (m & ? & ?).
    exists m. split; [done|]. congruence.
  - intros i j m m' (m0 & Hm & Hc & _)%Hinv (m0' & Hm' & Hc' & _)%Hinv Heq.
    eapply (tr_inj _ _ _ Hok); [done..|congruence].
  - intros p. rewrite (tr_paths _ _ _ Hok). split.
    + intros (i & m0 & Hm & <-). destruct (Hkeep _ _ Hm) as (m & ? & ?). eauto.
    + intros (i & m & (m0 & Hm & Hc & _)%Hinv & <-). eauto.
  - intros i m (m0 & Hm & _ & -> & _)%Hinv. by apply (tr_keys _ _ _ Hok i).
  - intros i m c j (m0 & Hm & -> & -> & _)%Hinv. rewrite (tr_children _ _ _ Hok _ _ _ _ Hm). split.
    + intros (n' & Hn' & Hc'). destruct (Hkeep _ _ Hn') as (m' & ? & ?). exists m'. split; congruence.
    + intros (n' & (m' & Hm' & Hc & _)%Hinv & Hc'). exists m'. split; [done|]. congruence.
  - intros i m (m0 & Hm & Hc & _ & ->)%Hinv. destruct (tr_decision _ _ _ Hok _ _ Hm) as [Hd Hb].
    case_decide as Hi.
    + subst i. rewrite Hat in Hm. injection Hm as <-. cbn. rewrite decide_True by done. by split.
    + rewrite decide_False; [done|]. intros Heq. apply Hi. by eapply (tr_inj _ _ _ Hok).
Qed.

Lemma rule_decision_snoc rules pattern allow p :
  rule_decision (rules ++ [(pattern, allow)]) p
  = if decide (pattern_components pattern = p /\ p <> []) then Some allow else rule_decision rules p.
Proof. unfold rule_decision. by rewrite fold_left_app. Qed.

Lemma is_node_snoc rules rule p :
  is_node (rules ++ [rule]) p <-> is_node rules p \/ p `prefix_of` pattern_components rule.1.
Proof.
  unfold is_node. setoid_rewrite elem_of_app. setoid_rewrite list_elem_of_singleton. split.
  - intros [?|(r & [?| ->] & ?)]; eauto 6.
  - intros [[?|(r & ? & ?)]|?]; eauto 6.
Qed.

Lemma rules_closed rules : closed_paths (is_node rules) (rule_decision rules).
Proof.
  split.
  - intros p q [[-> ->]%app_nil|(r & Hr & Hp)]; [by left|right]. exists r. split; [done|].
    etrans; [|done]. by apply prefix_app_r.
  - intros p Hn. induction rules as [|[pattern allow] rules IH] using rev_ind; [done|].
    rewrite rule_decision_snoc. rewrite is_node_snoc in Hn. rewrite decide_False; [by apply IH; tauto|].
    intros [<- _]. apply Hn. by right.
Qed.

(** The vector holds exactly the prefixes of the rules, with their decisions. *)
Lemma build_nodes_ok rules : trie_ok (is_node rules) (rule_decision rules) (build_nodes rules).
Proof.
  induction rules as [|[pattern allow] rules IH] using rev_ind.
  - split.
    + by exists root_node.
    + intros [|i] [|j] n n'; done.
    + intros p. split.
      * intros [->|(r & Hr%elem_of_nil & _)]; [|done]. by exists 0%nat, root_node.
      * intros ([|i] & n & [= <-] & <-). by left.
    + intros [|i] n [= <-]. apply NoDup_nil_2.
    + intros [|i] n c j [= <-]. cbn. split; [set_solver|].
      intros (n' & Hn' & Hc). destruct j; [|done]. injection Hn' as <-. done.
    + intros [|i] n [= <-]. cbn. split; [done|]. by intros [? ?].
  - unfold build_nodes. rewrite fold_left_app. cbn [fold_left]. fold (build_nodes rules).
    unfold add_rule. destruct (pattern_components pattern) as [|c cs] eqn:Hpc.
    + eapply trie_ok_iff; [| |exact IH].
      * intros p. rewrite is_node_snoc. cbn [fst]. rewrite Hpc. split; [by left|].
        intros [?| ->%prefix_nil_inv]; [done|by left].
      * intros p. rewrite rule_decision_snoc, Hpc, decide_False; [done|]. naive_solver.
    + destruct (tr_root _ _ _ IH) as (r & Hr & Hrc).
      destruct (descend_ok pattern (c :: cs) _ _ _ _ _ [] IH (rules_closed rules) Hr Hrc)
        as [Hok (n' & Hn' & Hc')].
      destruct (descend _ _ _ _ _) as [nodes' at_]. cbn in Hok, Hn', Hc'.
      eapply trie_ok_iff; [| |exact (trie_decide _ _ _ _ _ allow pattern Hok Hn')].
      * intros p. rewrite is_node_snoc. cbn [fst]. by rewrite Hpc.
      * intros p. rewrite rule_decision_snoc, Hpc, Hc'. cbn beta.
        destruct (decide (c :: cs = p)) as [<-|Hne]; [by rewrite decide_True|].
        rewrite decide_False; [done|]. naive_solver.
Qed.

(** ** The walk emits the rows of every node *)

(** No component of a rule is a single star. *)
Definition star_free (rules : list (bytes * bool)) : Prop :=
  Forall (fun rule => STAR ∉ pattern_components rule.1) rules.

Section emission.
Context (role_id : Z) (rules : list (bytes * bool)).
Let nodes := build_nodes rules.
Let Hok : trie_ok (is_node rules) (rule_decision rules) nodes := build_nodes_ok rules.

(** The rows of one node, under its effective decision. *)
Definition node_rows (n : rule_node) : list path_state_entry :=
  (own_entries role_id nodes n
    ((fun d => (d, [])) <$> effective_decision rules (rn_components n))).1
  ++ map (child_entry role_id nodes n) (rn_children n).

Lemma own_entries_fst n eff eff' :
  fst <$> eff = fst <$> eff' -> (own_entries role_id nodes n eff).1 = (own_entries role_id nodes n eff').1.
Proof.
  unfold own_entries. destruct eff as [[d by_]|], eff' as [[d' by_']|]; intros [=]; subst; try done.
  repeat case_match; done.
Qed.

Lemma star_child i n :
  nodes !! i = Some n -> children_get (rn_children n) STAR = None <-> ~ is_node rules (rn_components n ++ [STAR]).
Proof.
  intros Hn. rewrite children_get_None, list_elem_of_fmap. split.
  - intros Hno (j & m & Hm & Hc)%(tr_paths _ _ _ Hok). apply Hno. exists (STAR, j). split; [done|].
    apply (tr_children _ _ _ Hok _ _ _ _ Hn). eauto.
  - intros Hno ([c j] & Hcs & Hin). cbn in Hcs. subst c. apply Hno, (tr_paths _ _ _ Hok). exists j.
    by apply (tr_children _ _ _ Hok _ _ _ _ Hn).
Qed.

(** The node does not need its wildcard slot twice. *)
Definition node_quiet (n : rule_node) : Prop :=
  is_node rules (rn_components n ++ [STAR]) -> effective_decision rules (rn_components n) = None.

Lemma own_entries_conflicts i n eff :
  nodes !! i = Some n -> fst <$> eff = effective_decision rules (rn_components n) ->
  (own_entries role_id nodes n eff).2 = [] <-> node_quiet n.
Proof.
  intros Hn He. unfold own_entries, node_quiet. rewrite <-He. pose proof (star_child i n Hn) as Hs.
  destruct (children_get (rn_children n) STAR) as [j|] eqn:Hc.
  - assert (is_node rules (rn_components n ++ [STAR])) as Hst.
    { apply (tr_paths _ _ _ Hok). exists j. apply (tr_children _ _ _ Hok _ _ _ _ Hn).
      by apply children_get_Some in Hc; [|by eapply (tr_keys _ _ _ Hok)]. }
    destruct (rn_children n), eff as [[d by_]|]; cbn in *; naive_solver.
  - assert (~ is_node rules (rn_components n ++ [STAR])) by by apply Hs.
    destruct (rn_children n), eff as [[d by_]|]; cbn; naive_solver.
Qed.

(** What holds between two pops: [visited] has been emitted. *)
Record emit_inv (visited : list nat) (stack : list (nat * option (bool * bytes)))
    (out : list path_state_entry) : Prop := {
  em_nodup : NoDup (visited ++ stack.*1);
  em_range : forall i, i ∈ visited ++ stack.*1 -> is_Some (nodes !! i);
  em_root : 0%nat ∈ visited ++ stack.*1;
  em_parent : forall j n p c, j ∈ visited ++ stack.*1 -> nodes !! j = Some n ->
    rn_components n = p ++ [c] ->
    exists i m, i ∈ visited /\ nodes !! i = Some m /\ rn_components m = p;
  em_children : forall i n c j, i ∈ visited -> nodes !! i = Some n -> (c, j) ∈ rn_children n ->
    j ∈ visited ++ stack.*1;
  em_inherit : forall j inherited n, (j, inherited) ∈ stack -> nodes !! j = Some n ->
    fst <$> node_effective n inherited = effective_decision rules (rn_components n);
  em_out : forall e, e ∈ out <-> exists i n, i ∈ visited /\ nodes !! i = Some n /\ e ∈ node_rows n;
}.

Lemma children_indices_nodup i n : nodes !! i = Some n -> NoDup (rn_children n).*2.
Proof.
  intros Hn. apply NoDup_fmap_2_strong.
  - intros [c j] [c' j'] Hin Hin' [= <-].
    apply (tr_children _ _ _ Hok _ _ _ _ Hn) in Hin as (m & Hm & Hc).
    apply (tr_children _ _ _ Hok _ _ _ _ Hn) in Hin' as (m' & Hm' & Hc').
    rewrite Hm in Hm'. injection Hm' as <-. rewrite Hc in Hc'. by apply app_inj_tail in Hc' as [_ ->].
  - eapply NoDup_fmap_1, (tr_keys _ _ _ Hok _ _ Hn).
Qed.

(** The indices that are visited or stacked after a node is popped. *)
Lemma pushed_indices visited i (inherited : option (bool * bytes)) (stack : list (nat * option (bool * bytes))) n :
  i :: visited ++ (reverse (map (fun '(_, j) => (j, node_effective n inherited)) (rn_children n)) ++ stack).*1
  ≡ₚ (rn_children n).*2 ++ visited ++ i :: stack.*1.
Proof.
  rewrite fmap_app, <-fmap_reverse, reverse_Permutation.
  replace (fst <$> map _ _) with (rn_children n).*2; [solve_Permutation|].
  change (map ?f ?l) with (f <$> l). rewrite <-list_fmap_compose. apply list_fmap_ext. by intros ? [].
Qed.

Lemma child_index_node i n (Hn : nodes !! i = Some n) j :
  j ∈ (rn_children n).*2 ->
  exists c m, nodes !! j = Some m /\ rn_components m = rn_components n ++ [c].
Proof.
  intros ([c j'] & -> & Hin)%list_elem_of_fmap.
  apply (tr_children _ _ _ Hok _ _ _ _ Hn) in Hin as (m & ? & ?). eauto.
Qed.

(** Popping a node and pushing its children keeps the invariant. *)
Lemma emit_inv_step visited i inherited stack out n :
  emit_inv visited ((i, inherited) :: stack) out -> nodes !! i = Some n ->
  emit_inv (i :: visited)
    (reverse (map (fun '(_, j) => (j, node_effective n inherited)) (rn_children n)) ++ stack)
    (out ++ (own_entries role_id nodes n (node_effective n inherited)).1
    ++ map (child_entry role_id nodes n) (rn_children n)).
Proof.
  intros [Hnd Hrange Hroot Hpar Hch Hinh Hout] Hn.
  set (new := reverse _ ++ stack).
  pose proof (pushed_indices visited i inherited stack n : i :: visited ++ new.*1 ≡ₚ _) as Hperm.
  assert (forall j, j ∈ (i :: visited) ++ new.*1 <->
      j ∈ (rn_children n).*2 \/ j ∈ visited ++ i :: stack.*1) as Hseen.
  { intros j. change ((i :: visited) ++ new.*1) with (i :: visited ++ new.*1).
    by rewrite Hperm, elem_of_app. }
  pose proof (child_index_node i n Hn) as Hchild.
  assert (i ∉ visited) as Hi.
  { apply NoDup_app in Hnd as (_ & Hdisj & _). intros Hv. apply (Hdisj i Hv). set_solver. }
  split.
  - change (NoDup (i :: visited ++ new.*1)). rewrite Hperm. apply NoDup_app. split_and!; [|intros j Hj Hin|exact Hnd].
    + by eapply children_indices_nodup.
    + destruct (Hchild j Hj) as (c & m & Hm & Hc).
      destruct (Hpar j m _ _ Hin Hm Hc) as (i' & m' & Hi' & Hm' & Hc').
      apply Hi. by rewrite (tr_inj _ _ _ Hok _ _ _ _ Hn Hm' (eq_sym Hc')).
  - intros j [Hj|Hj]%Hseen; [|by apply Hrange]. destruct (Hchild j Hj) as (c & m & Hm & _). by eauto.
  - apply Hseen. by right.
  - intros j m p c [Hj|Hj]%Hseen Hm Hc.
    + destruct (Hchild j Hj) as (c' & m' & Hm' & Hc'). rewrite Hm in Hm'. injection Hm' as <-.
      rewrite Hc in Hc'. apply app_inj_tail in Hc' as [-> _]. exists i, n. split_and!; [set_solver|done..].
    + destruct (Hpar j m p c Hj Hm Hc) as (i' & m' & ? & ? & ?). exists i', m'. split_and!; [set_solver|done..].
  - intros i' m c j [->|Hi']%elem_of_cons Hm Hin; apply Hseen.
    + left. rewrite Hn in Hm. injection Hm as <-. apply list_elem_of_fmap. by exists (c, j).
    + right. by eapply Hch.
  - intros j inh m [Hj|Hj]%elem_of_app Hm; [|apply (Hinh j inh m); [set_solver|done]].
    apply elem_of_reverse, list_elem_of_fmap in Hj as ([c j'] & [= -> ->] & Hin).
    apply (tr_children _ _ _ Hok _ _ _ _ Hn) in Hin as (m' & Hm' & Hc).
    rewrite Hm in Hm'. injection Hm' as <-.
    destruct (tr_decision _ _ _ Hok _ _ Hm) as [Hd Hb]. rewrite Hc, effective_snoc, <-Hc, <-Hd.
    unfold node_effective at 1. destruct (rn_decision m) as [d|].
    + destruct Hb as [by_ ->]; [by eauto|]. done.
    + apply (Hinh i inherited n); [set_solver|done].
  - assert (forall e, e ∈ node_rows n <->
        e ∈ (own_entries role_id nodes n (node_effective n inherited)).1
        ++ map (child_entry role_id nodes n) (rn_children n)) as Hrows.
    { intros e. unfold node_rows. erewrite own_entries_fst; [done|].
      rewrite (Hinh i inherited n) by (done || set_solver). by destruct (effective_decision _ _). }
    intros e. rewrite elem_of_app, Hout, <-Hrows. split.
    + intros [(i' & m & ? & ? & ?)|?]; [exists i', m|exists i, n]; split_and!; set_solver.
    + intros (i' & m & [->|?]%elem_of_cons & Hm & ?); [right; congruence|left; eauto].
Qed.

Lemma nodup_bound (l : list nat) N : NoDup l -> (forall i, i ∈ l -> (i < N)%nat) -> (length l <= N)%nat.
Proof.
  intros Hnd Hb. rewrite <-(length_seq N 0). apply submseteq_length, NoDup_submseteq; [done|].
  intros i Hi. apply elem_of_seq. pose proof (Hb i Hi). lia.
Qed.

(** With the stack empty every node has been visited. *)
Lemma emit_inv_done visited out i n :
  emit_inv visited [] out -> nodes !! i = Some n -> i ∈ visited.
Proof.
  intros [_ Hrange Hroot _ Hch _ _] Hn. cbn in *. rewrite app_nil_r in *.
  remember (rn_components n) as p eqn:Hp. revert i n Hn Hp.
  induction p as [|c p IH] using rev_ind; intros i n Hn Hp.
  - destruct (tr_root _ _ _ Hok) as (r & Hr & Hrc).
    by rewrite (tr_inj _ _ _ Hok _ _ _ _ Hn Hr) by congruence.
  - assert (is_node rules p) as (j & m & Hm & Hmp)%(tr_paths _ _ _ Hok).
    { apply (proj1 (rules_closed rules) p [c]). rewrite Hp. apply (tr_paths _ _ _ Hok). eauto. }
    apply (Hch j m c i); [by eapply IH|done|]. apply (tr_children _ _ _ Hok _ _ _ _ Hm).
    exists n. split; [done|]. congruence.
Qed.

(** The loop ends within one iteration per node and emits every node's rows. *)
Lemma emit_total fuel : forall visited stack out conflicts,
  emit_inv visited stack out -> (length nodes <= fuel + length visited)%nat ->
  exists out' found, emit role_id nodes fuel stack out conflicts = Some (out', conflicts ++ found)
    /\ (forall e, e ∈ out' <-> exists i n, nodes !! i = Some n /\ e ∈ node_rows n)
    /\ (found = [] <-> forall i n, i ∉ visited -> nodes !! i = Some n -> node_quiet n).
Proof.
  induction fuel as [|fuel IH]; intros visited [|[i inherited] stack] out conflicts Hinv Hf.
  1,3: exists out, []; rewrite app_nil_r; split_and!; [done| |];
    [intros e; rewrite (em_out _ _ _ Hinv); split; [naive_solver|]; intros (i & n & Hn & He); exists i, n;
     split_and!; try done; by eapply emit_inv_done
    |split; [|done]; intros _ i n Hi Hn; destruct Hi; by eapply emit_inv_done].
  - exfalso. assert (length (visited ++ i :: stack.*1) <= length nodes)%nat as Hl.
    { apply nodup_bound; [exact (em_nodup _ _ _ Hinv)|].
      intros j Hj. by apply lookup_lt_is_Some, (em_range _ _ _ Hinv). }
    rewrite length_app in Hl. simpl in Hl. lia.
  - destruct (em_range _ _ _ Hinv i) as [n Hn]; [set_solver|]. cbn [emit].
    rewrite (node_at_lookup _ _ _ Hn).
    pose proof (emit_inv_step _ _ _ _ _ _ Hinv Hn) as Hinv'.
    pose proof (own_entries_conflicts i n (node_effective n inherited) Hn
      (em_inherit _ _ _ Hinv i inherited n ltac:(set_solver) Hn)) as Hconf.
    assert (i ∉ visited) as Hi.
    { pose proof (em_nodup _ _ _ Hinv) as (_ & Hdisj & _)%NoDup_app. intros Hv. apply (Hdisj i Hv). set_solver. }
    destruct (own_entries role_id nodes n _) as [own conflict]. cbn [fst snd] in *.
    destruct (IH _ _ _ (conflicts ++ conflict) Hinv') as (out' & found & He & Ho & Hc); [simpl; lia|].
    exists out', (conflict ++ found). split_and!; [by rewrite He, app_assoc|done|].
    rewrite app_nil, Hconf, Hc. split.
    + intros [Hq Hqs] i' m Hi' Hm. destruct (decide (i' = i)) as [->|Hne]; [rewrite Hn in Hm; by injection Hm as <-|].
      apply (Hqs i'); [set_solver|done].
    + intros Hqs. split; [by apply (Hqs i)|]. intros i' m Hi' Hm. apply (Hqs i'); [set_solver|done].
Qed.

Lemma emit_inv_init : emit_inv [] [(0%nat, None)] [].
Proof.
  destruct (tr_root _ _ _ Hok) as (r & Hr & Hrc). split; cbn.
  - apply NoDup_singleton.
  - intros i ->%list_elem_of_singleton. by eauto.
  - set_solver.
  - intros j n p c ->%list_elem_of_singleton Hn Hc. rewrite Hr in Hn. injection Hn as <-.
    rewrite Hrc in Hc. by destruct p.
  - set_solver.
  - intros j inh n [= -> ->]%list_elem_of_singleton Hn. rewrite Hr in Hn. injection Hn as <-.
    destruct (tr_decision _ _ _ Hok _ _ Hr) as [Hd _]. unfold node_effective. rewrite Hrc in *.
    rewrite root_undecided, Hd.
    pose proof (root_undecided rules) as Hroot. unfold effective_decision in Hroot. cbn in Hroot.
    by destruct (rule_decision rules []).
  - set_solver.
Qed.
End emission.

(** ** The compiled rows *)

Lemma is_node_spec rules p : is_node rules p <-> p ∈ rn_components <$> build_nodes rules.
Proof.
  rewrite (tr_paths _ _ _ (build_nodes_ok rules)), list_elem_of_fmap.
  setoid_rewrite list_elem_of_lookup. naive_solver.
Qed.

#[export] Instance is_node_dec rules p : Decision (is_node rules p).
Proof.
  destruct (decide (p ∈ rn_components <$> build_nodes rules));
    [left|right]; by rewrite is_node_spec.
Defined.

Definition has_child (rules : list (bytes * bool)) (p : list bytes) : Prop :=
  exists c, is_node rules (p ++ [c]).

#[export] Instance has_child_dec rules p : Decision (has_child rules p).
Proof.
  destruct (decide (Exists (fun q => p `prefix_of` q /\ q <> p) (rn_components <$> build_nodes rules))) as [H|H].
  - left. apply Exists_exists in H as (q & Hq & [k ->] & Hne). destruct k as [|x k].
    + by rewrite app_nil_r in Hne.
    + exists x. apply (proj1 (rules_closed rules) _ k). rewrite <-app_assoc. by apply is_node_spec.
  - right. intros [x Hx]. apply H, Exists_exists. exists (p ++ [x]). split_and!.
    + by apply is_node_spec.
    + by apply prefix_app_r.
    + intros Heq%(f_equal length). rewrite length_app in Heq. simpl in Heq. lia.
Defined.

(** No star stands beside an inherited decision, whose slot it would need. *)
Definition conflict_free (rules : list (bytes * bool)) : Prop :=
  Forall (fun p => is_node rules (p ++ [STAR]) -> effective_decision rules p = None)
    (rn_components <$> build_nodes rules).

#[export] Instance conflict_free_dec rules : Decision (conflict_free rules).
Proof. unfold conflict_free. apply _. Defined.

Lemma conflict_free_spec rules :
  conflict_free rules <-> forall p, is_node rules (p ++ [STAR]) -> effective_decision rules p = None.
Proof.
  unfold conflict_free. rewrite Forall_forall. split.
  - intros Hc p Hp. apply Hc; [|done]. apply is_node_spec, (proj1 (rules_closed rules) _ [STAR] Hp).
  - intros Hc p _. apply Hc.
Qed.

Lemma star_free_node rules p c : star_free rules -> is_node rules (p ++ [c]) -> c <> STAR.
Proof.
  intros Hsf [Hnil|(r & Hr & [q Hq])] ->; [by destruct p|]. unfold star_free in Hsf. rewrite Forall_forall in Hsf.
  apply (Hsf r Hr). rewrite Hq. set_solver.
Qed.

(** The two kinds of rows, by path. *)
Definition own_row (role_id : Z) (p : list bytes) (d : bool) : path_state_entry :=
  (codec_path_state_key role_id (state_after role_id p) 0,
   codec_path_state_value (terminal_state d) true d true).

Inductive compiled_row (role_id : Z) (rules : list (bytes * bool)) : path_state_entry -> Prop :=
  | row_own p d :
      is_node rules p -> has_child rules p -> effective_decision rules p = Some d ->
      compiled_row role_id rules (own_row role_id p d)
  | row_through p c :
      is_node rules p -> is_node rules (p ++ [c]) -> has_child rules (p ++ [c]) ->
      compiled_row role_id rules
        (codec_path_state_key role_id (state_after role_id p) (component_key c),
         codec_path_state_value (state_after role_id (p ++ [c])) false false (bool_decide (c = STAR)))
  | row_leaf p c :
      is_node rules p -> is_node rules (p ++ [c]) -> ~ has_child rules (p ++ [c]) ->
      let d := default false (rule_decision rules (p ++ [c])) in
      compiled_row role_id rules
        (codec_path_state_key role_id (state_after role_id p) (component_key c),
         codec_path_state_value (terminal_state d) true d (bool_decide (c = STAR))).

Section rows.
Context (role_id : Z) (rules : list (bytes * bool)).
Let Hok := build_nodes_ok rules.

Lemma node_children_spec i n :
  build_nodes rules !! i = Some n -> rn_children n <> [] <-> has_child rules (rn_components n).
Proof.
  intros Hn. split.
  - destruct (rn_children n) as [|[c j] l] eqn:Hl; [done|]. intros _. exists c.
    apply (tr_paths _ _ _ Hok). exists j. apply (tr_children _ _ _ Hok _ _ _ _ Hn). rewrite Hl. set_solver.
  - intros [c (j & m & Hm & Hc)%(tr_paths _ _ _ Hok)] Hnil.
    assert ((c, j) ∈ rn_children n) as Hin by (apply (tr_children _ _ _ Hok _ _ _ _ Hn); eauto).
    rewrite Hnil in Hin. set_solver.
Qed.

Lemma child_entry_row i n c j :
  build_nodes rules !! i = Some n -> (c, j) ∈ rn_children n ->
  compiled_row role_id rules (child_entry role_id (build_nodes rules) n (c, j)).
Proof.
  intros Hn Hin. apply (tr_children _ _ _ Hok _ _ _ _ Hn) in Hin as (m & Hm & Hc).
  unfold child_entry. rewrite (node_at_lookup _ _ _ Hm).
  pose proof (node_children_spec _ _ Hm) as Hch.
  destruct (tr_decision _ _ _ Hok _ _ Hm) as [Hd _]. rewrite Hc in *.
  assert (is_node rules (rn_components n)) by (apply (tr_paths _ _ _ Hok); eauto).
  assert (is_node rules (rn_components n ++ [c])) by (apply (tr_paths _ _ _ Hok); eauto).
  destruct (rn_children m) as [|x l].
  - rewrite Hd. apply row_leaf; [done..|]. intros ?%Hch. done.
  - apply row_through; [done..|]. by apply Hch.
Qed.

(** Every child of a node has its row among the node's. *)
Lemma child_entry_cover p c :
  is_node rules p -> is_node rules (p ++ [c]) ->
  exists i n j m, build_nodes rules !! i = Some n /\ rn_components n = p
  /\ (c, j) ∈ rn_children n /\ build_nodes rules !! j = Some m /\ rn_components m = p ++ [c].
Proof.
  intros (i & n & Hn & <-)%(tr_paths _ _ _ Hok) (j & m & Hm & Hc)%(tr_paths _ _ _ Hok).
  exists i, n, j, m. split_and!; try done. apply (tr_children _ _ _ Hok _ _ _ _ Hn). eauto.
Qed.

Lemma node_rows_compiled i n e :
  build_nodes rules !! i = Some n -> e ∈ node_rows role_id rules n -> compiled_row role_id rules e.
Proof.
  intros Hn. unfold node_rows. rewrite elem_of_app. intros [He|He].
  - pose proof (node_children_spec _ _ Hn) as Hch.
    assert (is_node rules (rn_components n)) by (apply (tr_paths _ _ _ Hok); eauto).
    unfold own_entries in He. destruct (rn_children n) as [|x l] eqn:Hl; [set_solver|].
    destruct (effective_decision rules (rn_components n)) as [d|] eqn:Hd; [|set_solver]. cbn [fmap option_fmap option_map] in He.
    destruct (children_get (x :: l) STAR); [set_solver|].
    apply list_elem_of_singleton in He as ->. apply row_own; [done| |done]. by apply Hch.
  - apply list_elem_of_fmap in He as ([c j] & -> & Hin). by eapply child_entry_row.
Qed.

Lemma compiled_node_rows e :
  conflict_free rules -> compiled_row role_id rules e ->
  exists i n, build_nodes rules !! i = Some n /\ e ∈ node_rows role_id rules n.
Proof.
  intros Hcf [p d Hp Hch Hd|p c Hp Hc Hch|p c Hp Hc Hch d].
  - apply (tr_paths _ _ _ Hok) in Hp as (i & n & Hn & <-). exists i, n. split; [done|].
    unfold node_rows. rewrite Hd. apply elem_of_app. left. unfold own_entries.
    assert (~ is_node rules (rn_components n ++ [STAR])) as Hst.
    { intros Hst. rewrite conflict_free_spec in Hcf. apply Hcf in Hst. congruence. }
    rewrite (proj2 (star_child rules _ _ Hn) Hst). apply (node_children_spec _ _ Hn) in Hch.
    destruct (rn_children n); [done|]. set_solver.
  - destruct (child_entry_cover p c Hp Hc) as (i & n & j & m & Hn & <- & Hin & Hm & Hmc).
    exists i, n. split; [done|]. apply elem_of_app. right. apply list_elem_of_fmap.
    exists (c, j). split; [|done]. unfold child_entry. rewrite (node_at_lookup _ _ _ Hm).
    rewrite <-Hmc in Hch. apply (node_children_spec _ _ Hm) in Hch. rewrite Hmc.
    by destruct (rn_children m).
  - destruct (child_entry_cover p c Hp Hc) as (i & n & j & m & Hn & <- & Hin & Hm & Hmc).
    exists i, n. split; [done|]. apply elem_of_app. right. apply list_elem_of_fmap.
    exists (c, j). split; [|done]. unfold child_entry. rewrite (node_at_lookup _ _ _ Hm).
    destruct (tr_decision _ _ _ Hok _ _ Hm) as [Hdec _]. rewrite Hmc in Hdec.
    rewrite <-Hmc in Hch. rewrite <-(node_children_spec _ _ Hm) in Hch.
    destruct (rn_children m); [by rewrite Hdec|]. by destruct Hch.
Qed.

(** Rules compile exactly when no star is in conflict, and into these rows. *)
Lemma compile_cases :
  (conflict_free rules /\ exists entries, path_state_entries_for_role role_id rules = inr entries
     /\ forall e, e ∈ entries <-> compiled_row role_id rules e)
  \/ (~ conflict_free rules /\ exists conflicts, path_state_entries_for_role role_id rules = inl conflicts
        /\ conflicts <> []).
Proof.
  unfold path_state_entries_for_role.
  destruct (emit_total role_id rules (length (build_nodes rules)) [] [(0%nat, None)] [] []
    (emit_inv_init role_id rules)) as (out & found & -> & Hout & Hc); [lia|]. cbn [app].
  assert (found = [] <-> conflict_free rules) as Hcf.
  { rewrite Hc. unfold conflict_free. rewrite Forall_forall. split.
    - intros Hq p (n & -> & [i Hn]%list_elem_of_lookup)%list_elem_of_fmap. apply (Hq i n); [set_solver|done].
    - intros Hq i n _ Hn. refine (Hq (rn_components n) _). apply list_elem_of_fmap. exists n. split; [done|].
      by eapply list_elem_of_lookup_2. }
  destruct found as [|x found]; [left|right].
  - assert (conflict_free rules) by by apply Hcf. split; [done|]. exists out. split; [done|]. intros e. rewrite Hout. split.
    + intros (i & n & Hn & He). by eapply node_rows_compiled.
    + by apply compiled_node_rows.
  - split; [by rewrite <-Hcf|]. by eexists.
Qed.

Lemma compile_rows :
  conflict_free rules ->
  exists entries, path_state_entries_for_role role_id rules = inr entries
    /\ forall e, e ∈ entries <-> compiled_row role_id rules e.
Proof. intros Hcf. by destruct compile_cases as [[_ ?]|[? _]]. Qed.
End rows.

(** ** Reading the rows back *)

(** What [write_states] leaves when every update succeeds. *)
Definition write_entries (contents : bpf_map) (entries : list path_state_entry) : bpf_map :=
  fold_left (fun m '(k, v) => <[k := v]> m) entries contents.

Lemma write_states_fits states contents entries :
  Z.of_nat (size contents + length entries) <= md_max_entries states ->
  write_states states contents entries = (true, write_entries contents entries).
Proof.
  revert contents. induction entries as [|[k v] entries IH]; intros contents Hsz; [done|].
  cbn [write_states]. simpl length in Hsz.
  destruct (Z.ltb_spec (Z.of_nat (size contents)) (md_max_entries states)); [|lia].
  rewrite orb_true_r. apply IH.
  destruct (contents !! k) as [v'|] eqn:Hk.
  - rewrite map_size_insert_Some by done. lia.
  - rewrite map_size_insert_None by done. lia.
Qed.

Lemma write_entries_in base entries k v :
  (k, v) ∈ entries -> (forall v', (k, v') ∈ entries -> v' = v) ->
  write_entries base entries !! k = Some v.
Proof.
  revert base. induction entries as [|[k' v'] entries IH] using rev_ind; intros base; [set_solver|].
  intros Hin Hfun. unfold write_entries. rewrite fold_left_app. cbn.
  destruct (decide (k' = k)) as [->|Hne].
  - rewrite lookup_insert_eq. f_equal. apply Hfun. set_solver.
  - rewrite lookup_insert_ne by done. apply IH; [set_solver|]. intros w Hw. apply Hfun. set_solver.
Qed.

Lemma write_entries_out base entries k :
  (forall v, (k, v) ∉ entries) -> write_entries base entries !! k = base !! k.
Proof.
  revert base. induction entries as [|[k' v'] entries IH]; intros base Hn; [done|]. cbn.
  change (write_entries (<[k' := v']> base) entries !! k = base !! k). rewrite IH by set_solver.
  apply lookup_insert_ne. intros ->. apply (Hn v'). set_solver.
Qed.

(** No two names in play share a digest, none has digest zero, and no two nodes
    share a state. *)
Definition collision_free (role_id : Z) (rules : list (bytes * bool)) (path : list bytes) : Prop :=
  let names := path ++ concat (map (fun rule => pattern_components rule.1) rules) in
  let nodes := rn_components <$> build_nodes rules in
  Forall (fun c => fnv1a_hash_u64 c <> 0
    /\ Forall (fun c' => fnv1a_hash_u64 c = fnv1a_hash_u64 c' -> c = c') names) names
  /\ Forall (fun p => Forall (fun q => state_after role_id p = state_after role_id q -> p = q) nodes) nodes.

#[export] Instance collision_free_dec role_id rules path : Decision (collision_free role_id rules path).
Proof. unfold collision_free. apply _. Defined.

(** A verdict of the kernel for a decision of the rules. *)
Definition decision_verdict (d : option bool) : Z :=
  match d with
  | Some true => 1
  | Some false => -13
  | None => 0
  end.

Lemma state_after_range role_id p : in_width 64 (state_after role_id p).
Proof. unfold state_after. destruct p; [apply in_width_0; lia|auto with widths]. Qed.

Lemma terminal_state_range d : in_width 64 (terminal_state d).
Proof. destruct d; vm_compute; split; congruence. Qed.

Lemma codec_key_inj role_id st h st' h' :
  in_width 32 role_id -> in_width 64 st -> in_width 64 h -> in_width 64 st' -> in_width 64 h' ->
  codec_path_state_key role_id st h = codec_path_state_key role_id st' h' -> st = st' /\ h = h'.
Proof.
  intros Hr Hs Hh Hs' Hh' Heq.
  change (to_bytes path_state_key_repr (PathStateKey role_id st h)
    = to_bytes path_state_key_repr (PathStateKey role_id st' h')) in Heq.
  apply to_bytes_inj in Heq; [by injection Heq|apply _|solve_fits; done..].
Qed.

(** A name on the path or in a rule. *)
Definition in_play (rules : list (bytes * bool)) (path : list bytes) (c : bytes) : Prop :=
  c ∈ path ++ concat (map (fun rule => pattern_components rule.1) rules).

Lemma node_component_in_play rules path p c : is_node rules (p ++ [c]) -> in_play rules path c.
Proof.
  intros [Hnil|(r & Hr & [q Hq])]; [by destruct p|]. unfold in_play. apply elem_of_app. right.
  apply list_elem_of_In, in_concat. exists (pattern_components r.1). split.
  - apply in_map_iff. exists r. split; [done|]. by apply list_elem_of_In.
  - apply list_elem_of_In. rewrite Hq. set_solver.
Qed.

Lemma name_key c : c <> STAR -> component_key c = fnv1a_hash_u64 c.
Proof. intros Hc. unfold component_key. by rewrite decide_False. Qed.

(** Beyond the last node no rule speaks. *)
Lemma effective_beyond rules p c rest :
  ~ is_node rules (p ++ [c]) ->
  effective_decision rules (p ++ c :: rest) = effective_decision rules p.
Proof.
  intros Hn. pose proof (rules_closed rules) as [Hc Hd].
  assert (forall rest, rule_decision rules (p ++ c :: rest) = None) as Hnone.
  { intros r. apply Hd. intros Hx. apply Hn, (Hc _ r). by rewrite <-app_assoc. }
  induction rest as [|x rest IH] using rev_ind.
  - by rewrite effective_snoc, Hnone.
  - rewrite app_comm_cons, app_assoc, effective_snoc, <-app_assoc. simpl. by rewrite Hnone.
Qed.

Lemma rule_decision_named rules rule :
  rule ∈ rules -> pattern_components rule.1 <> [] ->
  is_Some (rule_decision rules (pattern_components rule.1)).
Proof.
  induction rules as [|[pattern allow] rules IH] using rev_ind; [set_solver|].
  intros [Hin| ->%list_elem_of_singleton]%elem_of_app Hne; rewrite rule_decision_snoc.
  - case_decide; [by eauto|]. by apply IH.
  - cbn [fst] in *. by rewrite decide_True.
Qed.

(** A leaf is where some pattern ended. *)
Lemma leaf_decided rules q :
  is_node rules q -> q <> [] -> ~ has_child rules q -> is_Some (rule_decision rules q).
Proof.
  intros [?|(r & Hr & [k Hk])] Hne Hch; [done|]. destruct k as [|c k].
  - rewrite app_nil_r in Hk. rewrite <-Hk in *. by apply rule_decision_named.
  - destruct Hch. exists c. right. exists r. split; [done|]. exists k. by rewrite Hk, <-app_assoc.
Qed.

(** ** What rules with stars say of a path *)

(** Where a component leads from a node: its own child, else the star's. *)
Definition next_node (rules : list (bytes * bool)) (p : list bytes) (c : bytes) : option (list bytes) :=
  if decide (is_node rules (p ++ [c])) then Some (p ++ [c])
  else if decide (is_node rules (p ++ [STAR])) then Some (p ++ [STAR])
  else None.

(** A star that ends a pattern also decides the directory it stands in. *)
Definition star_leaf (rules : list (bytes * bool)) (p : list bytes) : option bool :=
  if decide (is_node rules (p ++ [STAR]) /\ ~ has_child rules (p ++ [STAR]))
  then rule_decision rules (p ++ [STAR])
  else None.

(** The walk from a node: never back to a star once a name was taken. *)
Fixpoint decision_from (rules : list (bytes * bool)) (p path : list bytes) : option bool :=
  match path with
  | [] =>
      match effective_decision rules p with
      | Some d => Some d
      | None => star_leaf rules p
      end
  | c :: rest =>
      match next_node rules p c with
      | Some q => decision_from rules q rest
      | None => effective_decision rules p
      end
  end.

(** The root itself is never looked up. *)
Definition path_decision (rules : list (bytes * bool)) (path : list bytes) : option bool :=
  match path with
  | [] => None
  | _ => decision_from rules [] path
  end.

(** A leaf keeps its decision whatever follows. *)
Lemma leaf_from rules q rest :
  is_node rules q -> ~ has_child rules q -> decision_from rules q rest = effective_decision rules q.
Proof.
  intros Hq Hch. destruct rest as [|c rest]; cbn [decision_from].
  - unfold star_leaf. rewrite decide_False by (intros [? _]; apply Hch; by eexists). by case_match.
  - unfold next_node. rewrite !decide_False by (intros ?; apply Hch; by eexists). done.
Qed.

(** Without stars the longest named prefix decides. *)
Lemma star_free_decision rules path :
  star_free rules -> path_decision rules path = effective_decision rules path.
Proof.
  intros Hsf. assert (forall p, ~ is_node rules (p ++ [STAR])) as Hns
    by (intros p Hp; by eapply star_free_node).
  assert (forall p, decision_from rules p path = effective_decision rules (p ++ path)) as H; [|destruct path; [by rewrite root_undecided|exact (H [])]].
  induction path as [|c path IH]; intros p; cbn [decision_from].
  - unfold star_leaf. rewrite decide_False by (intros [? _]; by eapply Hns). rewrite app_nil_r. by case_match.
  - unfold next_node. rewrite (decide_False (P := is_node rules (p ++ [STAR]))) by apply Hns. case_decide.
    + rewrite IH, <-app_assoc. done.
    + by rewrite effective_beyond.
Qed.

Lemma star_free_conflicts rules : star_free rules -> conflict_free rules.
Proof. intros Hsf. apply conflict_free_spec. intros p Hp. by apply star_free_node in Hp. Qed.

Section kernel_view.
Context (role_id : Z) (rules : list (bytes * bool)) (path : list bytes).
Context (Hrole : in_width 32 role_id) (Hquiet : conflict_free rules) (Hcf : collision_free role_id rules path).

Lemma names_inj c c' :
  in_play rules path c -> in_play rules path c' -> fnv1a_hash_u64 c = fnv1a_hash_u64 c' -> c = c'.
Proof.
  destruct Hcf as [Hn _]. rewrite Forall_forall in Hn. intros Hc Hc'.
  destruct (Hn c Hc) as [_ Hn']. rewrite Forall_forall in Hn'. by apply Hn'.
Qed.

Lemma name_nonzero c : in_play rules path c -> fnv1a_hash_u64 c <> 0.
Proof. destruct Hcf as [Hn _]. rewrite Forall_forall in Hn. intros Hc. by apply Hn. Qed.

Lemma states_inj p q :
  is_node rules p -> is_node rules q -> state_after role_id p = state_after role_id q -> p = q.
Proof.
  rewrite !is_node_spec. destruct Hcf as [_ Hs]. rewrite Forall_forall in Hs. intros Hp Hq.
  specialize (Hs p Hp). rewrite Forall_forall in Hs. by apply Hs.
Qed.

Lemma zero_range : in_width 64 0.
Proof. by apply in_width_0. Qed.

Hint Resolve Hrole zero_range state_after_range : widths.

(** The value of the edge into a node. *)
Definition edge_value (c : bytes) (q : list bytes) (v : bytes) : Prop :=
  (has_child rules q
   /\ v = codec_path_state_value (state_after role_id q) false false (bool_decide (c = STAR)))
  \/ (~ has_child rules q
      /\ let d := default false (rule_decision rules q) in
         v = codec_path_state_value (terminal_state d) true d (bool_decide (c = STAR))).

Lemma edge_value_ex c q : exists v, edge_value c q v.
Proof. unfold edge_value. destruct (decide (has_child rules q)); eauto. Qed.

Lemma edge_row p c v :
  is_node rules p -> is_node rules (p ++ [c]) -> edge_value c (p ++ [c]) v ->
  compiled_row role_id rules (codec_path_state_key role_id (state_after role_id p) (component_key c), v).
Proof. intros Hp Hc [[Hch ->]|[Hch ->]]; [by apply row_through|by apply row_leaf]. Qed.

(** What the wildcard slot of a node can hold. *)
Lemma row_at_zero p v :
  is_node rules p ->
  compiled_row role_id rules (codec_path_state_key role_id (state_after role_id p) 0, v) ->
  (has_child rules p /\ exists d, effective_decision rules p = Some d
     /\ v = codec_path_state_value (terminal_state d) true d true)
  \/ (is_node rules (p ++ [STAR]) /\ edge_value STAR (p ++ [STAR]) v).
Proof.
  intros Hp Hrow. remember (_, v) as e eqn:He.
  assert (forall q c, is_node rules q -> is_node rules (q ++ [c]) ->
    codec_path_state_key role_id (state_after role_id q) (component_key c)
    = codec_path_state_key role_id (state_after role_id p) 0 -> c = STAR /\ q = p) as Hkey.
  { intros q c Hq Hc Heq. destruct (decide (c = STAR)) as [->|Hne].
    - apply codec_key_inj in Heq as [Hs _]; [|auto with widths..]. split; [done|]. by apply states_inj.
    - rewrite (name_key _ Hne) in Heq. apply codec_key_inj in Heq as [_ Hz]; [|auto with widths..].
      destruct (name_nonzero c); [by eapply node_component_in_play|done]. }
  destruct Hrow as [q d Hq Hch Hd|q c Hq Hc Hch|q c Hq Hc Hch d];
    apply pair_equal_spec in He as [Heq Hv].
  - left. apply codec_key_inj in Heq as [Hs _]; [|auto with widths..].
    apply states_inj in Hs as ->; [|done..]. eauto.
  - right. destruct (Hkey q c Hq Hc Heq) as [-> ->]. split; [done|]. left. by subst v.
  - right. destruct (Hkey q c Hq Hc Heq) as [-> ->]. split; [done|]. right. by subst v.
Qed.

(** What the slot of a name at a node can hold. *)
Lemma row_at_name p c v :
  is_node rules p -> in_play rules path c ->
  compiled_row role_id rules
    (codec_path_state_key role_id (state_after role_id p) (fnv1a_hash_u64 c), v) ->
  c <> STAR /\ is_node rules (p ++ [c]) /\ edge_value c (p ++ [c]) v.
Proof.
  intros Hp Hplay Hrow. remember (_, v) as e eqn:He.
  destruct Hrow as [q d Hq Hch Hd|q c' Hq Hc Hch|q c' Hq Hc Hch d]; apply pair_equal_spec in He as [Heq Hv].
  { apply codec_key_inj in Heq as [_ Hz]; [|auto with widths..]. by destruct (name_nonzero c). }
  all: destruct (decide (c' = STAR)) as [->|Hne];
    [apply codec_key_inj in Heq as [_ Hz]; [|auto with widths..]; by destruct (name_nonzero c)|];
    rewrite (name_key _ Hne) in Heq;
    apply codec_key_inj in Heq as [Hs Hz]; [|auto with widths..];
    apply states_inj in Hs as ->; [|done..];
    apply names_inj in Hz as ->; [|by eapply node_component_in_play|done]; unfold edge_value; auto.
Qed.

Lemma edge_value_det c q v v' : edge_value c q v -> edge_value c q v' -> v = v'.
Proof. intros [[? ->]|[? ->]] [[? ->]|[? ->]]; done. Qed.

(** ** The kernel's lookups *)

Context (base : bpf_map) (entries : list path_state_entry).
Context (Hrows : forall e, e ∈ entries <-> compiled_row role_id rules e).
Context (states : map_decl path_state_key path_state_value).
Context (Hstates : states = path_states \/ states = exec_states).
Context (Hbase : forall st h, base !! codec_path_state_key role_id st h = None).

Let delta := map_lookup states (write_entries base entries).

Lemma states_lookup contents st h :
  map_lookup states contents (PathStateKey role_id st h)
  = of_bytes path_state_value_repr <$> contents !! codec_path_state_key role_id st h.
Proof. by destruct Hstates as [-> | ->]; rewrite map_lookup_hash by done. Qed.

Lemma delta_in st h v :
  (codec_path_state_key role_id st h, v) ∈ entries ->
  (forall v', (codec_path_state_key role_id st h, v') ∈ entries -> v' = v) ->
  delta (PathStateKey role_id st h) = Some (of_bytes path_state_value_repr v).
Proof.
  intros Hin Hfun. unfold delta. rewrite states_lookup.
  by rewrite (write_entries_in _ _ _ v).
Qed.

Lemma delta_out st h :
  (forall v, (codec_path_state_key role_id st h, v) ∉ entries) ->
  delta (PathStateKey role_id st h) = None.
Proof.
  intros Hn. unfold delta. rewrite states_lookup.
  by rewrite write_entries_out, Hbase.
Qed.

(** The wildcard slot of a node answers with its effective decision. *)
Lemma delta_zero p :
  is_node rules p -> (has_child rules p \/ effective_decision rules p = None) ->
  match effective_decision rules p with
  | Some d => delta (PathStateKey role_id (state_after role_id p) 0)
      = Some (PathStateValue (terminal_state d) 1 (bool_byte d) 1)
  | None => ~ is_node rules (p ++ [STAR]) -> delta (PathStateKey role_id (state_after role_id p) 0) = None
  end.
Proof.
  intros Hp Hch. pose proof (proj1 (conflict_free_spec _) Hquiet p) as Hst.
  destruct (effective_decision rules p) as [d|] eqn:Hd.
  - destruct Hch as [Hch|?]; [|done].
    rewrite (delta_in _ _ (codec_path_state_value (terminal_state d) true d true)).
    + by rewrite path_state_value_reads by apply terminal_state_range.
    + apply Hrows. by apply (row_own role_id rules p d).
    + intros v [(_ & d' & Hd' & ->)|[Hn _]]%Hrows%row_at_zero; [|by apply Hst in Hn|done].
      rewrite Hd in Hd'. by injection Hd' as <-.
  - intros Hn. apply delta_out. intros v [(_ & d' & Hd' & _)|[? _]]%Hrows%row_at_zero; [congruence|done|done].
Qed.

(** The wildcard slot of a node with a star leads to the star. *)
Lemma delta_star p v :
  is_node rules p -> is_node rules (p ++ [STAR]) -> edge_value STAR (p ++ [STAR]) v ->
  delta (PathStateKey role_id (state_after role_id p) 0) = Some (of_bytes path_state_value_repr v).
Proof.
  intros Hp Hst Hv. apply delta_in.
  - apply Hrows. change 0 with (component_key STAR). by apply edge_row.
  - intros v' [(_ & d & Hd & _)|[_ Hv']]%Hrows%row_at_zero; [|by eapply edge_value_det|done].
    apply (proj1 (conflict_free_spec _) Hquiet) in Hst. congruence.
Qed.

Lemma delta_name_none p c :
  is_node rules p -> in_play rules path c -> c = STAR \/ ~ is_node rules (p ++ [c]) ->
  delta (PathStateKey role_id (state_after role_id p) (fnv1a_hash_u64 c)) = None.
Proof.
  intros Hp Hc Hn. apply delta_out. intros v Hv%Hrows. apply row_at_name in Hv as (? & ? & _); [|done..].
  by destruct Hn.
Qed.

Lemma delta_name p c v :
  is_node rules p -> is_node rules (p ++ [c]) -> c <> STAR -> edge_value c (p ++ [c]) v ->
  delta (PathStateKey role_id (state_after role_id p) (fnv1a_hash_u64 c))
  = Some (of_bytes path_state_value_repr v).
Proof.
  intros Hp Hc Hne Hv. apply delta_in.
  - rewrite <-(name_key _ Hne). by apply Hrows, edge_row.
  - intros v' Hv'%Hrows. apply row_at_name in Hv' as (_ & _ & Hv'); [|done|by eapply node_component_in_play].
    by eapply edge_value_det.
Qed.

(** One transition of the kernel is one step of [next_node]. *)
Lemma transition_next p c :
  is_node rules p -> (has_child rules p \/ effective_decision rules p = None) -> in_play rules path c ->
  match next_node rules p c with
  | Some q => is_node rules q /\ q <> [] /\ exists name v, edge_value name q v
      /\ transition delta role_id (state_after role_id p) (fnv1a_hash_u64 c) = Some (of_bytes path_state_value_repr v)
  | None => transition delta role_id (state_after role_id p) (fnv1a_hash_u64 c)
      = (fun d => PathStateValue (terminal_state d) 1 (bool_byte d) 1) <$> effective_decision rules p
  end.
Proof.
  intros Hp Hch Hc. unfold next_node, transition.
  assert (is_node rules (p ++ [STAR]) -> exists v, edge_value STAR (p ++ [STAR]) v
    /\ delta (PathStateKey role_id (state_after role_id p) 0) = Some (of_bytes path_state_value_repr v)) as Hstar.
  { intros Hst. destruct (edge_value_ex STAR (p ++ [STAR])) as [v Hv]. exists v. split; [done|]. by apply delta_star. }
  case_decide as Hn; [|case_decide as Hst].
  - split_and!; [done|by destruct p|]. exists c. destruct (decide (c = STAR)) as [->|Hne].
    + rewrite delta_name_none by auto. by apply Hstar.
    + destruct (edge_value_ex c (p ++ [c])) as [v Hv]. exists v. by rewrite (delta_name p c v).
  - split_and!; [done|by destruct p|]. exists STAR. rewrite delta_name_none by auto. by apply Hstar.
  - rewrite delta_name_none by auto. pose proof (delta_zero p Hp Hch) as Hz.
    destruct (effective_decision rules p); [done|]. by rewrite Hz.
Qed.

(** The verdict where the path ends. *)
Lemma final_compiled p :
  is_node rules p -> (has_child rules p \/ effective_decision rules p = None) ->
  final_verdict delta role_id (state_after role_id p) = decision_verdict (decision_from rules p []).
Proof.
  intros Hp Hch. unfold final_verdict. cbn [decision_from]. pose proof (delta_zero p Hp Hch) as Hz.
  destruct (effective_decision rules p) as [d|]; [rewrite Hz; by destruct d|]. unfold star_leaf.
  destruct (decide (is_node rules (p ++ [STAR]))) as [Hst|Hst].
  - destruct (edge_value_ex STAR (p ++ [STAR])) as [v Hv]. rewrite (delta_star p v Hp Hst Hv).
    destruct Hv as [[Hchs ->]|[Hchs ->]].
    + rewrite decide_False by naive_solver. by rewrite path_state_value_reads by apply state_after_range.
    + rewrite decide_True by done. rewrite path_state_value_reads by apply terminal_state_range.
      destruct (leaf_decided rules (p ++ [STAR]) Hst) as [d ->]; [by destruct p|done|]. by destruct d.
  - rewrite Hz by done. rewrite decide_False by naive_solver. done.
Qed.

(** From any node the kernel's walk over the remaining names returns the
    decision of the most specific rule. *)
Lemma run_compiled rest : forall p,
  is_node rules p -> (has_child rules p \/ effective_decision rules p = None) ->
  Forall (in_play rules path) rest ->
  run delta role_id (state_after role_id p) (map fnv1a_hash_u64 rest)
  = decision_verdict (decision_from rules p rest).
Proof.
  induction rest as [|c rest IH]; intros p Hp Hch Hplay.
  - cbn [map run decision_from]. by apply final_compiled.
  - apply Forall_cons in Hplay as [Hc Hplay]. cbn [map run decision_from].
    pose proof (transition_next p c Hp Hch Hc) as Ht. destruct (next_node rules p c) as [q|].
    + destruct Ht as (Hq & Hne & name & v & Hv & ->). destruct Hv as [[Hchq ->]|[Hchq ->]].
      * rewrite path_state_value_reads by apply state_after_range. cbn [sv_is_terminal sv_next_state bool_byte].
        simpl (0 =? 0). apply IH; [done|by left|done].
      * destruct (leaf_decided rules q Hq Hne Hchq) as [d Hd]. rewrite Hd, leaf_from by done.
        rewrite path_state_value_reads by apply terminal_state_range.
        destruct q as [|x q _] using rev_ind; [done|]. rewrite effective_snoc, Hd. by destruct d.
    + rewrite Ht. by destruct (effective_decision rules p) as [[]|].
Qed.
End kernel_view.

(** ** Properties *)

(** C18. From policy text to verdict, for rules whose names and states do not
    collide, on a map without earlier rows of the role. Compilation succeeds
    exactly when no star component stands beside an inherited decision. If it
    does, and the file or the exec map has room for the rows, writing them
    succeeds, and the kernel's state machine then returns, for every fully
    collected path, the decision of the rules: from the root down, the child of
    that name is taken where there is one, else the star, and where neither is
    the nearest decision above counts. Without stars that is the decision of the
    longest prefix of the path that some rule names. (Prefixes that agree on
    their 64 hashed bytes do collide: [long_prefixes_alias].) *)
Theorem role_rules_enforced (role_id : Z) (rules : list (bytes * bool)) (path : list bytes)
    (states : map_decl path_state_key path_state_value) (base : bpf_map) (buf : path_components) :
  in_width 32 role_id -> collision_free role_id rules path ->
  states = path_states \/ states = exec_states ->
  (forall st h, base !! codec_path_state_key role_id st h = None) ->
  buf_ok buf -> pc_truncated buf = 0 -> path <> [] ->
  reverse (buf_components buf) = map fnv1a_hash_u64 path ->
  (conflict_free rules <-> exists entries, path_state_entries_for_role role_id rules = inr entries)
  /\ (forall entries, path_state_entries_for_role role_id rules = inr entries ->
        Z.of_nat (size base + length entries) <= md_max_entries states ->
        exists contents, write_states states base entries = (true, contents)
          /\ check_path_state_machine states contents role_id buf
             = decision_verdict (path_decision rules path))
  /\ (star_free rules -> conflict_free rules /\ path_decision rules path = effective_decision rules path).
Proof.
  intros Hrole Hcf Hstates Hbase Hbuf Ht Hne Hpath. split_and!.
  - destruct (compile_cases role_id rules) as [(Hq & es & He & _)|(Hq & cs & He & _)]; [split; by eauto|].
    split; [done|]. intros [es He']. congruence.
  - intros entries He Hroom. exists (write_entries base entries). split; [by apply write_states_fits|].
    destruct (compile_cases role_id rules) as [(Hq & es & He' & Hrows)|(_ & cs & He' & _)]; [|congruence].
    rewrite He in He'. injection He' as <-.
    unfold check_path_state_machine. rewrite sm_check_run, Ht, Hpath by done. simpl negb. rewrite orb_false_r.
    destruct (Z.eqb_spec (pc_count buf) 0) as [Hc|_].
    + exfalso. apply (f_equal length) in Hpath. rewrite length_reverse, length_map in Hpath.
      pose proof (length_buf_components buf Hbuf). destruct path; [done|]. simpl in Hpath. lia.
    + assert (path_decision rules path = decision_from rules [] path) as -> by by destruct path.
      apply (run_compiled role_id rules path Hrole Hq Hcf base entries Hrows states Hstates Hbase path []).
      * by left.
      * right. apply root_undecided.
      * apply Forall_forall. intros c Hin. unfold in_play. set_solver.
  - intros Hsf. split; [by apply star_free_conflicts|by apply star_free_decision].
Qed.

(** "/etc/**" allowed, "/etc/shadow" denied. *)
Definition etc_rules : list (bytes * bool) :=
  [(SLASH :: name_etc ++ SLASH :: STARSTAR, true); (SLASH :: name_etc ++ SLASH :: name_shadow, false)].

Lemma role_rules_enforced_witness :
  exists entries contents, path_state_entries_for_role 7 etc_rules = inr entries
    /\ write_states path_states ∅ entries = (true, contents)
    /\ check_path_state_machine path_states contents 7 shadow_buf = -13.
Proof.
  destruct (role_rules_enforced 7 etc_rules [name_etc; name_shadow] path_states ∅ shadow_buf)
    as ([Hc _] & Hw & _).
  - vm_compute. split; congruence.
  - apply (bool_decide_unpack _). vm_compute. exact I.
  - by left.
  - intros st h. apply lookup_empty.
  - apply shadow_buf_ok.
  - reflexivity.
  - congruence.
  - reflexivity.
  - destruct Hc as [entries He]; [apply (bool_decide_unpack _); vm_compute; exact I|].
    destruct (Hw entries He) as (contents & Hwr & Hv).
    + assert (length entries = 3%nat) as ->; [|done].
      change (path_state_entries_for_role 7 etc_rules) with
        (inr (A := list (bytes * bytes)) (default [] (match path_state_entries_for_role 7 etc_rules
          with inr out => Some out | inl _ => None end))) in He.
      injection He as <-. reflexivity.
    + exists entries, contents. split_and!; [done|done|]. rewrite Hv. reflexivity.
Defined.

(** Names taken literally are not tried as stars: with "/home/*/secret" denied
    and anything named below "/home/alice", alice's own secret is decided by no
    rule, while everybody else's is denied. *)
Example star_shadowed :
  let rules := [(text "/home/*/secret", false); (text "/home/alice/public", true)] in
  conflict_free rules
  /\ path_decision rules [text "home"; text "alice"; text "secret"] = None
  /\ path_decision rules [text "home"; text "bob"; text "secret"] = Some false.
Proof. split; [apply (bool_decide_unpack _); vm_compute; exact I|]. by vm_compute. Qed.

(** A star at the end of a pattern decides the directory above it as well. *)
Example star_covers_parent : path_decision [(text "/tmp/*", false)] [text "tmp"] = Some false.
Proof. by vm_compute. Qed.

(** A directory name of 64 bytes. *)
Definition long_name : bytes := replicate 64 97.

(** "/<64 bytes>/p/x" allowed and "/<64 bytes>/s/x" denied. *)
Definition long_rules : list (bytes * bool) :=
  [(SLASH :: long_name ++ [SLASH; 112; SLASH; 120], true);
   (SLASH :: long_name ++ [SLASH; 115; SLASH; 120], false)].

(** Their rows, and the map once they are written. *)
Definition long_entries : list path_state_entry :=
  match path_state_entries_for_role 7 long_rules with inr out => out | inl _ => [] end.

Definition long_contents : bpf_map := (write_states path_states ∅ long_entries).2.

(** The states of two directories whose names agree on the 64 bytes that are
    hashed are one state: of two rules below them the one written later decides
    both, and here the path denied by its own rule is allowed; and the rule
    also decides a path it does not name. *)
Theorem long_prefixes_alias :
  path_state_entries_for_role 7 long_rules = inr long_entries
    /\ (write_states path_states ∅ long_entries).1 = true
    /\ effective_decision long_rules [long_name; [115]; [120]] = Some false
    /\ run (map_lookup path_states long_contents) 7 PATH_STATE_ROOT
         (map fnv1a_hash_u64 [long_name; [115]; [120]]) = 1
    /\ effective_decision long_rules [long_name; [120]] = None
    /\ run (map_lookup path_states long_contents) 7 PATH_STATE_ROOT
         (map fnv1a_hash_u64 [long_name; [120]]) = 1.
Proof.
  split_and!; vm_compute; reflexivity.
Qed.
