(* ===== verification/Parse.v ===== *)
(** * Parsing the policy's network texts

    [parse_cidr], [parse_proxy_addr], [parse_protocol] and [expand_network_rule]
    of bpfjailer-common/src/codec.rs, on top of what the standard library does
    for them: [str::parse] for unsigned integers, and [Ipv4Addr::from_str], which
    takes four decimal octets of at most three digits without leading zeros and
    at most 15 bytes in all.  Errors are values; the text of the messages is not
    kept. *)

From S2P Require Import Prelude CLayout BpfMap Rust Kernel Types Machine Hash Enrollment Hooks Network Codec Patterns.

Definition DOT : Z := 46.
Definition COLON : Z := 58.

(** [s.find(sep)] followed by [split_at]: what precedes the first separator and
    what follows it. *)
Fixpoint split_first (sep : Z) (s : bytes) : option (bytes * bytes) :=
  match s with
  | [] => None
  | c :: s' =>
      if c =? sep then Some ([], s')
      else match split_first sep s' with
           | Some (before, after) => Some (c :: before, after)
           | None => None
           end
  end.

(** ** Unsigned integers *)

Definition is_digit (c : Z) : bool := (48 <=? c) && (c <=? 57).

(** The digits, most significant first, with every intermediate result checked
    against the width. *)
Fixpoint parse_digits (w acc : Z) (s : bytes) : option Z :=
  match s with
  | [] => Some acc
  | c :: s' =>
      if is_digit c then
        let acc' := acc * 10 + (c - 48) in
        if acc' <? 2 ^ w then parse_digits w acc' s' else None
      else None
  end.

(** [str::parse::<uW>()]: a leading plus sign is accepted, a lone sign is not. *)
Definition parse_uint (w : Z) (s : bytes) : option Z :=
  match s with
  | [] => None
  | [c] => if is_digit c then parse_digits w 0 s else None
  | c :: s' => if c =? 43 then parse_digits w 0 s' else parse_digits w 0 s
  end.

(** ** Addresses *)

(** The longest prefix of digits, and the rest. *)
Fixpoint span_digits (s : bytes) : bytes * bytes :=
  match s with
  | [] => ([], [])
  | c :: s' =>
      if is_digit c then let '(ds, rest) := span_digits s' in (c :: ds, rest)
      else ([], s)
  end.

Definition digits_value (ds : bytes) : Z := fold_left (fun a c => a * 10 + (c - 48)) ds 0.

(** One octet: one to three digits, no leading zero, below 256. *)
Definition octet_digits (ds : bytes) : bool :=
  negb (bool_decide (ds = [])) && (Z.of_nat (length ds) <=? 3)
  && negb (bool_decide (head ds = Some 48) && (1 <? Z.of_nat (length ds)))
  && (digits_value ds <? 256).

Definition read_octet (s : bytes) : option (Z * bytes) :=
  let '(ds, rest) := span_digits s in
  if octet_digits ds then Some (digits_value ds, rest) else None.

(** A separator, then an octet. *)
Definition read_dot_octet (s : bytes) : option (Z * bytes) :=
  match s with
  | c :: s' => if c =? DOT then read_octet s' else None
  | [] => None
  end.

Definition parse_ipv4 (s : bytes) : option ipv4 :=
  if 15 <? Z.of_nat (length s) then None
  else
    '(a, s1) ← read_octet s;
    '(b, s2) ← read_dot_octet s1;
    '(c, s3) ← read_dot_octet s2;
    '(d, s4) ← read_dot_octet s3;
    if decide (s4 = []) then Some (Ipv4 a b c d) else None.

(** ** The policy's texts *)

Inductive parse_error :=
| InvalidPrefixLength
| PrefixOutOfRange
| InvalidAddress
| NotHostPort
| InvalidPort.

Definition parse_cidr (cidr : bytes) : parse_error + (ipv4 * Z) :=
  let address (ip_str : bytes) (prefix_len : Z) :=
    match parse_ipv4 ip_str with
    | Some ip => inr (ip, prefix_len)
    | None => inl InvalidAddress
    end in
  match split_first SLASH cidr with
  | Some (ip, prefix) =>
      match parse_uint 8 prefix with
      | None => inl InvalidPrefixLength
      | Some len => if 32 <? len then inl PrefixOutOfRange else address ip len
      end
  | None => address cidr 32
  end.

Definition parse_proxy_addr (addr : bytes) : parse_error + (ipv4 * Z) :=
  match split_on COLON addr with
  | [host; port] =>
      match parse_ipv4 host with
      | None => inl InvalidAddress
      | Some ip => match parse_uint 16 port with
                   | None => inl InvalidPort
                   | Some port => inr (ip, port)
                   end
      end
  | _ => inl NotHostPort
  end.

(** [to_lowercase] on the letters that matter: no character outside ASCII
    lowercases to one of "tcp" or "udp". *)
Definition to_lowercase (s : bytes) : bytes :=
  (fun c => if (65 <=? c) && (c <=? 90) then c + 32 else c) <$> s.

Definition parse_protocol (name : bytes) : option Z :=
  if decide (to_lowercase name = text "tcp") then Some PROTO_TCP
  else if decide (to_lowercase name = text "udp") then Some PROTO_UDP
  else None.

(** The ports of a rule: an inclusive range, one port, or port 0 for any. *)
Definition expand_network_rule (protocol : bytes) (port port_start port_end : option Z)
    : option (Z * list Z) :=
  match parse_protocol protocol with
  | None => None
  | Some proto =>
      match port_start, port_end with
      | Some start, Some end_ =>
          if end_ <? start then None else Some (proto, seqZ start (end_ - start + 1))
      | _, _ => match port with
                | Some p => Some (proto, [p])
                | None => Some (proto, [0])
                end
      end
  end.

(** ** Printing, as a reference *)

(** The canonical text of an address. *)
Definition print_ipv4 (ip : ipv4) : bytes :=
  decimal (oct0 ip) ++ DOT :: decimal (oct1 ip) ++ DOT :: decimal (oct2 ip)
    ++ DOT :: decimal (oct3 ip).

(** ** Digits *)

Lemma is_digit_spec c : is_digit c = true <-> 48 <= c <= 57.
Proof. unfold is_digit. rewrite andb_true_iff, !Z.leb_le. lia. Qed.

(** The value of a digit string, from any accumulator. *)
Lemma fold_digits_acc ds acc :
  fold_left (fun a c => a * 10 + (c - 48)) ds acc = acc * 10 ^ Z.of_nat (length ds) + digits_value ds.
Proof.
  unfold digits_value. replace acc with (acc + 0) at 1 by lia. generalize 0 as z. revert acc.
  induction ds as [|c ds IH]; intros acc z; simpl length; [simpl; lia|].
  cbn [fold_left]. replace ((acc + z) * 10 + (c - 48)) with (acc * 10 + (z * 10 + (c - 48))) by lia.
  rewrite IH, Nat2Z.inj_succ, Z.pow_succ_r by lia. lia.
Qed.

Lemma digits_value_snoc ds c : digits_value (ds ++ [c]) = digits_value ds * 10 + (c - 48).
Proof. unfold digits_value. by rewrite fold_left_app. Qed.

Lemma digits_value_nonneg ds : Forall (fun c => is_digit c = true) ds -> 0 <= digits_value ds.
Proof.
  induction 1 as [|c ds Hc _ IH] using Forall_ind; [done|].
  unfold digits_value. cbn [fold_left]. rewrite fold_digits_acc. apply is_digit_spec in Hc.
  pose proof (Z.pow_nonneg 10 (Z.of_nat (length ds))). nia.
Qed.

(** Checking each step against the width is checking the result. *)
Lemma parse_digits_value w ds :
  Forall (fun c => is_digit c = true) ds -> forall acc, 0 <= acc < 2 ^ w ->
  parse_digits w acc ds
  = let v := acc * 10 ^ Z.of_nat (length ds) + digits_value ds in
    if v <? 2 ^ w then Some v else None.
Proof.
  induction 1 as [|c ds Hc Hds IH]; intros acc Hacc; cbn zeta.
  - simpl length. change (digits_value []) with 0. rewrite Z.pow_0_r, Z.mul_1_r, Z.add_0_r.
    destruct (Z.ltb_spec acc (2 ^ w)); [done|lia].
  - cbn [parse_digits]. rewrite Hc.
    replace (acc * 10 ^ Z.of_nat (length (c :: ds)) + digits_value (c :: ds))
      with ((acc * 10 + (c - 48)) * 10 ^ Z.of_nat (length ds) + digits_value ds).
    2:{ rewrite <-!fold_digits_acc. reflexivity. }
    apply is_digit_spec in Hc. pose proof (digits_value_nonneg ds Hds).
    assert (1 <= 10 ^ Z.of_nat (length ds)) by (apply (Z.pow_le_mono_r 10 0); lia).
    destruct (Z.ltb_spec (acc * 10 + (c - 48)) (2 ^ w)) as [Hlt|Hge].
    + rewrite IH by lia. done.
    + destruct (Z.ltb_spec ((acc * 10 + (c - 48)) * 10 ^ Z.of_nat (length ds) + digits_value ds) (2 ^ w));
        [nia|done].
Qed.

Lemma parse_digits_digits w acc s v :
  parse_digits w acc s = Some v -> Forall (fun c => is_digit c = true) s.
Proof.
  revert acc. induction s as [|c s IH]; intros acc; [constructor|]. cbn.
  destruct (is_digit c) eqn:Hc; [|done]. case_match; [|done]. intros ?%IH. by constructor.
Qed.

(** ** Decimal numerals *)

Lemma decimal_digits_app fuel n acc : decimal_digits fuel n acc = decimal_digits fuel n [] ++ acc.
Proof.
  revert n acc. induction fuel as [|fuel IH]; intros n acc; [done|]. cbn [decimal_digits].
  case_match; [done|]. rewrite IH, (IH _ [_]), <-app_assoc. done.
Qed.

Lemma decimal_digits_spec fuel n :
  0 <= n < 10 ^ Z.of_nat fuel ->
  Forall (fun c => is_digit c = true) (decimal_digits fuel n [])
  /\ digits_value (decimal_digits fuel n []) = n.
Proof.
  revert n. induction fuel as [|fuel IH]; intros n Hn.
  - simpl in Hn. split; [constructor|]. change (0 = n). lia.
  - cbn [decimal_digits]. pose proof (Z.mod_pos_bound n 10).
    assert (is_digit (48 + n mod 10) = true) as Hd by (apply is_digit_spec; lia).
    pose proof (Z.div_mod n 10).
    destruct (Z.eqb_spec (n / 10) 0) as [Hz|Hz].
    + split; [by repeat constructor|]. unfold digits_value. cbn [fold_left]. lia.
    + rewrite decimal_digits_app, digits_value_snoc.
      rewrite Nat2Z.inj_succ, Z.pow_succ_r in Hn by lia.
      destruct (IH (n / 10)) as [Hf Hv]; [split; [lia|apply Z.div_lt_upper_bound; lia]|].
      split; [apply Forall_app; split; [done|by repeat constructor]|]. rewrite Hv. lia.
Qed.

Lemma decimal_digits_nonempty fuel n : decimal_digits (S fuel) n [] <> [].
Proof.
  cbn [decimal_digits]. case_match; [done|]. rewrite decimal_digits_app. intros [_ ?]%app_eq_nil. done.
Qed.

Lemma decimal_spec n :
  0 <= n < 10 ^ 10 ->
  Forall (fun c => is_digit c = true) (decimal n) /\ digits_value (decimal n) = n /\ decimal n <> [].
Proof.
  intros Hn. destruct (decimal_digits_spec 10 n Hn) as [? ?]. split_and!; [done|done|].
  apply decimal_digits_nonempty.
Qed.

Lemma parse_uint_decimal w n : 0 < w -> 0 <= n < 10 ^ 10 -> n < 2 ^ w -> parse_uint w (decimal n) = Some n.
Proof.
  intros Hw Hn Hlt. destruct (decimal_spec n Hn) as (Hd & Hv & Hne).
  assert (parse_digits w 0 (decimal n) = Some n) as Hp.
  { rewrite parse_digits_value by (try done; lia). cbn zeta. rewrite Hv.
    replace (0 * _ + n) with n by lia. destruct (Z.ltb_spec n (2 ^ w)); [done|lia]. }
  destruct (decimal n) as [|c [|c' s]]; [done| |]; cbn [parse_uint];
    apply Forall_cons in Hd as [Hc _].
  - by rewrite Hc.
  - apply is_digit_spec in Hc. destruct (Z.eqb_spec c 43); [lia|done].
Qed.

(** ** Octets *)

(** Every octet's numeral is one [octet_digits] accepts. *)
Lemma octet_numeral n : is_byte n -> octet_digits (decimal n) = true.
Proof.
  intros Hn. assert (Forall (fun n => octet_digits (decimal n) = true) (seqZ 0 256)) as Hall.
  { apply (bool_decide_unpack _). vm_compute. exact I. }
  rewrite Forall_forall in Hall. apply Hall, elem_of_seqZ. unfold is_byte in Hn. lia.
Qed.

(** And nothing else is: the accepted digits are the numeral of their value. *)
Lemma octet_digits_canonical ds :
  Forall (fun c => is_digit c = true) ds -> octet_digits ds = true ->
  ds = decimal (digits_value ds) /\ is_byte (digits_value ds).
Proof.
  intros Hd Ho. split.
  2:{ unfold octet_digits in Ho. rewrite !andb_true_iff, Z.ltb_lt in Ho.
      pose proof (digits_value_nonneg ds Hd). unfold is_byte. lia. }
  assert (Forall (fun ds => octet_digits ds = true -> ds = decimal (digits_value ds))
    (((fun a => [a]) <$> seqZ 48 10)
     ++ (a ← seqZ 48 10; (fun b => [a; b]) <$> seqZ 48 10)
     ++ (a ← seqZ 48 10; b ← seqZ 48 10; (fun c => [a; b; c]) <$> seqZ 48 10))) as Hall.
  { apply (bool_decide_unpack _). vm_compute. exact I. }
  rewrite Forall_forall in Hall. apply Hall; [|done]. clear Hall.
  assert (forall c, is_digit c = true -> c ∈ seqZ 48 10) as Hin
    by (intros c Hc%is_digit_spec; apply elem_of_seqZ; lia).
  rewrite !elem_of_app, !list_elem_of_fmap.
  destruct ds as [|a [|b [|c [|d ds]]]]; [done|..]; rewrite ?Forall_cons in Hd.
  - left. exists a. naive_solver.
  - right; left. apply list_elem_of_bind. exists a. rewrite list_elem_of_fmap. naive_solver.
  - right; right. apply list_elem_of_bind. exists a. split; [|naive_solver].
    apply list_elem_of_bind. exists b. rewrite list_elem_of_fmap. naive_solver.
  - exfalso. unfold octet_digits in Ho. rewrite !andb_true_iff, Z.leb_le in Ho. simpl length in Ho. lia.
Qed.

(** Nothing more to read as a digit. *)
Definition stops (rest : bytes) : Prop := forall c, head rest = Some c -> is_digit c = false.

Lemma span_digits_app ds rest :
  Forall (fun c => is_digit c = true) ds -> stops rest -> span_digits (ds ++ rest) = (ds, rest).
Proof.
  induction 1 as [|c ds Hc _ IH]; intros Hr; cbn.
  - destruct rest as [|c rest]; [done|]. cbn. by rewrite (Hr c).
  - by rewrite Hc, IH.
Qed.

Lemma span_digits_spec s ds rest :
  span_digits s = (ds, rest) ->
  s = ds ++ rest /\ Forall (fun c => is_digit c = true) ds /\ stops rest.
Proof.
  revert ds rest. induction s as [|c s IH]; intros ds rest; cbn.
  - intros [= <- <-]. split_and!; [done|constructor|]. by intros c.
  - destruct (is_digit c) eqn:Hc.
    + destruct (span_digits s) as [ds' rest'] eqn:Hs. intros [= <- <-].
      destruct (IH _ _ eq_refl) as (-> & ? & ?). split_and!; [done|by constructor|done].
    + intros [= <- <-]. split_and!; [done|constructor|]. by intros c' [= <-].
Qed.

Lemma read_octet_iff s n rest :
  stops rest -> read_octet s = Some (n, rest) <-> s = decimal n ++ rest /\ is_byte n.
Proof.
  intros Hr. unfold read_octet. split.
  - destruct (span_digits s) as [ds rest'] eqn:Hs. apply span_digits_spec in Hs as (-> & Hd & _).
    destruct (octet_digits ds) eqn:Ho; [|done]. intros [= <- <-].
    destruct (octet_digits_canonical ds Hd Ho) as [<- ?]. done.
  - intros [-> Hn]. pose proof Hn as [? ?]. destruct (decimal_spec n) as (Hd & Hv & _); [lia|].
    rewrite span_digits_app by done. by rewrite octet_numeral, Hv.
Qed.

Lemma read_octet_stops s n rest : read_octet s = Some (n, rest) -> stops rest.
Proof.
  unfold read_octet. destruct (span_digits s) as [ds rest'] eqn:Hs.
  apply span_digits_spec in Hs as (_ & _ & Hst). case_match; [|done]. by intros [= _ <-].
Qed.

Lemma read_dot_octet_iff s n rest :
  stops rest -> read_dot_octet s = Some (n, rest) <-> s = DOT :: decimal n ++ rest /\ is_byte n.
Proof.
  intros Hr. unfold read_dot_octet. destruct s as [|c s]; [naive_solver|].
  destruct (Z.eqb_spec c DOT) as [->|Hne]; [|naive_solver].
  rewrite read_octet_iff by done. naive_solver.
Qed.

Lemma read_dot_octet_stops s n rest : read_dot_octet s = Some (n, rest) -> stops rest.
Proof. unfold read_dot_octet. repeat case_match; try done. apply read_octet_stops. Qed.

Lemma stops_nil : stops [].
Proof. by intros c. Qed.

Lemma stops_dot s : stops (DOT :: s).
Proof. by intros c [= <-]. Qed.
#[export] Hint Resolve stops_nil stops_dot : jailer.

Lemma length_octet_numeral n : is_byte n -> (length (decimal n) <= 3)%nat.
Proof.
  intros Hn%octet_numeral. unfold octet_digits in Hn. rewrite !andb_true_iff, Z.leb_le in Hn. lia.
Qed.

Lemma length_print_ipv4 ip : ipv4_ok ip -> (length (print_ipv4 ip) <= 15)%nat.
Proof.
  intros Hip. unfold ipv4_ok, octets in Hip. decompose_Forall.
  unfold print_ipv4. repeat (rewrite length_app || simpl length).
  pose proof (length_octet_numeral (oct0 ip)). pose proof (length_octet_numeral (oct1 ip)).
  pose proof (length_octet_numeral (oct2 ip)). pose proof (length_octet_numeral (oct3 ip)).
  intuition lia.
Qed.

(** The parser accepts exactly the canonical texts. *)
Lemma parse_ipv4_iff s ip : parse_ipv4 s = Some ip <-> s = print_ipv4 ip /\ ipv4_ok ip.
Proof.
  unfold parse_ipv4. split.
  - case_match; [done|].
    intros ([a s1] & Ha & ([b s2] & Hb & ([c s3] & Hc & ([d s4] & Hd & Hend)
      %bind_Some)%bind_Some)%bind_Some)%bind_Some.
    case_decide as Hs; [|done]. injection Hend as <-. subst s4.
    apply read_octet_iff in Ha as [-> ?]; [|by eapply read_octet_stops].
    apply read_dot_octet_iff in Hb as [-> ?]; [|by eapply read_dot_octet_stops].
    apply read_dot_octet_iff in Hc as [-> ?]; [|by eapply read_dot_octet_stops].
    apply read_dot_octet_iff in Hd as [-> ?]; [|apply stops_nil].
    split; [|by apply Ipv4_ok]. unfold print_ipv4. cbn. by rewrite app_nil_r.
  - intros [-> Hip]. pose proof (length_print_ipv4 ip Hip) as Hl.
    destruct (Z.ltb_spec 15 (Z.of_nat (length (print_ipv4 ip)))); [lia|].
    unfold ipv4_ok, octets in Hip. rewrite !Forall_cons in Hip. destruct Hip as (? & ? & ? & ? & _).
    apply bind_Some. eexists (_, _). split; [by apply read_octet_iff; [apply stops_dot|]|].
    apply bind_Some. eexists (_, _). split; [by apply read_dot_octet_iff; [apply stops_dot|]|].
    apply bind_Some. eexists (_, _). split; [by apply read_dot_octet_iff; [apply stops_dot|]|].
    apply bind_Some. exists (oct3 ip, []). split.
    { apply read_dot_octet_iff; [apply stops_nil|]. by rewrite app_nil_r. }
    simpl. by destruct ip.
Qed.

(** ** Separators *)

Lemma split_first_app sep before after :
  sep ∉ before -> split_first sep (before ++ sep :: after) = Some (before, after).
Proof.
  induction before as [|c before IH]; intros Hn; cbn; [by rewrite Z.eqb_refl|].
  apply not_elem_of_cons in Hn as [Hne Hn]. destruct (Z.eqb_spec c sep); [congruence|]. by rewrite IH.
Qed.

Lemma split_first_None sep s : split_first sep s = None <-> sep ∉ s.
Proof.
  induction s as [|c s IH]; cbn; [set_solver|].
  destruct (Z.eqb_spec c sep) as [->|Hne]; [set_solver|].
  rewrite not_elem_of_cons, <-IH. destruct (split_first sep s) as [[]|]; naive_solver.
Qed.

Lemma split_first_Some sep s before after :
  split_first sep s = Some (before, after) -> s = before ++ sep :: after.
Proof.
  revert before. induction s as [|c s IH]; intros before; cbn; [done|].
  destruct (Z.eqb_spec c sep) as [->|Hne]; [by intros [= <- <-]|].
  destruct (split_first sep s) as [[b a]|]; [|done]. intros [= <- <-]. by rewrite (IH b).
Qed.

(** Two pieces are what one separator gives. *)
Lemma split_on_one sep s : sep ∉ s -> split_on sep s = [s].
Proof.
  induction s as [|c s IH]; intros Hn; cbn; [done|]. apply not_elem_of_cons in Hn as [Hne Hn].
  destruct (Z.eqb_spec c sep); [congruence|]. by rewrite IH.
Qed.

Lemma split_on_two sep s a b :
  split_on sep s = [a; b] <-> s = a ++ sep :: b /\ sep ∉ a /\ sep ∉ b.
Proof.
  assert (forall s, split_on sep s <> []) as Hne.
  { intros s'. destruct s' as [|c s']; cbn; [done|]. case_match; [done|]. by destruct (split_on sep s'). }
  assert (forall s l, split_on sep s = [l] -> s = l /\ sep ∉ s) as Hone.
  { clear. induction s as [|c s IH]; intros l; cbn; [intros [= <-]; set_solver|].
    destruct (Z.eqb_spec c sep); [intros [= _ H]; by destruct s as [|? ?]; cbn in H; repeat case_match|].
    destruct (split_on sep s) as [|seg [|]] eqn:Hs; [intros [= <-]|intros [= <-]|done].
    - by destruct s as [|? ?]; cbn in Hs; repeat case_match.
    - destruct (IH seg eq_refl) as [-> ?]. set_solver. }
  revert a. induction s as [|c s IH]; intros a; cbn.
  { split; [done|]. by intros [?%app_cons_not_nil _]. }
  destruct (Z.eqb_spec c sep) as [->|Hc].
  - split.
    + intros [= <- Hs]. destruct (Hone _ _ Hs) as [-> ?]. set_solver.
    + intros (Heq & Ha & Hb). destruct a as [|x a]; simplify_eq/=; [by rewrite split_on_one|set_solver].
  - destruct (split_on sep s) as [|seg segs] eqn:Hs; [by destruct (Hne s)|]. split.
    + intros [= <- ->]. destruct (proj1 (IH seg) eq_refl) as (-> & ? & ?). set_solver.
    + intros (Heq & Ha & Hb). destruct a as [|x a]; simplify_eq/=.
      apply not_elem_of_cons in Ha as [_ Ha].
      assert (seg :: segs = [a; b]) as [= -> ->] by by apply IH. done.
Qed.

Lemma not_in_digits sep ds : Forall (fun c => is_digit c = true) ds -> is_digit sep = false -> sep ∉ ds.
Proof. intros Hd Hs Hin. rewrite Forall_forall in Hd. by rewrite (Hd _ Hin) in Hs. Qed.

Lemma not_in_print_ipv4 sep ip : ipv4_ok ip -> is_digit sep = false -> sep <> DOT -> sep ∉ print_ipv4 ip.
Proof.
  intros Hip Hs Hne. unfold ipv4_ok, octets in Hip. rewrite !Forall_cons in Hip.
  assert (forall n, is_byte n -> sep ∉ decimal n) as Hn.
  { intros n [? ?]. apply not_in_digits; [|done]. apply (decimal_spec n). lia. }
  destruct Hip as (?%Hn & ?%Hn & ?%Hn & ?%Hn & _). unfold print_ipv4.
  rewrite !not_elem_of_app, !not_elem_of_cons, !not_elem_of_app, !not_elem_of_cons,
    !not_elem_of_app, !not_elem_of_cons. done.
Qed.

Lemma parse_uint_no_colon w s n : parse_uint w s = Some n -> COLON ∉ s.
Proof.
  unfold parse_uint. destruct s as [|c [|c' s]]; [done| |].
  - destruct (is_digit c) eqn:Hc; [|done]. intros _ H. set_unfold. destruct H as [<-|[]]. done.
  - destruct (Z.eqb_spec c 43) as [->|_]; intros H%parse_digits_digits; apply not_in_digits with (sep := COLON) in H; set_solver.
Qed.

(** [parse_cidr] and [parse_proxy_addr] accept exactly the canonical texts. *)
Lemma address_texts (s : bytes) (ip : ipv4) (n : Z) :
  (parse_cidr s = inr (ip, n)
   <-> ipv4_ok ip
       /\ ((s = print_ipv4 ip /\ n = 32)
           \/ exists t, s = print_ipv4 ip ++ SLASH :: t /\ parse_uint 8 t = Some n /\ n <= 32))
  /\ (parse_proxy_addr s = inr (ip, n)
      <-> ipv4_ok ip /\ exists t, s = print_ipv4 ip ++ COLON :: t /\ parse_uint 16 t = Some n).
Proof.
  split.
  - unfold parse_cidr. split.
    + destruct (split_first SLASH s) as [[a t]|] eqn:Hs.
      * apply split_first_Some in Hs as ->. destruct (parse_uint 8 t) as [len|] eqn:Ht; [|done].
        destruct (Z.ltb_spec 32 len); [done|].
        destruct (parse_ipv4 a) as [ip'|] eqn:Ha; [|done]. intros [= -> ->].
        apply parse_ipv4_iff in Ha as [-> ?]. eauto 10.
      * destruct (parse_ipv4 s) as [ip'|] eqn:Ha; [|done]. intros [= -> <-].
        apply parse_ipv4_iff in Ha as [-> ?]. eauto.
    + intros (Hip & Hs). assert (parse_ipv4 (print_ipv4 ip) = Some ip) as Hp by by apply parse_ipv4_iff.
      assert (SLASH ∉ print_ipv4 ip) as Hn by by apply not_in_print_ipv4.
      destruct Hs as [[-> ->]|(t & -> & Ht & Hle)].
      * by rewrite (proj2 (split_first_None _ _) Hn), Hp.
      * rewrite split_first_app, Ht by done. destruct (Z.ltb_spec 32 n); [lia|]. by rewrite Hp.
  - unfold parse_proxy_addr. split.
    + destruct (split_on COLON s) as [|a [|t [|]]] eqn:Hs; try done.
      apply split_on_two in Hs as (-> & _ & _).
      destruct (parse_ipv4 a) as [ip'|] eqn:Ha; [|done]. destruct (parse_uint 16 t) eqn:Ht; [|done].
      intros [= -> ->]. apply parse_ipv4_iff in Ha as [-> ?]. eauto.
    + intros (Hip & t & -> & Ht). assert (COLON ∉ print_ipv4 ip) as Hn by by apply not_in_print_ipv4.
      rewrite (proj2 (split_on_two COLON _ (print_ipv4 ip) t)).
      * by rewrite (proj2 (parse_ipv4_iff _ ip)), Ht by done.
      * split_and!; [done..|by eapply parse_uint_no_colon].
Qed.

(** What is parsed is in range. *)
Lemma parse_digits_range w acc s v :
  0 <= acc < 2 ^ w -> parse_digits w acc s = Some v -> 0 <= v < 2 ^ w.
Proof.
  revert acc. induction s as [|c s IH]; intros acc Hacc; cbn [parse_digits]; [by intros [= <-]|].
  destruct (is_digit c) eqn:Hc; [|done]. apply is_digit_spec in Hc.
  destruct (Z.ltb_spec (acc * 10 + (c - 48)) (2 ^ w)); [|done]. apply IH. lia.
Qed.

Lemma parse_uint_range w s v : 0 < w -> parse_uint w s = Some v -> in_width w v.
Proof.
  intros Hw. assert (0 <= 0 < 2 ^ w) as H0 by (split; [done|by apply Z.pow_pos_nonneg; lia]).
  unfold parse_uint. destruct s as [|c [|c' s]]; [done| |].
  - case_match; [|done]. by apply parse_digits_range.
  - case_match; by apply parse_digits_range.
Qed.

Lemma parse_cidr_range s ip p : parse_cidr s = inr (ip, p) -> ipv4_ok ip /\ 0 <= p <= 32.
Proof.
  intros [Hip Hs]%(proj1 (address_texts s ip p)). split; [done|].
  destruct Hs as [[_ ->]|(t & _ & [? _]%parse_uint_range & ?)]; lia.
Qed.

Lemma parse_proxy_range s ip port : parse_proxy_addr s = inr (ip, port) -> ipv4_ok ip /\ in_width 16 port.
Proof.
  intros [Hip (t & _ & Ht)]%(proj2 (address_texts s ip port)). split; [done|].
  by apply parse_uint_range in Ht.
Qed.

(** ** What [str::parse] takes for a number

    A number may be written with a plus sign and with any number of leading
    zeros; the sign alone and the empty text are none. *)

Definition PLUS : Z := 43.

Definition numeral (t : bytes) (n : Z) : Prop :=
  exists sign ds, t = sign ++ ds /\ sign ∈ [[]; [PLUS]] /\ ds <> []
  /\ Forall (fun c => 48 <= c <= 57) ds /\ digits_value ds = n.

Lemma parse_digits_numeral w ds n :
  0 < w -> parse_digits w 0 ds = Some n
  <-> Forall (fun c => is_digit c = true) ds /\ digits_value ds = n /\ n < 2 ^ w.
Proof.
  intros Hw. assert (0 <= 0 < 2 ^ w) as H0 by (split; [done|by apply Z.pow_pos_nonneg; lia]).
  split.
  - intros Hp. pose proof (parse_digits_digits _ _ _ _ Hp) as Hd. split; [done|].
    rewrite parse_digits_value in Hp by done. cbn zeta in Hp.
    destruct (Z.ltb_spec (0 * 10 ^ Z.of_nat (length ds) + digits_value ds) (2 ^ w)); [|done].
    injection Hp as <-. lia.
  - intros (Hd & <- & Hlt). rewrite parse_digits_value by done. cbn zeta.
    rewrite Z.mul_0_l, Z.add_0_l. by destruct (Z.ltb_spec (digits_value ds) (2 ^ w)); [|lia].
Qed.

Lemma parse_uint_numeral w t n : 0 < w -> parse_uint w t = Some n <-> numeral t n /\ n < 2 ^ w.
Proof.
  intros Hw.
  assert (forall ds, Forall (fun c => is_digit c = true) ds <-> Forall (fun c => 48 <= c <= 57) ds) as Hdig.
  { intros ds. split; intros H; (eapply Forall_impl; [exact H|]); intros c; by rewrite is_digit_spec. }
  split.
  - intros Hp. assert (exists sign ds, t = sign ++ ds /\ sign ∈ [[]; [PLUS]] /\ ds <> []
        /\ parse_digits w 0 ds = Some n) as (sign & ds & -> & Hs & Hne & Hp').
    { unfold parse_uint in Hp. destruct t as [|c [|c' t]]; [done| |].
      * destruct (is_digit c) eqn:Hc; [|done]. exists [], [c]. split_and!; [done|set_solver|done|done].
      * destruct (Z.eqb_spec c 43) as [->|_].
        -- exists [PLUS], (c' :: t). split_and!; [done|set_solver|done|done].
        -- exists [], (c :: c' :: t). split_and!; [done|set_solver|done|done]. }
    apply parse_digits_numeral in Hp' as (Hd & Hv & Hlt); [|done].
    split; [|done]. exists sign, ds. by rewrite <-Hdig.
  - intros [(sign & ds & -> & Hs & Hne & Hd%Hdig & Hv) Hlt].
    assert (parse_digits w 0 ds = Some n) as Hp by by apply parse_digits_numeral.
    apply elem_of_cons in Hs as [->|Hs%list_elem_of_singleton].
    + destruct ds as [|c ds]; [done|]. apply Forall_cons in Hd as [Hc _]. cbn [app].
      destruct ds as [|c' ds]; cbn [parse_uint]; [by rewrite Hc|].
      destruct (Z.eqb_spec c 43) as [->|_]; [by vm_compute in Hc|done].
    + subst sign. destruct ds as [|c ds]; [done|]. exact Hp.
Qed.

(** Printed numbers are read back. *)
Lemma cidr_roundtrip ip p port :
  ipv4_ok ip -> 0 <= p <= 32 -> in_width 16 port ->
  parse_cidr (print_ipv4 ip ++ SLASH :: decimal p) = inr (ip, p)
  /\ parse_proxy_addr (print_ipv4 ip ++ COLON :: decimal port) = inr (ip, port).
Proof.
  unfold in_width. intros Hip Hp Hport. split.
  - apply (proj1 (address_texts _ ip p)). split; [done|]. right. eexists. split_and!; [done| |lia].
    apply parse_uint_decimal; lia.
  - apply (proj2 (address_texts _ ip port)). split; [done|]. eexists. split; [done|].
    apply parse_uint_decimal; lia.
Qed.

(** ** Properties *)

(** C33. The texts of addresses are parsed exactly.  [parse_cidr] accepts a text
    and returns an address and a length if and only if the text is the canonical
    dotted form of the address, alone, the length then being 32, or followed by
    a slash and a numeral of the length, which is at most 32; [parse_proxy_addr]
    accepts exactly the canonical form of an address, a colon and a numeral below
    2^16.  A numeral is a non-empty run of decimal digits that may have a plus
    sign before it and zeros in front, so the address has one spelling and the
    number many. *)
Theorem address_texts_exact (s : bytes) (ip : ipv4) (n : Z) :
  (parse_cidr s = inr (ip, n)
   <-> ipv4_ok ip
       /\ ((s = print_ipv4 ip /\ n = 32)
           \/ exists t, s = print_ipv4 ip ++ SLASH :: t /\ numeral t n /\ n <= 32))
  /\ (parse_proxy_addr s = inr (ip, n)
      <-> ipv4_ok ip /\ exists t, s = print_ipv4 ip ++ COLON :: t /\ numeral t n /\ n < 2 ^ 16).
Proof.
  destruct (address_texts s ip n) as [-> ->]. setoid_rewrite (parse_uint_numeral 8); [|done].
  setoid_rewrite (parse_uint_numeral 16); [|done]. split; [|done].
  split; intros (Hip & [?|(t & ? & Ht)]); (split; [done|]); [by left|right|by left|right]; exists t; [by destruct_and!|].
  destruct Ht as [Ht Hn]. split_and!; [done..| |done]. apply (Z.le_lt_trans _ 32); [done|reflexivity].
Qed.

(** Some texts as the tests of the source have them. *)
Example parse_cidr_slash : parse_cidr (text "10.0.0.0/8") = inr (Ipv4 10 0 0 0, 8).
Proof. vm_compute. reflexivity. Qed.

Example parse_cidr_leading_zero : parse_cidr (text "10.0.0.01/8") = inl InvalidAddress.
Proof. vm_compute. reflexivity. Qed.

(** The number after an address may be spelt in several ways. *)
Example parse_cidr_number_spellings :
  parse_cidr (text "10.0.0.0/+8") = inr (Ipv4 10 0 0 0, 8) /\ parse_cidr (text "10.0.0.0/08") = inr (Ipv4 10 0 0 0, 8).
Proof. vm_compute. split; reflexivity. Qed.

Example parse_proxy_ok : parse_proxy_addr (text "127.0.0.1:3128") = inr (Ipv4 127 0 0 1, 3128).
Proof. vm_compute. reflexivity. Qed.
