(* ===== verification/Loader.v ===== *)
(** * Writing the maps from userspace

    The map writers of bpfjailer-daemon/src/bpf_loader.rs over the program
    state: a map is found by name ([map_by_name]), and an update of a new key in
    a full map, or a delete of an absent key, is an error that leaves the state
    alone. *)

From S2P Require Import Prelude CLayout BpfMap Rust Kernel Types Machine Hash Enrollment Hooks Network Codec Patterns Parse.

(** The maps userspace writes, by name. *)
Inductive map_name :=
| N_role_flags
| N_network_rules
| N_pending_enrollments
| N_path_states
| N_exec_states
| N_exec_enrollment
| N_cgroup_enrollment
| N_ip_rules
| N_proxy_config
| N_domain_rules
| N_dns_cache.

#[export] Instance map_name_eq_dec : EqDecision map_name.
Proof. solve_decision. Defined.

Definition map_by_name (n : map_name) (s : bpf_state) : bpf_map :=
  match n with
  | N_role_flags => m_role_flags s
  | N_network_rules => m_network_rules s
  | N_pending_enrollments => m_pending_enrollments s
  | N_path_states => m_path_states s
  | N_exec_states => m_exec_states s
  | N_exec_enrollment => m_exec_enrollment s
  | N_cgroup_enrollment => m_cgroup_enrollment s
  | N_ip_rules => m_ip_rules s
  | N_proxy_config => m_proxy_config s
  | N_domain_rules => m_domain_rules s
  | N_dns_cache => m_dns_cache s
  end.

Definition map_text (n : map_name) : bytes :=
  text (match n with
    | N_role_flags => "role_flags"
    | N_network_rules => "network_rules"
    | N_pending_enrollments => "pending_enrollments"
    | N_path_states => "path_states"
    | N_exec_states => "exec_states"
    | N_exec_enrollment => "exec_enrollment"
    | N_cgroup_enrollment => "cgroup_enrollment"
    | N_ip_rules => "ip_rules"
    | N_proxy_config => "proxy_config"
    | N_domain_rules => "domain_rules"
    | N_dns_cache => "dns_cache"
    end)%string.

Definition set_map (n : map_name) (m : bpf_map) (s : bpf_state) : bpf_state :=
  let pick n' old := if decide (n = n') then m else old in
  BpfState (m_task_storage s) (pick N_role_flags (m_role_flags s))
    (pick N_network_rules (m_network_rules s))
    (pick N_pending_enrollments (m_pending_enrollments s)) (pick N_path_states (m_path_states s))
    (pick N_exec_states (m_exec_states s)) (m_path_decision_cache s) (m_cache_generation s)
    (pick N_exec_enrollment (m_exec_enrollment s))
    (pick N_cgroup_enrollment (m_cgroup_enrollment s)) (pick N_ip_rules (m_ip_rules s))
    (pick N_proxy_config (m_proxy_config s)) (pick N_domain_rules (m_domain_rules s))
    (pick N_dns_cache (m_dns_cache s)) (m_path_buf s) (m_audit_events s).

(** [max_entries] of the declaration. *)
Definition capacity (n : map_name) : Z :=
  match n with
  | N_role_flags => md_max_entries role_flags
  | N_network_rules => md_max_entries network_rules
  | N_pending_enrollments => md_max_entries pending_enrollments
  | N_path_states => md_max_entries path_states
  | N_exec_states => md_max_entries exec_states
  | N_exec_enrollment => md_max_entries exec_enrollment
  | N_cgroup_enrollment => md_max_entries cgroup_enrollment
  | N_ip_rules => md_max_entries ip_rules
  | N_proxy_config => md_max_entries proxy_config_map
  | N_domain_rules => md_max_entries domain_rules
  | N_dns_cache => md_max_entries dns_cache
  end.

(** What an [anyhow::Error] of these functions stands for. *)
Inductive load_error :=
| MapFull (n : map_name)
| NoSuchKey (n : map_name)
| NoMap (n : map_name)
| BadText (e : parse_error)
| PathMissing
| UnknownRole (role_id : Z)
| RootCgroup
| Conflicts (cs : list (bytes * bytes)).

Abbreviation loader := (io load_error bpf_state).

(** [map.update(key, value, MapFlags::empty())] *)
Definition update (n : map_name) (key value : bytes) : loader unit :=
  fun s =>
    let m := map_by_name n s in
    if bool_decide (is_Some (m !! key)) || (Z.of_nat (size m) <? capacity n)
    then (inr tt, set_map n (<[key := value]> m) s)
    else (inl (MapFull n), s).

(** [map.delete(key)] *)
Definition delete_key (n : map_name) (key : bytes) : loader unit :=
  fun s =>
    let m := map_by_name n s in
    if bool_decide (is_Some (m !! key)) then (inr tt, set_map n (delete key m) s)
    else (inl (NoSuchKey n), s).

(** A parse error becomes the function's error. *)
Definition parsed {A} (r : parse_error + A) : loader A :=
  match r with
  | inr a => ok a
  | inl e => err (BadText e)
  end.

(** ** The functions of the loader *)

Definition update_role_flags (role_id flags : Z) : loader unit :=
  update N_role_flags (to_ne_bytes 4 role_id) [flags].

Definition enroll_pending_process (pid pod_id role_id : Z) : loader unit :=
  update N_pending_enrollments (to_ne_bytes 4 pid)
    (<[13%nat := 0]> (<[12%nat := 0]>
      (copy_at 8 (to_ne_bytes 4 role_id) (copy_at 0 (to_ne_bytes 8 pod_id) (replicate 16 0))))).

Definition loader_add_network_rule (role_id port protocol direction : Z) (allowed : bool) : loader unit :=
  update N_network_rules (codec_net_rule_key role_id port protocol direction) [bool_byte allowed].

Definition remove_network_rule (role_id port protocol direction : Z) : loader unit :=
  delete_key N_network_rules
    (<[7%nat := direction]> (<[6%nat := protocol]>
      (copy_at 4 (to_ne_bytes 2 port) (copy_at 0 (to_ne_bytes 4 role_id) (replicate 8 0))))).

(** [write_states] on the map of that name. *)
Definition loader_write_states (n : map_name) (entries : list path_state_entry) : loader unit :=
  match entries with
  | [] => ok tt
  | _ => for_each (fun '(key, value) => update n key value) entries
  end.

Definition add_exec_enrollment (inode pod_id role_id : Z) : loader unit :=
  update N_exec_enrollment (to_ne_bytes 8 inode)
    (copy_at 8 (to_ne_bytes 4 role_id) (copy_at 0 (to_ne_bytes 8 pod_id) (replicate 16 0))).

Definition remove_exec_enrollment (inode : Z) : loader unit :=
  delete_key N_exec_enrollment (to_ne_bytes 8 inode).

Definition add_cgroup_enrollment (cgroup_id pod_id role_id : Z) : loader unit :=
  update N_cgroup_enrollment (to_ne_bytes 8 cgroup_id)
    (copy_at 8 (to_ne_bytes 4 role_id) (copy_at 0 (to_ne_bytes 8 pod_id) (replicate 16 0))).

Definition remove_cgroup_enrollment (cgroup_id : Z) : loader unit :=
  delete_key N_cgroup_enrollment (to_ne_bytes 8 cgroup_id).

Definition loader_add_ip_rule (role_id : Z) (cidr : bytes) (direction : Z) (allowed : bool) : loader unit :=
  r <-? parsed (parse_cidr cidr) ;;
  let '(ip, prefix_len) := r in
  update N_ip_rules (codec_ip_rule_key role_id ip prefix_len direction) [bool_byte allowed].

Definition remove_ip_rule (role_id : Z) (cidr : bytes) (direction : Z) : loader unit :=
  r <-? parsed (parse_cidr cidr) ;;
  let '(ip, prefix_len) := r in
  delete_key N_ip_rules (codec_ip_rule_key role_id ip prefix_len direction).

Definition set_proxy_config (role_id : Z) (proxy_addr : bytes) (required : bool) : loader unit :=
  r <-? parsed (parse_proxy_addr proxy_addr) ;;
  let '(ip, port) := r in
  update N_proxy_config (to_ne_bytes 4 role_id) (codec_proxy_config_value ip port required).

Definition remove_proxy_config (role_id : Z) : loader unit :=
  delete_key N_proxy_config (to_ne_bytes 4 role_id).

Definition loader_add_domain_rule (role_id : Z) (domain : bytes) (allowed : bool) : loader unit :=
  update N_domain_rules (codec_domain_rule_key role_id domain) [bool_byte allowed].

Definition remove_domain_rule (role_id : Z) (domain : bytes) : loader unit :=
  delete_key N_domain_rules
    (copy_at 8 (to_ne_bytes 8 (fnv1a_hash_u64 domain))
      (copy_at 0 (to_ne_bytes 4 role_id) (replicate 16 0))).

Definition loader_cache_resolved_ip (role_id : Z) (ip : ipv4) (domain_hash : Z) : loader unit :=
  update N_dns_cache (codec_dns_cache_key role_id ip) (codec_dns_cache_value domain_hash 0).

(** ** The state as a family of maps *)

Lemma map_by_name_set_eq n m s : map_by_name n (set_map n m s) = m.
Proof. by destruct n. Qed.

Lemma map_by_name_set_ne n n' m s : n <> n' -> map_by_name n (set_map n' m s) = map_by_name n s.
Proof. by destruct n, n'. Qed.

(** What userspace never touches through these writers. *)
Definition user_frame (s s' : bpf_state) : Prop :=
  m_task_storage s' = m_task_storage s /\ m_path_decision_cache s' = m_path_decision_cache s
  /\ m_cache_generation s' = m_cache_generation s /\ m_path_buf s' = m_path_buf s
  /\ m_audit_events s' = m_audit_events s.

#[export] Instance user_frame_preorder : PreOrder user_frame.
Proof.
  unfold user_frame. split; [done|]. intros s1 s2 s3 H1 H2. destruct_and!. split_and!; congruence.
Qed.

Lemma set_map_frame n m s : user_frame s (set_map n m s).
Proof. done. Qed.

(** Two states that agree on the frame and on every map are one. *)
Lemma state_ext s s' :
  user_frame s s' -> (forall n, map_by_name n s = map_by_name n s') -> s = s'.
Proof.
  intros (H1 & H2 & H3 & H4 & H5) Hn. destruct s, s'. simpl in *. subst.
  f_equal; first [exact (Hn N_role_flags)|exact (Hn N_network_rules)|exact (Hn N_pending_enrollments)
    |exact (Hn N_path_states)|exact (Hn N_exec_states)|exact (Hn N_exec_enrollment)
    |exact (Hn N_cgroup_enrollment)|exact (Hn N_ip_rules)|exact (Hn N_proxy_config)
    |exact (Hn N_domain_rules)|exact (Hn N_dns_cache)].
Qed.

(** ** Sequences of writes *)

Record write := Write { w_map : map_name; w_key : bytes; w_value : bytes }.

Definition do_write (w : write) : loader unit := update (w_map w) (w_key w) (w_value w).

Definition put (s : bpf_state) (w : write) : bpf_state :=
  set_map (w_map w) (<[w_key w := w_value w]> (map_by_name (w_map w) s)) s.

Definition puts (ws : list write) (s : bpf_state) : bpf_state := fold_left put ws s.

(** The last element of a list with a property. *)
Fixpoint last_such {A} (P : A -> Prop) `{!forall x, Decision (P x)} (l : list A) : option A :=
  match l with
  | [] => None
  | x :: l' =>
      match last_such P l' with
      | Some y => Some y
      | None => if decide (P x) then Some x else None
      end
  end.

Section last_such.
Context {A : Type} (P : A -> Prop) `{!forall x, Decision (P x)}.

Lemma last_such_app l l' :
  last_such P (l ++ l') = match last_such P l' with Some y => Some y | None => last_such P l end.
Proof.
  induction l as [|x l IH]; simpl; [by case_match|]. rewrite IH. by destruct (last_such P l').
Qed.

Lemma last_such_None l : last_such P l = None <-> Forall (fun x => ~ P x) l.
Proof.
  induction l as [|x l IH]; simpl; [done|]. rewrite Forall_cons, <-IH.
  destruct (last_such P l); [naive_solver|]. case_decide; naive_solver.
Qed.

Lemma last_such_Some l x : last_such P l = Some x -> x ∈ l /\ P x.
Proof.
  revert x. induction l as [|y l IH]; intros x; simpl; [done|].
  destruct (last_such P l) as [z|]; [intros [= <-]; destruct (IH z eq_refl); set_solver|].
  case_decide; [|done]. intros [= <-]. set_solver.
Qed.

(** The last match in a list of lists, when each list has one match or none. *)
Lemma last_such_bind {B} (f : B -> list A) (Q : B -> Prop) `{!forall x, Decision (Q x)} (g : B -> A) l :
  (forall x, x ∈ l -> last_such P (f x) = if decide (Q x) then Some (g x) else None) ->
  last_such P (l ≫= f) = g <$> last_such Q l.
Proof.
  induction l as [|x l IH]; intros Hf; [done|]. rewrite bind_cons, last_such_app, IH by set_solver.
  cbn [last_such]. destruct (last_such Q l); [done|]. cbn. rewrite Hf by set_solver. by case_decide.
Qed.
End last_such.

(** The value the last write to a key leaves there. *)
Definition writes_to (n : map_name) (k : bytes) (w : write) : Prop := w_map w = n /\ w_key w = k.

#[export] Instance writes_to_dec n k w : Decision (writes_to n k w).
Proof. unfold writes_to. apply _. Defined.

Definition last_write (n : map_name) (k : bytes) (ws : list write) : option bytes :=
  w_value <$> last_such (writes_to n k) ws.

Lemma last_write_app n k ws ws' :
  last_write n k (ws ++ ws')
  = match last_write n k ws' with Some v => Some v | None => last_write n k ws end.
Proof. unfold last_write. rewrite last_such_app. by destruct (last_such _ ws'). Qed.

Lemma last_write_None n k ws :
  last_write n k ws = None <-> Forall (fun w => ~ writes_to n k w) ws.
Proof. unfold last_write. by rewrite fmap_None, last_such_None. Qed.

(** Writes to other maps do not matter. *)
Lemma last_write_other n k ws : Forall (fun w => w_map w <> n) ws -> last_write n k ws = None.
Proof. intros H. apply last_write_None. eapply Forall_impl; [done|]. by intros w Hn [? _]. Qed.

Lemma puts_lookup ws s n k :
  map_by_name n (puts ws s) !! k
  = match last_write n k ws with Some v => Some v | None => map_by_name n s !! k end.
Proof.
  revert s. induction ws as [|w ws IH]; intros s; [done|]. cbn [puts fold_left]. fold (puts ws (put s w)).
  rewrite IH. unfold last_write. cbn [last_such].
  destruct (last_such (writes_to n k) ws); [done|]. cbn. unfold put. case_decide as Hw.
  - destruct Hw as [<- <-]. by rewrite map_by_name_set_eq, lookup_insert_eq.
  - destruct (decide (n = w_map w)) as [->|Hne]; [|by rewrite map_by_name_set_ne].
    rewrite map_by_name_set_eq, lookup_insert_ne; [done|]. unfold writes_to in Hw. naive_solver.
Qed.

Lemma puts_frame ws s : user_frame s (puts ws s).
Proof.
  revert s. induction ws as [|w ws IH]; intros s; [done|]. simpl.
  etransitivity; [apply (set_map_frame (w_map w))|apply IH].
Qed.

(** Only what is last written to each key matters. *)
Lemma puts_ext ws ws' s :
  (forall n k, last_write n k ws = last_write n k ws') -> puts ws s = puts ws' s.
Proof.
  intros Heq. apply state_ext.
  - pose proof (puts_frame ws s) as H. pose proof (puts_frame ws' s) as H'.
    unfold user_frame in *. destruct_and!. split_and!; congruence.
  - intros n. apply map_eq. intros k. by rewrite !puts_lookup, Heq.
Qed.

(** Writing twice is writing once. *)
Lemma puts_idempotent ws s : puts ws (puts ws s) = puts ws s.
Proof.
  unfold puts. rewrite <-fold_left_app. apply puts_ext. intros n k. rewrite last_write_app.
  by case_match.
Qed.

(** Writes to different keys commute. *)
Lemma puts_comm ws ws' s :
  (forall w w', w ∈ ws -> w' ∈ ws' -> ~ (w_map w = w_map w' /\ w_key w = w_key w')) ->
  puts ws (puts ws' s) = puts ws' (puts ws s).
Proof.
  intros Hd. unfold puts. rewrite <-!fold_left_app. apply puts_ext. intros n k.
  rewrite !last_write_app. unfold last_write.
  destruct (last_such (writes_to n k) ws) as [w|] eqn:H1,
    (last_such (writes_to n k) ws') as [w'|] eqn:H2; try done. exfalso.
  apply last_such_Some in H1 as [? [<- <-]], H2 as [? [? ?]]. by apply (Hd w w').
Qed.

Lemma do_write_ok w s s' r : do_write w s = (inr r, s') -> s' = put s w.
Proof. unfold do_write, update, put. case_match; naive_solver. Qed.

Lemma writes_ok ws s r s' : for_each do_write ws s = (inr r, s') -> s' = puts ws s.
Proof.
  revert s. induction ws as [|w ws IH]; intros s; [by intros [= _ ->]|]. cbn [for_each].
  rewrite io_bind_inr. intros (u & s1 & ->%do_write_ok & H). by apply IH.
Qed.

(** A failed sequence has written an initial part. *)
Lemma writes_prefix ws s r s' :
  for_each do_write ws s = (r, s') -> exists done_, done_ `prefix_of` ws /\ s' = puts done_ s.
Proof.
  revert s. induction ws as [|w ws IH]; intros s; cbn [for_each]; [intros [= _ <-]; by exists []|].
  unfold io_bind. destruct (do_write w s) as [[e|u] s1] eqn:Hw.
  - intros [= <- <-]. exists []. split; [apply prefix_nil|].
    unfold do_write, update in Hw. case_match; by simplify_eq.
  - apply do_write_ok in Hw as ->. intros (d & Hd & ->)%IH. exists (w :: d).
    split; [by apply prefix_cons|done].
Qed.

Lemma puts_dom n ws s : dom (map_by_name n s) ⊆ dom (map_by_name n (puts ws s)).
Proof.
  intros k. rewrite !elem_of_dom, puts_lookup. by case_match.
Qed.

Lemma puts_size n ws s : (size (map_by_name n s) <= size (map_by_name n (puts ws s)))%nat.
Proof. rewrite <-!size_dom. apply subseteq_size, puts_dom. Qed.

(** Every map is within its capacity. *)
Definition within_capacity (s : bpf_state) : Prop :=
  forall n, Z.of_nat (size (map_by_name n s)) <= capacity n.

(** A write succeeds when the maps are within capacity after it and what
    follows. *)
Lemma do_write_fits w ws s : within_capacity (puts (w :: ws) s) -> do_write w s = (inr tt, put s w).
Proof.
  intros Hc. unfold do_write, update, put. case_bool_decide as Hk; [done|].
  pose proof (Hc (w_map w)) as Hn. pose proof (puts_size (w_map w) ws (put s w)) as Hs.
  unfold put in Hs. rewrite map_by_name_set_eq, map_size_insert_None in Hs by by apply eq_None_not_Some.
  change (puts (w :: ws) s) with (puts ws (put s w)) in Hn. unfold put in Hn.
  destruct (Z.ltb_spec (Z.of_nat (size (map_by_name (w_map w) s))) (capacity (w_map w))); [done|lia].
Qed.

(** A sequence of writes succeeds when its result is within capacity, whatever
    the order it is reached in. *)
Lemma writes_fit ws s :
  within_capacity (puts ws s) -> for_each do_write ws s = (inr tt, puts ws s).
Proof.
  revert s. induction ws as [|w ws IH]; intros s Hc; [done|]. cbn [for_each puts fold_left].
  unfold io_bind. rewrite (do_write_fits w ws s Hc). by apply IH.
Qed.

Lemma do_write_capacity w s : within_capacity s -> within_capacity (do_write w s).2.
Proof.
  intros Hc. unfold do_write, update. destruct (_ || _) eqn:Hb; [|done]. intros n. cbn [snd].
  destruct (decide (n = w_map w)) as [->|Hne]; [|rewrite map_by_name_set_ne by done; apply Hc].
  rewrite map_by_name_set_eq. pose proof (Hc (w_map w)) as Hn.
  destruct (map_by_name (w_map w) s !! w_key w) as [v|] eqn:Hk.
  - rewrite map_size_insert_Some by done. done.
  - rewrite map_size_insert_None by done. apply orb_true_iff in Hb as [Hb|Hb%Z.ltb_lt]; [|lia].
    by apply bool_decide_eq_true in Hb as [? ?].
Qed.

Lemma writes_capacity ws s : within_capacity s -> within_capacity (for_each do_write ws s).2.
Proof.
  revert s. induction ws as [|w ws IH]; intros s Hc; [done|]. cbn [for_each]. unfold io_bind.
  pose proof (do_write_capacity w s Hc) as Hc'. destruct (do_write w s) as [[e|u] s1]; [done|]. by apply IH.
Qed.

(** Keys already present can always be written again. *)
Lemma writes_present ws s :
  Forall (fun w => is_Some (map_by_name (w_map w) s !! w_key w)) ws ->
  for_each do_write ws s = (inr tt, puts ws s).
Proof.
  revert s. induction ws as [|w ws IH]; intros s Hp; [done|]. cbn [for_each puts fold_left].
  apply Forall_cons in Hp as [Hw Hp].
  assert (do_write w s = (inr tt, put s w)) as Hd.
  { unfold do_write, update, put. by rewrite bool_decide_eq_true_2. }
  unfold io_bind. rewrite Hd. apply IH. eapply Forall_impl; [done|]. intros w' Hw'.
  change (is_Some (map_by_name (w_map w') (puts [w] s) !! w_key w')). rewrite puts_lookup.
  by case_match.
Qed.

(** Writing what is already there changes nothing. *)
Lemma writes_again ws s :
  (forall w, w ∈ ws -> map_by_name (w_map w) s !! w_key w = last_write (w_map w) (w_key w) ws) ->
  for_each do_write ws s = (inr tt, s).
Proof.
  intros Hw.
  assert (forall w, w ∈ ws -> last_write (w_map w) (w_key w) ws <> None) as Hsome.
  { intros w Hin Hl. apply last_write_None in Hl. rewrite Forall_forall in Hl. by apply (Hl w Hin). }
  rewrite writes_present.
  - f_equal. apply state_ext.
    + pose proof (puts_frame ws s) as (? & ? & ? & ? & ?). by split_and!.
    + intros n. apply map_eq. intros k. rewrite puts_lookup.
      destruct (last_write n k ws) as [v|] eqn:Hl; [|done].
      unfold last_write in Hl. apply fmap_Some in Hl as (w & Hlw & ->).
      pose proof Hlw as [Hin [<- <-]]%last_such_Some. rewrite (Hw w Hin). unfold last_write. by rewrite Hlw.
  - apply Forall_forall. intros w Hin. rewrite (Hw w Hin). by apply not_eq_None_Some, Hsome.
Qed.

(** As many distinct keys as are present. *)
Lemma size_ge_keys (ks : list bytes) (m : bpf_map) :
  NoDup ks -> (forall k, k ∈ ks -> is_Some (m !! k)) -> (length ks <= size m)%nat.
Proof.
  intros Hnd Hin. rewrite <-(size_list_to_set (C := gset bytes) ks Hnd), <-size_dom.
  apply subseteq_size. intros k Hk%elem_of_list_to_set. by apply elem_of_dom, Hin.
Qed.
