(* ===== verification/Files.v ===== *)
(** * Files

    The functions of std::fs and std::path that the loaders call, over a tree of
    directories and files, with the two text operations used on what is read
    ([str::trim], and the UTF-8 check of [String]).  A path is its list of
    components.  Whether the operating system refuses an operation for a reason
    the tree does not show (permissions, space, a failing BPF call) is the class
    [Os]: nothing is assumed of it. *)

From S2P Require Import Prelude Rust.

(** ** Text *)

(** A byte sequence is UTF-8. *)
Definition continuation (b : Z) : bool := (0x80 <=? b) && (b <=? 0xBF).

Fixpoint utf8_valid (s : bytes) : bool :=
  match s with
  | [] => true
  | a :: s1 =>
      if (0 <=? a) && (a <=? 0x7F) then utf8_valid s1
      else match s1 with
      | [] => false
      | b :: s2 =>
          if (0xC2 <=? a) && (a <=? 0xDF) then continuation b && utf8_valid s2
          else match s2 with
          | [] => false
          | c :: s3 =>
              if (0xE0 <=? a) && (a <=? 0xEF) then
                (if a =? 0xE0 then 0xA0 <=? b else true) && (if a =? 0xED then b <=? 0x9F else true)
                && continuation b && continuation c && utf8_valid s3
              else match s3 with
              | [] => false
              | d :: s4 =>
                  (0xF0 <=? a) && (a <=? 0xF4)
                  && (if a =? 0xF0 then 0x90 <=? b else true) && (if a =? 0xF4 then b <=? 0x8F else true)
                  && continuation b && continuation c && continuation d && utf8_valid s4
              end
          end
      end
  end.

(** The characters with the White_Space property, encoded. *)
Definition white_space : list bytes :=
  ((fun c => [c]) <$> [9; 10; 11; 12; 13; 32])
  ++ [[0xC2; 0x85]; [0xC2; 0xA0]; [0xE1; 0x9A; 0x80]]
  ++ ((fun i => [0xE2; 0x80; 0x80 + Z.of_nat i]) <$> seq 0 11)
  ++ [[0xE2; 0x80; 0xA8]; [0xE2; 0x80; 0xA9]; [0xE2; 0x80; 0xAF]; [0xE2; 0x81; 0x9F]; [0xE3; 0x80; 0x80]].

(** The first of the patterns that starts the text, removed. *)
Definition strip_one (patterns : list bytes) (s : bytes) : option bytes :=
  match list_find (fun w => take (length w) s = w) patterns with
  | Some (_, w) => Some (drop (length w) s)
  | None => None
  end.

Fixpoint strip_all (fuel : nat) (patterns : list bytes) (s : bytes) : bytes :=
  match fuel with
  | O => s
  | S fuel' => match strip_one patterns s with
               | Some s' => strip_all fuel' patterns s'
               | None => s
               end
  end.

(** [str::trim]; every removal shortens the text, so its length is fuel
    enough. *)
Definition trim (s : bytes) : bytes :=
  let s1 := strip_all (length s) white_space s in
  reverse (strip_all (length s1) (reverse <$> white_space) (reverse s1)).

Example trim_example : trim [10; 32; 97; 32; 98; 0xC2; 0xA0; 9] = [97; 32; 98].
Proof. reflexivity. Qed.

(** ** Paths *)

Abbreviation path := (list bytes).

(** [Path::components], without the root: repeated separators and [.] vanish. *)
Definition components (s : bytes) : path :=
  filter (fun c => c <> [] /\ c <> text ".") (split_on 47 s).

(** What a path names, from the working directory. *)
Definition resolve_path (cwd : path) (s : bytes) : path :=
  match s with
  | 47 :: _ => components s
  | _ => cwd ++ components s
  end.

Example components_example :
  components (text "/run//bpfjailer/./build-id/") = [text "run"; text "bpfjailer"; text "build-id"].
Proof. vm_compute. reflexivity. Qed.

(** ** The tree *)

Inductive node :=
| Dir
| Regular (content : bytes)
| Pin                               (* a bpffs object *)
| Socket.

#[export] Instance node_eq_dec : EqDecision node.
Proof. solve_decision. Defined.

Abbreviation tree := (gmap path node).

(** The root always is a directory. *)
Definition node_at (t : tree) (p : path) : option node :=
  match p with
  | [] => Some Dir
  | _ => t !! p
  end.

(** Whatever is in the tree is in a directory. *)
Definition tree_ok (t : tree) : Prop :=
  forall dir name, is_Some (t !! (dir ++ [name])) -> node_at t dir = Some Dir.

(** The same, as a check. *)
Definition tree_okb (t : tree) : bool :=
  forallb (fun e : path * node => match e.1 with [] => true | p => bool_decide (node_at t (removelast p) = Some Dir) end)
    (map_to_list t).

Lemma tree_okb_ok t : tree_okb t = true -> tree_ok t.
Proof.
  intros Hb dir name [n Hn]. apply elem_of_map_to_list, list_elem_of_In in Hn.
  pose proof (proj1 (forallb_forall _ _) Hb _ Hn) as H. cbn [fst] in H.
  pose proof (removelast_last dir name) as Hr. destruct (dir ++ [name]) as [|x l] eqn:He; [by destruct dir|].
  rewrite Hr in H. by apply bool_decide_eq_true in H.
Qed.

(** What the operating system may refuse: making a directory, pinning, opening a
    file to write, removing, binding a socket; and of a write, how many bytes arrive
    before it fails. *)
Class Os := {
  os_mkdir : path -> tree -> bool;
  os_pin : path -> tree -> bool;
  os_open : path -> tree -> bool;
  os_remove : path -> tree -> bool;
  os_bind : path -> tree -> bool;
  os_written : path -> bytes -> tree -> nat;
}.

Inductive fs_error :=
| NotFound (p : path)
| NotADirectory (p : path)
| AlreadyExists (p : path)
| Denied (p : path)
| Incomplete (p : path).

Definition exists_path (t : tree) (p : path) : bool := bool_decide (is_Some (node_at t p)).

(** [fs::read] *)
Definition read_file (t : tree) (p : path) : option bytes :=
  match node_at t p with
  | Some (Regular content) => Some content
  | _ => None
  end.

(** [fs::read_to_string] *)
Definition read_to_string (t : tree) (p : path) : option bytes :=
  match read_file t p with
  | Some content => if utf8_valid content then Some content else None
  | None => None
  end.

(** The names [fs::read_dir] yields. *)
Definition entries_of (dir : path) (t : tree) : gset bytes :=
  list_to_set (omap (fun e : path * node =>
    match last e.1 with
    | Some name => if decide (e.1 = dir ++ [name]) then Some name else None
    | None => None
    end) (map_to_list t)).

Definition read_dir (t : tree) (dir : path) : option (gset bytes) :=
  match node_at t dir with
  | Some Dir => Some (entries_of dir t)
  | _ => None
  end.

Section operations.
Context `{OS : Os} {E : Type} (fs : fs_error -> E).

(** [fs::create_dir_all], the ancestors first. *)
Fixpoint create_dirs (made rest : path) : io E tree unit :=
  match rest with
  | [] => ok tt
  | name :: rest' =>
      let p := made ++ [name] in
      fun t => match node_at t p with
        | Some Dir => create_dirs p rest' t
        | Some _ => (inl (fs (NotADirectory p)), t)
        | None => if os_mkdir p t then create_dirs p rest' (<[p := Dir]> t) else (inl (fs (Denied p)), t)
        end
  end.

Definition create_dir_all (p : path) : io E tree unit := create_dirs [] p.

(** [BPF_OBJ_PIN]: a new name in a directory. *)
Definition pin_at (dir : path) (name : bytes) : io E tree unit :=
  fun t =>
    let p := dir ++ [name] in
    match node_at t dir, t !! p with
    | Some Dir, None => if os_pin p t then (inr tt, <[p := Pin]> t) else (inl (fs (Denied p)), t)
    | Some Dir, Some _ => (inl (fs (AlreadyExists p)), t)
    | _, _ => (inl (fs (NotFound dir)), t)
    end.

(** [fs::write]: the file is truncated when it is opened. *)
Definition write_file (dir : path) (name content : bytes) : io E tree unit :=
  fun t =>
    let p := dir ++ [name] in
    match node_at t dir, t !! p with
    | Some Dir, None | Some Dir, Some (Regular _) =>
        if os_open p t then
          let n := os_written p content t in
          ((if (n <? length content)%nat then inl (fs (Incomplete p)) else inr tt),
            <[p := Regular (take n content)]> t)
        else (inl (fs (Denied p)), t)
    | Some Dir, Some _ => (inl (fs (AlreadyExists p)), t)
    | _, _ => (inl (fs (NotFound dir)), t)
    end.

(** [fs::remove_dir_all] *)
Definition remove_dir_all (p : path) : io E tree unit :=
  fun t => match node_at t p with
    | Some Dir =>
        if os_remove p t then (inr tt, filter (fun e : path * node => ~ p `prefix_of` e.1) t)
        else (inl (fs (Denied p)), t)
    | Some _ => (inl (fs (NotADirectory p)), t)
    | None => (inl (fs (NotFound p)), t)
    end.

(** [fs::remove_file] *)
Definition remove_file (p : path) : io E tree unit :=
  fun t => match node_at t p with
    | Some Dir => (inl (fs (Denied p)), t)
    | Some _ => if os_remove p t then (inr tt, delete p t) else (inl (fs (Denied p)), t)
    | None => (inl (fs (NotFound p)), t)
    end.

(** [UnixListener::bind]: the name must be new. *)
Definition bind_socket (dir : path) (name : bytes) : io E tree unit :=
  fun t =>
    let p := dir ++ [name] in
    match node_at t dir, t !! p with
    | Some Dir, None => if os_bind p t then (inr tt, <[p := Socket]> t) else (inl (fs (Denied p)), t)
    | Some Dir, Some _ => (inl (fs (AlreadyExists p)), t)
    | _, _ => (inl (fs (NotFound dir)), t)
    end.
End operations.

(** ** Laws *)

Lemma entries_of_spec dir t name : name ∈ entries_of dir t <-> is_Some (t !! (dir ++ [name])).
Proof.
  unfold entries_of. rewrite elem_of_list_to_set, list_elem_of_omap. split.
  - intros ([p n] & Hp%elem_of_map_to_list & He). cbn in He. destruct (last p) as [x|]; [|done].
    case_decide as Hd; [|done]. injection He as ->. rewrite <-Hd. by exists n.
  - intros [n Hn]. exists (dir ++ [name], n). split; [by apply elem_of_map_to_list|]. cbn.
    by rewrite last_snoc, decide_True.
Qed.

Lemma node_at_snoc t dir name : node_at t (dir ++ [name]) = t !! (dir ++ [name]).
Proof. by destruct dir. Qed.

Lemma node_at_insert_ne t p p' n : p <> p' -> node_at (<[p := n]> t) p' = node_at t p'.
Proof. intros Hne. destruct p'; [done|]. by apply lookup_insert_ne. Qed.

(** A new name under a directory keeps the tree well formed. *)
Lemma tree_ok_insert t dir name n :
  tree_ok t -> node_at t dir = Some Dir -> (t !! (dir ++ [name]) = Some Dir -> n = Dir) ->
  tree_ok (<[dir ++ [name] := n]> t).
Proof.
  intros Hok Hd Hn dir' name'.
  destruct (decide (dir ++ [name] = dir' ++ [name'])) as [Heq|Hne].
  - intros _. apply app_inj_tail in Heq as [<- <-]. rewrite node_at_insert_ne; [done|].
    intros Heq. apply (f_equal length) in Heq. rewrite length_app in Heq. cbn in Heq. lia.
  - rewrite lookup_insert_ne by done. intros Hs%Hok.
    destruct (decide (dir ++ [name] = dir')) as [<-|?]; [|by rewrite node_at_insert_ne].
    rewrite node_at_snoc in Hs. rewrite node_at_snoc, lookup_insert_eq. by rewrite Hn.
Qed.

(** Adding one name to a directory adds it to that listing only. *)
Lemma entries_insert t dir name n dir' :
  entries_of dir' (<[dir ++ [name] := n]> t)
  = if decide (dir' = dir) then {[name]} ∪ entries_of dir t else entries_of dir' t.
Proof.
  apply set_eq. intros x. rewrite entries_of_spec.
  destruct (decide (dir ++ [name] = dir' ++ [x])) as [Heq|Hne].
  - rewrite Heq, lookup_insert_eq. apply app_inj_tail in Heq as [<- <-]. rewrite decide_True by done. set_solver.
  - rewrite lookup_insert_ne by done. rewrite <-entries_of_spec. case_decide as Hd; [|done]. subst dir'.
    assert (x <> name) by congruence. set_solver.
Qed.

(** A directory that is not there has no entries. *)
Lemma entries_absent t dir : tree_ok t -> node_at t dir <> Some Dir -> entries_of dir t = ∅.
Proof.
  intros Hok Hn. apply set_eq. intros x. rewrite entries_of_spec. split; [|set_solver].
  intros Hs%Hok. done.
Qed.

Lemma read_dir_entries t dir : tree_ok t -> default ∅ (read_dir t dir) = entries_of dir t.
Proof.
  intros Hok. unfold read_dir. destruct (decide (node_at t dir = Some Dir)) as [Hd|Hd]; [by rewrite Hd|].
  rewrite (entries_absent t dir) by done. by destruct (node_at t dir) as [[]|].
Qed.

(** ** What the operations keep *)

Section kept.
Context `{OS : Os} {E : Type} (fs : fs_error -> E).

(** Making directories adds directories, and nothing below the ones asked for. *)
Definition dirs_added (t t' : tree) : Prop :=
  forall p, t' !! p = t !! p \/ (t !! p = None /\ t' !! p = Some Dir).

#[export] Instance dirs_added_preorder : PreOrder dirs_added.
Proof.
  split; [by left|]. intros t1 t2 t3 H1 H2 p. destruct (H1 p) as [H1'|[H1' H1'']], (H2 p) as [H2'|[H2' H2'']];
    first [left; congruence|right; split; congruence].
Qed.

Lemma create_dirs_ok made rest t r t' :
  create_dirs fs made rest t = (r, t') -> tree_ok t -> node_at t made = Some Dir ->
  tree_ok t' /\ dirs_added t t'
  /\ match r with inr _ => node_at t' (made ++ rest) = Some Dir | inl _ => True end
  /\ (forall p, t' !! p <> t !! p -> p `prefix_of` made ++ rest).
Proof.
  revert made t. induction rest as [|name rest IH]; intros made t; cbn [create_dirs].
  - intros [= <- <-] Hok Hd. rewrite app_nil_r. by split_and!.
  - intros Hrun Hok Hd. rewrite (cons_middle name made rest), app_assoc.
    destruct (node_at t (made ++ [name])) as [[| | |]|] eqn:Hn; try (injection Hrun as <- <-; by split_and!).
    + by apply IH.
    + destruct (os_mkdir _ t); [|injection Hrun as <- <-; by split_and!].
      rewrite node_at_snoc in Hn. apply IH in Hrun as (Hok' & Ha & Hr & Hp).
      * split_and!; [done|..|done|].
        -- etransitivity; [|exact Ha]. intros p. destruct (decide (made ++ [name] = p)) as [<-|Hne].
           ++ right. by rewrite lookup_insert_eq.
           ++ left. by rewrite lookup_insert_ne.
        -- intros p Hne. destruct (decide (made ++ [name] = p)) as [<-|Hne']; [by apply prefix_app_r|].
           apply Hp. by rewrite lookup_insert_ne.
      * by apply tree_ok_insert.
      * rewrite node_at_snoc. apply lookup_insert_eq.
Qed.

(** A directory removed takes what is below it along, and nothing else. *)
Lemma remove_dir_all_ok p t t' :
  remove_dir_all fs p t = (inr tt, t') -> tree_ok t ->
  tree_ok t' /\ forall q, t' !! q = if decide (p `prefix_of` q) then None else t !! q.
Proof.
  unfold remove_dir_all. destruct (node_at t p) as [[| | |]|]; try by intros [=].
  destruct (os_remove p t); [|by intros [=]]. intros Heq Hok. injection Heq as <-.
  assert (forall q, filter (fun e : path * node => ~ p `prefix_of` e.1) t !! q = if decide (p `prefix_of` q) then None else t !! q) as Hl.
  { intros q. case_decide as Hp.
    - apply map_lookup_filter_None. right. intros nd _ Hn. by apply Hn.
    - destruct (t !! q) as [nd|] eqn:Hq; [by apply map_lookup_filter_Some|by apply map_lookup_filter_None; left]. }
  split; [|done]. intros dir name. rewrite Hl. case_decide as Hp; [by intros []|]. intros Hs%Hok.
  destruct dir as [|x dir]; [done|]. unfold node_at in *. rewrite Hl, decide_False; [done|].
  intros Hpre. apply Hp. by apply prefix_app_r.
Qed.
End kept.
