(* ===== verification/Policy.v ===== *)
(** * The policy model

    The data of bpfjailer-common/src/policy.rs with the check both loaders apply
    to a policy before using it ([unenforced_settings], and [unenforced_flags] of
    flags.rs), the preset rules, and the daemon's [PolicyManager]
    (bpfjailer-daemon/src/policy.rs).  JSON is outside the model: a policy starts
    as the value it deserialises to.  A [HashMap] is a finite map, and the order
    in which it is iterated is an argument, any permutation of its entries. *)

From S2P Require Import Prelude CLayout BpfMap Rust Kernel Types Machine Hash Enrollment Hooks Network Codec Patterns Parse.

Record PathPattern := MkPathPattern { pp_pattern : bytes; pp_allow : bool }.

Record NetworkRule := MkNetworkRule {
  nr_protocol : bytes;
  nr_address : option bytes;
  nr_port : option Z;
  nr_port_start : option Z;
  nr_port_end : option Z;
  nr_allow : bool;
}.

Record IpRule := MkIpRule { ir_cidr : bytes; ir_direction : bytes; ir_allow : bool }.

Record DomainRule := MkDomainRule { dr_domain : bytes; dr_allow : bool }.

Record PolicyProxy := MkPolicyProxy { py_address : bytes; py_required : bool }.

Record ExecutionRule := MkExecutionRule {
  er_binary_path : bytes;
  er_args_pattern : option bytes;
  er_allow : bool;
}.

Record Role := MkRole {
  r_id : Z;
  r_name : bytes;
  r_flags : PolicyFlags;
  r_file_paths : list PathPattern;
  r_network_rules : list NetworkRule;
  r_execution_rules : list ExecutionRule;
  r_require_signed_binary : bool;
  r_ip_rules : list IpRule;
  r_domain_rules : list DomainRule;
  r_proxy : option PolicyProxy;
}.

Record Pod := MkPod { pod_id : Z; pod_role_id : Z; pod_stack_depth : Z }.

Record ExecEnrollment := MkExecEnrollment { ee_executable_path : bytes; ee_pod_id : Z; ee_role : bytes }.

Record CgroupEnrollment := MkCgroupEnrollment { ce_cgroup_path : bytes; ce_pod_id : Z; ce_role : bytes }.

Record PolicyConfig := MkPolicyConfig {
  pc_roles : gmap bytes Role;
  pc_pods : list Pod;
  pc_exec_enrollments : list ExecEnrollment;
  pc_cgroup_enrollments : list CgroupEnrollment;
}.

Definition empty_config : PolicyConfig := MkPolicyConfig ∅ [] [] [].

Definition config_get_role (c : PolicyConfig) (name : bytes) : option Role := pc_roles c !! name.

(** The path rules of a role, as the encoder takes them. *)
Definition file_rules (role : Role) : list (bytes * bool) :=
  (fun p => (pp_pattern p, pp_allow p)) <$> r_file_paths role.
Definition exec_rules (role : Role) : list (bytes * bool) :=
  (fun e => (er_binary_path e, er_allow e)) <$> r_execution_rules role.

(** ** What a policy may ask for *)

(** An entry of the returned list; a conflict carries the two patterns. *)
Inductive setting :=
| SetRequireSignedBinary
| SetDenySetuid
| SetArgsPattern
| SetFileConflict (patterns : bytes * bytes)
| SetExecConflict (patterns : bytes * bytes).

Definition unenforced_flags (flags : PolicyFlags) : list setting :=
  (if require_signed_binary flags then [SetRequireSignedBinary] else [])
  ++ (if negb (allow_setuid flags) then [SetDenySetuid] else []).

Definition unenforced_settings (role : Role) : list setting :=
  unenforced_flags (r_flags role)
  ++ (if existsb (fun r => bool_decide (is_Some (er_args_pattern r))) (r_execution_rules role)
      then [SetArgsPattern] else [])
  ++ (match path_state_entries_for_role (r_id role) (file_rules role) with
      | inl conflicts => SetFileConflict <$> conflicts
      | inr _ => []
      end)
  ++ (match path_state_entries_for_role (r_id role) (exec_rules role) with
      | inl conflicts => SetExecConflict <$> conflicts
      | inr _ => []
      end).

(** An accepted role has no conflict in either list of path rules. *)
Lemma enforced_conflict_free role :
  unenforced_settings role = [] -> conflict_free (file_rules role) /\ conflict_free (exec_rules role).
Proof.
  unfold unenforced_settings. intros (_ & (_ & (Hf & He)%app_nil)%app_nil)%app_nil.
  split; [revert Hf; clear He|revert He; clear Hf].
  - by destruct (compile_cases (r_id role) (file_rules role)) as [[? _]|(_ & [|? ?] & -> & ?)].
  - by destruct (compile_cases (r_id role) (exec_rules role)) as [[? _]|(_ & [|? ?] & -> & ?)].
Qed.

(** ** Presets *)

Definition deny_pattern (s : string) : PathPattern := MkPathPattern (text s) false.
Definition allow_domain (s : string) : DomainRule := MkDomainRule (text s) true.

(** [SecretPatterns] *)
Definition secret_patterns_all : list PathPattern :=
  deny_pattern <$>
    ["/proc/"; "/.ssh/"; "/.aws/"; "/.config/gcloud/"; "/.azure/"; "/.kube/"; "/.docker/";
     "/etc/shadow"; "/etc/gshadow"; "/etc/ssl/private/"; "/etc/pki/"; "/.npmrc"; "/.yarnrc";
     "/.git-credentials"; "/.netrc"; "/.pypirc"; "/.gnupg/"]%string.
Definition secret_patterns_ssh_keys : list PathPattern := deny_pattern <$> ["/.ssh/"]%string.
Definition secret_patterns_cloud_credentials : list PathPattern :=
  deny_pattern <$> ["/.aws/"; "/.config/gcloud/"; "/.azure/"; "/.kube/"]%string.
Definition secret_patterns_process_info : list PathPattern := deny_pattern <$> ["/proc/"]%string.
Definition secret_patterns_cis_hardening : list PathPattern :=
  deny_pattern <$>
    ["/etc/shadow"; "/etc/gshadow"; "/etc/shadow-"; "/etc/gshadow-"; "/root/"; "/boot/";
     "/etc/audit/"; "/etc/sudoers"; "/etc/sudoers.d/"; "/etc/ssh/"]%string.

(** [AllowedDomains] *)
Definition allowed_domains_openai : list DomainRule := [allow_domain "api.openai.com"].
Definition allowed_domains_anthropic : list DomainRule := [allow_domain "api.anthropic.com"].
Definition allowed_domains_google_ai : list DomainRule :=
  allow_domain <$> ["generativelanguage.googleapis.com"; "aiplatform.googleapis.com"]%string.
Definition allowed_domains_all_llm_providers : list DomainRule :=
  allowed_domains_openai ++ allowed_domains_anthropic ++ allowed_domains_google_ai
  ++ [allow_domain "api.cohere.ai"] ++ [allow_domain "api.mistral.ai"].

(** ** The policy manager *)

Record PolicyManager := MkPolicyManager {
  pm_config : PolicyConfig;
  pm_role_map : gmap Z Role;
}.

Definition restricted_role : Role :=
  MkRole 1 (text "restricted")
    (MkPolicyFlags false false false false false false false false false) [] [] [] false [] [] None.
Definition permissive_role : Role :=
  MkRole 2 (text "permissive")
    (MkPolicyFlags true true true false false false true true false) [] [] [] false [] [] None.

Definition new_manager : PolicyManager :=
  MkPolicyManager
    (MkPolicyConfig
      (<[text "permissive" := permissive_role]> (<[text "restricted" := restricted_role]> ∅)) [] [] [])
    (<[2 := permissive_role]> (<[1 := restricted_role]> ∅)).

(** The built-in roles deny setuid, which no policy file may ask for: they are
    never checked against [unenforced_settings]. *)
Example builtin_unenforced :
  unenforced_settings restricted_role = [SetDenySetuid] /\ unenforced_settings permissive_role = [SetDenySetuid].
Proof. done. Qed.

(** [for role in roles.values() { role_map.insert(role.id, role) }] *)
Definition index_by_id (entries : list (bytes * Role)) : gmap Z Role :=
  fold_left (fun m (e : bytes * Role) => <[r_id e.2 := e.2]> m) entries ∅.

(** The part of [load_from_file] after the text has been parsed: [entries] is
    the order in which the map of roles is iterated.  [inl] is the refusal, with
    the role and what it asks for. *)
Definition load_from_file (config : PolicyConfig) (entries : list (bytes * Role))
    (pm : PolicyManager) : (bytes * list setting + unit) * PolicyManager :=
  match list_find (fun e : bytes * Role => unenforced_settings e.2 <> []) entries with
  | Some (_, (name, role)) => (inl (name, unenforced_settings role), pm)
  | None => (inr tt, MkPolicyManager config (index_by_id entries))
  end.

Definition get_role (pm : PolicyManager) (role_id : Z) : option Role := pm_role_map pm !! role_id.

Definition define_role (role : Role) (pm : PolicyManager) : PolicyManager :=
  let c := pm_config pm in
  MkPolicyManager
    (MkPolicyConfig (<[r_name role := role]> (pc_roles c)) (pc_pods c) (pc_exec_enrollments c)
       (pc_cgroup_enrollments c))
    (<[r_id role := role]> (pm_role_map pm)).

(** [None] inside is the [unwrap] of an absent role id: a panic. *)
Definition get_role_by_name (pm : PolicyManager) (name : bytes) : option (option Role) :=
  (fun r => pm_role_map pm !! r_id r) <$> config_get_role (pm_config pm) name.

(** Enrollments of unknown roles are dropped. *)
Definition get_exec_enrollments (pm : PolicyManager) : list (bytes * Z * Z) :=
  omap (fun e => (fun r => (ee_executable_path e, ee_pod_id e, r_id r))
                   <$> config_get_role (pm_config pm) (ee_role e))
    (pc_exec_enrollments (pm_config pm)).

Definition get_cgroup_enrollments (pm : PolicyManager) : list (bytes * Z * Z) :=
  omap (fun e => (fun r => (ce_cgroup_path e, ce_pod_id e, r_id r))
                   <$> config_get_role (pm_config pm) (ce_role e))
    (pc_cgroup_enrollments (pm_config pm)).

(** [validate_patterns] of path_matcher.rs: absolute, non-empty, no "***". *)
Fixpoint contains_triple_star (s : bytes) : bool :=
  match s with
  | [] => false
  | _ :: s' => bool_decide (take 3 s = [42; 42; 42]) || contains_triple_star s'
  end.

Definition valid_pattern (p : bytes) : bool :=
  bool_decide (head p = Some SLASH) && negb (contains_triple_star p).

Definition validate_patterns (patterns : list bytes) : bool := forallb valid_pattern patterns.

(** ** The manager's two indexes agree *)

(** Every named role's id resolves, and ids resolve to roles that carry them. *)
Definition manager_ok (pm : PolicyManager) : Prop :=
  (forall name r, config_get_role (pm_config pm) name = Some r -> is_Some (get_role pm (r_id r)))
  /\ (forall id r, get_role pm id = Some r -> r_id r = id).

(** What can happen to a manager. *)
Inductive manager_op :=
| OpLoad (config : PolicyConfig) (entries : list (bytes * Role))
| OpDefine (role : Role).

Definition op_ok (op : manager_op) : Prop :=
  match op with
  | OpLoad config entries => entries ≡ₚ map_to_list (pc_roles config)
  | OpDefine _ => True
  end.

Definition run_op (pm : PolicyManager) (op : manager_op) : PolicyManager :=
  match op with
  | OpLoad config entries => (load_from_file config entries pm).2
  | OpDefine role => define_role role pm
  end.

Lemma index_lookup (entries : list (bytes * Role)) id :
  (exists e, e ∈ entries /\ r_id e.2 = id /\ index_by_id entries !! id = Some e.2)
  \/ ((forall e, e ∈ entries -> r_id e.2 <> id) /\ index_by_id entries !! id = None).
Proof.
  unfold index_by_id. induction entries as [|e entries IH] using rev_ind; [right; set_solver|].
  rewrite fold_left_app. cbn. destruct (decide (r_id e.2 = id)) as [<-|Hne].
  - left. exists e. rewrite lookup_insert_eq. set_solver.
  - rewrite lookup_insert_ne by done. destruct IH as [(e' & ? & ? & ?)|[? ?]]; [left|right].
    + exists e'. set_solver.
    + set_solver.
Qed.

Lemma load_from_file_ok config entries pm :
  entries ≡ₚ map_to_list (pc_roles config) -> manager_ok pm ->
  manager_ok (load_from_file config entries pm).2.
Proof.
  intros Hp Hok. unfold load_from_file. destruct (list_find _ entries) as [[i [name role]]|]; [done|].
  unfold manager_ok, get_role. cbn [pm_role_map pm_config snd]. split.
  - intros name r Hr. assert ((name, r) ∈ entries) as Hin by (by rewrite Hp, elem_of_map_to_list).
    destruct (index_lookup entries (r_id r)) as [(e & _ & _ & ->)|[Hn _]]; [by eexists|].
    by destruct (Hn _ Hin).
  - intros id r. destruct (index_lookup entries id) as [(e & _ & <- & ->)|[_ ->]];
      [by intros [= <-]|done].
Qed.

Lemma define_role_ok role pm : manager_ok pm -> manager_ok (define_role role pm).
Proof.
  intros [Hn Hi]. unfold manager_ok, define_role, get_role, config_get_role in *.
  cbn [pm_role_map pm_config pc_roles]. split.
  - intros name r [[<- <-]|[_ Hr]]%lookup_insert_Some; [by rewrite lookup_insert_eq|].
    destruct (decide (r_id role = r_id r)) as [<-|Hne]; [by rewrite lookup_insert_eq|].
    rewrite lookup_insert_ne by done. by eapply Hn.
  - intros id r [[<- <-]|[_ Hr]]%lookup_insert_Some; [done|]. by apply Hi.
Qed.

Lemma new_manager_ok : manager_ok new_manager.
Proof.
  split.
  - intros name r. unfold config_get_role. cbn [new_manager pm_config pc_roles].
    intros [[_ <-]|[_ [[_ <-]|[_ H]]%lookup_insert_Some]]%lookup_insert_Some; [by eexists..|].
    by rewrite lookup_empty in H.
  - intros id r. unfold get_role. cbn [new_manager pm_role_map].
    intros [[<- <-]|[_ [[<- <-]|[_ H]]%lookup_insert_Some]]%lookup_insert_Some; [done..|].
    by rewrite lookup_empty in H.
Qed.

Lemma run_ops_ok ops pm :
  Forall op_ok ops -> manager_ok pm -> manager_ok (fold_left run_op ops pm).
Proof.
  intros Hops. revert pm. induction Hops as [|op ops Hop _ IH]; intros pm Hok; [done|]. cbn.
  apply IH. destruct op; [by apply load_from_file_ok|by apply define_role_ok].
Qed.

(** ** Properties *)

(** C31. Whatever policies are loaded, accepted or refused, and whatever roles
    are defined at run time, looking a role up by name never panics: the id of
    every named role resolves, to a role that carries that id.  So every
    enrollment of the policy is handed out with a role id the manager knows. *)
Theorem manager_lookups_total (ops : list manager_op) (name : bytes) :
  Forall op_ok ops ->
  let pm := fold_left run_op ops new_manager in
  get_role_by_name pm name <> Some None
  /\ (forall id r, get_role pm id = Some r -> r_id r = id)
  /\ (forall path pod id, (path, pod, id) ∈ get_exec_enrollments pm ++ get_cgroup_enrollments pm ->
        is_Some (get_role pm id)).
Proof.
  intros Hops pm. destruct (run_ops_ok ops _ Hops new_manager_ok) as [Hn Hi]. fold pm in Hn, Hi.
  split_and!; [|done|].
  - unfold get_role_by_name. destruct (config_get_role (pm_config pm) name) as [r|] eqn:Hr; [|done].
    apply Hn in Hr as [r' Hr']. cbn. unfold get_role in Hr'. by rewrite Hr'.
  - intros path pod id [Hin|Hin]%elem_of_app; apply list_elem_of_omap in Hin as (e & _ & He);
      apply fmap_Some in He as (r & Hr & [= -> -> ->]); by eapply Hn.
Qed.

(** A policy naming a role and enrolling a binary under it, loaded over the
    built-in roles. *)
Definition web_role : Role :=
  MkRole 10 (text "web") (MkPolicyFlags true true true false true false false false false)
    [] [] [] false [] [] None.
Definition web_config : PolicyConfig :=
  MkPolicyConfig {[text "web" := web_role]} []
    [MkExecEnrollment (text "/usr/bin/nginx") 100 (text "web");
     MkExecEnrollment (text "/usr/bin/ghost") 101 (text "none")] [].

Lemma manager_lookups_total_witness :
  let pm := fold_left run_op [OpLoad web_config [(text "web", web_role)]] new_manager in
  get_role_by_name pm (text "web") <> Some None
  /\ get_exec_enrollments pm = [(text "/usr/bin/nginx", 100, 10)].
Proof.
  split; [|vm_compute; reflexivity].
  apply (manager_lookups_total [OpLoad web_config [(text "web", web_role)]] (text "web")).
  apply Forall_cons. split; [|apply Forall_nil; exact I].
  unfold op_ok, web_config. cbn [pc_roles]. by rewrite map_to_list_singleton.
Defined.
