(* ===== verification/Apply.v ===== *)
(** * Applying a role

    bpfjailer-common/src/apply.rs: [apply_role] walks a role once and hands every
    enforcing section to a [PolicySink].  The daemon's [TrackerSink]
    (process_tracker.rs over bpf_loader.rs) and the bootstrap's [ObjectSink]
    (bootstrap/src/main.rs) are the two sinks that write maps; the walk is
    written against the class.  [role_steps] lists what a walk writes, and the
    section after it states what a role means to the hooks. *)

From S2P Require Import Prelude CLayout BpfMap Rust Kernel KernelTypes Types Machine Scenario Hash PathWalk StateMachine Enrollment Hooks Network Codec Patterns Parse Loader Policy.

Class PolicySink (E S : Type) := {
  set_role_flags : Z -> Z -> io E S unit;
  write_path_states : Z -> list path_state_entry -> io E S unit;
  write_exec_states : Z -> list path_state_entry -> io E S unit;
  add_network_rule : Z -> Z -> Z -> Z -> bool -> io E S unit;
  add_ip_rule : Z -> bytes -> Z -> bool -> io E S unit;
  add_domain_rule : Z -> bytes -> bool -> io E S unit;
  set_proxy : Z -> bytes -> bool -> io E S unit;
  cache_resolved_ip : Z -> ipv4 -> Z -> io E S unit;
}.

(** The addresses a domain name currently resolves to; DNS is outside. *)
Class DomainResolver := resolve : bytes -> list ipv4.

Definition BIND : Z := 0.
Definition CONNECT : Z := 1.

(** An entry of the skip list, without the text of the message. *)
Inductive skip :=
| SkipFileConflict (patterns : bytes * bytes)
| SkipExecConflict (patterns : bytes * bytes)
| SkipNetworkRule (protocol : bytes)
| SkipIpDirection (cidr direction : bytes)
| SkipUnresolved (domain : bytes).

Section apply_role.
Context {E S : Type} `{Sink : !PolicySink E S} `{Resolver : !DomainResolver}.

(** One of the two lists of path rules. *)
Definition apply_state_rules (role_id : Z) (rules : list (bytes * bool))
    (write : Z -> list path_state_entry -> io E S unit) (skipped : bytes * bytes -> skip)
    : io E S (list skip) :=
  match path_state_entries_for_role role_id rules with
  | inr [] => ok []
  | inr entries => write role_id entries ;;? ok []
  | inl conflicts => ok (skipped <$> conflicts)
  end.

Definition apply_network_rule (role_id : Z) (r : NetworkRule) : io E S (list skip) :=
  match expand_network_rule (nr_protocol r) (nr_port r) (nr_port_start r) (nr_port_end r) with
  | Some (protocol, ports) =>
      for_each (fun port =>
        add_network_rule role_id port protocol BIND (nr_allow r) ;;?
        add_network_rule role_id port protocol CONNECT (nr_allow r)) ports ;;?
      ok []
  | None => ok [SkipNetworkRule (nr_protocol r)]
  end.

Definition rule_direction (d : bytes) : option Z :=
  if decide (d = text "bind") then Some BIND
  else if decide (d = text "connect") then Some CONNECT
  else None.

Definition apply_ip_rule (role_id : Z) (r : IpRule) : io E S (list skip) :=
  match rule_direction (ir_direction r) with
  | Some direction => add_ip_rule role_id (ir_cidr r) direction (ir_allow r) ;;? ok []
  | None => ok [SkipIpDirection (ir_cidr r) (ir_direction r)]
  end.

Definition apply_domain_rule (role_id : Z) (r : DomainRule) : io E S (list skip) :=
  add_domain_rule role_id (dr_domain r) (dr_allow r) ;;?
  match resolve (dr_domain r) with
  | [] => ok [SkipUnresolved (dr_domain r)]
  | addrs =>
      for_each (fun ip => cache_resolved_ip role_id ip (fnv1a_hash_u64 (dr_domain r))) addrs ;;?
      ok []
  end.

Definition apply_role (role : Role) : io E S (list skip) :=
  let role_id := r_id role in
  set_role_flags role_id (policy_flags_to_u8 (r_flags role)) ;;?
  sk1 <-? apply_state_rules role_id (file_rules role) write_path_states SkipFileConflict ;;
  sk2 <-? apply_state_rules role_id (exec_rules role) write_exec_states SkipExecConflict ;;
  sk3 <-? collect_each (apply_network_rule role_id) (r_network_rules role) ;;
  sk4 <-? collect_each (apply_ip_rule role_id) (r_ip_rules role) ;;
  sk5 <-? collect_each (apply_domain_rule role_id) (r_domain_rules role) ;;
  match r_proxy role with
  | Some p => set_proxy role_id (py_address p) (py_required p) ;;? ok (sk1 ++ sk2 ++ sk3 ++ sk4 ++ sk5)
  | None => ok (sk1 ++ sk2 ++ sk3 ++ sk4 ++ sk5)
  end.
End apply_role.

(** ** The two sinks *)

(** The daemon's, through its BPF handle. *)
Definition TrackerSink : PolicySink load_error bpf_state := {|
  set_role_flags := update_role_flags;
  write_path_states := fun _ entries => loader_write_states N_path_states entries;
  write_exec_states := fun _ entries => loader_write_states N_exec_states entries;
  add_network_rule := loader_add_network_rule;
  add_ip_rule := loader_add_ip_rule;
  add_domain_rule := loader_add_domain_rule;
  set_proxy := set_proxy_config;
  cache_resolved_ip := loader_cache_resolved_ip;
|}.

(** The bootstrap's, straight into the loaded object's maps: [ObjectSink::map]
    finds each by its name among those the object has. *)
Definition object_map (maps : gset bytes) (n : map_name) (p : loader unit) : loader unit :=
  if decide (map_text n ∈ maps) then p else err (NoMap n).

Definition ObjectSink (maps : gset bytes) : PolicySink load_error bpf_state := {|
  set_role_flags := fun role_id flags =>
  object_map maps N_role_flags (update N_role_flags (to_ne_bytes 4 role_id) [flags]);
  write_path_states := fun _ entries =>
  object_map maps N_path_states (for_each (fun '(key, value) => update N_path_states key value) entries);
  write_exec_states := fun _ entries =>
  object_map maps N_exec_states (for_each (fun '(key, value) => update N_exec_states key value) entries);
  add_network_rule := fun role_id port protocol direction allow =>
  object_map maps N_network_rules
    (update N_network_rules (codec_net_rule_key role_id port protocol direction) [bool_byte allow]);
  add_ip_rule := fun role_id cidr direction allow =>
  r <-? parsed (parse_cidr cidr) ;;
  object_map maps N_ip_rules (update N_ip_rules (codec_ip_rule_key role_id r.1 r.2 direction) [bool_byte allow]);
  add_domain_rule := fun role_id domain allow =>
  object_map maps N_domain_rules (update N_domain_rules (codec_domain_rule_key role_id domain) [bool_byte allow]);
  set_proxy := fun role_id address required =>
  r <-? parsed (parse_proxy_addr address) ;;
  object_map maps N_proxy_config
    (update N_proxy_config (to_ne_bytes 4 role_id) (codec_proxy_config_value r.1 r.2 required));
  cache_resolved_ip := fun role_id ip domain_hash =>
  object_map maps N_dns_cache
    (update N_dns_cache (codec_dns_cache_key role_id ip) (codec_dns_cache_value domain_hash 0));
|}.

(** ** What a walk writes *)

(** A write, or the error that ends the walk. *)
Abbreviation walk_step := (write + load_error)%type.

Definition run_step (st : walk_step) : loader unit :=
  match st with
  | inl w => do_write w
  | inr e => err e
  end.

Section steps.
Context `{Resolver : !DomainResolver}.

Definition flag_step (role : Role) : walk_step :=
  inl (Write N_role_flags (to_ne_bytes 4 (r_id role)) [policy_flags_to_u8 (r_flags role)]).

Definition state_writes (n : map_name) (role_id : Z) (rules : list (bytes * bool)) : list write :=
  match path_state_entries_for_role role_id rules with
  | inr entries => (fun e => Write n e.1 e.2) <$> entries
  | inl _ => []
  end.

Definition network_write (role_id protocol : Z) (allow : bool) (port direction : Z) : write :=
  Write N_network_rules (codec_net_rule_key role_id port protocol direction) [bool_byte allow].

Definition network_writes (role_id : Z) (r : NetworkRule) : list write :=
  match expand_network_rule (nr_protocol r) (nr_port r) (nr_port_start r) (nr_port_end r) with
  | Some (protocol, ports) =>
      port ← ports; network_write role_id protocol (nr_allow r) port <$> [BIND; CONNECT]
  | None => []
  end.

Definition ip_steps (role_id : Z) (r : IpRule) : list walk_step :=
  match rule_direction (ir_direction r), parse_cidr (ir_cidr r) with
  | Some direction, inr (ip, p) =>
      [inl (Write N_ip_rules (codec_ip_rule_key role_id ip p direction) [bool_byte (ir_allow r)])]
  | Some _, inl e => [inr (BadText e)]
  | None, _ => []
  end.

Definition domain_writes (role_id : Z) (r : DomainRule) : list write :=
  Write N_domain_rules (codec_domain_rule_key role_id (dr_domain r)) [bool_byte (dr_allow r)]
  :: ((fun ip => Write N_dns_cache (codec_dns_cache_key role_id ip)
      (codec_dns_cache_value (fnv1a_hash_u64 (dr_domain r)) 0)) <$> resolve (dr_domain r)).

Definition proxy_steps (role_id : Z) (p : PolicyProxy) : list walk_step :=
  match parse_proxy_addr (py_address p) with
  | inr (ip, port) =>
      [inl (Write N_proxy_config (to_ne_bytes 4 role_id)
          (codec_proxy_config_value ip port (py_required p)))]
  | inl e => [inr (BadText e)]
  end.

Definition role_steps (role : Role) : list walk_step :=
  [flag_step role]
  ++ (inl <$> state_writes N_path_states (r_id role) (file_rules role))
  ++ (inl <$> state_writes N_exec_states (r_id role) (exec_rules role))
  ++ (inl <$> (r_network_rules role ≫= network_writes (r_id role)))
  ++ (r_ip_rules role ≫= ip_steps (r_id role))
  ++ (inl <$> (r_domain_rules role ≫= domain_writes (r_id role)))
  ++ (option_list (r_proxy role) ≫= proxy_steps (r_id role)).

Definition role_skips (role : Role) : list skip :=
  (match path_state_entries_for_role (r_id role) (file_rules role) with
    | inl conflicts => SkipFileConflict <$> conflicts | inr _ => [] end)
  ++ (match path_state_entries_for_role (r_id role) (exec_rules role) with
    | inl conflicts => SkipExecConflict <$> conflicts | inr _ => [] end)
  ++ (r ← r_network_rules role;
  match expand_network_rule (nr_protocol r) (nr_port r) (nr_port_start r) (nr_port_end r) with
  | Some _ => [] | None => [SkipNetworkRule (nr_protocol r)] end)
  ++ (r ← r_ip_rules role;
  match rule_direction (ir_direction r) with
  | Some _ => [] | None => [SkipIpDirection (ir_cidr r) (ir_direction r)] end)
  ++ (r ← r_domain_rules role;
  match resolve (dr_domain r) with
  | [] => [SkipUnresolved (dr_domain r)] | _ => [] end).
End steps.

(** ** The walk writes exactly that *)

(** [p] performs the steps in order and, if none fails, returns [r]. *)
Definition emits {A} (p : loader A) (steps : list walk_step) (r : A) : Prop :=
  forall s, p s = (for_each run_step steps ;;? ok r) s.

Lemma emits_ok {A} (r : A) : emits (ok r) [] r.
Proof. done. Qed.

Lemma emits_err {A} e (r : A) : emits (err e) [inr e] r.
Proof. done. Qed.

Lemma emits_write w : emits (do_write w) [inl w] tt.
Proof. intros s. cbn. unfold io_bind, ok. by destruct (do_write w s) as [[e|[]] s']. Qed.

Lemma emits_bind {A B} (p : loader A) (k : A -> loader B) st1 r1 st2 r2 :
  emits p st1 r1 -> emits (k r1) st2 r2 -> emits (io_bind p k) (st1 ++ st2) r2.
Proof.
  intros Hp Hk s. rewrite (io_bind_ext _ _ _ k s (Hp s)) by done.
  rewrite io_bind_assoc. unfold io_bind at 3. rewrite for_each_app. unfold io_bind, ok.
  destruct (for_each run_step st1 s) as [[e|u] s1]; [done|]. rewrite Hk. unfold io_bind, ok.
  by destruct (for_each run_step st2 s1) as [[e|u'] s2].
Qed.

(** The same where the second part is known only after the first. *)
Lemma emits_seq {A B} (p : loader A) (k : A -> loader B) st1 r1 st r2 st2 :
  emits p st1 r1 -> emits (k r1) st2 r2 -> st = st1 ++ st2 -> emits (io_bind p k) st r2.
Proof. intros ? ? ->. by eapply emits_bind. Qed.

Lemma emits_for_each {X} (f : X -> loader unit) (g : X -> list walk_step) xs :
  (forall x, emits (f x) (g x) tt) -> emits (for_each f xs) (xs ≫= g) tt.
Proof.
  intros Hf. induction xs as [|x xs IH]; [apply emits_ok|]. cbn [for_each]. rewrite bind_cons.
  eapply emits_bind; [apply Hf|apply IH].
Qed.

Lemma emits_collect_each {X Y} (f : X -> loader (list Y)) (g : X -> list walk_step)
    (h : X -> list Y) xs :
  (forall x, emits (f x) (g x) (h x)) -> emits (collect_each f xs) (xs ≫= g) (xs ≫= h).
Proof.
  intros Hf. induction xs as [|x xs IH]; [apply emits_ok|]. cbn [collect_each]. rewrite !bind_cons.
  eapply emits_bind; [apply Hf|]. eapply emits_seq; [apply IH|apply emits_ok|by rewrite app_nil_r].
Qed.

Lemma for_each_updates n (entries : list path_state_entry) :
  emits (for_each (fun '(key, value) => update n key value) entries)
    (inl <$> ((fun e => Write n e.1 e.2) <$> entries)) tt.
Proof.
  induction entries as [|[k v] entries IH]; [apply emits_ok|]. cbn [for_each fmap list_fmap].
  eapply (emits_seq _ _ _ tt); [apply (emits_write (Write n k v))|apply IH|done].
Qed.

(** What makes a sink write maps: each call emits its writes. *)
Record map_sink (sink : PolicySink load_error bpf_state) : Prop := {
  ms_flags : forall role_id flags, emits (set_role_flags role_id flags)
    [inl (Write N_role_flags (to_ne_bytes 4 role_id) [flags])] tt;
  ms_paths : forall role_id entries, emits (write_path_states role_id entries)
    (inl <$> ((fun e => Write N_path_states e.1 e.2) <$> entries)) tt;
  ms_execs : forall role_id entries, emits (write_exec_states role_id entries)
    (inl <$> ((fun e => Write N_exec_states e.1 e.2) <$> entries)) tt;
  ms_network : forall role_id port protocol direction allow,
    emits (add_network_rule role_id port protocol direction allow)
      [inl (network_write role_id protocol allow port direction)] tt;
  ms_ip : forall role_id cidr direction allow, emits (add_ip_rule role_id cidr direction allow)
    (match parse_cidr cidr with
     | inr (ip, p) =>
         [inl (Write N_ip_rules (codec_ip_rule_key role_id ip p direction) [bool_byte allow])]
     | inl e => [inr (BadText e)]
     end) tt;
  ms_domain : forall role_id domain allow, emits (add_domain_rule role_id domain allow)
    [inl (Write N_domain_rules (codec_domain_rule_key role_id domain) [bool_byte allow])] tt;
  ms_proxy : forall role_id address required, emits (set_proxy role_id address required)
    (proxy_steps role_id (MkPolicyProxy address required)) tt;
  ms_cache : forall role_id ip hash, emits (cache_resolved_ip role_id ip hash)
    [inl (Write N_dns_cache (codec_dns_cache_key role_id ip) (codec_dns_cache_value hash 0))] tt;
}.

Lemma emits_update n k v : emits (update n k v) [inl (Write n k v)] tt.
Proof. apply (emits_write (Write n k v)). Qed.

Lemma emits_parsed {A} (r : parse_error + A) (k : A -> loader unit) (g : A -> list walk_step) :
  (forall a, emits (k a) (g a) tt) ->
  emits (x <-? parsed r ;; k x) (match r with inr a => g a | inl e => [inr (BadText e)] end) tt.
Proof. intros Hk s. destruct r as [e|a]; [done|]. exact (Hk a s). Qed.

Lemma tracker_map_sink : map_sink TrackerSink.
Proof.
  split; intros; cbn; try apply emits_update.
  - destruct entries; [apply emits_ok|apply for_each_updates].
  - destruct entries; [apply emits_ok|apply for_each_updates].
  - unfold loader_add_ip_rule. eapply (emits_parsed _ _ (fun '(ip, p) => _)). intros [ip p].
    apply emits_update.
  - unfold set_proxy_config, proxy_steps. eapply (emits_parsed _ _ (fun '(ip, port) => _)).
    intros [ip port]. apply emits_update.
Qed.

(** With every map in the object, the bootstrap's sink is one too. *)
Lemma object_map_sink maps : (forall n, map_text n ∈ maps) -> map_sink (ObjectSink maps).
Proof.
  intros Hm. assert (forall n p s, object_map maps n p s = p s) as Hin.
  { intros n p s. unfold object_map. by rewrite decide_True. }
  assert (forall n p steps, emits p steps tt -> emits (object_map maps n p) steps tt) as He.
  { intros n p steps Hp s. rewrite Hin. apply Hp. }
  split; intros; cbn; try apply He; try apply emits_update; try apply for_each_updates.
  - eapply (emits_parsed _ _ (fun '(ip, p) => _)). intros [ip p]. apply He, emits_update.
  - unfold proxy_steps. eapply (emits_parsed _ _ (fun '(ip, port) => _)). intros [ip port].
    apply He, emits_update.
Qed.

(** A walk that succeeds through one sink does the same through any sink whose
    operations succeed wherever the first one's do. *)
Record sink_succeeds {E S} (sink sink' : PolicySink E S) : Prop := {
  ss_flags : forall r f, succeeds_as (set_role_flags (PolicySink := sink) r f) (set_role_flags (PolicySink := sink') r f);
  ss_paths : forall r es, succeeds_as (write_path_states (PolicySink := sink) r es) (write_path_states (PolicySink := sink') r es);
  ss_execs : forall r es, succeeds_as (write_exec_states (PolicySink := sink) r es) (write_exec_states (PolicySink := sink') r es);
  ss_network : forall r p q d a, succeeds_as (add_network_rule (PolicySink := sink) r p q d a)
    (add_network_rule (PolicySink := sink') r p q d a);
  ss_ip : forall r c d a, succeeds_as (add_ip_rule (PolicySink := sink) r c d a) (add_ip_rule (PolicySink := sink') r c d a);
  ss_domain : forall r d a, succeeds_as (add_domain_rule (PolicySink := sink) r d a) (add_domain_rule (PolicySink := sink') r d a);
  ss_proxy : forall r a q, succeeds_as (set_proxy (PolicySink := sink) r a q) (set_proxy (PolicySink := sink') r a q);
  ss_cache : forall r i h, succeeds_as (cache_resolved_ip (PolicySink := sink) r i h) (cache_resolved_ip (PolicySink := sink') r i h);
}.

Lemma state_rules_succeed {E S} role_id rules (write write' : Z -> list path_state_entry -> io E S unit) skipped :
  (forall r es, succeeds_as (write r es) (write' r es)) ->
  succeeds_as (apply_state_rules role_id rules write skipped) (apply_state_rules role_id rules write' skipped).
Proof.
  intros Hw. unfold apply_state_rules. destruct (path_state_entries_for_role _ _) as [|[|]]; [done..|].
  by apply succeeds_bind.
Qed.

Lemma apply_role_succeeds {E S} (sink sink' : PolicySink E S) `{Resolver : !DomainResolver} role :
  sink_succeeds sink sink' ->
  succeeds_as (apply_role (Sink := sink) role) (apply_role (Sink := sink') role).
Proof.
  intros Hs. unfold apply_role. apply succeeds_bind; [apply (ss_flags _ _ Hs)|intros _].
  apply succeeds_bind; [apply state_rules_succeed, (ss_paths _ _ Hs)|intros sk1].
  apply succeeds_bind; [apply state_rules_succeed, (ss_execs _ _ Hs)|intros sk2].
  apply succeeds_bind; [apply succeeds_collect_each; intros r|intros sk3].
  { unfold apply_network_rule. destruct (expand_network_rule _ _ _ _) as [[q ps]|]; [|done].
    apply succeeds_bind; [|done]. apply succeeds_for_each. intros p.
    apply succeeds_bind; [|intros _]; apply (ss_network _ _ Hs). }
  apply succeeds_bind; [apply succeeds_collect_each; intros r|intros sk4].
  { unfold apply_ip_rule. destruct (rule_direction _); [|done]. apply succeeds_bind; [apply (ss_ip _ _ Hs)|done]. }
  apply succeeds_bind; [apply succeeds_collect_each; intros r|intros sk5].
  { unfold apply_domain_rule. apply succeeds_bind; [apply (ss_domain _ _ Hs)|intros _].
    destruct (resolve _); [done|]. apply succeeds_bind; [|done]. apply succeeds_for_each. intros ip. apply (ss_cache _ _ Hs). }
  destruct (r_proxy role); [|done]. apply succeeds_bind; [apply (ss_proxy _ _ Hs)|done].
Qed.

Lemma object_map_succeeds maps n p : succeeds_as (object_map maps n p) p.
Proof. unfold object_map. by case_decide. Qed.

(** A walk the bootstrap gets through, on whatever object, is the walk on an
    object with more maps. *)
Lemma object_sink_succeeds maps maps' : maps ⊆ maps' -> sink_succeeds (ObjectSink maps) (ObjectSink maps').
Proof.
  intros Hsub. assert (forall n p, succeeds_as (object_map maps n p) (object_map maps' n p)) as Hn.
  { intros n p. unfold object_map. destruct (decide (map_text n ∈ maps)); [|done]. by rewrite decide_True by set_solver. }
  split; intros; try apply Hn; (apply succeeds_bind; [done|]; intros; apply Hn).
Qed.

Section walk.
Context (sink : PolicySink load_error bpf_state) (Hsink : map_sink sink).
Context `{Resolver : !DomainResolver}.

Lemma state_rules_emit n role_id rules write skipped :
  (forall entries, emits (write role_id entries) (inl <$> ((fun e => Write n e.1 e.2) <$> entries)) tt) ->
  emits (apply_state_rules role_id rules write skipped) (inl <$> state_writes n role_id rules)
    (match path_state_entries_for_role role_id rules with
    | inl conflicts => skipped <$> conflicts | inr _ => [] end).
Proof.
  intros Hw. unfold apply_state_rules, state_writes.
  destruct (path_state_entries_for_role role_id rules) as [cs|[|e es]]; [apply emits_ok..|].
  eapply emits_seq; [apply Hw|apply emits_ok|by rewrite app_nil_r].
Qed.

Lemma network_rule_emits role_id r :
  emits (apply_network_rule role_id r) (inl <$> network_writes role_id r)
    (match expand_network_rule (nr_protocol r) (nr_port r) (nr_port_start r) (nr_port_end r) with
    | Some _ => [] | None => [SkipNetworkRule (nr_protocol r)] end).
Proof.
  unfold apply_network_rule, network_writes.
  destruct (expand_network_rule _ _ _ _) as [[protocol ports]|]; [|apply emits_ok].
  eapply emits_seq; [|apply emits_ok|by rewrite app_nil_r].
  replace (inl <$> _) with (ports ≫= fun port =>
      inl (B := load_error) <$> (network_write role_id protocol (nr_allow r) port <$> [BIND; CONNECT])).
  - apply emits_for_each. intros port. eapply emits_seq; [apply Hsink|apply Hsink|done].
  - induction ports as [|port ports IH]; [done|]. rewrite !bind_cons, fmap_app, IH. done.
Qed.

Lemma ip_rule_emits role_id r :
  emits (apply_ip_rule role_id r) (ip_steps role_id r)
    (match rule_direction (ir_direction r) with
    | Some _ => [] | None => [SkipIpDirection (ir_cidr r) (ir_direction r)] end).
Proof.
  unfold apply_ip_rule, ip_steps. destruct (rule_direction (ir_direction r)) as [dir|]; [|apply emits_ok].
  eapply emits_seq; [apply (ms_ip _ Hsink)|apply emits_ok|].
  rewrite app_nil_r. by destruct (parse_cidr (ir_cidr r)) as [e|[ip p]].
Qed.

Lemma domain_rule_emits role_id r :
  emits (apply_domain_rule role_id r) (inl <$> domain_writes role_id r)
    (match resolve (dr_domain r) with [] => [SkipUnresolved (dr_domain r)] | _ => [] end).
Proof.
  unfold apply_domain_rule, domain_writes. rewrite fmap_cons.
  apply (emits_bind _ _ [_] tt); [apply (ms_domain _ Hsink)|].
  destruct (resolve (dr_domain r)) as [|ip ips]; [apply emits_ok|]. generalize (ip :: ips). clear ip ips.
  intros ips. eapply emits_seq; [|apply emits_ok|by rewrite app_nil_r].
  replace (inl <$> _) with (ips ≫= fun ip => [inl (B := load_error)
      (Write N_dns_cache (codec_dns_cache_key role_id ip)
      (codec_dns_cache_value (fnv1a_hash_u64 (dr_domain r)) 0))]).
  - apply emits_for_each. intros ip. apply (ms_cache _ Hsink).
  - induction ips as [|ip' ips IH]; [done|]. rewrite bind_cons. rewrite !fmap_cons, IH. done.
Qed.

Lemma bind_inl {X Y} (f : X -> list write) (xs : list X) :
  (xs ≫= fun x => inl (B := Y) <$> f x) = inl <$> (xs ≫= f).
Proof. induction xs as [|x xs IH]; [done|]. by rewrite !bind_cons, fmap_app, IH. Qed.

Lemma apply_role_emits role : emits (apply_role role) (role_steps role) (role_skips role).
Proof.
  unfold apply_role, role_steps, role_skips.
  eapply emits_bind; [apply (ms_flags _ Hsink)|].
  eapply emits_bind; [apply state_rules_emit, (ms_paths _ Hsink)|].
  eapply emits_bind; [apply state_rules_emit, (ms_execs _ Hsink)|].
  rewrite <-!bind_inl.
  eapply emits_bind; [apply emits_collect_each, network_rule_emits|].
  eapply emits_bind; [apply emits_collect_each, ip_rule_emits|].
  eapply emits_bind; [apply emits_collect_each, domain_rule_emits|].
  destruct (r_proxy role) as [[address required]|]; cbn [option_list]; [|apply emits_ok].
  eapply emits_seq; [apply (ms_proxy _ Hsink)|apply emits_ok|done].
Qed.
End walk.

(** ** Successful walks *)

(** The writes among the steps, and that there is nothing else. *)
Definition step_write (st : walk_step) : option write :=
  match st with inl w => Some w | inr _ => None end.

Definition all_writes (steps : list walk_step) : Prop := Forall (fun st => is_Some (step_write st)) steps.

Lemma steps_ok steps s r s' :
  for_each run_step steps s = (inr r, s') ->
  all_writes steps /\ s' = puts (omap step_write steps) s.
Proof.
  revert s. induction steps as [|st steps IH]; intros s; [intros [= _ <-]; split; [constructor|done]|]. cbn [for_each].
  rewrite io_bind_inr. intros (u & s1 & Hst & H). destruct st as [w|e]; [|done].
  apply do_write_ok in Hst as ->. apply IH in H as [Ha ->]. split; [by constructor|done].
Qed.

Lemma steps_writes steps s :
  all_writes steps -> for_each run_step steps s = for_each do_write (omap step_write steps) s.
Proof.
  intros Ha. revert s. induction Ha as [|st steps [w Hw] _ IH]; intros s; [done|].
  destruct st as [w'|e]; [|done]. cbn. apply io_bind_ext; [done|]. intros _ s'. apply IH.
Qed.

Section applied.
Context (sink : PolicySink load_error bpf_state) (Hsink : map_sink sink).
Context `{Resolver : !DomainResolver}.

Definition role_writes (role : Role) : list write := omap step_write (role_steps role).

Lemma apply_role_ok role s sk s' :
  apply_role role s = (inr sk, s') ->
  sk = role_skips role /\ all_writes (role_steps role) /\ s' = puts (role_writes role) s.
Proof.
  rewrite (apply_role_emits sink Hsink role), io_bind_inr. intros (u & s1 & Hs & [= <- <-]).
  by apply steps_ok in Hs as [? ?].
Qed.

Lemma apply_role_writes role s :
  all_writes (role_steps role) -> for_each do_write (role_writes role) s = (inr tt, puts (role_writes role) s) ->
  apply_role role s = (inr (role_skips role), puts (role_writes role) s).
Proof.
  intros Ha Hw. rewrite (apply_role_emits sink Hsink role). unfold io_bind.
  rewrite steps_writes by done. unfold role_writes in Hw. by rewrite Hw.
Qed.

Lemma apply_role_frame role s : user_frame s (apply_role role s).2.
Proof.
  rewrite (apply_role_emits sink Hsink role). unfold io_bind, ok.
  assert (forall steps s, user_frame s (for_each run_step steps s).2) as Hf.
  { clear. induction steps as [|st steps IH]; intros s; [done|]. cbn [for_each]. unfold io_bind.
    assert (user_frame s (run_step st s).2) as H1.
    { destruct st as [w|e]; [|done]. cbn. unfold do_write, update. by case_match. }
    destruct (run_step st s) as [[e|u] s1]; [done|]. by etransitivity; [|apply IH]. }
  pose proof (Hf (role_steps role) s). by destruct (for_each _ _ _) as [[e|u] s1].
Qed.

(** Applying a role again changes nothing and reports the same. *)
Lemma apply_role_again role s sk s' :
  apply_role role s = (inr sk, s') -> apply_role role s' = (inr sk, s').
Proof.
  intros (-> & Ha & ->)%apply_role_ok. rewrite apply_role_writes.
  - by rewrite puts_idempotent.
  - done.
  - apply writes_present, Forall_forall. intros w Hw. rewrite puts_lookup.
    destruct (last_write (w_map w) (w_key w) (role_writes role)) eqn:Hl; [done|].
    apply last_write_None in Hl. rewrite Forall_forall in Hl. by destruct (Hl w Hw).
Qed.
End applied.

(** ** Every key of a role starts with its id *)

Lemma emit_keys role_id nodes fuel : forall stack out conflicts out' conflicts',
  emit role_id nodes fuel stack out conflicts = Some (out', conflicts') ->
  (forall e, e ∈ out -> exists st h, e.1 = codec_path_state_key role_id st h) ->
  forall e, e ∈ out' -> exists st h, e.1 = codec_path_state_key role_id st h.
Proof.
  induction fuel as [|fuel IH]; intros [|[i inh] stack] out cs out' cs'; cbn [emit];
    [by intros [= <- <-]|done|by intros [= <- <-]|].
  destruct (own_entries _ _ _ _) as [own c] eqn:Ho. intros He Hout. eapply IH; [exact He|].
  intros e [?|[Hin|Hin]%elem_of_app]%elem_of_app; [by apply Hout| |].
  - unfold own_entries in Ho. repeat case_match; simplify_eq; set_solver.
  - apply list_elem_of_fmap in Hin as ([c' j] & -> & _). unfold child_entry. cbn. eauto.
Qed.

Lemma compiled_keys role_id rules entries e :
  path_state_entries_for_role role_id rules = inr entries -> e ∈ entries ->
  exists st h, e.1 = codec_path_state_key role_id st h.
Proof.
  unfold path_state_entries_for_role. destruct (emit _ _ _ _ _ _) as [[out [|c cs]]|] eqn:He; try done.
  intros [= <-] Hin. eapply emit_keys; [exact He| |exact Hin]. set_solver.
Qed.

Lemma state_write_key n role_id rules w :
  w ∈ state_writes n role_id rules ->
  w_map w = n /\ exists st h, w_key w = codec_path_state_key role_id st h.
Proof.
  unfold state_writes. destruct (path_state_entries_for_role _ _) as [|entries] eqn:He; [set_solver|].
  intros (e & -> & Hin)%list_elem_of_fmap. split; [done|]. by eapply compiled_keys.
Qed.

Lemma omap_inl (ws : list write) : omap step_write (inl <$> ws) = ws.
Proof. induction ws as [|w ws IH]; [done|]. cbn. by rewrite IH. Qed.

Section keys.
Context `{Resolver : !DomainResolver}.

(** The writes, section by section. *)
Lemma role_writes_eq role :
  role_writes role
  = Write N_role_flags (to_ne_bytes 4 (r_id role)) [policy_flags_to_u8 (r_flags role)]
  :: state_writes N_path_states (r_id role) (file_rules role)
  ++ state_writes N_exec_states (r_id role) (exec_rules role)
  ++ (r_network_rules role ≫= network_writes (r_id role))
  ++ omap step_write (r_ip_rules role ≫= ip_steps (r_id role))
  ++ (r_domain_rules role ≫= domain_writes (r_id role))
  ++ omap step_write (option_list (r_proxy role) ≫= proxy_steps (r_id role)).
Proof. unfold role_writes, role_steps. by rewrite !omap_app, !omap_inl. Qed.

Lemma network_write_in role_id r w :
  w ∈ network_writes role_id r ->
  exists protocol port direction, w = network_write role_id protocol (nr_allow r) port direction.
Proof.
  unfold network_writes. destruct (expand_network_rule _ _ _ _) as [[proto ports]|]; [|set_solver].
  intros (port & Hw & _)%list_elem_of_bind. set_solver.
Qed.

Lemma ip_write_in role_id rules w :
  w ∈ omap step_write (rules ≫= ip_steps role_id) ->
  exists r direction ip p, r ∈ rules /\ rule_direction (ir_direction r) = Some direction
  /\ parse_cidr (ir_cidr r) = inr (ip, p)
  /\ w = Write N_ip_rules (codec_ip_rule_key role_id ip p direction) [bool_byte (ir_allow r)].
Proof.
  intros (st & (r & Hst & Hr)%list_elem_of_bind & Hw)%list_elem_of_omap. unfold ip_steps in Hst.
  destruct (rule_direction (ir_direction r)) as [dir|] eqn:Hd; [|set_solver].
  destruct (parse_cidr (ir_cidr r)) as [e|[ip p]] eqn:Hp; apply list_elem_of_singleton in Hst as ->;
    simplify_eq/=. eauto 10.
Qed.

Lemma proxy_write_in role_id o w :
  w ∈ omap step_write (option_list o ≫= proxy_steps role_id) ->
  exists p ip port, o = Some p /\ parse_proxy_addr (py_address p) = inr (ip, port)
  /\ w = Write N_proxy_config (to_ne_bytes 4 role_id) (codec_proxy_config_value ip port (py_required p)).
Proof.
  destruct o as [p|]; [|by intros ?%elem_of_nil].
  intros (st & (r & Hst & ->%list_elem_of_singleton)%list_elem_of_bind & Hw)%list_elem_of_omap.
  unfold proxy_steps in Hst. destruct (parse_proxy_addr (py_address p)) as [e|[ip port]] eqn:Hp;
    apply list_elem_of_singleton in Hst as ->; simplify_eq/=. eauto 10.
Qed.

(** The first four bytes of every key a role writes are its id. *)
Lemma role_write_key role w :
  w ∈ role_writes role -> take 4 (w_key w) = le_bytes 4 (r_id role).
Proof.
  rewrite role_writes_eq. intros Hin. apply elem_of_cons in Hin as [->|Hin]; [done|].
  repeat (apply elem_of_app in Hin as [Hin|Hin]).
  - by apply state_write_key in Hin as (_ & st & h & ->).
  - by apply state_write_key in Hin as (_ & st & h & ->).
  - apply list_elem_of_bind in Hin as (r & (proto & port & dir & ->)%network_write_in & _). done.
  - by apply ip_write_in in Hin as (r & dir & ip & p & _ & _ & _ & ->).
  - apply list_elem_of_bind in Hin as (r & Hin & _). unfold domain_writes in Hin.
    apply elem_of_cons in Hin as [->|(ip & -> & _)%list_elem_of_fmap]; [|done].
    cbn [w_key]. unfold codec_domain_rule_key. by set (h := fnv1a_hash_u64 _).
  - by apply proxy_write_in in Hin as (p & ip & port & _ & _ & ->).
Qed.

(** Roles with different ids write different keys. *)
Lemma role_writes_disjoint role role' w w' :
  in_width 32 (r_id role) -> in_width 32 (r_id role') -> r_id role <> r_id role' ->
  w ∈ role_writes role -> w' ∈ role_writes role' -> w_key w <> w_key w'.
Proof.
  intros Hr Hr' Hne Hw%role_write_key Hw'%role_write_key Heq. apply Hne.
  rewrite Heq, Hw' in Hw. apply (f_equal le_value) in Hw.
  by rewrite !le_value_le_bytes in Hw.
Qed.
End keys.

(** ** Several roles *)

Section roles.
Context (sink : PolicySink load_error bpf_state) (Hsink : map_sink sink).
Context `{Resolver : !DomainResolver}.

(** [for role in roles { apply_role(..)?; }] *)
Definition apply_roles (roles : list Role) : loader unit :=
  for_each (fun role => apply_role role ;;? ok tt) roles.

Lemma apply_roles_emits roles : emits (apply_roles roles) (roles ≫= role_steps) tt.
Proof.
  apply emits_for_each. intros role.
  eapply emits_seq; [by apply apply_role_emits|apply emits_ok|by rewrite app_nil_r].
Qed.

Lemma omap_bind_steps roles : omap step_write (roles ≫= role_steps) = roles ≫= role_writes.
Proof. induction roles as [|r rs IH]; [done|]. by rewrite !bind_cons, omap_app, IH. Qed.

Lemma puts_perm roles roles' s :
  roles ≡ₚ roles' -> NoDup (r_id <$> roles) -> Forall (fun r => in_width 32 (r_id r)) roles ->
  puts (roles ≫= role_writes) s = puts (roles' ≫= role_writes) s.
Proof.
  assert (forall ws ws' s, puts (ws ++ ws') s = puts ws' (puts ws s)) as Happ
    by (intros; apply fold_left_app).
  intros Hp. revert s. induction Hp as [|r l l' _ IH|r r' l|l1 l2 l3 Hp1 IH1 _ IH2]; intros s Hnd Hw.
  - done.
  - rewrite !bind_cons, !Happ. cbn in Hnd. apply NoDup_cons in Hnd as [_ Hnd].
    apply Forall_cons in Hw as [_ Hw]. by apply IH.
  - rewrite !bind_cons, !Happ. f_equal. cbn in Hnd. apply NoDup_cons in Hnd as [Hn _].
    rewrite !Forall_cons in Hw. destruct Hw as (Hw & Hw' & _).
    apply puts_comm. intros w w' Hin Hin' [_ Heq].
    apply (role_writes_disjoint r r' w w'); try done. set_solver.
  - rewrite IH1 by done. apply IH2; [by rewrite <-Hp1|by rewrite <-Hp1].
Qed.

Lemma apply_roles_perm roles roles' s s' :
  roles ≡ₚ roles' -> NoDup (r_id <$> roles) -> Forall (fun r => in_width 32 (r_id r)) roles ->
  within_capacity s -> apply_roles roles s = (inr tt, s') -> apply_roles roles' s = (inr tt, s').
Proof.
  intros Hp Hnd Hw Hc. rewrite (apply_roles_emits roles), (apply_roles_emits roles').
  rewrite io_bind_inr. intros (u & s1 & Hs & [= <-]).
  pose proof Hs as [Ha ->]%steps_ok. rewrite omap_bind_steps in *.
  assert (all_writes (roles' ≫= role_steps)) as Ha' by (unfold all_writes in *; by rewrite <-Hp).
  unfold io_bind. rewrite steps_writes, omap_bind_steps by done.
  rewrite (puts_perm roles roles') by done. rewrite writes_fit; [done|].
  rewrite <-(puts_perm roles roles') by done.
  pose proof (writes_capacity (roles ≫= role_writes) s Hc) as Hcap.
  rewrite <-omap_bind_steps, <-steps_writes, Hs in Hcap by done. exact Hcap.
Qed.
End roles.

(** ** Properties *)

(** The daemon and the bootstrap loader make the same tables of a role: the
    walk through either sink ends with the same result, skips or error, and
    leaves every map with the same bytes.  This is for an object that has every
    map; one that lacks a map a role needs makes the bootstrap's walk fail, and
    never makes it do anything else ([object_sink_succeeds]). *)
Theorem sinks_agree `{Resolver : !DomainResolver} (maps : gset bytes) (role : Role) (s : bpf_state) :
  (forall n, map_text n ∈ maps) ->
  apply_role (Sink := TrackerSink) role s = apply_role (Sink := ObjectSink maps) role s.
Proof.
  intros Hm. by rewrite (apply_role_emits TrackerSink tracker_map_sink),
    (apply_role_emits (ObjectSink maps) (object_map_sink maps Hm)).
Qed.

(** C32. Applying a role that was just applied with success changes nothing, as
    long as its names resolve as before: it succeeds, reports the same skipped
    rules and leaves the state as it was, also when the maps have no free entry
    left. *)
Theorem apply_role_idempotent `{Resolver : !DomainResolver} (role : Role) (s s' : bpf_state)
    (skipped : list skip) :
  apply_role (Sink := TrackerSink) role s = (inr skipped, s') ->
  apply_role (Sink := TrackerSink) role s' = (inr skipped, s').
Proof. apply apply_role_again, tracker_map_sink. Qed.

(** A resolver that knows one name. *)
Definition one_name : DomainResolver := fun domain =>
  if decide (domain = text "api.openai.com") then [Ipv4 10 1 2 3; Ipv4 10 1 2 4] else [].

(** A role with a rule of every kind; the second network rule and the second
    domain are skipped. *)
Definition agent_role : Role :=
  MkRole 7 (text "agent") (MkPolicyFlags true false true false true false false false false)
    [MkPathPattern (text "/etc/**") false; MkPathPattern (text "/etc/hosts") true]
    [MkNetworkRule (text "TCP") None None (Some 440) (Some 443) true;
     MkNetworkRule (text "icmp") None None None None true]
    [MkExecutionRule (text "/bin/**") None true] false
    [MkIpRule (text "10.0.0.0/8") (text "connect") false;
     MkIpRule (text "10.1.2.3") (text "connect") true;
     MkIpRule (text "10.1.2.9") (text "bind") false]
    [MkDomainRule (text "api.openai.com") true; MkDomainRule (text "nowhere") false]
    (Some (MkPolicyProxy (text "127.0.0.1:3128") false)).

Definition agent_state : bpf_state := (apply_role (Sink := TrackerSink) (Resolver := one_name) agent_role init_state).2.

Lemma agent_applies :
  apply_role (Sink := TrackerSink) (Resolver := one_name) agent_role init_state
  = (inr [SkipNetworkRule (text "icmp"); SkipUnresolved (text "nowhere")], agent_state).
Proof. vm_compute. reflexivity. Qed.

Lemma apply_role_idempotent_witness :
  apply_role (Sink := TrackerSink) (Resolver := one_name) agent_role agent_state
  = (inr [SkipNetworkRule (text "icmp"); SkipUnresolved (text "nowhere")], agent_state).
Proof.
  exact (apply_role_idempotent (Resolver := one_name) agent_role init_state _ _ agent_applies).
Defined.

(** The order in which the roles of a policy are applied, which follows the
    iteration order of a hash map, does not matter: if the roles have different
    ids and applying them in one order succeeds, every other order succeeds with
    the same state. *)
Theorem role_order_irrelevant `{Resolver : !DomainResolver} (roles roles' : list Role) (s s' : bpf_state) :
  roles ≡ₚ roles' -> NoDup (r_id <$> roles) -> Forall (fun r => in_width 32 (r_id r)) roles ->
  within_capacity s ->
  apply_roles TrackerSink roles s = (inr tt, s') -> apply_roles TrackerSink roles' s = (inr tt, s').
Proof. apply apply_roles_perm, tracker_map_sink. Qed.

Lemma role_order_irrelevant_witness :
  apply_roles TrackerSink (Resolver := one_name) [restricted_role; agent_role] init_state
  = (inr tt, (apply_roles TrackerSink (Resolver := one_name) [agent_role; restricted_role] init_state).2).
Proof.
  apply (role_order_irrelevant (Resolver := one_name) [agent_role; restricted_role]).
  - apply Permutation_swap.
  - apply (bool_decide_unpack _). vm_compute. exact I.
  - repeat (apply Forall_cons; split); [vm_compute; split; congruence..|apply Forall_nil; exact I].
  - intros []; vm_compute; congruence.
  - vm_compute. reflexivity.
Defined.
