(* ===== verification/Exec.v ===== *)
(** * The exec hook

    [bprm_check_security] of bpfjailer-bpf/src/main.bpf.c: enrollment of an
    unjailed task by the binary it executes or by its cgroup ancestry, and the
    execution policy of a jailed one. *)

From S2P Require Import Prelude CLayout BpfMap Kernel KernelTypes Types Machine Scenario Hash PathWalk StateMachine Enrollment Hooks FileOpen.

Section hook.
Context `{KL : KernelLayout}.

(** The enrollment registered for the inode of the executed file. *)
Definition exec_enrollment_for (e : hook_env) (s : bpf_state) (bprm : Z)
    : option exec_enrollment_value :=
  let m := e_mem e in
  let exe_file := bprm_file m bprm in
  if exe_file =? 0 then None
  else
  let exe_inode := f_inode m exe_file in
  if exe_inode =? 0 then None
  else map_lookup exec_enrollment (m_exec_enrollment s) (i_ino m exe_inode).

(** [for (lvl = MAX_CGROUP_DEPTH; lvl > 0; lvl--)] *)
Fixpoint ancestor_loop (e : hook_env) (s : bpf_state) (lvl : nat)
    (enroll : option exec_enrollment_value) : option exec_enrollment_value :=
  match lvl with
  | O => enroll
  | S lvl' =>
      match enroll with
      | Some _ => enroll
      | None =>
          let ancestor_id := e_ancestor_cgroup_id e lvl in
          ancestor_loop e s lvl'
            (if ancestor_id =? 0 then None
            else map_lookup cgroup_enrollment (m_cgroup_enrollment s) ancestor_id)
      end
  end.

Definition cgroup_enrollment_for (e : hook_env) (s : bpf_state) : option exec_enrollment_value :=
  ancestor_loop e s MAX_CGROUP_DEPTH
    (map_lookup cgroup_enrollment (m_cgroup_enrollment s) (e_cgroup_id e)).

(** [info->pod_id = enroll->pod_id; ... info->stack_depth = 0; info->flags = 0;] *)
Definition auto_enroll (task : Z) (enroll : exec_enrollment_value) : prog unit :=
  task_storage_write task (ProcessInfo (ev_pod_id enroll) (ev_role_id enroll) 0 0).

(** The execution rules: [Some v] is an early return of [v]. *)
Definition exec_path_decision (e : hook_env) (info : process_info) (exe : Z) : prog (option Z) :=
  let m := e_mem e in
  s <-- get ;;
  let root := task_fs_root m (e_current_task e) in
  let buf := (collect_path_components m (f_path_dentry m exe) (f_path_mnt m exe) root
    (m_path_buf s)).2 in
  modify (set_path_buf buf) ;;;
  let verdict := check_path_state_machine exec_states (m_exec_states s) (pi_role_id info) buf in
  if verdict =? 1 then ret (Some 0)
  else if negb (verdict =? 0)
  then v <-- audit_deny e info AUDIT_HOOK_BPRM_CHECK 0 ;; ret (Some v)
  else ret None.

Definition bprm_check_security (e : hook_env) (bprm : Z) : prog Z :=
  let m := e_mem e in
  let task := e_current_task e in
  check_pending_enrollment e task (current_pid e) ;;;
  info <-- task_storage_get_create e task ;;
  match info with
  | None => ret 0
  | Some info =>
      s <-- get ;;
      let was_enrolled := negb (pi_pod_id info =? 0) in
      match (if pi_pod_id info =? 0 then exec_enrollment_for e s bprm else None) with
      | Some enroll => auto_enroll task enroll ;;; ret 0
      | None =>
          match (if pi_pod_id info =? 0 then cgroup_enrollment_for e s else None) with
          | Some enroll => auto_enroll task enroll ;;; ret 0
          | None =>
              if pi_pod_id info =? 0 then ret 0
              else
              match map_lookup role_flags (m_role_flags s) (pi_role_id info) with
              | None => audit_deny e info AUDIT_HOOK_BPRM_CHECK 0
              | Some flags =>
                  if negb was_enrolled then ret 0
                  else
                  let exe := bprm_file m bprm in
                  decision <-- (if exe =? 0 then ret None
                    else exec_path_decision e info exe) ;;
                  match decision with
                  | Some v => ret v
                  | None =>
                      if Z.land flags 0x04 =? 0
                      then audit_deny e info AUDIT_HOOK_BPRM_CHECK 0
                      else ret 0
                  end
              end
          end
      end
  end.

(** ** Cgroup ancestry *)

(** The enrollment of the ancestor at one level, if it has that ancestor. *)
Definition enrollment_at (e : hook_env) (s : bpf_state) (lvl : nat)
    : option exec_enrollment_value :=
  if e_ancestor_cgroup_id e lvl =? 0 then None
  else map_lookup cgroup_enrollment (m_cgroup_enrollment s) (e_ancestor_cgroup_id e lvl).

Lemma ancestor_loop_some e s lvl enroll :
  ancestor_loop e s lvl (Some enroll) = Some enroll.
Proof. by destruct lvl. Qed.

(** The deepest level at or below [lvl] that has an enrollment decides. *)
Lemma ancestor_loop_deepest e s lvl l enroll :
  (1 <= l <= lvl)%nat -> enrollment_at e s l = Some enroll ->
  (forall l', (l < l' <= lvl)%nat -> enrollment_at e s l' = None) ->
  ancestor_loop e s lvl None = Some enroll.
Proof.
  induction lvl as [|lvl IH]; [lia|]. intros Hl He Hdeep. simpl.
  fold (enrollment_at e s (S lvl)). destruct (decide (l = S lvl)) as [->|Hne].
  - rewrite He. apply ancestor_loop_some.
  - rewrite Hdeep by lia. apply IH; [lia|done|]. intros. apply Hdeep. lia.
Qed.

Lemma ancestor_loop_none e s lvl :
  (forall l, (1 <= l <= lvl)%nat -> enrollment_at e s l = None) ->
  ancestor_loop e s lvl None = None.
Proof.
  induction lvl as [|lvl IH]; [done|]. intros Hn. simpl.
  fold (enrollment_at e s (S lvl)). rewrite Hn by lia. apply IH. intros. apply Hn. lia.
Qed.

(** ** The hook, branch by branch *)

(** What the executed path decides for a role, with no buffer. *)
Definition exec_policy (e : hook_env) (s : bpf_state) (info : process_info) (flags bprm : Z) : Z :=
  let m := e_mem e in
  let exe := bprm_file m bprm in
  let r := if exe =? 0 then 0
  else path_verdict m (m_exec_states s) (pi_role_id info) (f_path_dentry m exe)
    (f_path_mnt m exe) (task_fs_root m (e_current_task e)) in
  if r =? 1 then 0
  else if r =? 0 then (if Z.land flags 0x04 =? 0 then - EACCES else 0)
  else - EACCES.

(** The record the hook looks at: after migration, created if missing. *)
Definition exec_info (e : hook_env) (s : bpf_state) : option process_info :=
  match m_task_storage (after_pending e s) !! e_current_task e with
  | Some info => Some info
  | None => if e_storage_alloc e (e_current_task e) then Some zero_process_info else None
  end.

Lemma exec_path_decision_result e info exe s :
  length (pc_hashes (m_path_buf s)) = MAX_COMPONENTS ->
  let r := path_verdict (e_mem e) (m_exec_states s) (pi_role_id info)
    (f_path_dentry (e_mem e) exe) (f_path_mnt (e_mem e) exe)
    (task_fs_root (e_mem e) (e_current_task e)) in
    (exec_path_decision e info exe s).1
  = if r =? 1 then Some 0 else if r =? 0 then None else Some (- EACCES).
Proof.
  intros Hb. unfold exec_path_decision, audit_deny_with, emit_audit_event. unfold_prog.
  change (check_path_state_machine exec_states) with (check_path_state_machine path_states).
  rewrite (path_verdict_buf _ _ _ _ _ _ _ Hb). repeat (case_match; simpl); try done.
Qed.

(** The state the hook works in once the record exists. *)
Definition exec_state (e : hook_env) (s : bpf_state) : bpf_state :=
  match m_task_storage (after_pending e s) !! e_current_task e with
  | Some _ => after_pending e s
  | None => set_task_storage <[e_current_task e := zero_process_info]> (after_pending e s)
  end.

Lemma exec_state_frame e s : enrollment_frame s (exec_state e s).
Proof.
  unfold exec_state. pose proof (after_pending_frame e s) as Hf. case_match; [done|].
  etransitivity; [exact Hf|]. by split_and!.
Qed.

Lemma exec_state_ok e s : state_ok s -> state_ok (exec_state e s).
Proof.
  intros Hok%(after_pending_state_ok e). unfold exec_state. case_match; [done|].
  destruct Hok. split; [|done]. apply map_Forall_insert_2; [apply zero_process_info_fits|done].
Qed.

Lemma exec_info_stored e s info :
  exec_info e s = Some info -> m_task_storage (exec_state e s) !! e_current_task e = Some info.
Proof.
  unfold exec_info, exec_state. destruct (m_task_storage (after_pending e s) !! _) eqn:Ht; [by rewrite Ht|].
  case_match; [|done]. intros [= <-]. simpl. by rewrite lookup_insert_eq.
Qed.

(** The enrollment an unjailed task picks up: binary first, then cgroup. *)
Definition auto_enrollment (e : hook_env) (s : bpf_state) (bprm : Z)
    : option exec_enrollment_value :=
  match exec_enrollment_for e s bprm with
  | Some enroll => Some enroll
  | None => cgroup_enrollment_for e s
  end.

Lemma auto_enrollment_frame e s s' bprm :
  enrollment_frame s s' -> auto_enrollment e s' bprm = auto_enrollment e s bprm.
Proof.
  intros (? & ? & ? & ? & ? & ? & He & Hc & _).
  unfold auto_enrollment, exec_enrollment_for, cgroup_enrollment_for. rewrite He, Hc.
  assert (forall l x, ancestor_loop e s' l x = ancestor_loop e s l x) as ->; [|done].
  induction l as [|l IH]; intros x; simpl; [done|]. rewrite Hc. case_match; auto.
Qed.

Lemma bprm_unjailed e bprm s info :
  exec_info e s = Some info -> pi_pod_id info = 0 ->
  bprm_check_security e bprm s
  = (0, match auto_enrollment e s bprm with
    | Some enroll => set_task_storage
        <[e_current_task e := ProcessInfo (ev_pod_id enroll) (ev_role_id enroll) 0 0]>
        (exec_state e s)
    | None => exec_state e s
    end).
Proof.
  intros Hi Hp. rewrite <-(auto_enrollment_frame e s (exec_state e s) bprm (exec_state_frame e s)).
  unfold exec_info, exec_state, after_pending, bprm_check_security, auto_enrollment,
    task_storage_get_create, auto_enroll, task_storage_write in *. unfold_prog.
  destruct (check_pending_enrollment _ _ _ s) as [[] s1]. simpl in *.
  destruct (m_task_storage s1 !! _) as [i|]; [|destruct (e_storage_alloc _ _); [|done]];
    simplify_eq; rewrite ?Hp; cbn [zero_process_info pi_pod_id Z.eqb];
    repeat (case_match; simplify_eq; try done).
Qed.

Lemma bprm_no_storage e bprm s :
  exec_info e s = None -> bprm_check_security e bprm s = (0, after_pending e s).
Proof.
  unfold exec_info, after_pending, bprm_check_security, task_storage_get_create. unfold_prog.
  destruct (check_pending_enrollment _ _ _ s) as [[] s1]. simpl.
  destruct (m_task_storage s1 !! _); [done|]. by destruct (e_storage_alloc _ _).
Qed.

(** A jailed task already has its record, so nothing is created for it. *)
Lemma exec_info_jailed e s info :
  exec_info e s = Some info -> pi_pod_id info <> 0 ->
  m_task_storage (after_pending e s) !! e_current_task e = Some info.
Proof. unfold exec_info. repeat case_match; intros; simplify_eq; done. Qed.

Lemma bprm_jailed e bprm s info :
  exec_info e s = Some info -> pi_pod_id info <> 0 ->
  bprm_check_security e bprm s =
  match map_lookup role_flags (m_role_flags s) (pi_role_id info) with
  | None => audit_deny e info AUDIT_HOOK_BPRM_CHECK 0 (after_pending e s)
  | Some flags =>
      let '(decision, s') := if bprm_file (e_mem e) bprm =? 0 then (None, after_pending e s)
      else exec_path_decision e info (bprm_file (e_mem e) bprm)
        (after_pending e s) in
      match decision with
      | Some v => (v, s')
      | None => if Z.land flags 0x04 =? 0
          then audit_deny e info AUDIT_HOOK_BPRM_CHECK 0 s' else (0, s')
      end
  end.
Proof.
  intros Hi Hp. pose proof (exec_info_jailed _ _ _ Hi Hp) as Ht.
  assert (m_role_flags (after_pending e s) = m_role_flags s) as <- by apply after_pending_frame.
  unfold after_pending, bprm_check_security, task_storage_get_create in *. unfold_prog.
  destruct (check_pending_enrollment _ _ _ s) as [[] s1]. simpl in *. rewrite Ht.
  apply Z.eqb_neq in Hp. rewrite Hp. cbn [negb].
  repeat (case_match; simplify_eq; try done).
Qed.

(** A jailed task's exec gets the verdict of the execution policy. *)
Lemma bprm_policy e bprm s info :
  state_ok s -> exec_info e s = Some info -> pi_pod_id info <> 0 ->
  (bprm_check_security e bprm s).1
  = match map_lookup role_flags (m_role_flags s) (pi_role_id info) with
    | None => - EACCES
    | Some flags => exec_policy e s info flags bprm
    end.
Proof.
  intros Hok Hi Hp. rewrite (bprm_jailed _ _ _ _ Hi Hp).
  destruct (map_lookup role_flags _ _) as [flags|]; [|done]. unfold exec_policy.
  destruct (Z.eqb_spec (bprm_file (e_mem e) bprm) 0); [simpl; by case_match|].
  pose proof (exec_path_decision_result e info (bprm_file (e_mem e) bprm) (after_pending e s)) as Hr.
  assert (m_exec_states (after_pending e s) = m_exec_states s) as Hx by apply after_pending_frame.
  rewrite Hx in Hr. destruct (exec_path_decision _ _ _ _) as [r s']. simpl in Hr.
  rewrite Hr by apply (after_pending_state_ok e s Hok).
  repeat (case_match; simplify_eq; try done).
Qed.

Lemma exec_path_decision_audited e info exe s :
  match (exec_path_decision e info exe s).1 with
  | Some r => audited_verdict e EACCES AUDIT_HOOK_BPRM_CHECK s
      (r, (exec_path_decision e info exe s).2)
  | None => m_audit_events (exec_path_decision e info exe s).2 = m_audit_events s
  end.
Proof.
  unfold exec_path_decision, audit_deny_with, emit_audit_event. unfold_prog.
  destruct (_ =? 1); [by left|]. destruct (_ =? 0); simpl; [done|].
  right. split; [done|]. simpl. eauto.
Qed.

Lemma bprm_audited e bprm s :
  audited_verdict e EACCES AUDIT_HOOK_BPRM_CHECK s (bprm_check_security e bprm s).
Proof.
  assert (m_audit_events (after_pending e s) = m_audit_events s) as Ha by apply after_pending_frame.
  destruct (exec_info e s) as [info|] eqn:Hi; [|rewrite bprm_no_storage; auto with jailer].
  destruct (Z.eq_dec (pi_pod_id info) 0) as [Hp|Hp].
  - rewrite (bprm_unjailed _ _ _ _ Hi Hp). apply audited_allow. destruct (auto_enrollment _ _ _); simpl;
      apply exec_state_frame.
  - rewrite (bprm_jailed _ _ _ _ Hi Hp).
    destruct (map_lookup role_flags _ _) as [flags|]; [|auto with jailer].
    destruct (bprm_file (e_mem e) bprm =? 0); [case_match; auto with jailer|].
    pose proof (exec_path_decision_audited e info (bprm_file (e_mem e) bprm) (after_pending e s)) as Hd.
    destruct (exec_path_decision _ _ _ _) as [[r|] s']; simpl in Hd.
    + unfold audited_verdict in *. by rewrite Ha in Hd.
    + rewrite Ha in Hd. case_match; auto with jailer.
Qed.

Lemma exec_path_decision_frame e info exe s :
  decision_frame s (exec_path_decision e info exe s).2
  /\ m_path_decision_cache (exec_path_decision e info exe s).2 = m_path_decision_cache s.
Proof.
  unfold exec_path_decision, audit_deny_with, emit_audit_event. unfold_prog.
  repeat (case_match; simplify_eq; simpl); split; try done; by split_and!.
Qed.
End hook.

(** ** Properties *)

(** An exec by a jailed task gets the verdict of the execution policy over
    the binary's full path as the task sees it, with the exec flag as the
    default; a role without flags is refused.  Inode and cgroup enrollments
    play no part. *)
Theorem exec_jailed_decides `{KL : KernelLayout} (e : hook_env) (bprm : Z) (s : bpf_state)
    (info : process_info) :
  state_ok s -> exec_info e s = Some info -> pi_pod_id info <> 0 ->
  (bprm_check_security e bprm s).1
  = match map_lookup role_flags (m_role_flags s) (pi_role_id info) with
    | None => - EACCES
    | Some flags => exec_policy e s info flags bprm
    end.
Proof. apply bprm_policy. Qed.

(** Binaries under /etc are refused to role 7 although exec is allowed. *)
Lemma exec_jailed_decides_witness :
  (bprm_check_security (env_with mem_etc) BPRM (jailed_state 0x04 deny_etc)).1 = -13.
Proof.
  rewrite (exec_jailed_decides (env_with mem_etc) BPRM (jailed_state 0x04 deny_etc) jailed_info);
    [vm_compute; reflexivity|apply jailed_state_ok|reflexivity|vm_compute; congruence].
Defined.


(** Inode 77 registered with pod 3 and role 9, the parent cgroup with another. *)
Definition registered_state : bpf_state :=
  BpfState ∅ ∅ ∅ ∅ ∅ ∅ ∅ ∅ (contents exec_enrollment [(77, ExecEnrollmentValue 3 9)])
    (contents cgroup_enrollment [(500, ExecEnrollmentValue 4 8)]) ∅ ∅ ∅ ∅ zero_path_components [].


(** Among the cgroup registrations the task's own comes first, then the
    deepest ancestor: a container's rule beats its pod's, and a pod's rule
    beats a node-wide one. *)
Theorem cgroup_deepest_first (e : hook_env) (s : bpf_state) (l : nat) (enroll : exec_enrollment_value) :
  (1 <= l <= MAX_CGROUP_DEPTH)%nat -> enrollment_at e s l = Some enroll ->
  (forall l', (l < l' <= MAX_CGROUP_DEPTH)%nat -> enrollment_at e s l' = None) ->
  cgroup_enrollment_for e s
  = match map_lookup cgroup_enrollment (m_cgroup_enrollment s) (e_cgroup_id e) with
    | Some own => Some own
    | None => Some enroll
    end.
Proof.
  intros Hl He Hdeep. unfold cgroup_enrollment_for.
  destruct (map_lookup _ _ _) as [own|]; [apply ancestor_loop_some|].
  by eapply ancestor_loop_deepest.
Qed.

(** The hook environment of a task in cgroup 900 below the given ancestors. *)
Definition env_in_cgroup (ancestor : nat -> Z) : hook_env :=
  HookEnv TASK (Z.shiftl 42 32) 1000 900 ancestor mem_etc (fun _ => true) [] true.

(** Level 3 is the pod's slice 500, level 1 the node-wide slice 400. *)
Definition pod_ancestors (l : nat) : Z :=
  match l with 1%nat => 400 | 2%nat => 450 | 3%nat => 500 | 4%nat => 900 | _ => 0 end.

Definition slices_state : bpf_state :=
  BpfState ∅ ∅ ∅ ∅ ∅ ∅ ∅ ∅ ∅
    (contents cgroup_enrollment [(400, ExecEnrollmentValue 1 1); (500, ExecEnrollmentValue 4 8)])
    ∅ ∅ ∅ ∅ zero_path_components [].

Lemma cgroup_deepest_first_witness :
  cgroup_enrollment_for (env_in_cgroup pod_ancestors) slices_state = Some (ExecEnrollmentValue 4 8).
Proof.
  rewrite (cgroup_deepest_first (env_in_cgroup pod_ancestors) slices_state 3 (ExecEnrollmentValue 4 8));
    [reflexivity|vm_compute; lia|reflexivity|].
  unfold MAX_CGROUP_DEPTH. intros l' Hl'. do 9 (destruct l' as [|l']; [lia || reflexivity|]). lia.
Defined.

(** Registrations of ancestors deeper than level 8, other than the task's
    own cgroup, and of the root (level 0) are never found: with none at levels
    1 to 8 and none on the own cgroup, the task is not enrolled by cgroup. *)
Theorem cgroup_depth_limit (e : hook_env) (s : bpf_state) :
  map_lookup cgroup_enrollment (m_cgroup_enrollment s) (e_cgroup_id e) = None ->
  (forall l, (1 <= l <= MAX_CGROUP_DEPTH)%nat -> enrollment_at e s l = None) ->
  cgroup_enrollment_for e s = None.
Proof. intros Hown Hn. unfold cgroup_enrollment_for. rewrite Hown. by apply ancestor_loop_none. Qed.

(** A cgroup ten levels down whose level-9 parent, 500, is registered. *)
Definition deep_ancestors (l : nat) : Z :=
  match l with 9%nat => 500 | 10%nat => 900 | _ => if (l <? 9)%nat then Z.of_nat l else 0 end.

Lemma cgroup_depth_limit_witness :
  enrollment_at (env_in_cgroup deep_ancestors) slices_state 9 = Some (ExecEnrollmentValue 4 8)
  /\ cgroup_enrollment_for (env_in_cgroup deep_ancestors) slices_state = None.
Proof.
  split; [reflexivity|]. apply cgroup_depth_limit; [reflexivity|].
  unfold MAX_CGROUP_DEPTH. intros l Hl. do 9 (destruct l as [|l]; [lia || reflexivity|]). lia.
Defined.
