(* ===== verification/Guards.v ===== *)
(** * Privileged-operation guards

    [ptrace_access_check], [kernel_module_request] and [bpf] of
    bpfjailer-bpf/src/main.bpf.c: each tests one bit of the role's flags and
    denies with -EPERM. *)

From S2P Require Import Prelude CLayout BpfMap Kernel KernelTypes Types Machine Scenario Enrollment Hooks.

(** The guarded task is the traced one, not the tracer. *)
Definition ptrace_access_check (e : hook_env) (child : Z) : prog Z :=
  child_info <-- task_storage_get child ;;
  match child_info with
  | None => ret 0
  | Some info =>
      if pi_pod_id info =? 0 then ret 0
      else
        s <-- get ;;
        match map_lookup role_flags (m_role_flags s) (pi_role_id info) with
        | None => ret (- EPERM)
        | Some flags =>
            if Z.land flags 0x20 =? 0
            then audit_deny_with EPERM e info AUDIT_HOOK_BPRM_CHECK 0
            else ret 0
        end
  end.

(** The two guards on the current task have one shape. *)
Definition guard_current (e : hook_env) (bit : Z) : prog Z :=
  info <-- task_storage_get (e_current_task e) ;;
  match info with
  | None => ret 0
  | Some info =>
      if pi_pod_id info =? 0 then ret 0
      else
        s <-- get ;;
        match map_lookup role_flags (m_role_flags s) (pi_role_id info) with
        | None => audit_deny_with EPERM e info AUDIT_HOOK_BPRM_CHECK 0
        | Some flags =>
            if Z.land flags bit =? 0
            then audit_deny_with EPERM e info AUDIT_HOOK_BPRM_CHECK 0
            else ret 0
        end
  end.

Definition kernel_module_request (e : hook_env) (kmod_name : Z) : prog Z := guard_current e 0x40.

Definition bpf (e : hook_env) (cmd attr size : Z) : prog Z := guard_current e 0x80.

(** ** What they decide *)

(** A guard lets an enrolled task through exactly when its role has flags and
    the bit is set among them. *)
Definition role_grants (s : bpf_state) (info : process_info) (bit : Z) : Prop :=
  exists flags, map_lookup role_flags (m_role_flags s) (pi_role_id info) = Some flags
    /\ Z.land flags bit <> 0.

Lemma guard_current_allows e bit s info :
  m_task_storage s !! e_current_task e = Some info -> pi_pod_id info <> 0 ->
  (guard_current e bit s).1 = 0 <-> role_grants s info bit.
Proof.
  intros Ht Hp. unfold guard_current, role_grants, task_storage_get. unfold_prog.
  rewrite Ht. apply Z.eqb_neq in Hp. cbv beta iota. rewrite Hp.
  destruct (map_lookup _ _ _) as [flags|].
  - destruct (Z.eqb_spec (Z.land flags bit) 0); simpl; naive_solver lia.
  - simpl. naive_solver lia.
Qed.

Lemma ptrace_allows e child s info :
  m_task_storage s !! child = Some info -> pi_pod_id info <> 0 ->
  (ptrace_access_check e child s).1 = 0 <-> role_grants s info 0x20.
Proof.
  intros Ht Hp. unfold ptrace_access_check, role_grants, task_storage_get. unfold_prog.
  rewrite Ht. apply Z.eqb_neq in Hp. cbv beta iota. rewrite Hp.
  destruct (map_lookup _ _ _) as [flags|].
  - destruct (Z.eqb_spec (Z.land flags 0x20) 0); simpl; naive_solver lia.
  - simpl. naive_solver lia.
Qed.

Lemma guard_current_audited e bit s :
  audited_verdict e EPERM AUDIT_HOOK_BPRM_CHECK s (guard_current e bit s).
Proof.
  unfold guard_current, task_storage_get. unfold_prog.
  repeat (case_match; simplify_eq; auto with jailer).
Qed.

(** Guards change nothing but the audit log. *)
Lemma guard_current_frame e bit s :
  (guard_current e bit s).2 = s
  \/ exists ev, (guard_current e bit s).2 = set_audit_events (cons ev) s.
Proof.
  unfold guard_current, task_storage_get, audit_deny_with, emit_audit_event. unfold_prog.
  repeat (case_match; simplify_eq; simpl); eauto.
Qed.

Lemma ptrace_frame e child s :
  (ptrace_access_check e child s).2 = s
  \/ exists ev, (ptrace_access_check e child s).2 = set_audit_events (cons ev) s.
Proof.
  unfold ptrace_access_check, task_storage_get, audit_deny_with, emit_audit_event. unfold_prog.
  repeat (case_match; simplify_eq; simpl); eauto.
Qed.

(** ** Properties *)

(** A jailed task may request a kernel module, use the bpf syscall, or be
    traced exactly when its role has flags and they contain the bit for that
    operation; it is the traced task's role that counts, not the tracer's. *)
Theorem guards_decide (e : hook_env) (t arg1 arg2 arg3 : Z) (s : bpf_state) (info : process_info) :
  m_task_storage s !! t = Some info -> pi_pod_id info <> 0 ->
  ((ptrace_access_check e t s).1 = 0 <-> role_grants s info 0x20)
  /\ (e_current_task e = t ->
      ((kernel_module_request e arg1 s).1 = 0 <-> role_grants s info 0x40)
      /\ ((bpf e arg1 arg2 arg3 s).1 = 0 <-> role_grants s info 0x80)).
Proof.
  intros Ht Hp. split; [by apply ptrace_allows|]. intros <-.
  split; by apply guard_current_allows.
Qed.

Lemma guards_decide_witness :
  role_grants (jailed_state 0xA0 []) jailed_info 0x20
  /\ ~ role_grants (jailed_state 0xA0 []) jailed_info 0x40
  /\ role_grants (jailed_state 0xA0 []) jailed_info 0x80.
Proof.
  destruct (guards_decide (env_with mem_etc) TASK 0 0 0 (jailed_state 0xA0 []) jailed_info)
    as [H1 H2]; [reflexivity|vm_compute; congruence|].
  destruct (H2 eq_refl) as [H3 H4]. split_and!.
  - apply H1. reflexivity.
  - intros H%H3. revert H. vm_compute. congruence.
  - apply H4. reflexivity.
Defined.
