(* ===== verification/RolePolicy.v ===== *)
(** * What a policy means to the hooks

    The end-to-end reading of apply.rs and main.bpf.c together: once the roles of
    a policy have been applied to maps that held nothing of theirs, a jailed
    task's bind, connect and open are decided by its role's rules.  The reference
    decisions ([port_permitted], [connect_permitted], [open_permitted]) are
    written on the policy's own data, without maps, keys or byte order. *)

From S2P Require Import Prelude CLayout BpfMap Rust Kernel KernelTypes Types Machine Scenario Hash PathWalk StateMachine Enrollment Hooks FileOpen Network Codec Patterns Parse Loader Policy Apply Exec.

(** ** The tables of a role *)

(** The maps keyed by role id. *)
Definition policy_maps : list map_name :=
  [N_role_flags; N_network_rules; N_path_states; N_exec_states; N_ip_rules; N_proxy_config;
   N_domain_rules; N_dns_cache].

(** A key of that role: all of them start with the id. *)
Definition role_key (role_id : Z) (k : bytes) : Prop := take 4 k = le_bytes 4 role_id.

(** No map holds a row of the role. *)
Definition fresh_role (s : bpf_state) (role_id : Z) : Prop :=
  forall n k, n ∈ policy_maps -> role_key role_id k -> map_by_name n s !! k = None.

(** The maps hold, of the role's keys, what applying the role writes last. *)
Definition tables_of `{Resolver : !DomainResolver} (role : Role) (s : bpf_state) : Prop :=
  forall n k, n ∈ policy_maps -> role_key (r_id role) k ->
    map_by_name n s !! k = last_write n k (role_writes role).

(** The maps the network hooks read. *)
Definition network_maps : list map_name :=
  [N_role_flags; N_network_rules; N_ip_rules; N_proxy_config; N_domain_rules; N_dns_cache].

(** The policy maps are the same; the rest of the state is free. *)
Definition same_policy (s s' : bpf_state) : Prop :=
  forall n, n ∈ policy_maps -> map_by_name n s' = map_by_name n s.

#[export] Instance same_policy_preorder : PreOrder same_policy.
Proof.
  unfold same_policy. split; [done|]. intros s1 s2 s3 H1 H2 n Hn. by rewrite H2, H1.
Qed.

Section tables.
Context `{Resolver : !DomainResolver}.
Context (sink : PolicySink load_error bpf_state) (Hsink : map_sink sink).

Lemma tables_same role s s' : same_policy s s' -> tables_of role s -> tables_of role s'.
Proof. intros Hs Ht n k Hn Hk. rewrite Hs by done. by apply Ht. Qed.

Lemma applied_tables role s sk s' :
  fresh_role s (r_id role) -> apply_role role s = (inr sk, s') -> tables_of role s'.
Proof.
  intros Hf (_ & _ & ->)%(apply_role_ok sink Hsink) n k Hn Hk. rewrite puts_lookup, Hf by done.
  by destruct (last_write _ _ _).
Qed.

(** The rows of a role are only written by a role of its id. *)
Lemma other_role_rows role role_id s sk s' n k :
  in_width 32 (r_id role) -> in_width 32 role_id -> r_id role <> role_id ->
  apply_role role s = (inr sk, s') -> role_key role_id k ->
  map_by_name n s' !! k = map_by_name n s !! k.
Proof.
  intros Hw Hw' Hne (_ & _ & ->)%(apply_role_ok sink Hsink) Hk. rewrite puts_lookup.
  destruct (last_write n k (role_writes role)) as [v|] eqn:Hl; [|done]. exfalso.
  unfold last_write in Hl. apply fmap_Some in Hl as (w & Hw1 & _).
  apply last_such_Some in Hw1 as [Hin [_ <-]]. apply role_write_key in Hin.
  unfold role_key in Hk. rewrite Hin in Hk. apply Hne. apply (f_equal le_value) in Hk.
  by rewrite !le_value_le_bytes in Hk.
Qed.

Lemma other_roles_rows roles role_id s s' n k :
  in_width 32 role_id -> Forall (fun r => in_width 32 (r_id r) /\ r_id r <> role_id) roles ->
  apply_roles sink roles s = (inr tt, s') -> role_key role_id k ->
  map_by_name n s' !! k = map_by_name n s !! k.
Proof.
  intros Hw Hall. revert s. induction Hall as [|r roles [? ?] _ IH]; intros s; [by intros [= ->]|].
  unfold apply_roles. cbn [for_each]. rewrite io_bind_inr.
  intros (u & s1 & (sk & s1' & Hr & [= _ <-])%io_bind_inr & Hrs) Hk.
  rewrite (IH _ Hrs Hk). by apply (other_role_rows r role_id s sk).
Qed.

Lemma applied_roles_tables roles s s' :
  NoDup (r_id <$> roles) -> Forall (fun r => in_width 32 (r_id r)) roles ->
  (forall r, r ∈ roles -> fresh_role s (r_id r)) ->
  apply_roles sink roles s = (inr tt, s') ->
  forall role, role ∈ roles -> tables_of role s'.
Proof.
  revert s. induction roles as [|r roles IH]; intros s Hnd Hw Hf; [set_solver|].
  unfold apply_roles. cbn [for_each]. rewrite io_bind_inr.
  intros (u & s1 & (sk & s1' & Hr & [= <- <-])%io_bind_inr & Hrs).
  cbn in Hnd. apply NoDup_cons in Hnd as [Hn Hnd]. apply Forall_cons in Hw as [Hwr Hw].
  assert (forall r', r' ∈ roles -> in_width 32 (r_id r') /\ r_id r' <> r_id r) as Hother.
  { intros r' Hr'. rewrite Forall_forall in Hw. split; [by apply Hw|]. intros Heq. apply Hn.
    apply list_elem_of_fmap. eauto. }
  intros role [->|Hin]%elem_of_cons; intros n k Hn' Hk.
  - rewrite (other_roles_rows roles (r_id r) s1') by (try apply Forall_forall; done).
    eapply applied_tables; [|exact Hr|done..]. apply Hf. set_solver.
  - apply (IH s1' Hnd Hw); [|done..]. intros r' Hr' n' k' Hn1 Hk'.
    destruct (Hother r' Hr') as [? Hne%not_eq_sym]. rewrite (other_role_rows r (r_id r') s sk s1') by done.
    apply (Hf r'); [set_solver|done..].
Qed.
End tables.

(** ** One section per map *)

(** The part of a role's writes that goes to a map. *)
Definition section_writes `{Resolver : !DomainResolver} (role : Role) (n : map_name) : list write :=
  match n with
  | N_role_flags => [Write N_role_flags (to_ne_bytes 4 (r_id role)) [policy_flags_to_u8 (r_flags role)]]
  | N_path_states => state_writes N_path_states (r_id role) (file_rules role)
  | N_exec_states => state_writes N_exec_states (r_id role) (exec_rules role)
  | N_network_rules => r_network_rules role ≫= network_writes (r_id role)
  | N_ip_rules => omap step_write (r_ip_rules role ≫= ip_steps (r_id role))
  | N_domain_rules | N_dns_cache => r_domain_rules role ≫= domain_writes (r_id role)
  | N_proxy_config => omap step_write (option_list (r_proxy role) ≫= proxy_steps (r_id role))
  | _ => []
  end.

Section sections.
Context `{Resolver : !DomainResolver}.

Lemma section_map role n w :
  w ∈ section_writes role n ->
  w_map w = n \/ (w_map w ∈ [N_domain_rules; N_dns_cache] /\ n ∈ [N_domain_rules; N_dns_cache]).
Proof.
  destruct n; cbn [section_writes]; intros Hin; try by apply elem_of_nil in Hin.
  - by apply list_elem_of_singleton in Hin as ->; left.
  - apply list_elem_of_bind in Hin as (r & (? & ? & ? & ->)%network_write_in & _). by left.
  - apply state_write_key in Hin as [-> _]. by left.
  - apply state_write_key in Hin as [-> _]. by left.
  - apply ip_write_in in Hin as (? & ? & ? & ? & _ & _ & _ & ->). by left.
  - apply proxy_write_in in Hin as (? & ? & ? & _ & _ & ->). by left.
  - apply list_elem_of_bind in Hin as (r & Hin & _). unfold domain_writes in Hin.
    apply elem_of_cons in Hin as [->|(ip & -> & _)%list_elem_of_fmap]; set_solver.
  - apply list_elem_of_bind in Hin as (r & Hin & _). unfold domain_writes in Hin.
    apply elem_of_cons in Hin as [->|(ip & -> & _)%list_elem_of_fmap]; set_solver.
Qed.

Lemma section_elsewhere role n n' k :
  n <> n' -> ~ (n ∈ [N_domain_rules; N_dns_cache] /\ n' ∈ [N_domain_rules; N_dns_cache]) ->
  last_write n k (section_writes role n') = None.
Proof.
  intros Hne Hd. apply last_write_other, Forall_forall. intros w Hin Heq.
  apply section_map in Hin as [Hin|[Hin ?]]; rewrite Heq in Hin; [done|]. by apply Hd.
Qed.

(** Only the map's own section matters to a lookup in it. *)
Lemma role_last_write role n k :
  n ∈ policy_maps -> last_write n k (role_writes role) = last_write n k (section_writes role n).
Proof.
  intros Hn. rewrite role_writes_eq.
  change (?w :: ?l) with ([w] ++ l).
  change [_] with (section_writes role N_role_flags).
  change (state_writes N_path_states _ _) with (section_writes role N_path_states).
  change (state_writes N_exec_states _ _) with (section_writes role N_exec_states).
  change (r_network_rules role ≫= _) with (section_writes role N_network_rules).
  change (omap step_write (r_ip_rules role ≫= _)) with (section_writes role N_ip_rules).
  change (r_domain_rules role ≫= _) with (section_writes role N_domain_rules).
  change (omap step_write (option_list _ ≫= _)) with (section_writes role N_proxy_config).
  rewrite !last_write_app.
  destruct n; try (exfalso; unfold policy_maps in Hn; set_solver);
    repeat match goal with |- context [last_write ?m k (section_writes role ?m')] =>
    rewrite (section_elsewhere role m m' k) by (try done; set_solver) end;
    cbn [section_writes]; by destruct (last_write _ _ _).
Qed.

(** A role is written to the policy tables only. *)
Lemma role_write_map role w : w ∈ role_writes role -> w_map w ∈ policy_maps.
Proof.
  rewrite role_writes_eq. unfold policy_maps. intros Hin. apply elem_of_cons in Hin as [->|Hin]; [set_solver|].
  repeat (apply elem_of_app in Hin as [Hin|Hin]).
  - apply state_write_key in Hin as (-> & _). set_solver.
  - apply state_write_key in Hin as (-> & _). set_solver.
  - apply list_elem_of_bind in Hin as (r & (? & ? & ? & ->)%network_write_in & _). set_solver.
  - apply ip_write_in in Hin as (r & dir & ip & p & _ & _ & _ & ->). set_solver.
  - apply list_elem_of_bind in Hin as (r & Hin & _). unfold domain_writes in Hin.
    apply elem_of_cons in Hin as [->|(ip & -> & _)%list_elem_of_fmap]; set_solver.
  - apply proxy_write_in in Hin as (p & ip & port & _ & _ & ->). set_solver.
Qed.

(** The maps in [ns] hold the role's sections. *)
Definition tables_in (ns : list map_name) (role : Role) (s : bpf_state) : Prop :=
  forall n k, n ∈ ns -> role_key (r_id role) k ->
  map_by_name n s !! k = last_write n k (section_writes role n).

Lemma tables_in_of ns role s : ns ⊆ policy_maps -> tables_of role s -> tables_in ns role s.
Proof. intros Hns Ht n k Hn Hk. rewrite Ht by auto. apply role_last_write. auto. Qed.

Lemma network_tables role s : tables_of role s -> tables_in network_maps role s.
Proof. apply tables_in_of. unfold network_maps, policy_maps. set_solver. Qed.
End sections.

(** ** What the rules say of the network *)

(** The protocol a rule names, in any case of letters. *)
Definition protocol_named (protocol : Z) (name : bytes) : Prop :=
  (protocol = PROTO_TCP /\ to_lowercase name = text "tcp") \/ (protocol = PROTO_UDP /\ to_lowercase name = text "udp").

#[export] Instance protocol_named_dec protocol name : Decision (protocol_named protocol name).
Proof. unfold protocol_named. apply _. Defined.

Lemma parse_protocol_named name protocol : parse_protocol name = Some protocol <-> protocol_named protocol name.
Proof.
  unfold parse_protocol, protocol_named. repeat case_decide; try naive_solver.
  split; [naive_solver|]. intros [[-> _]|[-> Hu]]; [done|]. exfalso. by assert (text "tcp" = text "udp") by congruence.
Qed.

(** A network rule names a port of a protocol: an inclusive range, one port, or
    port 0, which stands for any. *)
Definition rule_covers (protocol port : Z) (r : NetworkRule) : Prop :=
  protocol_named protocol (nr_protocol r)
  /\ match nr_port_start r, nr_port_end r with
     | Some start, Some end_ => start <= port <= end_
     | _, _ => port = default 0 (nr_port r)
     end.

#[export] Instance rule_covers_dec protocol port r : Decision (rule_covers protocol port r).
Proof. unfold rule_covers. repeat case_match; apply _. Defined.

(** The last rule naming the port, else the last rule for any port. *)
Definition port_decision (role : Role) (protocol port : Z) : option bool :=
  let covering q := nr_allow <$> last_such (rule_covers protocol q) (r_network_rules role) in
  match covering port with
  | Some allow => Some allow
  | None => covering 0
  end.

(** What is left to the role's network flag. *)
Definition port_permitted (role : Role) (endpoint : option (Z * Z)) : bool :=
  default (allow_network (r_flags role)) (endpoint ≫= fun '(protocol, port) => port_decision role protocol port).

(** How a rule writes its direction. *)
Definition direction_text (direction : Z) : bytes :=
  if direction =? BIND then text "bind" else text "connect".

(** An address rule of one direction and prefix length covers an address when
    the first bits agree. *)
Definition ip_rule_covers (direction p : Z) (ip : ipv4) (r : IpRule) : Prop :=
  ir_direction r = direction_text direction
  /\ match parse_cidr (ir_cidr r) with
     | inr (net, q) => q = p /\ network_of (ipv4_to_u32 net) p = network_of (ipv4_to_u32 ip) p
     | inl _ => False
     end.

#[export] Instance ip_rule_covers_dec direction p ip r : Decision (ip_rule_covers direction p ip r).
Proof. unfold ip_rule_covers. repeat case_match; apply _. Defined.

(** The longest of the given prefix lengths with a covering rule decides. *)
Fixpoint ip_decision_at (role : Role) (direction : Z) (ip : ipv4) (prefixes : list Z) : option bool :=
  match prefixes with
  | [] => None
  | p :: prefixes' =>
      match last_such (ip_rule_covers direction p ip) (r_ip_rules role) with
      | Some r => Some (ir_allow r)
      | None => ip_decision_at role direction ip prefixes'
      end
  end.

Definition ip_decision (role : Role) (ip : ipv4) : option bool :=
  ip_decision_at role CONNECT ip supported_prefixes.

(** The last rule whose domain resolves to the address names the domain, and the
    last rule of that domain decides. *)
Definition domain_decision `{Resolver : !DomainResolver} (role : Role) (ip : ipv4) : option bool :=
  match last_such (fun r => ip ∈ resolve (dr_domain r)) (r_domain_rules role) with
  | Some r => dr_allow <$> last_such (fun r' => dr_domain r' = dr_domain r) (r_domain_rules role)
  | None => None
  end.

(** A required proxy leaves the proxy itself and the loopback network. *)
Definition proxy_permits (role : Role) (ip : ipv4) (port : Z) : bool :=
  match r_proxy role with
  | Some p =>
      match parse_proxy_addr (py_address p) with
      | inr (proxy_ip, proxy_port) =>
          negb (py_required p)
          || bool_decide (ip = proxy_ip /\ port = proxy_port)
          || bool_decide (oct0 ip = 127)
      | inl _ => true
      end
  | None => true
  end.

(** [dest] is the IPv4 address connected to, if there is one. *)
Definition connect_permitted `{Resolver : !DomainResolver} (role : Role) (dest : option ipv4) (port : Z)
    (endpoint : option (Z * Z)) : bool :=
  match dest with
  | Some ip =>
      proxy_permits role ip port
      && default (default (port_permitted role endpoint) (ip_decision role ip)) (domain_decision role ip)
  | None => port_permitted role endpoint
  end.

(** The values are in the ranges of their Rust types, and no two domains of the
    role share a digest. *)
Record role_ok `{Resolver : !DomainResolver} (role : Role) : Prop := {
  rk_id : in_width 32 (r_id role);
  rk_ports : Forall (fun r => Forall (in_width 16) (option_list (nr_port r)
    ++ option_list (nr_port_start r) ++ option_list (nr_port_end r))) (r_network_rules role);
  rk_addrs : Forall (fun r => Forall ipv4_ok (resolve (dr_domain r))) (r_domain_rules role);
  rk_domains : Forall (fun r => Forall (fun r' =>
    fnv1a_hash_u64 (dr_domain r) = fnv1a_hash_u64 (dr_domain r') -> dr_domain r = dr_domain r')
    (r_domain_rules role)) (r_domain_rules role);
}.

(** ** The port rules *)

Section ports.
Context `{Resolver : !DomainResolver}.

Lemma last_such_unique {A} (P : A -> Prop) `{!forall x, Decision (P x)} l x :
  x ∈ l -> P x -> (forall y, y ∈ l -> P y -> y = x) -> last_such P l = Some x.
Proof.
  intros Hin Hx Hu. destruct (last_such P l) as [y|] eqn:Hl.
  - apply last_such_Some in Hl as [Hy HP]. by rewrite (Hu y Hy HP).
  - apply last_such_None in Hl. rewrite Forall_forall in Hl. by destruct (Hl x).
Qed.

(** The ports a rule expands to are the ports it names. *)
Lemma expand_covers r protocol port :
  (exists ports, expand_network_rule (nr_protocol r) (nr_port r) (nr_port_start r) (nr_port_end r)
    = Some (protocol, ports) /\ port ∈ ports)
  <-> rule_covers protocol port r.
Proof.
  unfold expand_network_rule, rule_covers. rewrite <-parse_protocol_named. destruct (parse_protocol (nr_protocol r)) as [proto|].
  2:{ split; [by intros (? & ? & _)|by intros [? _]]. }
  destruct (nr_port_start r) as [a|]; [destruct (nr_port_end r) as [b|]|];
    [|destruct (nr_port r); naive_solver set_solver..].
  destruct (Z.ltb_spec b a).
  - split; [by intros (? & ? & _)|intros [_ ?]; lia].
  - split.
    + intros (ports & [= -> <-] & Hin%elem_of_seqZ). split; [done|lia].
    + intros [[= ->] Hp]. eexists. split; [done|]. apply elem_of_seqZ. lia.
Qed.

Definition rule_typed (r : NetworkRule) : Prop :=
  Forall (in_width 16) (option_list (nr_port r) ++ option_list (nr_port_start r) ++ option_list (nr_port_end r)).

Lemma covers_range r protocol port :
  rule_typed r -> rule_covers protocol port r -> in_width 16 port /\ is_byte protocol.
Proof.
  unfold rule_typed, rule_covers. rewrite !Forall_app. intros (H1 & H2 & H3) [Hp Hport]. split.
  - destruct (nr_port_start r), (nr_port_end r), (nr_port r); simpl in *; decompose_Forall; subst;
      unfold in_width in *; lia.
  - unfold is_byte. destruct Hp as [[-> _]|[-> _]]; vm_compute; split; congruence.
Qed.

Lemma net_key_inj id port protocol d port' protocol' d' :
  in_width 32 id -> in_width 16 port -> is_byte protocol -> is_byte d ->
  in_width 16 port' -> is_byte protocol' -> is_byte d' ->
  codec_net_rule_key id port protocol d = codec_net_rule_key id port' protocol' d' ->
  port = port' /\ protocol = protocol' /\ d = d'.
Proof.
  intros Hid H1 H2 H3 H4 H5 H6. rewrite !codec_net_rule_key_image by done. intros Heq.
  apply to_bytes_inj in Heq; [by injection Heq|apply _|solve_fits; done..].
Qed.

(** The rows of one rule that answer a lookup. *)
Lemma network_writes_last id r protocol port d :
  in_width 32 id -> rule_typed r -> in_width 16 port -> is_byte protocol -> d = BIND \/ d = CONNECT ->
  last_such (writes_to N_network_rules (codec_net_rule_key id port protocol d)) (network_writes id r)
  = if decide (rule_covers protocol port r) then Some (network_write id protocol (nr_allow r) port d) else None.
Proof.
  intros Hid Hr Hp Hb Hd.
  assert (forall d, d = BIND \/ d = CONNECT -> is_byte d) as Hdir by (unfold is_byte; intros ? [-> | ->]; vm_compute; split; congruence).
  assert (forall w, w ∈ network_writes id r -> writes_to N_network_rules (codec_net_rule_key id port protocol d) w ->
      w = network_write id protocol (nr_allow r) port d /\ rule_covers protocol port r) as Hu.
  { intros w Hw [_ Hk]. unfold network_writes in Hw.
    destruct (expand_network_rule _ _ _ _) as [[proto ports]|] eqn:He; [|set_solver].
    apply list_elem_of_bind in Hw as (q & Hw & Hq).
    assert (rule_covers proto q r) as Hc by (apply expand_covers; eauto).
    destruct (covers_range _ _ _ Hr Hc).
    apply list_elem_of_fmap in Hw as (d' & -> & Hd'). unfold network_write in Hk. cbn [w_key] in Hk.
    apply net_key_inj in Hk as (-> & -> & ->); auto. apply Hdir. set_solver. }
  case_decide as Hc.
  - apply last_such_unique; [|done|by intros w Hw Hk; destruct (Hu w Hw Hk)].
    apply expand_covers in Hc as (ports & He & Hin). unfold network_writes. rewrite He.
    apply list_elem_of_bind. exists port. split; [|done]. set_solver.
  - apply last_such_None, Forall_forall. intros w Hw Hk. by destruct (Hu w Hw Hk).
Qed.

Lemma port_rule_lookup role s protocol port d :
  role_ok role -> tables_in network_maps role s -> in_width 16 port -> is_byte protocol -> d = BIND \/ d = CONNECT ->
  map_lookup network_rules (m_network_rules s) (NetRuleKey (r_id role) port protocol d)
  = (fun r => bool_byte (nr_allow r)) <$> last_such (rule_covers protocol port) (r_network_rules role).
Proof.
  intros Hok Ht Hp Hb Hd. rewrite map_lookup_hash, <-codec_net_rule_key_image by (try done; destruct Hd as [-> | ->]; vm_compute; split; congruence).
  change (m_network_rules s) with (map_by_name N_network_rules s).
  rewrite Ht by (try done; unfold network_maps; set_solver).
  unfold last_write. cbn [section_writes].
  rewrite (last_such_bind _ _ (rule_covers protocol port) (fun r => network_write (r_id role) protocol (nr_allow r) port d)).
  - destruct (last_such _ _) as [r|]; [|done]. cbn. by destruct (nr_allow r).
  - intros r Hr. pose proof (rk_ports _ Hok) as Hports. rewrite Forall_forall in Hports.
    apply network_writes_last; try done; [apply Hok|by apply Hports].
Qed.
End ports.

(** ** Bind *)

Section hooks.
Context `{Resolver : !DomainResolver} `{KL : KernelLayout}.

(** Protocol and port of a call, when the socket and the address have them. *)
Definition endpoint (m : mem) (sock address : Z) : option (Z * Z) :=
  protocol ← (if sock_type m sock =? SOCK_STREAM then Some PROTO_TCP
    else if sock_type m sock =? SOCK_DGRAM then Some PROTO_UDP else None);
  port ← (if sa_family m address =? AF_INET then Some (bpf_ntohs (sin_port m address))
    else if sa_family m address =? AF_INET6 then Some (bpf_ntohs (sin6_port m address)) else None);
  Some (protocol, port).

Lemma endpoint_range m sock address protocol port :
  endpoint m sock address = Some (protocol, port) -> is_byte protocol /\ in_width 16 port.
Proof.
  unfold endpoint. intros (p & Hp & (q & Hq & [= <- <-])%bind_Some)%bind_Some. split.
  - unfold is_byte. repeat case_match; simplify_eq; vm_compute; split; congruence.
  - repeat case_match; simplify_eq; apply (wrap_range 16); lia.
Qed.

Lemma role_flags_lookup role s :
  tables_in network_maps role s ->
  map_lookup role_flags (m_role_flags s) (r_id role) = Some (policy_flags_to_u8 (r_flags role)).
Proof.
  intros Ht. rewrite map_lookup_hash by done.
  change (m_role_flags s) with (map_by_name N_role_flags s).
  change (key_image role_flags (r_id role)) with (to_ne_bytes 4 (r_id role)).
  rewrite Ht by (try done; unfold network_maps; set_solver).
  unfold last_write. cbn [section_writes last_such]. rewrite decide_True by done. cbn [fmap option_fmap option_map w_value].
  f_equal. pose proof (flag_bits (r_flags role)) as (_ & _ & _ & _ & _ & _ & Hb).
  unfold of_bytes. cbn. rewrite wrap_small by done. lia.
Qed.

(** The port rules as the kernel checks them. *)
Lemma check_network_decides role s m sock address d :
  role_ok role -> tables_in network_maps role s -> d = BIND \/ d = CONNECT ->
  check_network_access s m (r_id role) sock address d
  = decision_verdict (endpoint m sock address ≫= fun '(protocol, port) => port_decision role protocol port).
Proof.
  intros Hok Ht Hd.
  assert (forall protocol port, is_byte protocol -> in_width 16 port ->
      match map_lookup network_rules (m_network_rules s) (NetRuleKey (r_id role) port protocol d) with
      | Some rule => rule_verdict rule
      | None => match map_lookup network_rules (m_network_rules s) (NetRuleKey (r_id role) 0 protocol d) with
      | Some rule => rule_verdict rule | None => 0 end
      end = decision_verdict (port_decision role protocol port)) as Hp.
  { intros protocol port Hb Hw. rewrite !(port_rule_lookup role) by (try done; by apply in_width_0).
    unfold port_decision.
    destruct (last_such (rule_covers protocol port) _) as [r|]; [by cbn; destruct (nr_allow r)|].
    destruct (last_such (rule_covers protocol 0) _) as [r|]; [by cbn; destruct (nr_allow r)|done]. }
  pose proof (endpoint_range m sock address) as Hr. unfold check_network_access, endpoint in *.
  destruct (sock_type m sock =? SOCK_STREAM); [|destruct (sock_type m sock =? SOCK_DGRAM); [|done]];
    cbn [mbind option_bind] in *;
    (destruct (sa_family m address =? AF_INET); [|destruct (sa_family m address =? AF_INET6); [|done]]);
    destruct (Hr _ _ eq_refl); by apply Hp.
Qed.

Lemma port_allows_permitted role m sock address :
  port_allows (policy_flags_to_u8 (r_flags role))
    (decision_verdict (endpoint m sock address ≫= fun '(protocol, port) => port_decision role protocol port))
  <-> port_permitted role (endpoint m sock address) = true.
Proof.
  unfold port_allows, port_permitted. pose proof (flag_bits (r_flags role)) as (_ & Hn & _). rewrite Hn.
  destruct (endpoint m sock address ≫= _) as [[]|]; cbn; naive_solver lia.
Qed.

(** A task jailed under the role. *)
Definition jailed_as (e : hook_env) (role_id : Z) (s : bpf_state) : Prop :=
  exists info, m_task_storage s !! e_current_task e = Some info
  /\ pi_pod_id info <> 0 /\ pi_role_id info = role_id.

Lemma bind_permitted e sock address role s :
  role_ok role -> tables_in network_maps role s -> jailed_as e (r_id role) s ->
  (socket_bind e sock address s).1 = 0
  <-> port_permitted role (endpoint (e_mem e) sock address) = true.
Proof.
  intros Hok Ht (info & Hi & Hp & Hr).
  rewrite (socket_bind_allows e sock address s info (policy_flags_to_u8 (r_flags role)) Hi Hp).
  2:{ rewrite Hr. by apply role_flags_lookup. }
  rewrite Hr, (check_network_decides role) by (try done; by left). apply port_allows_permitted.
Qed.
End hooks.

(** ** Address rules, domains and the proxy *)

Section addresses.
Context `{Resolver : !DomainResolver}.

Lemma omap_bind {A B C} (f : B -> option C) (g : A -> list B) (xs : list A) :
  omap f (xs ≫= g) = xs ≫= fun x => omap f (g x).
Proof. induction xs as [|x xs IH]; [done|]. by rewrite !bind_cons, omap_app, IH. Qed.

Lemma direction_byte d : d = BIND \/ d = CONNECT -> is_byte d.
Proof. unfold is_byte. intros [-> | ->]; vm_compute; split; congruence. Qed.

Lemma rule_direction_text t d : rule_direction t = Some d <-> t = direction_text d /\ (d = BIND \/ d = CONNECT).
Proof.
  unfold rule_direction, direction_text. repeat case_decide; subst.
  - split; [by intros [= <-]; auto|]. by intros [? [-> | ->]].
  - split; [by intros [= <-]; auto|]. by intros [? [-> | ->]].
  - split; [done|]. intros [-> [-> | ->]]; done.
Qed.

Lemma direction_text_inj d d' :
  d = BIND \/ d = CONNECT -> d' = BIND \/ d' = CONNECT -> direction_text d = direction_text d' -> d = d'.
Proof. by intros [-> | ->] [-> | ->]. Qed.

(** Keys of address rules are equal when length, direction and network are. *)
Lemma ip_key_eq id net q d ip p d' :
  in_width 32 id -> ipv4_ok net -> ipv4_ok ip -> 0 <= q <= 32 -> 0 <= p <= 32 -> is_byte d -> is_byte d' ->
  codec_ip_rule_key id net q d = key_image ip_rules (IpRuleKey id (bswap32 (network_of (ipv4_to_u32 ip) p)) p d')
  <-> d = d' /\ q = p /\ network_of (ipv4_to_u32 net) p = network_of (ipv4_to_u32 ip) p.
Proof.
  intros Hid Hn Hi Hq Hp Hd Hd'. rewrite codec_ip_rule_key_image by done.
  rewrite land_lookup_mask by (try apply s_addr_range; done).
  rewrite <-(ipv4_to_u32_bswap net) by done.
  assert (forall ip, ipv4_ok ip -> in_width 32 (ipv4_to_u32 ip)) as Hw
    by (intros ? ?; rewrite ipv4_to_u32_bswap by done; apply bswap32_range).
  split; [|by intros (-> & -> & ->)]. intros Heq.
  apply to_bytes_inj in Heq; [|apply _|..].
  - injection Heq as Heq -> ->. apply bswap32_inj in Heq; [done|by apply network_of_range; auto..].
  - solve_fits; try done; try apply bswap32_range. split; lia.
  - solve_fits; try done; try apply bswap32_range. split; lia.
Qed.

Lemma ip_steps_last id r ip p d :
  in_width 32 id -> ipv4_ok ip -> 0 <= p <= 32 -> d = BIND \/ d = CONNECT ->
  let k := key_image ip_rules (IpRuleKey id (bswap32 (network_of (ipv4_to_u32 ip) p)) p d) in
  last_such (writes_to N_ip_rules k) (omap step_write (ip_steps id r))
  = if decide (ip_rule_covers d p ip r) then Some (Write N_ip_rules k [bool_byte (ir_allow r)]) else None.
Proof.
  intros Hid Hip Hp Hd k. unfold ip_steps. pose proof (rule_direction_text (ir_direction r)) as Ht.
  case_decide as Hc; unfold ip_rule_covers in Hc.
  - destruct Hc as [Hdir Hc]. rewrite (proj2 (Ht d)) by done.
    destruct (parse_cidr (ir_cidr r)) as [err|[net q]] eqn:Hn; [done|]. apply parse_cidr_range in Hn as [Hn Hq].
    cbn [omap list_omap step_write last_such]. rewrite decide_True.
    + f_equal. f_equal. by apply ip_key_eq; auto using direction_byte.
    + split; [done|]. by apply ip_key_eq; auto using direction_byte.
  - destruct (rule_direction (ir_direction r)) as [d'|] eqn:Hd'; [|done]. apply rule_direction_text in Hd' as [Hdir Hd'].
    destruct (parse_cidr (ir_cidr r)) as [err|[net q]] eqn:Hn; [done|]. apply parse_cidr_range in Hn as [Hn Hq].
    cbn [omap list_omap step_write last_such]. rewrite decide_False; [done|]. intros [_ Hk].
    apply ip_key_eq in Hk as (-> & -> & Hk); auto using direction_byte.
Qed.

Lemma ip_rule_lookup role s ip p d :
  role_ok role -> tables_in network_maps role s -> ipv4_ok ip -> 0 <= p <= 32 -> d = BIND \/ d = CONNECT ->
  ip_rule_at s (r_id role) d (ipv4_to_u32 ip) p
  = (fun r => bool_byte (ir_allow r)) <$> last_such (ip_rule_covers d p ip) (r_ip_rules role).
Proof.
  intros Hok Ht Hip Hp Hd. unfold ip_rule_at. rewrite map_lookup_hash by done.
  change (m_ip_rules s) with (map_by_name N_ip_rules s).
  rewrite Ht by (try done; unfold network_maps; set_solver).
  unfold last_write. cbn [section_writes]. rewrite omap_bind.
  set (k := key_image _ _).
  rewrite (last_such_bind _ _ (ip_rule_covers d p ip) (fun r => Write N_ip_rules k [bool_byte (ir_allow r)])).
  - destruct (last_such _ _) as [r|]; [|done]. cbn. by destruct (ir_allow r).
  - intros r _. apply ip_steps_last; try done. apply Hok.
Qed.

Lemma check_ip_decides role s ip :
  role_ok role -> tables_in network_maps role s -> ipv4_ok ip ->
  check_ip_access s (r_id role) (s_addr ip) CONNECT = decision_verdict (ip_decision role ip).
Proof.
  intros Hok Ht Hip. rewrite check_ip_access_first by by apply s_addr_range.
  rewrite <-ipv4_to_u32_bswap by done. unfold ip_decision.
  assert (Forall (fun p => 0 <= p <= 32) supported_prefixes) as Hps by (repeat constructor; lia).
  revert Hps. generalize supported_prefixes as ps. induction 1 as [|p ps Hp _ IH]; [done|].
  cbn [first_rule ip_decision_at]. rewrite (ip_rule_lookup role) by (try done; by right).
  destruct (last_such _ _) as [r|]; [by cbn; destruct (ir_allow r)|]. exact IH.
Qed.
End addresses.

Section domains.
Context `{Resolver : !DomainResolver}.

Lemma s_addr_inj ip ip' : ipv4_ok ip -> ipv4_ok ip' -> s_addr ip = s_addr ip' -> ip = ip'.
Proof.
  intros H H' Heq%(f_equal (le_bytes 4)). rewrite !le_bytes_s_addr in Heq by done.
  destruct ip, ip'. by simplify_eq.
Qed.

Lemma dns_key_inj id ip ip' :
  in_width 32 id -> ipv4_ok ip -> ipv4_ok ip' ->
  codec_dns_cache_key id ip = codec_dns_cache_key id ip' -> ip = ip'.
Proof.
  intros Hid Hip Hip'. rewrite !codec_dns_cache_key_image by done. intros Heq.
  pose proof (s_addr_range ip Hip). pose proof (s_addr_range ip' Hip').
  apply to_bytes_inj in Heq; [|apply _|solve_fits; done..]. injection Heq as Heq. by apply s_addr_inj.
Qed.

Lemma domain_key_inj id d d' :
  in_width 32 id -> codec_domain_rule_key id d = codec_domain_rule_key id d' ->
  fnv1a_hash_u64 d = fnv1a_hash_u64 d'.
Proof.
  intros Hid. rewrite !codec_domain_rule_key_image. intros Heq.
  apply to_bytes_inj in Heq; [by injection Heq|apply _|solve_fits; auto with widths..].
Qed.

Lemma dns_writes_last id r ip :
  in_width 32 id -> ipv4_ok ip -> Forall ipv4_ok (resolve (dr_domain r)) ->
  last_such (writes_to N_dns_cache (codec_dns_cache_key id ip)) (domain_writes id r)
  = if decide (ip ∈ resolve (dr_domain r))
  then Some (Write N_dns_cache (codec_dns_cache_key id ip)
    (codec_dns_cache_value (fnv1a_hash_u64 (dr_domain r)) 0)) else None.
Proof.
  intros Hid Hip Hres. rewrite Forall_forall in Hres.
  assert (forall w, w ∈ domain_writes id r -> writes_to N_dns_cache (codec_dns_cache_key id ip) w ->
      exists ip', ip' ∈ resolve (dr_domain r) /\ ip' = ip
      /\ w = Write N_dns_cache (codec_dns_cache_key id ip) (codec_dns_cache_value (fnv1a_hash_u64 (dr_domain r)) 0)) as Hu.
  { intros w Hw [Hn Hk]. unfold domain_writes in Hw.
    apply elem_of_cons in Hw as [->|(ip' & -> & Hin)%list_elem_of_fmap]; [done|]. cbn in Hk.
    apply dns_key_inj in Hk as ->; auto. eauto. }
  case_decide as Hc.
  - apply last_such_unique; [|done|intros w Hw Hk; by destruct (Hu w Hw Hk) as (? & _ & _ & ->)].
    unfold domain_writes. apply elem_of_cons. right. apply list_elem_of_fmap. eauto.
  - apply last_such_None, Forall_forall. intros w Hw Hk.
    by destruct (Hu w Hw Hk) as (? & ? & -> & _).
Qed.

Lemma domain_writes_last id r dom :
  in_width 32 id ->
  (fnv1a_hash_u64 (dr_domain r) = fnv1a_hash_u64 dom -> dr_domain r = dom) ->
  last_such (writes_to N_domain_rules (codec_domain_rule_key id dom)) (domain_writes id r)
  = if decide (dr_domain r = dom)
  then Some (Write N_domain_rules (codec_domain_rule_key id dom) [bool_byte (dr_allow r)]) else None.
Proof.
  intros Hid Hcf. unfold domain_writes. cbn [last_such].
  assert (last_such (writes_to N_domain_rules (codec_domain_rule_key id dom))
      ((fun ip => Write N_dns_cache (codec_dns_cache_key id ip)
      (codec_dns_cache_value (fnv1a_hash_u64 (dr_domain r)) 0)) <$> resolve (dr_domain r)) = None) as ->.
  { apply last_such_None, Forall_fmap, Forall_forall. by intros ip _ [? _]. }
  destruct (decide (dr_domain r = dom)) as [<-|Hne]; [by rewrite decide_True|].
  rewrite decide_False; [done|]. intros [_ Hk]. by apply Hne, Hcf, (domain_key_inj id).
Qed.

Lemma dns_lookup role s ip :
  role_ok role -> tables_in network_maps role s -> ipv4_ok ip ->
  map_lookup dns_cache (m_dns_cache s) (DnsCacheKey (r_id role) (s_addr ip))
  = (fun r => DnsCacheValue (fnv1a_hash_u64 (dr_domain r)) 0)
  <$> last_such (fun r => ip ∈ resolve (dr_domain r)) (r_domain_rules role).
Proof.
  intros Hok Ht Hip. rewrite map_lookup_hash, <-codec_dns_cache_key_image by done.
  change (m_dns_cache s) with (map_by_name N_dns_cache s).
  rewrite Ht by (try done; unfold network_maps; set_solver).
  unfold last_write. cbn [section_writes].
  rewrite (last_such_bind _ _ (fun r => ip ∈ resolve (dr_domain r))
      (fun r => Write N_dns_cache (codec_dns_cache_key (r_id role) ip)
      (codec_dns_cache_value (fnv1a_hash_u64 (dr_domain r)) 0))).
  - destruct (last_such _ _) as [r|]; [|done]. cbn [fmap option_fmap option_map w_value].
    f_equal. apply dns_cache_value_reads; auto with widths.
  - intros r Hr. pose proof (rk_addrs _ Hok) as Ha. rewrite Forall_forall in Ha.
    apply dns_writes_last; [apply Hok|done|by apply Ha].
Qed.

Lemma domain_rule_lookup role s r :
  role_ok role -> tables_in network_maps role s -> r ∈ r_domain_rules role ->
  map_lookup domain_rules (m_domain_rules s) (DomainRuleKey (r_id role) (fnv1a_hash_u64 (dr_domain r)))
  = (fun r' => bool_byte (dr_allow r'))
  <$> last_such (fun r' => dr_domain r' = dr_domain r) (r_domain_rules role).
Proof.
  intros Hok Ht Hr. rewrite map_lookup_hash, <-codec_domain_rule_key_image by done.
  change (m_domain_rules s) with (map_by_name N_domain_rules s).
  rewrite Ht; [|unfold network_maps; set_solver|].
  2:{ unfold role_key, codec_domain_rule_key. by set (h := fnv1a_hash_u64 _). }
  unfold last_write. cbn [section_writes].
  rewrite (last_such_bind _ _ (fun r' => dr_domain r' = dr_domain r)
      (fun r' => Write N_domain_rules (codec_domain_rule_key (r_id role) (dr_domain r)) [bool_byte (dr_allow r')])).
  - destruct (last_such _ _) as [r'|]; [|done]. cbn. by destruct (dr_allow r').
  - intros r' Hr'. apply domain_writes_last; [apply Hok|].
    pose proof (rk_domains _ Hok) as Hd. rewrite Forall_forall in Hd. specialize (Hd r' Hr').
    rewrite Forall_forall in Hd. by apply Hd.
Qed.

Lemma check_domain_decides role s ip :
  role_ok role -> tables_in network_maps role s -> ipv4_ok ip -> s_addr ip <> 0 ->
  check_domain_access s (r_id role) (s_addr ip) = decision_verdict (domain_decision role ip).
Proof.
  intros Hok Ht Hip Hz%Z.eqb_neq. unfold check_domain_access, domain_decision. rewrite Hz.
  rewrite (dns_lookup role) by done.
  destruct (last_such _ (r_domain_rules role)) as [r|] eqn:Hl; [|done]. cbn [fmap option_fmap option_map dv_domain_hash].
  apply last_such_Some in Hl as [Hr _]. rewrite (domain_rule_lookup role) by done.
  destruct (last_such _ (r_domain_rules role)) as [r'|]; [|done]. cbn. by destruct (dr_allow r').
Qed.

(** The proxy requirement. *)
Lemma proxy_lookup role s :
  role_ok role -> tables_in network_maps role s ->
  map_lookup proxy_config_map (m_proxy_config s) (r_id role)
  = p ← r_proxy role;
  match parse_proxy_addr (py_address p) with
  | inr (ip, port) => Some (ProxyConfig (s_addr ip) port (bool_byte (py_required p)))
  | inl _ => None
  end.
Proof.
  intros Hok Ht. rewrite map_lookup_hash by done.
  change (m_proxy_config s) with (map_by_name N_proxy_config s).
  change (key_image proxy_config_map (r_id role)) with (to_ne_bytes 4 (r_id role)).
  rewrite Ht by (try done; unfold network_maps; set_solver).
  cbn [section_writes]. destruct (r_proxy role) as [p|]; [|done].
  change (option_list (Some p)) with [p]. rewrite omap_bind, bind_cons, app_nil_r. unfold proxy_steps. cbn [mbind option_bind].
  destruct (parse_proxy_addr (py_address p)) as [e|[ip port]] eqn:Hp; [done|].
  apply parse_proxy_range in Hp as [? ?]. unfold last_write.
  cbn [omap list_omap step_write last_such]. rewrite decide_True by done.
  cbn [fmap option_fmap option_map w_value]. f_equal. by apply proxy_config_value_reads.
Qed.

Lemma check_proxy_decides role s ip port :
  role_ok role -> tables_in network_maps role s -> ipv4_ok ip ->
  check_proxy_requirement s (r_id role) (s_addr ip) port <> -13 <-> proxy_permits role ip port = true.
Proof.
  intros Hok Ht Hip. unfold check_proxy_requirement, proxy_permits. rewrite (proxy_lookup role) by done.
  destruct (r_proxy role) as [p|]; [|done]. cbn [mbind option_bind].
  destruct (parse_proxy_addr (py_address p)) as [e|[pip pport]] eqn:Hp; [done|].
  apply parse_proxy_range in Hp as [Hpip _]. cbn [px_require_proxy px_proxy_ip px_proxy_port].
  destruct (py_required p); [|done]. cbn [bool_byte negb orb]. change (1 =? 0) with false. cbv iota.
  assert (Z.land (s_addr ip) 255 = 127 <-> oct0 ip = 127) as Hloop.
  { rewrite loopback_first_octet, le_bytes_s_addr by done. cbn. split; congruence. }
  rewrite orb_true_iff, !bool_decide_eq_true.
  destruct (Z.eqb_spec (s_addr ip) (s_addr pip)) as [Heq|Hne], (Z.eqb_spec port pport); cbn [andb];
    [apply s_addr_inj in Heq as ->; naive_solver|..];
    (destruct (Z.eqb_spec (Z.land (s_addr ip) 255) 127); naive_solver).
Qed.
End domains.

(** ** Paths *)

Section paths.
Context `{Resolver : !DomainResolver} `{KL : KernelLayout}.

(** The dentry carries that name. *)
Definition dentry_named (m : mem) (d : Z) (name : bytes) : Prop :=
  name <> [] /\ Z.of_nat (length name) < 2 ^ 32 /\ d_name_len m d = Z.of_nat (length name)
  /\ d_name_name m d <> 0 /\ name_at m (d_name_name m d) name.

(** Seen from [root] the dentry is [path], of at most 16 names and within the
    number of steps the walk takes. *)
Definition file_at (m : mem) (root : fs_root) (dentry vfsmnt : Z) (path : list bytes) : Prop :=
  dentry <> 0 /\ real_mount vfsmnt <> 0
  /\ exists steps ds, resolves m root dentry (real_mount vfsmnt) vfsmnt steps ds
  /\ (steps < MAX_PATH_WALK_STEPS)%nat /\ (length ds <= MAX_COMPONENTS)%nat
  /\ Forall2 (dentry_named m) ds (reverse path).

Lemma component_hashes_names m ds names :
  Forall2 (dentry_named m) ds names -> component_hashes m ds = map fnv1a_hash_u64 names.
Proof.
  induction 1 as [|d name ds names (Hne & Hlen & Hl & Hp & Hat) _ IH]; [done|].
  rewrite component_hashes_cons, IH. unfold named, dentry_hash. rewrite Hl.
  rewrite hash_component_spec by done. apply Z.eqb_neq in Hp. rewrite Hp.
  destruct (Z.ltb_spec 0 (Z.of_nat (length name))); [done|]. destruct name; [done|simpl in *; lia].
Qed.

(** The two lists of path rules with their maps. *)
Definition path_rules (role : Role) (n : map_name) : list (bytes * bool) :=
  match n with
  | N_path_states => file_rules role
  | _ => exec_rules role
  end.

Lemma last_write_entries n k (entries : list path_state_entry) :
  last_write n k ((fun e => Write n e.1 e.2) <$> entries) = write_entries ∅ entries !! k.
Proof.
  induction entries as [|[k' v'] entries IH] using rev_ind; [done|].
  rewrite fmap_app, last_write_app, IH. unfold write_entries. rewrite fold_left_app. cbn.
  unfold last_write. cbn [last_such]. unfold writes_to. cbn.
  destruct (decide (k' = k)) as [->|Hne].
  - by rewrite decide_True, lookup_insert_eq by done.
  - rewrite decide_False, lookup_insert_ne by naive_solver. done.
Qed.

Lemma state_rows role s n entries st h :
  tables_of role s -> n = N_path_states \/ n = N_exec_states ->
  path_state_entries_for_role (r_id role) (path_rules role n) = inr entries ->
  map_lookup path_states (map_by_name n s) (PathStateKey (r_id role) st h)
  = map_lookup path_states (write_entries ∅ entries) (PathStateKey (r_id role) st h).
Proof.
  intros Ht Hn He. rewrite !map_lookup_hash by done. f_equal.
  rewrite (tables_in_of policy_maps role s) by (try done; unfold policy_maps; set_solver).
  rewrite <-(last_write_entries n).
  destruct Hn as [-> | ->]; cbn [section_writes path_rules] in *; unfold state_writes; by rewrite He.
Qed.

Lemma path_verdict_decides role s n m root d v path :
  role_ok role -> tables_of role s -> n = N_path_states \/ n = N_exec_states ->
  conflict_free (path_rules role n) -> collision_free (r_id role) (path_rules role n) path ->
  file_at m root d v path ->
  path_verdict m (map_by_name n s) (r_id role) d v root
  = decision_verdict (path_decision (path_rules role n) path).
Proof.
  intros Hok Ht Hn Hsf Hcf (Hd & Hv & steps & ds & Hres & Hsteps & Hds & Hnames).
  set (buf := (collect_path_components m d v root zero_path_components).2).
  destruct (collect_complete m d v root zero_path_components steps ds) as [Htr Hbuf]; [done..|].
  assert (buf_ok buf) as Hbok by by apply collect_ok. fold buf in Htr, Hbuf.
  rewrite (component_hashes_names m _ _ Hnames) in Hbuf.
  destruct (compile_rows (r_id role) (path_rules role n) Hsf) as (entries & He & Hrows).
  unfold path_verdict, check_path_state_machine. fold buf. rewrite sm_check_run, Htr, Hbuf by done.
  simpl negb. rewrite orb_false_r.
  destruct (Z.eqb_spec (pc_count buf) 0) as [Hc|Hc].
  - assert (path = []) as ->; [|done]. apply (f_equal length) in Hbuf.
    pose proof (length_buf_components buf Hbok). rewrite length_map, length_reverse in Hbuf.
    destruct path; [done|]. simpl in Hbuf. lia.
  - assert (reverse (map fnv1a_hash_u64 (reverse path)) = map fnv1a_hash_u64 path) as ->.
    { change (reverse (fnv1a_hash_u64 <$> reverse path) = fnv1a_hash_u64 <$> path).
      by rewrite <-fmap_reverse, reverse_involutive. }
    rewrite (run_ext _ (map_lookup path_states (write_entries ∅ entries)))
      by (intros; by eapply state_rows).
    assert (path_decision (path_rules role n) path = decision_from (path_rules role n) [] path) as ->.
    { destruct path; [|done]. exfalso. apply Hc. apply (f_equal length) in Hbuf.
      pose proof (length_buf_components buf Hbok) as Hl. simpl in Hbuf. lia. }
    apply (run_compiled (r_id role) (path_rules role n) path (rk_id _ Hok) Hsf Hcf ∅ entries Hrows path_states
        (or_introl eq_refl) (fun st h => lookup_empty _) path []).
    + by left.
    + right. apply root_undecided.
    + apply Forall_forall. intros c Hin. unfold in_play. set_solver.
Qed.

Definition open_permitted (role : Role) (path : list bytes) : bool :=
  default (allow_file_access (r_flags role)) (path_decision (file_rules role) path).

Definition exec_permitted (role : Role) (path : list bytes) : bool :=
  default (allow_exec (r_flags role)) (path_decision (exec_rules role) path).
End paths.

(** ** A loaded policy *)

(** The roles, with different ids, were applied to maps that held no row of
    theirs, and the policy maps have not changed since. *)
Definition policy_loaded `{Resolver : !DomainResolver} (roles : list Role) (s : bpf_state) : Prop :=
  exists s0 s1, NoDup (r_id <$> roles) /\ Forall role_ok roles
    /\ Forall (fun r => fresh_role s0 (r_id r)) roles
    /\ apply_roles TrackerSink roles s0 = (inr tt, s1) /\ same_policy s1 s.

Section enforcement.
Context `{Resolver : !DomainResolver} `{KL : KernelLayout}.

Lemma loaded_tables roles role s :
  policy_loaded roles s -> role ∈ roles -> role_ok role /\ tables_of role s.
Proof.
  intros (s0 & s1 & Hnd & Hok & Hf & Ha & Hs) Hin. rewrite Forall_forall in Hok, Hf.
  split; [by apply Hok|]. eapply tables_same; [done|].
  eapply (applied_roles_tables TrackerSink tracker_map_sink); try done.
  apply Forall_forall. intros r Hr. by apply Hok.
Qed.

Lemma enrollment_same_policy s s' : enrollment_frame s s' -> same_policy s s'.
Proof.
  unfold enrollment_frame, same_policy, policy_maps. intros Hf n Hn. destruct_and!.
  repeat (apply elem_of_cons in Hn as [->|Hn]; [cbn; congruence|]). by apply elem_of_nil in Hn.
Qed.

(** The IPv4 address and the port of a destination; no address when it is not
    IPv4 or is 0.0.0.0. *)
Definition dest_is (m : mem) (address : Z) (dest : option ipv4) (port : Z) : Prop :=
  match dest with
  | Some ip => ipv4_ok ip /\ s_addr ip <> 0 /\ destination m address = (s_addr ip, port)
  | None => (destination m address).1 = 0
  end.

Lemma decision_cases d :
  (decision_verdict d = 1 <-> d = Some true) /\ (decision_verdict d = -13 <-> d = Some false).
Proof. destruct d as [[]|]; cbn; naive_solver lia. Qed.

Lemma connect_decided e sock address dest port role s :
  role_ok role -> tables_in network_maps role s -> jailed_as e (r_id role) s -> dest_is (e_mem e) address dest port ->
  (socket_connect e sock address s).1 = 0
  <-> connect_permitted role dest port (endpoint (e_mem e) sock address) = true.
Proof.
  intros Hok Ht (info & Hi & Hp & Hr) Hd.
  rewrite (socket_connect_allows e sock address s info (policy_flags_to_u8 (r_flags role)) Hi Hp).
  2:{ rewrite Hr. by apply role_flags_lookup. }
  unfold connect_allows. rewrite Hr, (check_network_decides role) by (try done; by right).
  destruct dest as [ip|]; cbn [dest_is connect_permitted] in *.
  2:{ destruct (destination (e_mem e) address) as [ip p]. simpl in Hd. subst ip. apply port_allows_permitted. }
  destruct Hd as (Hip & Hz & ->). apply Z.eqb_neq in Hz as Hz'. rewrite Hz'.
  rewrite (check_domain_decides role), (check_ip_decides role), (check_proxy_decides role) by done.
  rewrite andb_true_iff. rewrite port_allows_permitted.
  destruct (decision_cases (domain_decision role ip)) as [-> ->].
  destruct (decision_cases (ip_decision role ip)) as [-> ->].
  destruct (domain_decision role ip) as [[]|], (ip_decision role ip) as [[]|]; cbn; naive_solver.
Qed.

Lemma open_decided (R : Z -> Prop) e file path role s :
  role_ok role -> tables_of role s -> jailed_as e (r_id role) (after_pending e s) ->
  state_ok s -> R (r_id role) -> cache_coherent_for R (e_mem e) s ->
  conflict_free (file_rules role) -> collision_free (r_id role) (file_rules role) path ->
  file_at (e_mem e) (task_fs_root (e_mem e) (e_current_task e)) (f_path_dentry (e_mem e) file)
    (f_path_mnt (e_mem e) file) path ->
  (file_open e file s).1 = if open_permitted role path then 0 else - EACCES.
Proof.
  intros Hok Ht (info & Hi & Hp & Hr) Hs HR Hco Hsf Hcf Hat.
  rewrite (file_open_policy_for R), Hi by (try done; intros ? ?; by simplify_eq; rewrite Hr).
  apply Z.eqb_neq in Hp. rewrite Hp, Hr, role_flags_lookup by by apply network_tables. unfold file_policy.
  destruct Hat as (Hd & Hat). pose proof Hd as Hd'%Z.eqb_neq. rewrite Hd', Hr.
  change (m_path_states s) with (map_by_name N_path_states s).
  rewrite (path_verdict_decides role _ _ _ _ _ _ path); try done; [|by left].
  unfold open_permitted. cbn [path_rules].
  pose proof (flag_bits (r_flags role)) as (Hb & _).
  destruct (path_decision (file_rules role) path) as [[]|]; [done..|]. cbn.
  destruct (Z.eqb_spec (Z.land (policy_flags_to_u8 (r_flags role)) 1) 0), (allow_file_access (r_flags role)); naive_solver.
Qed.

Lemma exec_decided e bprm path role s info :
  role_ok role -> tables_of role s -> exec_info e s = Some info -> pi_pod_id info <> 0 ->
  pi_role_id info = r_id role -> state_ok s ->
  conflict_free (exec_rules role) -> collision_free (r_id role) (exec_rules role) path ->
  bprm_file (e_mem e) bprm <> 0 ->
  file_at (e_mem e) (task_fs_root (e_mem e) (e_current_task e))
    (f_path_dentry (e_mem e) (bprm_file (e_mem e) bprm)) (f_path_mnt (e_mem e) (bprm_file (e_mem e) bprm)) path ->
  (bprm_check_security e bprm s).1 = if exec_permitted role path then 0 else - EACCES.
Proof.
  intros Hok Ht Hi Hp Hr Hs Hsf Hcf Hb Hat. rewrite (bprm_policy _ _ _ info), Hr, role_flags_lookup by (try apply network_tables; done).
  unfold exec_policy. apply Z.eqb_neq in Hb. rewrite Hb, Hr.
  change (m_exec_states s) with (map_by_name N_exec_states s).
  rewrite (path_verdict_decides role _ _ _ _ _ _ path); try done; [|by right].
  unfold exec_permitted. cbn [path_rules].
  pose proof (flag_bits (r_flags role)) as (_ & _ & Hx & _).
  destruct (path_decision (exec_rules role) path) as [[]|]; [done..|]. cbn.
  destruct (Z.eqb_spec (Z.land (policy_flags_to_u8 (r_flags role)) 4) 0), (allow_exec (r_flags role)); naive_solver.
Qed.
End enforcement.

(** ** A policy to evaluate *)

(** The agent's role loaded into empty maps, with a task jailed under it. *)
Definition agent_jailed : bpf_state := set_task_storage (fun _ => {[TASK := jailed_info]}) agent_state.

Lemma agent_role_ok : role_ok (Resolver := one_name) agent_role.
Proof.
  split.
  - vm_compute. split; congruence.
  - apply (bool_decide_unpack _). vm_compute. exact I.
  - apply (bool_decide_unpack _). vm_compute. exact I.
  - apply (bool_decide_unpack _). vm_compute. exact I.
Qed.

Lemma init_fresh id : fresh_role init_state id.
Proof. intros n k _ _. by destruct n; apply lookup_empty. Qed.

Lemma agent_loaded : policy_loaded (Resolver := one_name) [agent_role] agent_jailed.
Proof.
  exists init_state, agent_state. split_and!.
  - apply NoDup_singleton.
  - apply Forall_singleton, agent_role_ok.
  - apply Forall_singleton, init_fresh.
  - unfold apply_roles. cbn [for_each]. unfold io_bind at 1 2. by rewrite agent_applies.
  - unfold agent_jailed. generalize agent_state. intros st n _. by destruct n.
Qed.

Lemma agent_is_jailed : jailed_as (env_with mem_etc) 7 agent_jailed.
Proof. exists jailed_info. split_and!; [vm_compute; reflexivity|vm_compute; congruence|reflexivity]. Qed.

(** A name read off the memory byte by byte. *)
Lemma name_at_reads m p bs :
  (fun i => probe_read m (u64 (p + Z.of_nat i)) 1) <$> seq 0 (length bs) = bs ->
  forallb (fun b => (0 <? b) && (b <? 256)) bs = true -> name_at m p bs.
Proof.
  intros Heq Hb i b Hi. split.
  - apply lookup_lt_Some in Hi as Hlt. rewrite <-Heq, list_lookup_fmap in Hi.
    rewrite lookup_seq_lt in Hi by done. by injection Hi.
  - rewrite forallb_forall in Hb. specialize (Hb b). rewrite <-list_elem_of_In, andb_true_iff in Hb.
    destruct Hb; [by eapply list_elem_of_lookup_2|]. lia.
Qed.

Lemma shadow_at :
  file_at mem_etc (task_fs_root mem_etc TASK) SHADOW VFS [name_etc; name_shadow].
Proof.
  split_and!; [vm_compute; congruence..|]. exists 2%nat, [SHADOW; ETC]. split_and!.
  - apply shadow_resolves.
  - unfold MAX_PATH_WALK_STEPS. lia.
  - unfold MAX_COMPONENTS. simpl. lia.
  - apply List.Forall2_cons; [|apply List.Forall2_cons; [|apply List.Forall2_nil]];
      (split_and!; [vm_compute; congruence..|]); apply name_at_reads; vm_compute; reflexivity.
Qed.

(** ** Properties *)

(** Binding under a loaded policy: a task jailed under a role of the policy
    may bind exactly when the last rule of the role naming the socket's protocol
    and port allows it; failing such a rule, the last rule for any port; failing
    that, or without a TCP or UDP socket and an internet address, the role's
    network flag. *)
Theorem bind_enforced `{Resolver : !DomainResolver} `{KL : KernelLayout} (e : hook_env) (sock address : Z)
    (roles : list Role) (role : Role) (s : bpf_state) :
  policy_loaded roles s -> role ∈ roles -> jailed_as e (r_id role) s ->
  (socket_bind e sock address s).1 = 0
  <-> port_permitted role (endpoint (e_mem e) sock address) = true.
Proof. intros Hl Hin. destruct (loaded_tables roles role s Hl Hin). intros Hj. apply bind_permitted; auto using network_tables. Qed.

Lemma bind_enforced_witness : (socket_bind (env_with mem_etc) SOCK ADDR6 agent_jailed).1 = 0.
Proof.
  apply (bind_enforced (Resolver := one_name) (env_with mem_etc) SOCK ADDR6 [agent_role] agent_role);
    [apply agent_loaded|set_solver|apply agent_is_jailed|vm_compute; reflexivity].
Defined.

(** Connecting under a loaded policy: the role's required proxy leaves only
    the proxy and the loopback network; then the last domain rule whose name
    resolves to the address decides, then the longest address rule of a supported
    prefix length, then the port rules and the network flag.  The rules are
    those of the policy text: texts parsed, names resolved, ranges expanded,
    written to the maps, looked up by the hook. *)
Theorem connect_enforced `{Resolver : !DomainResolver} `{KL : KernelLayout} (e : hook_env) (sock address : Z)
    (dest : option ipv4) (port : Z) (roles : list Role) (role : Role) (s : bpf_state) :
  policy_loaded roles s -> role ∈ roles -> jailed_as e (r_id role) s ->
  dest_is (e_mem e) address dest port ->
  (socket_connect e sock address s).1 = 0
  <-> connect_permitted role dest port (endpoint (e_mem e) sock address) = true.
Proof. intros Hl Hin. destruct (loaded_tables roles role s Hl Hin). intros Hj Hd. apply connect_decided; auto using network_tables. Qed.

(** 10.1.2.3 is allowed by name although 10.0.0.0/8 is denied. *)
Lemma connect_enforced_witness :
  (socket_connect (env_with mem_etc) SOCK ADDR4 agent_jailed).1 = 0.
Proof.
  apply (connect_enforced (Resolver := one_name) (env_with mem_etc) SOCK ADDR4 (Some (Ipv4 10 1 2 3)) 443
    [agent_role] agent_role); [apply agent_loaded|set_solver|apply agent_is_jailed| |vm_compute; reflexivity].
  split_and!; [apply Ipv4_ok; unfold is_byte; lia|vm_compute; congruence|vm_compute; reflexivity].
Defined.

(** Opening a file under a loaded policy: for a role the loaders accept,
    whose names and states do not collide, a file whose path has at most 16
    components opens exactly when the role's path rules allow it
    ([path_decision], the longest named prefix unless there are stars), or no
    rule covers it and the role has the file-access flag. *)
Theorem open_enforced `{Resolver : !DomainResolver} `{KL : KernelLayout} (e : hook_env) (file : Z)
    (path : list bytes) (roles : list Role) (role : Role) (s : bpf_state) :
  policy_loaded roles s -> role ∈ roles -> jailed_as e (r_id role) (after_pending e s) ->
  state_ok s -> cache_coherent (e_mem e) s ->
  unenforced_settings role = [] -> collision_free (r_id role) (file_rules role) path ->
  file_at (e_mem e) (task_fs_root (e_mem e) (e_current_task e)) (f_path_dentry (e_mem e) file)
    (f_path_mnt (e_mem e) file) path ->
  (file_open e file s).1 = if open_permitted role path then 0 else - EACCES.
Proof. intros Hl Hin. destruct (loaded_tables roles role s Hl Hin). intros. apply (open_decided (fun _ => True)); try done. by apply enforced_conflict_free. Qed.

Lemma agent_state_ok : state_ok agent_jailed.
Proof. split; [apply map_Forall_singleton, jailed_info_fits|vm_compute; reflexivity]. Qed.

Lemma open_enforced_witness : (file_open (env_with mem_etc) FILE agent_jailed).1 = - EACCES.
Proof.
  apply (open_enforced (Resolver := one_name) (env_with mem_etc) FILE [name_etc; name_shadow] [agent_role] agent_role).
  - apply agent_loaded.
  - set_solver.
  - exists jailed_info. split_and!; [vm_compute; reflexivity|vm_compute; congruence|reflexivity].
  - apply agent_state_ok.
  - apply empty_cache_coherent. vm_compute. reflexivity.
  - apply (bool_decide_unpack _). vm_compute. exact I.
  - apply (bool_decide_unpack _). vm_compute. exact I.
  - apply shadow_at.
Defined.

(** Executing a binary under a loaded policy is decided the same way by the
    role's execution rules and its execution flag. *)
Theorem exec_enforced `{Resolver : !DomainResolver} `{KL : KernelLayout} (e : hook_env) (bprm : Z)
    (path : list bytes) (roles : list Role) (role : Role) (s : bpf_state) (info : process_info) :
  policy_loaded roles s -> role ∈ roles ->
  exec_info e s = Some info -> pi_pod_id info <> 0 -> pi_role_id info = r_id role -> state_ok s ->
  unenforced_settings role = [] -> collision_free (r_id role) (exec_rules role) path ->
  bprm_file (e_mem e) bprm <> 0 ->
  file_at (e_mem e) (task_fs_root (e_mem e) (e_current_task e))
    (f_path_dentry (e_mem e) (bprm_file (e_mem e) bprm)) (f_path_mnt (e_mem e) (bprm_file (e_mem e) bprm)) path ->
  (bprm_check_security e bprm s).1 = if exec_permitted role path then 0 else - EACCES.
Proof.
  intros Hl Hin. destruct (loaded_tables roles role s Hl Hin). intros. apply (exec_decided _ _ _ _ _ info); try done.
  by apply enforced_conflict_free.
Qed.

Lemma exec_enforced_witness : (bprm_check_security (env_with mem_etc) BPRM agent_jailed).1 = 0.
Proof.
  apply (exec_enforced (Resolver := one_name) (env_with mem_etc) BPRM [name_etc; name_shadow] [agent_role]
    agent_role agent_jailed jailed_info).
  - apply agent_loaded.
  - set_solver.
  - vm_compute. reflexivity.
  - vm_compute. congruence.
  - reflexivity.
  - apply agent_state_ok.
  - apply (bool_decide_unpack _). vm_compute. exact I.
  - apply (bool_decide_unpack _). vm_compute. exact I.
  - vm_compute. congruence.
  - apply shadow_at.
Defined.
