(* ===== verification/RoleLimits.v ===== *)
(** * Where applying a role falls short

    Two consequences of apply.rs writing rows one by one and never deleting any:
    a role applied over an earlier definition of the same id is enforced as the
    union of both, and a role with a port range wider than the map stops in the
    middle, before its address, domain and proxy sections. *)

From S2P Require Import Prelude CLayout BpfMap Rust Kernel KernelTypes Types Machine Scenario Hash PathWalk StateMachine Enrollment Hooks FileOpen Network Codec Patterns Parse Loader Policy Apply Exec RolePolicy.

(** ** Redefinition *)

(** The role whose network rules are the old ones followed by the new. *)
Definition merged (old new : Role) : Role :=
  MkRole (r_id new) (r_name new) (r_flags new) (r_file_paths new)
    (r_network_rules old ++ r_network_rules new) (r_execution_rules new) (r_require_signed_binary new)
    (r_ip_rules old ++ r_ip_rules new) (r_domain_rules old ++ r_domain_rules new)
    (match r_proxy new with Some p => Some p | None => r_proxy old end).

Section redefinition.
Context `{Resolver : !DomainResolver}.

(** The row of a proxy, when its address parses. *)
Lemma proxy_section_last id p k :
  all_writes (proxy_steps id p) ->
  last_write N_proxy_config k (omap step_write (proxy_steps id p)) <> None
  <-> k = to_ne_bytes 4 id.
Proof.
  unfold proxy_steps, last_write. destruct (parse_proxy_addr (py_address p)) as [e|[ip port]].
  { intros Ha. apply Forall_singleton in Ha as [? Ha]. done. }
  intros _. cbn [omap list_omap step_write last_such]. unfold writes_to. cbn [w_map w_key].
  case_decide as Hc; naive_solver.
Qed.

Lemma proxy_key id o k :
  last_write N_proxy_config k (omap step_write (option_list o ≫= proxy_steps id)) <> None ->
  k = to_ne_bytes 4 id.
Proof.
  intros Hl. unfold last_write in Hl. rewrite fmap_None in Hl.
  apply not_eq_None_Some in Hl as [w Hw]. apply last_such_Some in Hw as [Hin [_ <-]].
  by apply proxy_write_in in Hin as (p & ip & port & _ & _ & ->).
Qed.

(** Section by section the two walks write what the merged role would. *)
Lemma merged_section old new n k :
  r_id old = r_id new -> n ∈ network_maps -> all_writes (role_steps new) ->
  last_write n k (section_writes (merged old new) n)
  = match last_write n k (section_writes new n) with
    | Some v => Some v
    | None => last_write n k (section_writes old n)
    end.
Proof.
  intros Hid Hn Hall. rewrite <-last_write_app.
  destruct n; try (exfalso; unfold network_maps in Hn; set_solver); cbn [section_writes merged r_id r_flags
      r_network_rules r_ip_rules r_domain_rules r_proxy].
  - rewrite last_write_app, Hid. unfold last_write. cbn [last_such].
    destruct (decide (writes_to _ _ (Write _ _ [policy_flags_to_u8 (r_flags new)]))); [done|].
    by rewrite decide_False.
  - by rewrite bind_app, Hid.
  - by rewrite bind_app, omap_app, Hid.
  - destruct (r_proxy new) as [p|] eqn:Hp; [|by rewrite Hid, app_nil_r].
    rewrite last_write_app, Hid.
    destruct (last_write _ k (omap _ (option_list (Some p) ≫= _))) as [v|] eqn:Hl; [done|].
    assert (all_writes (proxy_steps (r_id new) p)) as Hpw.
    { unfold role_steps, all_writes in Hall. rewrite Hp, !Forall_app in Hall.
      destruct Hall as (_ & _ & _ & _ & _ & _ & Hall). change (option_list (Some p)) with [p] in Hall.
      by rewrite bind_cons, app_nil_r in Hall. }
    change (option_list (Some p)) with [p] in Hl. rewrite bind_cons, app_nil_r in Hl.
    destruct (last_write _ k (omap _ (option_list (r_proxy old) ≫= _))) eqn:Ho; [|done]. exfalso.
    apply (proxy_section_last _ _ k Hpw); [|done]. apply (proxy_key _ (r_proxy old)). by rewrite Ho.
  - by rewrite bind_app, Hid.
  - by rewrite bind_app, Hid.
Qed.

Lemma redefined_tables sink (Hsink : map_sink sink) old new s s1 s2 sk sk' :
  r_id old = r_id new -> fresh_role s (r_id new) ->
  apply_role old s = (inr sk, s1) -> apply_role new s1 = (inr sk', s2) ->
  tables_in network_maps (merged old new) s2.
Proof.
  intros Hid Hf H1 (_ & Hall & ->)%(apply_role_ok sink Hsink) n k Hn Hk.
  assert (n ∈ policy_maps) as Hn' by (unfold network_maps, policy_maps in *; set_solver).
  rewrite merged_section, puts_lookup, role_last_write by done.
  destruct (last_write n k (section_writes new n)); [done|].
  rewrite <-role_last_write by done.
  apply (applied_tables sink Hsink old s sk s1); [by rewrite Hid|done|done|]. by rewrite Hid.
Qed.
End redefinition.

(** ** Ranges wider than the map *)

Section capacity.
Context `{Resolver : !DomainResolver}.

(** The sections before the address rules. *)
Definition head_writes (role : Role) : list write :=
  Write N_role_flags (to_ne_bytes 4 (r_id role)) [policy_flags_to_u8 (r_flags role)]
  :: state_writes N_path_states (r_id role) (file_rules role)
  ++ state_writes N_exec_states (r_id role) (exec_rules role)
  ++ (r_network_rules role ≫= network_writes (r_id role)).

Lemma role_steps_head role :
  role_steps role = (inl <$> head_writes role)
  ++ (r_ip_rules role ≫= ip_steps (r_id role))
  ++ (inl <$> (r_domain_rules role ≫= domain_writes (r_id role)))
  ++ (option_list (r_proxy role) ≫= proxy_steps (r_id role)).
Proof.
  unfold role_steps, head_writes, flag_step. rewrite fmap_cons, !fmap_app. cbn [app]. by rewrite <-!app_assoc.
Qed.

Lemma head_map role w :
  w ∈ head_writes role -> w_map w ∈ [N_role_flags; N_path_states; N_exec_states; N_network_rules].
Proof.
  unfold head_writes. intros [->|[Hin|[Hin|Hin]%elem_of_app]%elem_of_app]%elem_of_cons; [set_solver|..].
  - apply state_write_key in Hin as [-> _]. set_solver.
  - apply state_write_key in Hin as [-> _]. set_solver.
  - apply list_elem_of_bind in Hin as (r & (? & ? & ? & ->)%network_write_in & _). set_solver.
Qed.

Lemma run_inl ws s : for_each run_step (inl <$> ws) s = for_each do_write ws s.
Proof.
  rewrite steps_writes, omap_inl; [done|]. unfold all_writes. apply Forall_fmap, Forall_forall. by eexists.
Qed.

(** A write leaves its key present. *)
Lemma written_present ws s w : w ∈ ws -> is_Some (map_by_name (w_map w) (puts ws s) !! w_key w).
Proof.
  intros Hin. rewrite puts_lookup. destruct (last_write (w_map w) (w_key w) ws) eqn:Hl; [done|].
  apply last_write_None in Hl. rewrite Forall_forall in Hl. by destruct (Hl w Hin).
Qed.

(** The keys of a range, both directions. *)
Definition range_keys (id protocol start : Z) (count : Z) : list bytes :=
  ((fun port => codec_net_rule_key id port protocol BIND) <$> seqZ start count)
  ++ ((fun port => codec_net_rule_key id port protocol CONNECT) <$> seqZ start count).

Lemma length_range_keys id protocol start count :
  0 <= count -> Z.of_nat (length (range_keys id protocol start count)) = 2 * count.
Proof. intros ?. unfold range_keys. rewrite length_app, !length_fmap, length_seqZ. lia. Qed.

Lemma NoDup_range_keys id protocol start count :
  in_width 32 id -> is_byte protocol -> 0 <= start -> start + count <= 2 ^ 16 ->
  NoDup (range_keys id protocol start count).
Proof.
  intros Hid Hp Hs Hc.
  assert (forall port, port ∈ seqZ start count -> in_width 16 port) as Hw
    by (intros port Hin%elem_of_seqZ; unfold in_width; lia).
  assert (is_byte BIND /\ is_byte CONNECT) as [HB HC] by (unfold is_byte; vm_compute; split; split; congruence).
  apply NoDup_app. split_and!.
  - apply NoDup_fmap_2_strong; [|apply NoDup_seqZ]. intros x y Hx Hy Heq.
    by apply net_key_inj in Heq as (? & _); auto.
  - intros k (x & -> & Hx)%list_elem_of_fmap (y & Heq & Hy)%list_elem_of_fmap.
    by apply net_key_inj in Heq as (_ & _ & ?); auto.
  - apply NoDup_fmap_2_strong; [|apply NoDup_seqZ]. intros x y Hx Hy Heq.
    by apply net_key_inj in Heq as (? & _); auto.
Qed.

(** The rule names a range of more ports than the map has room for. *)
Definition too_wide (r : NetworkRule) : Prop :=
  exists protocol start end_, protocol_named protocol (nr_protocol r)
  /\ nr_port_start r = Some start /\ nr_port_end r = Some end_
  /\ capacity N_network_rules < 2 * (end_ - start + 1).

Lemma wide_keys_written id r s ws :
  too_wide r -> network_writes id r ⊆ ws -> in_width 32 id -> rule_typed r ->
  capacity N_network_rules < Z.of_nat (size (map_by_name N_network_rules (puts ws s))).
Proof.
  intros (protocol & start & end_ & Hp & Hs & He & Hcap) Hsub Hid Hr.
  assert (capacity N_network_rules = 4096) as Hc by done.
  assert (rule_covers protocol start r /\ rule_covers protocol end_ r) as [Hcs Hce]
    by (unfold rule_covers; rewrite Hs, He; split; split; try done; lia).
  apply covers_range in Hcs as [[Hs0 Hs1] Hb], Hce as [[_ He1] _]; [|done..].
  rewrite <-(length_range_keys id protocol start (end_ - start + 1)) in Hcap by lia.
  eapply Z.lt_le_trans; [exact Hcap|]. apply inj_le, size_ge_keys; [apply NoDup_range_keys; auto; lia|].
  intros k Hk.
  assert (exists port d, port ∈ seqZ start (end_ - start + 1) /\ d ∈ [BIND; CONNECT]
      /\ k = codec_net_rule_key id port protocol d) as (port & d & Hport & Hd & ->).
  { unfold range_keys in Hk. apply elem_of_app in Hk as [Hk|Hk]; apply list_elem_of_fmap in Hk as (port & -> & Hin);
      [exists port, BIND|exists port, CONNECT]; set_solver. }
  apply (written_present ws s (network_write id protocol (nr_allow r) port d)), Hsub.
  unfold network_writes, expand_network_rule. rewrite (proj2 (parse_protocol_named _ _) Hp), Hs, He.
  destruct (Z.ltb_spec end_ start); [apply elem_of_seqZ in Hport; lia|]. apply list_elem_of_bind. exists port. split; [|done].
  apply list_elem_of_fmap. eauto.
Qed.

Lemma wide_range_fails sink (Hsink : map_sink sink) role r s :
  within_capacity s -> role_ok role -> r ∈ r_network_rules role -> too_wide r ->
  exists e done_, (apply_role role s) = (inl e, puts done_ s) /\ done_ `prefix_of` head_writes role.
Proof.
  intros Hc Hok Hin Hwide. rewrite (apply_role_emits sink Hsink role). unfold io_bind.
  rewrite role_steps_head, for_each_app. unfold io_bind. rewrite run_inl.
  destruct (for_each do_write (head_writes role) s) as [[e|u] s1] eqn:Hw.
  - apply writes_prefix in Hw as (d & Hd & ->). by exists e, d.
  - exfalso. pose proof (writes_capacity (head_writes role) s Hc N_network_rules) as Hcap.
    rewrite Hw in Hcap. cbn [snd] in Hcap. apply writes_ok in Hw as ->.
    pose proof (rk_ports _ Hok) as Hports. rewrite Forall_forall in Hports.
    pose proof (wide_keys_written (r_id role) r s (head_writes role) Hwide) as Hbig.
    assert (network_writes (r_id role) r ⊆ head_writes role) as Hsub.
    { intros w Hw. unfold head_writes. apply elem_of_cons. right. rewrite !elem_of_app. right. right.
      apply list_elem_of_bind. eauto. }
    specialize (Hbig Hsub (rk_id _ Hok) (Hports r Hin)). lia.
Qed.
End capacity.

(** ** Properties *)

(** C39. Redefining a role adds to it: when a role is applied over an earlier
    definition of the same id, binds and connects of its tasks are decided by
    the old rules followed by the new ones, with the new flags, and by the old
    proxy if the new definition has none.  A rule that the new definition drops
    stays in force. *)
Theorem redefinition_merges `{Resolver : !DomainResolver} `{KL : KernelLayout} (e : hook_env)
    (sock address : Z) (dest : option ipv4) (port : Z) (old new : Role) (s s1 s2 s' : bpf_state)
    (sk sk' : list skip) :
  r_id old = r_id new -> role_ok (merged old new) -> fresh_role s (r_id new) ->
  apply_role (Sink := TrackerSink) old s = (inr sk, s1) ->
  apply_role (Sink := TrackerSink) new s1 = (inr sk', s2) ->
  same_policy s2 s' -> jailed_as e (r_id new) s' -> dest_is (e_mem e) address dest port ->
  ((socket_bind e sock address s').1 = 0
   <-> port_permitted (merged old new) (endpoint (e_mem e) sock address) = true)
  /\ ((socket_connect e sock address s').1 = 0
      <-> connect_permitted (merged old new) dest port (endpoint (e_mem e) sock address) = true).
Proof.
  intros Hid Hok Hf H1 H2 Hs Hj Hd.
  assert (tables_in network_maps (merged old new) s') as Ht.
  { intros n k Hn Hk. rewrite (Hs n) by (unfold network_maps, policy_maps in *; set_solver).
    by eapply (redefined_tables TrackerSink tracker_map_sink). }
  split; [by apply bind_permitted|by apply connect_decided].
Qed.

(** The agent's role redefined with nothing left in it. *)
Definition closed_role : Role :=
  MkRole 7 (text "agent") (MkPolicyFlags false false false false true false false false false)
    [] [] [] false [] [] None.

Definition closed_state : bpf_state :=
  (apply_role (Sink := TrackerSink) (Resolver := one_name) closed_role agent_state).2.

Lemma closed_applies :
  apply_role (Sink := TrackerSink) (Resolver := one_name) closed_role agent_state = (inr [], closed_state).
Proof. vm_compute. reflexivity. Qed.

Definition closed_jailed : bpf_state := set_task_storage (fun _ => {[TASK := jailed_info]}) closed_state.

(** The new definition permits no connection; the connection goes through. *)
Lemma redefinition_merges_witness :
  connect_permitted (Resolver := one_name) closed_role (Some (Ipv4 10 1 2 3)) 443 (Some (PROTO_TCP, 443)) = false
  /\ (socket_connect (env_with mem_etc) SOCK ADDR4 closed_jailed).1 = 0.
Proof.
  split; [vm_compute; reflexivity|].
  apply (redefinition_merges (Resolver := one_name) (env_with mem_etc) SOCK ADDR4 (Some (Ipv4 10 1 2 3)) 443
    agent_role closed_role init_state agent_state closed_state closed_jailed
    [SkipNetworkRule (text "icmp"); SkipUnresolved (text "nowhere")] []).
  - reflexivity.
  - split; [vm_compute; split; congruence|apply (bool_decide_unpack _); vm_compute; exact I..].
  - apply init_fresh.
  - apply agent_applies.
  - apply closed_applies.
  - unfold closed_jailed. generalize closed_state. intros st n _. by destruct n.
  - exists jailed_info. split_and!; [vm_compute; reflexivity|vm_compute; congruence|reflexivity].
  - split_and!; [apply Ipv4_ok; unfold is_byte; lia|vm_compute; congruence|vm_compute; reflexivity].
  - vm_compute. reflexivity.
Defined.

(** A role with a port range of more than 2048 ports can never be applied:
    the port table overflows whatever it held before, applying the role fails,
    and its address rules, domain rules and proxy are not written at all. *)
Theorem wide_range_aborts `{Resolver : !DomainResolver} (role : Role) (r : NetworkRule) (s : bpf_state) :
  within_capacity s -> role_ok role -> r ∈ r_network_rules role -> too_wide r ->
  exists err s', apply_role (Sink := TrackerSink) role s = (inl err, s')
    /\ forall n, n ∈ [N_ip_rules; N_domain_rules; N_dns_cache; N_proxy_config] ->
         map_by_name n s' = map_by_name n s.
Proof.
  intros Hc Hok Hin Hw.
  destruct (wide_range_fails TrackerSink tracker_map_sink role r s Hc Hok Hin Hw) as (err & d & -> & Hd).
  exists err, (puts d s). split; [done|]. intros n Hn. apply map_eq. intros k. rewrite puts_lookup.
  rewrite last_write_other; [done|]. apply Forall_forall. intros w Hwd Heq.
  assert (w ∈ head_writes role) as Hmap%head_map by (destruct Hd as [d' ->]; set_solver).
  rewrite Heq in Hmap. clear -Hn Hmap. set_unfold. intuition congruence.
Qed.

(** Unprivileged ports open, through a required proxy. *)
Definition proxied_role : Role :=
  MkRole 7 (text "proxied") (MkPolicyFlags true true true false true false false false true) []
    [MkNetworkRule (text "tcp") None None (Some 1024) (Some 65535) true] [] false [] []
    (Some (MkPolicyProxy (text "10.0.0.1:3128") true)).

Lemma wide_range_aborts_witness :
  exists err s', apply_role (Sink := TrackerSink) (Resolver := one_name) proxied_role init_state = (inl err, s')
    /\ m_proxy_config s' = ∅.
Proof.
  destruct (wide_range_aborts (Resolver := one_name) proxied_role
    (MkNetworkRule (text "tcp") None None (Some 1024) (Some 65535) true) init_state) as (err & s' & Ha & Hn).
  - intros []; vm_compute; congruence.
  - split; [vm_compute; split; congruence|apply (bool_decide_unpack _); vm_compute; exact I..].
  - set_solver.
  - exists PROTO_TCP, 1024, 65535. split; [left; by vm_compute|]. split_and!; vm_compute; reflexivity.
  - exists err, s'. split; [exact Ha|]. apply (Hn N_proxy_config). clear. set_solver.
Defined.

(** A range that starts at port 0 speaks for every port: row 0 is the row for
    any port. *)
Example range_from_zero :
  port_permitted
    (MkRole 7 (text "low") (MkPolicyFlags true false true false true false false false false) []
      [MkNetworkRule (text "tcp") None None (Some 0) (Some 1023) true] [] false [] [] None)
    (Some (PROTO_TCP, 8080)) = true.
Proof. vm_compute. reflexivity. Qed.
