(* ===== verification/System.v ===== *)
(** * The system as a transition system

    One [event] is one hook invocation, one write by userspace, or the kernel
    freeing a task.  [step] composes the hooks as the kernel runs them; the
    theorems are invariants of every sequence of events. *)

From S2P Require Import Prelude CLayout BpfMap Kernel KernelTypes Types Machine Scenario Hash PathWalk StateMachine Enrollment Hooks FileOpen Network Exec Guards.

Section system.
Context `{KL : KernelLayout}.

Inductive event :=
| EvTaskAlloc (e : hook_env) (task : Z)
| EvFileOpen (e : hook_env) (file : Z)
| EvSocketBind (e : hook_env) (sock address : Z)
| EvSocketConnect (e : hook_env) (sock address : Z)
| EvSocketSendmsg (e : hook_env) (sock msg size : Z)
| EvBprmCheck (e : hook_env) (bprm : Z)
| EvPathRename (e : hook_env) (old_dentry : Z)
| EvSbMount
| EvSbUmount
| EvPtrace (e : hook_env) (child : Z)
| EvModuleRequest (e : hook_env) (kmod_name : Z)
| EvBpf (e : hook_env) (cmd attr size : Z)
| EvEnrollRequest (pid : Z) (info : process_info)   (* userspace writes pending_enrollments *)
| EvPolicyUpdate (s' : bpf_state)                   (* userspace rewrites the policy maps *)
| EvTaskFree (task : Z).                            (* the kernel drops a task's storage *)

(** The maps a policy load may rewrite; everything else is kept. *)
Definition policy_frame (s s' : bpf_state) : Prop :=
  m_task_storage s' = m_task_storage s /\ m_pending_enrollments s' = m_pending_enrollments s
  /\ m_path_buf s' = m_path_buf s /\ m_audit_events s' = m_audit_events s.

(** What an event does: the verdict (0 where there is none) and the state. *)
Definition run_event (ev : event) : prog Z :=
  match ev with
  | EvTaskAlloc e task => task_alloc e task
  | EvFileOpen e file => file_open e file
  | EvSocketBind e sock address => socket_bind e sock address
  | EvSocketConnect e sock address => socket_connect e sock address
  | EvSocketSendmsg e sock msg size => socket_sendmsg e sock msg size
  | EvBprmCheck e bprm => bprm_check_security e bprm
  | EvPathRename e old_dentry => path_rename e old_dentry
  | EvSbMount => sb_mount
  | EvSbUmount => sb_umount
  | EvPtrace e child => ptrace_access_check e child
  | EvModuleRequest e kmod_name => kernel_module_request e kmod_name
  | EvBpf e cmd attr size => bpf e cmd attr size
  | EvEnrollRequest pid info =>
      modify (set_pending_enrollments (fun m => (map_update pending_enrollments [] m pid info).2)) ;;;
      ret 0
  | EvPolicyUpdate s' => fun _ => (0, s')
  | EvTaskFree task => modify (set_task_storage (delete task)) ;;; ret 0
  end.

(** When an event can happen: [task_alloc] is about a task that is new, hence
    without storage and not the one calling fork; a policy load touches the
    policy maps only. *)
Definition enabled (ev : event) (s : bpf_state) : Prop :=
  match ev with
  | EvTaskAlloc e task => m_task_storage s !! task = None /\ task <> e_current_task e
  | EvPolicyUpdate s' => policy_frame s s'
  | _ => True
  end.

Inductive step : event -> bpf_state -> bpf_state -> Prop :=
| step_event ev s : enabled ev s -> step ev s (run_event ev s).2.

Inductive steps : list event -> bpf_state -> bpf_state -> Prop :=
| steps_nil s : steps [] s s
| steps_cons ev evs s s1 s2 : step ev s s1 -> steps evs s1 s2 -> steps (ev :: evs) s s2.

(** The run of a list of events, when each can happen in turn. *)
Fixpoint run_events (evs : list event) (s : bpf_state) : bpf_state :=
  match evs with
  | [] => s
  | ev :: evs' => run_events evs' (run_event ev s).2
  end.

Fixpoint all_enabled (evs : list event) (s : bpf_state) : Prop :=
  match evs with
  | [] => True
  | ev :: evs' => enabled ev s /\ all_enabled evs' (run_event ev s).2
  end.

Lemma steps_run evs s : all_enabled evs s -> steps evs s (run_events evs s).
Proof.
  revert s. induction evs as [|ev evs IH]; intros s; [constructor|].
  intros [He Hall]. econstructor; [by constructor|]. by apply IH.
Qed.

(** ** What each event does to the task storage *)

Lemma file_open_storage e file s :
  m_task_storage (file_open e file s).2 = m_task_storage (after_pending e s).
Proof.
  rewrite file_open_eq. destruct (m_task_storage _ !! _) as [info|]; [|done].
  destruct (pi_pod_id info =? 0); [done|].
  destruct (map_lookup role_flags _ _) as [flags|]; [|done].
  destruct (f_path_dentry (e_mem e) file =? 0); [by case_match|].
  pose proof (file_path_decision_frame e info (f_path_dentry (e_mem e) file)
      (f_path_mnt (e_mem e) file) (after_pending e s)) as (Hs & _).
  destruct (file_path_decision _ _ _ _ _) as [[r|] s']; simpl in *; [done|]. by case_match.
Qed.

(** An exec adds at most one record, for the current task, and only when that
    task is not jailed. *)
Lemma bprm_storage_jailed e bprm s info :
  exec_info e s = Some info -> pi_pod_id info <> 0 ->
  m_task_storage (bprm_check_security e bprm s).2 = m_task_storage (after_pending e s).
Proof.
  intros Hi Hp. rewrite (bprm_jailed _ _ _ _ Hi Hp).
  destruct (map_lookup role_flags _ _) as [flags|]; [|done].
  destruct (bprm_file (e_mem e) bprm =? 0); [by case_match|].
  pose proof (exec_path_decision_frame e info (bprm_file (e_mem e) bprm) (after_pending e s))
    as [(Hs & _) _].
  destruct (exec_path_decision _ _ _ _) as [[r|] s']; simpl in *; [done|]. by case_match.
Qed.

Lemma bprm_storage_other e bprm s t :
  t <> e_current_task e ->
  m_task_storage (bprm_check_security e bprm s).2 !! t = m_task_storage s !! t.
Proof.
  intros Hne. rewrite <-(check_pending_storage e (e_current_task e) (current_pid e) s t Hne).
  fold (after_pending e s).
  destruct (exec_info e s) as [info|] eqn:Hi; [|by rewrite bprm_no_storage].
  destruct (Z.eq_dec (pi_pod_id info) 0) as [Hp|Hp]; [|by erewrite bprm_storage_jailed].
  rewrite (bprm_unjailed _ _ _ _ Hi Hp). unfold exec_state.
  repeat (case_match; simpl); by rewrite ?lookup_insert_ne.
Qed.

Lemma audit_only_storage {A} (res : A * bpf_state) s :
  res.2 = s \/ (exists ev, res.2 = set_audit_events (cons ev) s) ->
  m_task_storage res.2 = m_task_storage s.
Proof. intros [->|[ev ->]]; done. Qed.

(** A jailed task keeps its record, or takes the one requested for its pid
    when it runs a hook that looks for requests. *)
Lemma step_jailed_record ev s s' t info :
  step ev s s' -> m_task_storage s !! t = Some info -> pi_pod_id info <> 0 ->
  ev <> EvTaskFree t ->
  m_task_storage s' !! t = Some info
  \/ exists e p, e_current_task e = t /\ pending_for s (current_pid e) = Some p
  /\ m_task_storage s' !! t = Some p
  /\ ((exists file, ev = EvFileOpen e file) \/ (exists bprm, ev = EvBprmCheck e bprm)).
Proof.
  intros [ev' s0 Hen] Ht Hp Hfree.
  assert (forall e, m_task_storage (after_pending e s0) !! t = Some info
      \/ exists p, e_current_task e = t /\ pending_for s0 (current_pid e) = Some p
      /\ m_task_storage (after_pending e s0) !! t = Some p) as Hpend.
  { intros e. destruct (decide (t = e_current_task e)) as [->|Hne].
    - unfold after_pending. rewrite check_pending_self, Ht, bool_decide_eq_true_2 by eauto.
      simpl. destruct (pending_for s0 _) as [p|]; eauto.
    - left. unfold after_pending. by rewrite check_pending_storage. }
  destruct ev' as [e task|e file|e sock a|e sock a|e sock msg sz|e bprm|e d| | |e child|e k|e c a z
      |pid i|s''|task]; cbn [run_event enabled] in *.
  - left. destruct Hen as [Hn Hne]. rewrite task_alloc_storage; [done|]. intros ->. by rewrite Ht in Hn.
  - rewrite file_open_storage. destruct (Hpend e) as [?|(p & ? & ? & ?)]; [by left|]. right. eauto 10.
  - left. by rewrite (audit_only_storage _ _ (socket_bind_frame e sock a s0)).
  - left. by rewrite (audit_only_storage _ _ (socket_connect_frame e sock a s0)).
  - by left.
  - destruct (decide (t = e_current_task e)) as [->|Hne];
      [|left; by rewrite bprm_storage_other].
    assert (exists i, exec_info e s0 = Some i /\ pi_pod_id i <> 0) as (i & Hi & Hip).
    { unfold exec_info. destruct (Hpend e) as [->|(p & _ & Hpf & ->)]; [by eauto|].
      apply pending_for_pod in Hpf. eauto. }
    rewrite (bprm_storage_jailed _ _ _ _ Hi Hip).
    destruct (Hpend e) as [?|(p & ? & ? & ?)]; [by left|]. right. eauto 10.
  - left. unfold path_rename, bind, ret. case_match; [done|]. by rewrite bump_generation_eq.
  - left. unfold sb_mount, bind. by rewrite bump_generation_eq.
  - left. unfold sb_umount, bind. by rewrite bump_generation_eq.
  - left. by rewrite (audit_only_storage _ _ (ptrace_frame e child s0)).
  - left. unfold kernel_module_request. by rewrite (audit_only_storage _ _ (guard_current_frame e _ s0)).
  - left. unfold bpf. by rewrite (audit_only_storage _ _ (guard_current_frame e _ s0)).
  - by left.
  - left. destruct Hen as (Hs & _). cbn. by rewrite Hs.
  - left. cbn. rewrite lookup_delete_ne; [done|]. congruence.
Qed.

Lemma enrolled_spec s t :
  enrolled s t = true <-> exists info, m_task_storage s !! t = Some info /\ pi_pod_id info <> 0.
Proof.
  unfold enrolled. destruct (m_task_storage s !! t) as [info|]; [|naive_solver].
  rewrite negb_true_iff, Z.eqb_neq. naive_solver.
Qed.

Lemma step_enrolled ev s s' t :
  step ev s s' -> ev <> EvTaskFree t -> enrolled s t = true -> enrolled s' t = true.
Proof.
  rewrite !enrolled_spec. intros Hst Hfree (info & Ht & Hp).
  destruct (step_jailed_record _ _ _ _ _ Hst Ht Hp Hfree) as [?|(e & p & _ & Hpf & ? & _)];
    [by eauto|]. exists p. split; [done|]. by eapply pending_for_pod.
Qed.

Lemma steps_enrolled evs s s' t :
  steps evs s s' -> EvTaskFree t ∉ evs -> enrolled s t = true -> enrolled s' t = true.
Proof.
  induction 1 as [|ev evs s s1 s2 Hst _ IH]; [done|]. intros Hnf He.
  apply not_elem_of_cons in Hnf as [? ?]. apply IH; [done|]. by eapply step_enrolled.
Qed.

(** ** Forking *)

(** The tasks known to be jailed: those in [J], and every task one of them
    forks while its storage can be allocated. *)
Definition jail_fork (J : gset Z) (ev : event) : gset Z :=
  match ev with
  | EvTaskAlloc e task =>
      if bool_decide (e_current_task e ∈ J) && e_storage_alloc e task then {[task]} ∪ J else J
  | _ => J
  end.

Lemma step_forked ev s s' (J : gset Z) :
  step ev s s' -> (forall t, ev <> EvTaskFree t) ->
  (forall t, t ∈ J -> enrolled s t = true) ->
  forall t, t ∈ jail_fork J ev -> enrolled s' t = true.
Proof.
  intros Hst Hfree HJ t Ht.
  assert (t ∈ J -> enrolled s' t = true) as Hold by (intros; eapply step_enrolled; eauto).
  destruct ev as [e task| | | | | | | | | | | | | | ]; simpl in Ht; auto.
  case_bool_decide as HeJ; [|by auto]. destruct (e_storage_alloc e task) eqn:Ha; [|by auto].
  simpl in Ht. apply elem_of_union in Ht as [->%elem_of_singleton|Ht]; [|by auto].
  inversion Hst as [ev0 s0 Hen]; subst. destruct Hen as [Hn Hne].
  apply HJ, enrolled_spec in HeJ as (info & Hi & Hp). apply enrolled_spec. exists info. split; [|done].
  cbn [run_event]. rewrite task_alloc_child; [|done|by rewrite Ha, orb_true_r].
  apply Z.eqb_neq in Hp. by rewrite Hi, Hp.
Qed.

Lemma steps_forked evs s s' J :
  steps evs s s' -> Forall (fun ev => forall t, ev <> EvTaskFree t) evs ->
  (forall t, t ∈ J -> enrolled s t = true) ->
  forall t, t ∈ fold_left jail_fork evs J -> enrolled s' t = true.
Proof.
  intros Hst. revert J. induction Hst as [|ev evs s s1 s2 Hst _ IH]; intros J Hnf HJ; [done|].
  apply Forall_cons in Hnf as [? ?]. apply IH; [done|]. by eapply step_forked.
Qed.

(** ** Well-formedness is an invariant *)

Lemma decision_frame_ok s s' :
  decision_frame s s' -> length (pc_hashes (m_path_buf s')) = MAX_COMPONENTS ->
  state_ok s -> state_ok s'.
Proof. unfold state_ok, storage_fits. intros (-> & _) Hb [Hs _]. done. Qed.

Lemma audit_only_ok {A} (res : A * bpf_state) s :
  res.2 = s \/ (exists ev, res.2 = set_audit_events (cons ev) s) -> state_ok s -> state_ok res.2.
Proof. intros [->|[ev ->]]; done. Qed.

Lemma file_open_state_ok e file s : state_ok s -> state_ok (file_open e file s).2.
Proof.
  intros Hok%(after_pending_state_ok e). rewrite file_open_eq.
  destruct (m_task_storage _ !! _) as [info|]; [|done].
  destruct (pi_pod_id info =? 0); [done|].
  destruct (map_lookup role_flags _ _) as [flags|]; [|done].
  destruct (f_path_dentry (e_mem e) file =? 0); [by case_match|].
  pose proof (file_path_decision_state_ok e info (f_path_dentry (e_mem e) file)
      (f_path_mnt (e_mem e) file) _ Hok) as Hd.
  destruct (file_path_decision _ _ _ _ _) as [[r|] s']; [done|]. by case_match.
Qed.

Lemma enrollment_value_fits v :
  c_fits exec_enrollment_value_repr v ->
  c_fits process_info_repr (ProcessInfo (ev_pod_id v) (ev_role_id v) 0 0).
Proof.
  unfold c_fits. cbn. intros H.
  apply Forall2_cons_inv_l in H as (? & ? & Hp & H & [= <- <-]).
  apply Forall2_cons_inv_l in H as (? & ? & Hr & _ & [= <- <-]).
  repeat (apply Forall2_cons; split); try apply List.Forall2_nil; try done;
    unfold slot_fits; cbn; apply in_width_0; lia.
Qed.

Lemma ancestor_loop_fits e s lvl x v :
  (forall w, x = Some w -> c_fits exec_enrollment_value_repr w) ->
  ancestor_loop e s lvl x = Some v -> c_fits exec_enrollment_value_repr v.
Proof.
  revert x. induction lvl as [|lvl IH]; intros x Hx; simpl; [auto|].
  destruct x as [w|]; [auto|]. apply IH. intros w. case_match; [done|].
  apply (map_lookup_fits cgroup_enrollment).
Qed.

Lemma auto_enrollment_fits e s bprm v :
  auto_enrollment e s bprm = Some v -> c_fits exec_enrollment_value_repr v.
Proof.
  unfold auto_enrollment. destruct (exec_enrollment_for e s bprm) as [w|] eqn:Hw.
  - intros [= <-]. unfold exec_enrollment_for in Hw. repeat case_match; try done.
    by eapply (map_lookup_fits exec_enrollment).
  - unfold cgroup_enrollment_for. apply ancestor_loop_fits. intros w.
    apply (map_lookup_fits cgroup_enrollment).
Qed.

Lemma bprm_state_ok e bprm s : state_ok s -> state_ok (bprm_check_security e bprm s).2.
Proof.
  intros Hok. pose proof (after_pending_state_ok e s Hok) as Hok1.
  destruct (exec_info e s) as [info|] eqn:Hi; [|by rewrite bprm_no_storage].
  destruct (Z.eq_dec (pi_pod_id info) 0) as [Hp|Hp].
  - rewrite (bprm_unjailed _ _ _ _ Hi Hp). simpl.
    pose proof (exec_state_ok e s Hok) as Hok2.
    destruct (auto_enrollment e s bprm) as [v|] eqn:Hv; [|done]. destruct Hok2.
    split; [|done]. apply map_Forall_insert_2; [|done].
    by eapply enrollment_value_fits, auto_enrollment_fits.
  - rewrite (bprm_jailed _ _ _ _ Hi Hp).
    destruct (map_lookup role_flags _ _) as [flags|]; [|done].
    destruct (bprm_file (e_mem e) bprm =? 0); [by case_match|].
    assert (state_ok (exec_path_decision e info (bprm_file (e_mem e) bprm) (after_pending e s)).2) as Hd.
    { apply (decision_frame_ok (after_pending e s)); [apply exec_path_decision_frame| |done].
      unfold exec_path_decision, audit_deny_with, emit_audit_event. unfold_prog.
      repeat case_match; simpl; by apply collect_ok, Hok1. }
    destruct (exec_path_decision _ _ _ _) as [[r|] s']; [done|]. by case_match.
Qed.

Lemma bump_state_ok s : state_ok s -> state_ok (bump_generation s).2.
Proof. by rewrite bump_generation_eq. Qed.

Lemma step_state_ok ev s s' : step ev s s' -> state_ok s -> state_ok s'.
Proof.
  intros [ev' s0 Hen] Hok.
  destruct ev' as [e task|e file|e sock a|e sock a|e sock msg sz|e bprm|e d| | |e child|e k|e c a z
      |pid i|s''|task]; cbn [run_event enabled] in *.
  - by apply task_alloc_state_ok.
  - by apply file_open_state_ok.
  - by eapply audit_only_ok, Hok; apply socket_bind_frame.
  - by eapply audit_only_ok, Hok; apply socket_connect_frame.
  - done.
  - by apply bprm_state_ok.
  - unfold path_rename, bind, ret. case_match; [done|]. by rewrite bump_generation_eq.
  - unfold sb_mount, bind. by rewrite bump_generation_eq.
  - unfold sb_umount, bind. by rewrite bump_generation_eq.
  - by eapply audit_only_ok, Hok; apply ptrace_frame.
  - by eapply audit_only_ok, Hok; apply guard_current_frame.
  - by eapply audit_only_ok, Hok; apply guard_current_frame.
  - done.
  - destruct Hen as (Hs & _ & Hb & _). destruct Hok. split; cbn; [|by rewrite Hb].
    unfold storage_fits. by rewrite Hs.
  - destruct Hok as [Hs Hb]. split; [|done]. unfold storage_fits. cbn.
    by apply map_Forall_delete.
Qed.

Lemma init_state_ok : state_ok init_state.
Proof. split; [|done]. apply map_Forall_empty. Qed.

Lemma steps_state_ok evs s s' : steps evs s s' -> state_ok s -> state_ok s'.
Proof. induction 1; eauto using step_state_ok. Qed.

(** ** Who is restricted, and what is recorded *)

(** The environment of a hook, and the task whose record it decides by: the
    current task in every hook but [ptrace_access_check], which looks up the
    record of the traced child and never that of the tracer. *)
Definition env_of (ev : event) : option hook_env :=
  match ev with
  | EvTaskAlloc e _ | EvFileOpen e _ | EvSocketBind e _ _ | EvSocketConnect e _ _
  | EvSocketSendmsg e _ _ _ | EvBprmCheck e _ | EvPathRename e _ | EvPtrace e _
  | EvModuleRequest e _ | EvBpf e _ _ _ => Some e
  | _ => None
  end.

Definition subject_of (ev : event) : option Z :=
  match ev with
  | EvPtrace _ child => Some child
  | _ => e_current_task <$> env_of ev
  end.

(** The hooks that begin by taking over a request that waits for the caller. *)
Definition looks_for_request (ev : event) : bool :=
  match ev with
  | EvFileOpen _ _ | EvBprmCheck _ _ => true
  | _ => false
  end.

(** The hooks that can refuse. *)
Definition can_refuse (ev : event) : bool :=
  match ev with
  | EvFileOpen _ _ | EvSocketBind _ _ _ | EvSocketConnect _ _ _ | EvBprmCheck _ _
  | EvPtrace _ _ | EvModuleRequest _ _ | EvBpf _ _ _ _ => true
  | _ => false
  end.

(** The one denial that leaves no record. *)
Definition silent_denial (ev : event) (s : bpf_state) : Prop :=
  match ev with
  | EvPtrace _ child => exists info, m_task_storage s !! child = Some info
      /\ map_lookup role_flags (m_role_flags s) (pi_role_id info) = None
  | _ => False
  end.

Lemma ptrace_audited e child s :
  audited_verdict e EPERM AUDIT_HOOK_BPRM_CHECK s (ptrace_access_check e child s)
  \/ (ptrace_access_check e child s = (- EPERM, s) /\ silent_denial (EvPtrace e child) s).
Proof.
  unfold ptrace_access_check, task_storage_get, silent_denial. unfold_prog.
  destruct (m_task_storage s !! child) as [info|] eqn:Ht; [|auto with jailer].
  destruct (pi_pod_id info =? 0); [auto with jailer|].
  destruct (map_lookup role_flags _ _) as [flags|] eqn:Hf; [|eauto 10].
  left. case_match; auto with jailer.
Qed.

(** What a denial leaves in the log. *)
Definition recorded_denial (e : hook_env) (s : bpf_state) (res : Z * bpf_state) : Prop :=
  res.1 < 0 /\ exists rec, m_audit_events res.2 = rec :: m_audit_events s
  /\ ae_decision rec = AUDIT_DECISION_DENY /\ ae_pid rec = current_pid e
  /\ ae_timestamp rec = e_ktime_ns e.

Lemma audited_recorded e err hook s res :
  0 < err -> audited_verdict e err hook s res ->
  (res.1 = 0 /\ m_audit_events res.2 = m_audit_events s) \/ recorded_denial e s res.
Proof.
  intros Herr [?|(Hv & role & pod & ctx & Ha)]; [by left|right]. split; [lia|]. by eexists.
Qed.

(** With no request waiting, the hooks that look for one see the task as it
    is. *)
Lemma after_pending_none e s : pending_for s (current_pid e) = None -> after_pending e s = s.
Proof. intros Hp. unfold after_pending. by rewrite check_pending_none. Qed.

End system.

(** The guards that only look at a task's record, down to that lookup. *)
Ltac open_guard :=
  unfold socket_bind, socket_connect, ptrace_access_check, kernel_module_request, bpf,
    guard_current, task_storage_get; unfold_prog.

(** ** Properties *)

(** C13. Once jailed, a task stays jailed: no sequence of hook invocations,
    enrollment requests and policy loads takes its pod away, short of the
    kernel freeing the task. *)
Theorem jail_permanent `{KL : KernelLayout} (evs : list event) (s s' : bpf_state) (t : Z) :
  steps evs s s' -> EvTaskFree t ∉ evs -> enrolled s t = true -> enrolled s' t = true.
Proof. apply steps_enrolled. Qed.


(** A rename, an exec of a registered binary, and a request for another pod. *)
Definition busy_events : list event :=
  [EvPathRename (env_with mem_etc) SHADOW; EvBprmCheck (env_with mem_etc) BPRM;
   EvEnrollRequest 42 (ProcessInfo 2 9 0 0); EvFileOpen (env_with mem_etc) FILE].

Lemma jail_permanent_witness :
  enrolled (run_events busy_events (jailed_state 0 [])) TASK = true.
Proof.
  apply (jail_permanent busy_events (jailed_state 0 [])).
  - apply steps_run. repeat (split; [exact I|]). exact I.
  - unfold busy_events. set_solver.
  - reflexivity.
Defined.

(** C19. One event changes the record of a jailed task (its pod, role, depth or
    flags) only when it is a file open or an exec by that very task while a
    request for its pid is waiting, and then the record becomes the request. *)
Theorem role_changes_by_request `{KL : KernelLayout} (ev : event) (s s' : bpf_state) (t : Z)
    (info : process_info) :
  step ev s s' -> m_task_storage s !! t = Some info -> pi_pod_id info <> 0 -> ev <> EvTaskFree t ->
  m_task_storage s' !! t = Some info
  \/ exists e p, e_current_task e = t /\ pending_for s (current_pid e) = Some p
       /\ m_task_storage s' !! t = Some p
       /\ ((exists file, ev = EvFileOpen e file) \/ (exists bprm, ev = EvBprmCheck e bprm)).
Proof. apply step_jailed_record. Qed.

Lemma role_changes_by_request_witness :
  let s := jailed_state 0 [] in
  m_task_storage (run_event (EvBprmCheck (env_with mem_etc) BPRM) s).2 !! TASK = Some jailed_info.
Proof.
  intros s.
  destruct (role_changes_by_request (EvBprmCheck (env_with mem_etc) BPRM) s
    (run_event (EvBprmCheck (env_with mem_etc) BPRM) s).2 TASK jailed_info)
    as [H|(e & p & _ & H & _)].
  - apply step_event. exact I.
  - reflexivity.
  - vm_compute. congruence.
  - congruence.
  - exact H.
  - exfalso. unfold pending_for in H. rewrite map_lookup_hash in H by reflexivity.
    change (m_pending_enrollments s) with (∅ : bpf_map) in H. by rewrite lookup_empty in H.
Defined.

(** C14. A jail contains its descendants: along any run in which no task is
    freed, every task forked, at any remove, from a jailed task while its
    storage could be allocated is jailed at the end. *)
Theorem descendants_contained `{KL : KernelLayout} (evs : list event) (s s' : bpf_state) (J : gset Z) :
  steps evs s s' -> Forall (fun ev => forall t, ev <> EvTaskFree t) evs ->
  (forall t, t ∈ J -> enrolled s t = true) ->
  forall t, t ∈ fold_left jail_fork evs J -> enrolled s' t = true.
Proof. apply steps_forked. Qed.

(** [TASK] forks [CHILD]. *)
Lemma descendants_contained_witness :
  enrolled (run_events [EvTaskAlloc (env_with mem_etc) CHILD] (jailed_state 0 [])) CHILD = true.
Proof.
  apply (descendants_contained [EvTaskAlloc (env_with mem_etc) CHILD] (jailed_state 0 []) _ {[TASK]}).
  - apply steps_run. split; [|exact I]. split; [reflexivity|vm_compute; congruence].
  - repeat constructor. intros t. congruence.
  - intros t ->%elem_of_singleton. reflexivity.
  - apply (bool_decide_unpack _). vm_compute. exact I.
Defined.

(** C15. Every event either succeeds without touching the audit log, or refuses
    after adding exactly one denial record with the caller's pid and the time.
    The one exception is tracing a jailed task whose role has no flags, which is
    refused with no record. *)
Theorem denials_audited `{KL : KernelLayout} (ev : event) (s : bpf_state) :
  enabled ev s ->
  ((run_event ev s).1 = 0 /\ m_audit_events (run_event ev s).2 = m_audit_events s)
  \/ (can_refuse ev = true /\ exists e, env_of ev = Some e /\ recorded_denial e s (run_event ev s))
  \/ ((run_event ev s).1 < 0 /\ (run_event ev s).2 = s /\ silent_denial ev s).
Proof.
  intros Hen.
  assert (forall e err hook, can_refuse ev = true -> env_of ev = Some e -> 0 < err ->
    audited_verdict e err hook s (run_event ev s) ->
    ((run_event ev s).1 = 0 /\ m_audit_events (run_event ev s).2 = m_audit_events s)
    \/ (can_refuse ev = true /\ exists e, env_of ev = Some e /\ recorded_denial e s (run_event ev s)))
    as Hrec.
  { intros e err hook Hc He Herr [?|?]%audited_recorded; eauto. }
  assert (0 < EACCES /\ 0 < EPERM) as [Ha Hp] by done.
  destruct ev as [e task|e file|e sock a|e sock a|e sock msg sz|e bprm|e d| | |e child|e k|e c a z
    |pid i|s''|task]; cbn [run_event enabled] in *.
  - left. split; [apply task_alloc_verdict|apply task_alloc_frame].
  - rewrite assoc by apply _. left. eapply Hrec, file_open_audited; done.
  - rewrite assoc by apply _. left. eapply Hrec, socket_bind_audited; done.
  - rewrite assoc by apply _. left. eapply Hrec, socket_connect_audited; done.
  - by left.
  - rewrite assoc by apply _. left. eapply Hrec, bprm_audited; done.
  - left. unfold path_rename, bind, ret. case_match; [done|]. by rewrite bump_generation_eq.
  - left. unfold sb_mount, bind. by rewrite bump_generation_eq.
  - left. unfold sb_umount, bind. by rewrite bump_generation_eq.
  - rewrite assoc by apply _.
    destruct (ptrace_audited e child s) as [H|[H Hs]]; [left; eapply Hrec, H; done|right].
    rewrite H. split_and!; done.
  - rewrite assoc by apply _. left. eapply Hrec, guard_current_audited; done.
  - rewrite assoc by apply _. left. eapply Hrec, guard_current_audited; done.
  - by left.
  - left. destruct Hen as (_ & _ & _ & ?). done.
  - by left.
Qed.

(** The denial of /etc/shadow is recorded. *)
Lemma denials_audited_witness :
  recorded_denial (env_with mem_etc) (jailed_state 0x01 deny_etc)
    (run_event (EvFileOpen (env_with mem_etc) FILE) (jailed_state 0x01 deny_etc)).
Proof.
  destruct (denials_audited (EvFileOpen (env_with mem_etc) FILE) (jailed_state 0x01 deny_etc))
    as [[H _]|[(_ & e & He & H)|(_ & _ & H)]].
  - exact I.
  - exfalso. revert H. vm_compute. congruence.
  - injection He as <-. exact H.
  - destruct H.
Defined.

(** C20. Whatever the policy maps hold, no hook refuses on account of a task
    that is not jailed: neither the caller, provided that an open or exec finds
    no request waiting for it, nor, for ptrace, the traced task, whose record is
    the one that hook decides by.  (An unjailed tracer can still be refused a
    jailed target, and a jailed tracer is not refused an unjailed one.) *)
Theorem unjailed_unrestricted `{KL : KernelLayout} (ev : event) (s : bpf_state) (e : hook_env) (t : Z) :
  env_of ev = Some e -> subject_of ev = Some t ->
  enrolled s t = false ->
  (looks_for_request ev = true -> pending_for s (current_pid e) = None) ->
  (run_event ev s).1 = 0.
Proof.
  intros He Ht Hen Hpend.
  assert (looks_for_request ev = true -> after_pending e s = s) as Hap
    by auto using after_pending_none.
  destruct ev as [e' task|e' file|e' sock a|e' sock a|e' sock msg sz|e' bprm|e' d| | |e' child|e' k|e' c a z
    |pid i|s''|task]; cbn in He, Ht; simplify_eq; cbn [run_event]; unfold enrolled in Hen.
  - apply task_alloc_verdict.
  - rewrite file_open_eq, (Hap eq_refl). destruct (m_task_storage s !! _) as [info|]; [|done].
    by apply negb_false_iff in Hen as ->.
  - open_guard. destruct (m_task_storage s !! _); [|done]. by apply negb_false_iff in Hen as ->.
  - open_guard. destruct (m_task_storage s !! _); [|done]. by apply negb_false_iff in Hen as ->.
  - done.
  - destruct (exec_info e s) as [info|] eqn:Hi; [|by rewrite bprm_no_storage].
    rewrite (bprm_unjailed _ _ _ _ Hi); [done|]. unfold exec_info in Hi. rewrite (Hap eq_refl) in Hi.
    destruct (m_task_storage s !! _) as [i|]; [|by case_match; simplify_eq].
    simplify_eq. by apply negb_false_iff, Z.eqb_eq in Hen.
  - unfold path_rename, bind. destruct (d_inode _ _ =? 0); [done|]. by rewrite bump_generation_eq.
  - open_guard. destruct (m_task_storage s !! _); [|done]. by apply negb_false_iff in Hen as ->.
  - open_guard. destruct (m_task_storage s !! _); [|done]. by apply negb_false_iff in Hen as ->.
  - open_guard. destruct (m_task_storage s !! _); [|done]. by apply negb_false_iff in Hen as ->.
Qed.

Lemma unjailed_unrestricted_witness :
  (run_event (EvPtrace (env_with mem_etc) CHILD) (jailed_state 0 [])).1 = 0.
Proof.
  apply (unjailed_unrestricted _ _ (env_with mem_etc) CHILD); [reflexivity..|discriminate].
Defined.

(** C16. Default deny: when role_flags has no entry for the role of a jailed
    task, every hook that can refuse refuses on its account: what the task
    itself asks for, and, for ptrace, being traced (that hook decides by the
    record of the traced task).  An open or exec must find no request waiting for
    the caller, which it would take over first. *)
Theorem default_deny `{KL : KernelLayout} (ev : event) (s : bpf_state) (e : hook_env) (t : Z)
    (info : process_info) :
  can_refuse ev = true -> env_of ev = Some e -> subject_of ev = Some t ->
  m_task_storage s !! t = Some info -> pi_pod_id info <> 0 ->
  (looks_for_request ev = true -> pending_for s (current_pid e) = None) ->
  map_lookup role_flags (m_role_flags s) (pi_role_id info) = None ->
  (run_event ev s).1 < 0.
Proof.
  intros Hc He Ht Hi Hp Hpend Hf.
  assert (looks_for_request ev = true -> after_pending e s = s) as Hap
    by auto using after_pending_none.
  assert ((pi_pod_id info =? 0) = false) as Hp' by by apply Z.eqb_neq.
  destruct ev as [e' task|e' file|e' sock a|e' sock a|e' sock msg sz|e' bprm|e' d| | |e' child|e' k|e' c a z
    |pid i|s''|task]; cbn in Hc, He, Ht; simplify_eq; cbn [run_event].
  - by rewrite file_open_eq, (Hap eq_refl), Hi, Hp', Hf.
  - open_guard. rewrite Hi. cbv beta iota. by rewrite Hp', Hf.
  - by rewrite (socket_connect_no_flags _ _ _ _ _ Hi Hp Hf).
  - rewrite (bprm_jailed _ _ _ info); [by rewrite Hf| |done]. unfold exec_info. by rewrite (Hap eq_refl), Hi.
  - open_guard. rewrite Hi. cbv beta iota. by rewrite Hp', Hf.
  - open_guard. rewrite Hi. cbv beta iota. by rewrite Hp', Hf.
  - open_guard. rewrite Hi. cbv beta iota. by rewrite Hp', Hf.
Qed.

(** [TASK] jailed under role 7, with no role described. *)
Definition undescribed_state : bpf_state :=
  BpfState {[TASK := jailed_info]} ∅ ∅ ∅ ∅ ∅ ∅ ∅ ∅ ∅ ∅ ∅ ∅ ∅ zero_path_components [].

Lemma default_deny_witness :
  (run_event (EvFileOpen (env_with mem_etc) FILE) undescribed_state).1 < 0.
Proof.
  apply (default_deny _ _ (env_with mem_etc) TASK jailed_info);
    [reflexivity|reflexivity|reflexivity|reflexivity|vm_compute; congruence|reflexivity|reflexivity].
Defined.
