(* ===== verification/Coherence.v ===== *)
(** * The decision cache over time

    [cache_coherent] as an invariant of the running system: hooks in any order
    keep it, and a change of the filesystem or of the file rules keeps it when
    the generation counter is bumped with the change.  The last section shows
    what happens when another open runs between the hook that bumps the counter
    and the change the hook announces. *)

From S2P Require Import Prelude CLayout BpfMap Kernel KernelTypes Types Machine Scenario Hash PathWalk StateMachine Enrollment Hooks FileOpen Network Exec Guards System.

(** What the cached decisions depend on, and where they live. *)
Definition same_cache (s s' : bpf_state) : Prop :=
  m_path_states s' = m_path_states s /\ m_cache_generation s' = m_cache_generation s
  /\ m_path_decision_cache s' = m_path_decision_cache s.

Section coherence.
Context `{KL : KernelLayout}.

(** For the entries of the roles in [R]. *)
Definition cache_inv_for (R : Z -> Prop) (m : mem) (s : bpf_state) : Prop :=
  state_ok s /\ cache_coherent_for R m s /\ cache_not_ahead s.

Definition cache_inv : mem -> bpf_state -> Prop := cache_inv_for (fun _ => True).

Lemma not_ahead_ext s s' : same_cache s s' -> cache_not_ahead s -> cache_not_ahead s'.
Proof. intros (_ & Hg & Hc). unfold cache_not_ahead, generation. by rewrite Hg, Hc. Qed.

Lemma coherent_same_cache R m s s' : same_cache s s' -> cache_coherent_for R m s -> cache_coherent_for R m s'.
Proof. intros (? & ? & ?). by apply cache_coherent_ext. Qed.

Lemma enrollment_same_cache s s' : enrollment_frame s s' -> same_cache s s'.
Proof. unfold enrollment_frame, same_cache. intros H. destruct_and!. done. Qed.

Lemma decision_same_cache s s' :
  decision_frame s s' -> m_path_decision_cache s' = m_path_decision_cache s -> same_cache s s'.
Proof. unfold decision_frame, same_cache. intros H ?. destruct_and!. done. Qed.

#[local] Instance same_cache_preorder : PreOrder same_cache.
Proof.
  unfold same_cache. split; [done|]. intros s1 s2 s3 H1 H2. destruct_and!. split_and!; congruence.
Qed.

Lemma not_ahead_store s k d evicted :
  cache_not_ahead s -> (d = 0 \/ d = 1) ->
  cache_not_ahead (set_path_decision_cache (fun c =>
      (map_update path_decision_cache evicted c k (PathCacheValue d (generation s))).2) s).
Proof.
  intros Hna Hd k' v' Hl.
  change (map_lookup path_decision_cache (map_store path_decision_cache
      (foldr delete (m_path_decision_cache s) evicted) k
      (PathCacheValue d (generation s))) k' = Some v') in Hl.
  change (cv_generation v' <= generation s).
  rewrite map_lookup_hash in Hl by done. unfold map_store in Hl.
  apply fmap_Some in Hl as (bs & [[_ <-]|[_ Hbs]]%lookup_insert_Some & ->).
  - unfold value_image. rewrite (of_to_bytes path_cache_value_repr); [simpl; lia|].
    pose proof (generation_range s) as Hgf.
    unfold c_fits. cbn; repeat (apply Forall2_cons; split); try apply List.Forall2_nil;
      unfold slot_fits; cbn; try done; destruct Hd; subst; vm_compute; split; congruence.
  - apply (Hna k'). rewrite map_lookup_hash by done.
    apply foldr_delete_sub in Hbs. by rewrite Hbs.
Qed.

Lemma file_path_decision_not_ahead e info d v s :
  cache_not_ahead s -> cache_not_ahead (file_path_decision e info d v s).2.
Proof.
  intros Hna. unfold file_path_decision, audit_deny_with, emit_audit_event. unfold_prog.
  fold (generation s).
  pose proof (not_ahead_store s (file_cache_key e info d v (d_inode (e_mem e) d)
      (task_fs_root (e_mem e) (e_current_task e))) 0 (e_lru_victims e) Hna (or_introl eq_refl)) as H0.
  pose proof (not_ahead_store s (file_cache_key e info d v (d_inode (e_mem e) d)
      (task_fs_root (e_mem e) (e_current_task e))) 1 (e_lru_victims e) Hna (or_intror eq_refl)) as H1.
  repeat (case_match; simplify_eq; simpl);
    solve [exact Hna | exact H0 | exact H1].
Qed.

Lemma file_open_not_ahead e file s :
  cache_not_ahead s -> cache_not_ahead (file_open e file s).2.
Proof.
  intros Hna. rewrite file_open_eq.
  pose proof (not_ahead_ext _ _ (enrollment_same_cache _ _ (after_pending_frame e s)) Hna) as Hna1.
  destruct (m_task_storage _ !! _) as [info|]; [|done].
  destruct (pi_pod_id info =? 0); [done|].
  destruct (map_lookup role_flags _ _) as [flags|]; [|done].
  destruct (f_path_dentry (e_mem e) file =? 0); [by case_match|].
  pose proof (file_path_decision_not_ahead e info (f_path_dentry (e_mem e) file)
      (f_path_mnt (e_mem e) file) _ Hna1) as Hd.
  destruct (file_path_decision _ _ _ _ _) as [[r|] s']; [done|]. by case_match.
Qed.

Lemma bprm_same_cache e bprm s : same_cache s (bprm_check_security e bprm s).2.
Proof.
  pose proof (enrollment_same_cache _ _ (after_pending_frame e s)) as Hf.
  destruct (exec_info e s) as [info|] eqn:Hi; [|by rewrite bprm_no_storage].
  destruct (Z.eq_dec (pi_pod_id info) 0) as [Hp|Hp].
  - rewrite (bprm_unjailed _ _ _ _ Hi Hp).
    etransitivity; [apply enrollment_same_cache, (exec_state_frame e s)|].
    by destruct (auto_enrollment _ _ _).
  - rewrite (bprm_jailed _ _ _ _ Hi Hp).
    destruct (map_lookup role_flags _ _) as [flags|]; [|done].
    destruct (bprm_file (e_mem e) bprm =? 0); [by case_match|].
    destruct (exec_path_decision_frame e info (bprm_file (e_mem e) bprm) (after_pending e s)) as [Hd Hc].
    pose proof (decision_same_cache _ _ Hd Hc) as Hs.
    destruct (exec_path_decision _ _ _ _) as [[r|] s']; simpl in *; [by etransitivity|].
    case_match; simpl; by etransitivity.
Qed.

Lemma audit_only_same_cache {A} (res : A * bpf_state) s :
  res.2 = s \/ (exists ev, res.2 = set_audit_events (cons ev) s) -> same_cache s res.2.
Proof. by intros [->|[ev ->]]. Qed.

Lemma bump_inv R m' s :
  state_ok s -> cache_not_ahead s -> generation s + 1 < 2 ^ 32 ->
  cache_inv_for R m' (bump_generation s).2.
Proof.
  intros Hok Hna Hg. split; [by apply bump_state_ok|]. split; [by apply bump_invalidates|].
  intros k v Hl. rewrite generation_bump.
  rewrite bump_generation_eq in Hl. simpl in Hl. apply Hna in Hl.
  pose proof (generation_range s) as [Hf _]. rewrite wrap_small; [lia|]. split; lia.
Qed.

(** ** The running system *)

(** The daemon's [invalidate_cache]: read the counter, add one modulo 2^32,
    write it back. *)
Definition invalidate_cache : prog unit :=
  s <-- get ;;
  modify (set_cache_generation (fun m =>
      (map_update cache_generation [] m 0 (u32 (generation s + 1))).2)).

Lemma invalidate_cache_bump s : invalidate_cache s = bump_generation s.
Proof. by rewrite bump_generation_eq. Qed.

(** Events as they happen on a filesystem [m]: opens read it, a bump does not
    exhaust the 32-bit counter, and a policy load that comes without a bump
    leaves the file rules alone. *)
Definition event_sees (m : mem) (s : bpf_state) (ev : event) : Prop :=
  match ev with
  | EvFileOpen e _ => e_mem e = m
  | EvPathRename _ _ | EvSbMount | EvSbUmount => generation s + 1 < 2 ^ 32
  | EvPolicyUpdate s' => same_cache s s'
  | _ => True
  end.

Inductive fs_step : mem * bpf_state -> mem * bpf_state -> Prop :=
| fs_event m s s' ev :
    step ev s s' -> event_sees m s ev -> fs_step (m, s) (m, s')
| fs_change m m' s s1 :
    (* the tree or the policy changes, and the counter is bumped after *)
    policy_frame s s1 -> m_path_decision_cache s1 = m_path_decision_cache s ->
    m_cache_generation s1 = m_cache_generation s -> generation s + 1 < 2 ^ 32 ->
    fs_step (m, s) (m', (invalidate_cache s1).2).

Lemma event_inv R m s s' ev :
  step ev s s' -> event_sees m s ev -> cache_inv_for R m s -> cache_inv_for R m s'.
Proof.
  intros Hst Hsee (Hok & Hco & Hna).
  pose proof (step_state_ok _ _ _ Hst Hok) as Hok'.
  assert (same_cache s s' -> cache_inv_for R m s') as Hsame.
  { intros Hs. split_and!; [done|by eapply coherent_same_cache|by eapply not_ahead_ext]. }
  destruct Hst as [ev' s Hen].
  destruct ev' as [e task|e file|e sock a|e sock a|e sock msg sz|e bprm|e d| | |e child|e k|e c a z
      |pid i|s''|task]; cbn [run_event enabled event_sees] in *.
  - apply Hsame, enrollment_same_cache, task_alloc_frame.
  - subst m. split_and!; [done|by apply file_open_preserves|by apply file_open_not_ahead].
  - apply Hsame, audit_only_same_cache, socket_bind_frame.
  - apply Hsame, audit_only_same_cache, socket_connect_frame.
  - by apply Hsame.
  - apply Hsame, bprm_same_cache.
  - unfold path_rename, bind, ret in *. case_match; [by apply Hsame|].
    pose proof (bump_inv R m s Hok Hna Hsee) as Hb. by destruct (bump_generation s).
  - unfold sb_mount, bind, ret in *.
    pose proof (bump_inv R m s Hok Hna Hsee) as Hb. by destruct (bump_generation s).
  - unfold sb_umount, bind, ret in *.
    pose proof (bump_inv R m s Hok Hna Hsee) as Hb. by destruct (bump_generation s).
  - apply Hsame, audit_only_same_cache, ptrace_frame.
  - apply Hsame, audit_only_same_cache, guard_current_frame.
  - apply Hsame, audit_only_same_cache, guard_current_frame.
  - by apply Hsame.
  - by apply Hsame.
  - by apply Hsame.
Qed.

Lemma fs_step_inv c c' : fs_step c c' -> cache_inv c.1 c.2 -> cache_inv c'.1 c'.2.
Proof.
  intros [m s s' ev Hst Hsee|m m' s s1 Hp Hc Hgen Hg]; cbn [fst snd].
  - by eapply event_inv.
  - intros (Hok & _ & Hna). destruct Hp as (Hs & _ & Hb & _). destruct Hok as [Hsf Hbuf].
    unfold cache_not_ahead, generation in Hna, Hg. rewrite <-Hc, <-Hgen in Hna. rewrite <-Hgen in Hg.
    rewrite invalidate_cache_bump. apply bump_inv; [|exact Hna|exact Hg]. split; [|by rewrite Hb]. unfold storage_fits. by rewrite Hs.
Qed.

Lemma fs_steps_inv c c' : rtc fs_step c c' -> cache_inv c.1 c.2 -> cache_inv c'.1 c'.2.
Proof. induction 1; eauto using fs_step_inv. Qed.

Lemma init_inv m : cache_inv m init_state.
Proof.
  split; [apply init_state_ok|]. split.
  - intros k v _ _ Hl. rewrite map_lookup_hash in Hl by done. simpl in Hl. by rewrite lookup_empty in Hl.
  - intros k v Hl. rewrite map_lookup_hash in Hl by done. simpl in Hl. by rewrite lookup_empty in Hl.
Qed.
End coherence.

(** ** The counter over many bumps *)

Lemma generation_bumps n s :
  generation (Nat.iter n (fun s => (invalidate_cache s).2) s) = u32 (generation s + Z.of_nat n).
Proof.
  induction n as [|n IH].
  - simpl. rewrite Z.add_0_r. symmetry. apply wrap_small, generation_range.
  - rewrite Nat.iter_succ, invalidate_cache_bump, generation_bump, IH. unfold wrap.
    rewrite Zplus_mod_idemp_l. f_equal. lia.
Qed.

Lemma cache_bumps n s :
  m_path_decision_cache (Nat.iter n (fun s => (invalidate_cache s).2) s) = m_path_decision_cache s.
Proof.
  induction n as [|n IH]; [done|]. rewrite Nat.iter_succ, invalidate_cache_bump, bump_generation_eq. exact IH.
Qed.

Lemma wrap_add_id x k : in_width 32 x -> 0 <= k -> u32 (x + k) = x <-> k mod 2 ^ 32 = 0.
Proof.
  intros [H0 H1] Hk. unfold wrap. rewrite <-Zplus_mod_idemp_r.
  pose proof (Z.mod_pos_bound k (2 ^ 32)) as Hm. set (r := k mod 2 ^ 32) in *.
  destruct (Z.lt_ge_cases (x + r) (2 ^ 32)).
  - rewrite Z.mod_small by lia. lia.
  - rewrite <-(Z.mod_unique (x + r) (2 ^ 32) 1 (x + r - 2 ^ 32)) by lia. lia.
Qed.

(** ** Properties *)

(** The verdict of an open with no cache at all. *)
Definition uncached_verdict `{KL : KernelLayout} (e : hook_env) (file : Z) (s : bpf_state) : Z :=
  match m_task_storage (after_pending e s) !! e_current_task e with
  | None => 0
  | Some info =>
      if pi_pod_id info =? 0 then 0
      else match map_lookup role_flags (m_role_flags s) (pi_role_id info) with
           | None => - EACCES
           | Some flags => file_policy e s info flags file
           end
  end.

(** C9. The decision cache is never observable while its counter has not
    wrapped: in every configuration a run can reach from a freshly loaded
    program, through any interleaving of hooks, requests, filesystem changes and
    rule reloads announced by a bump, an open gets the verdict an uncached
    evaluation of the current rules on the current filesystem gives. Runs in
    which the 32-bit generation comes round are excluded ([generation_wraps]),
    and so are changes that no bump announces. *)
Theorem reachable_open_uncached `{KL : KernelLayout} (m0 m : mem) (s : bpf_state) (e : hook_env) (file : Z) :
  rtc fs_step (m0, init_state) (m, s) -> e_mem e = m ->
  (file_open e file s).1 = uncached_verdict e file s.
Proof.
  intros Hreach Hm. destruct (fs_steps_inv _ _ Hreach (init_inv m0)) as (Hok & Hco & _).
  cbn [fst snd] in Hok, Hco. subst m. exact (file_open_policy e file s Hok Hco).
Qed.

(** Role 7 with file access and /etc denied. *)
Definition loaded_state : bpf_state :=
  BpfState ∅ (contents role_flags [(7, 0x01)]) ∅ ∅ (contents path_states deny_etc)
    ∅ ∅ ∅ ∅ ∅ ∅ ∅ ∅ ∅ zero_path_components [].

(** The policy is loaded, pid 42 is to be jailed, it opens /etc/shadow and the
    refusal is cached; then the file moves to /home and the cache is
    invalidated. *)
Definition opened_state : bpf_state :=
  run_events [EvEnrollRequest 42 jailed_info; EvFileOpen (env_with mem_etc) FILE]
    (invalidate_cache loaded_state).2.

Lemma reachable_open_uncached_witness :
  (file_open (env_with mem_etc) FILE opened_state).1 = -13
  /\ (file_open (env_with mem_home) FILE (invalidate_cache opened_state).2).1
     = uncached_verdict (env_with mem_home) FILE (invalidate_cache opened_state).2.
Proof.
  split; [vm_compute; reflexivity|].
  apply (reachable_open_uncached mem_etc mem_home); [|reflexivity].
  set (s0 := (invalidate_cache loaded_state).2).
  set (s1 := (run_event (EvEnrollRequest 42 jailed_info) s0).2).
  apply rtc_l with (mem_etc, s0).
  { apply (fs_change mem_etc mem_etc init_state loaded_state); first [reflexivity|by split_and!]. }
  apply rtc_l with (mem_etc, s1).
  { apply (fs_event mem_etc s0 s1 (EvEnrollRequest 42 jailed_info)); [apply step_event; exact I|exact I]. }
  apply rtc_l with (mem_etc, opened_state).
  { apply (fs_event mem_etc s1 opened_state (EvFileOpen (env_with mem_etc) FILE));
      [apply (step_event (EvFileOpen (env_with mem_etc) FILE)); exact I|reflexivity]. }
  apply rtc_l with (mem_home, (invalidate_cache opened_state).2); [|apply rtc_refl].
  apply (fs_change mem_etc mem_home opened_state opened_state); first [reflexivity|by split_and!].
Defined.

(** The bump that announces a rename happens in the hook, before the rename
    itself.  An open that runs in between caches the old path's decision under
    the new generation, and it is served after the rename: /etc/shadow moves to
    /home/shadow, and the refusal that no rule supports any more persists. *)
Theorem rename_race :
  let s0 := jailed_state 0x01 deny_etc in
  let s1 := (path_rename (env_with mem_etc) SHADOW s0).2 in
  let s2 := (file_open (env_with mem_etc) FILE s1).2 in
  (file_open (env_with mem_home) FILE s2).1 = -13
  /\ uncached_verdict (env_with mem_home) FILE s2 = 0.
Proof. split; vm_compute; reflexivity. Qed.

(** The generation is a 32-bit counter: after [n] invalidations it has its
    old value again exactly when [n] is a multiple of 2^32, and the entries
    cached under that value are then all still in place. *)
Theorem generation_wraps (n : nat) (s : bpf_state) :
  let s' := Nat.iter n (fun s => (invalidate_cache s).2) s in
  (generation s' = generation s <-> Z.of_nat n mod 2 ^ 32 = 0)
  /\ m_path_decision_cache s' = m_path_decision_cache s.
Proof.
  intros s'. pose proof (generation_range s) as Hr. split.
  - unfold s'. rewrite generation_bumps. apply wrap_add_id; [done|lia].
  - apply cache_bumps.
Qed.
