(* ===== verification/Daemon.v ===== *)
(** * The daemon

    bpfjailer-daemon/src/enrollment.rs ([handle_client], one request after the
    line has been deserialised), enrollment_alternatives.rs, the operations of
    process_tracker.rs they use and the start-up of main.rs, over the program
    state, the policy manager and the files' extended attributes.  The requests
    and responses are those of bpfjailer-client/src/enrollment.rs; the text of an
    error is its cause.  What the operating system answers is the class
    [FileWorld].  A request is one step here; [request_simulated] splits it into
    single map writes, which [System.step] interleaves with everything else. *)

From S2P Require Import Prelude CLayout BpfMap Rust Kernel KernelTypes Types Machine Scenario Hash PathWalk StateMachine Enrollment Hooks FileOpen Network Codec Patterns Parse Loader Policy Apply Exec Guards RolePolicy RoleLimits System Coherence.

(** Files and processes as the daemon sees them: the inode of a path
    ([std::fs::metadata], [None] when there is no such file), the task a pid's
    pidfd stands for, and the calls of the xattr crate, [None] being an error. *)
Class FileWorld := {
  attrs : Type;
  inode_of : bytes -> option Z;
  task_of_pid : Z -> option Z;
  xattr_set : bytes -> bytes -> bytes -> attrs -> option attrs;
  xattr_get : bytes -> bytes -> attrs -> option (option bytes);
  xattr_remove : bytes -> bytes -> attrs -> option attrs;
}.

Inductive EnrollmentRequest :=
| Enroll (pod_id role_id : Z)
| Query (pid : Z)
| EnrollExecutable (executable_path : bytes) (pod_id role_id : Z)
| RemoveExecutable (executable_path : bytes)
| DefineRole (role : Role)
| EnrollCgroup (cgroup_path : bytes) (pod_id role_id : Z)
| RemoveCgroup (cgroup_path : bytes)
| SetXattr (executable_path : bytes) (pod_id role_id : Z)
| CheckXattr (executable_path : bytes)
| RemoveXattr (executable_path : bytes).

(** Why a request is answered with an error. *)
Inductive request_error :=
| Failed (e : load_error)
| NotEnrolled
| NoXattr
| XattrFailed
| Unenforced (settings : list setting).

Inductive EnrollmentResponse :=
| Success
| Error (e : request_error)
| ProcessInfoResp (pod_id role_id : Z)
| XattrInfo (pod_id role_id : Z).

Section daemon.
Context `{World : FileWorld} `{Resolver : !DomainResolver}.

(** What the daemon's shared handles reach. *)
Record daemon := Daemon {
  d_bpf : bpf_state;
  d_policy : PolicyManager;
  d_attrs : attrs;
}.

Definition set_bpf (s : bpf_state) (d : daemon) : daemon := Daemon s (d_policy d) (d_attrs d).

(** A function of the loader, run on the daemon's object. *)
Definition on_bpf {A} (p : loader A) : io load_error daemon A :=
  fun d => let '(r, s) := p (d_bpf d) in (r, set_bpf s d).

(** ** process_tracker.rs *)

Definition set_role_policy (role_id : Z) (flags : PolicyFlags) : loader unit :=
  update_role_flags role_id (policy_flags_to_u8 flags).

Definition apply_network_rules (role_id : Z) (rules : list NetworkRule) : loader unit :=
  for_each (fun rule =>
    match expand_network_rule (nr_protocol rule) (nr_port rule) (nr_port_start rule) (nr_port_end rule) with
    | None => ok tt
    | Some (protocol, ports) =>
        for_each (fun port =>
          loader_add_network_rule role_id port protocol BIND (nr_allow rule) ;;?
          loader_add_network_rule role_id port protocol CONNECT (nr_allow rule)) ports
    end) rules.

Definition apply_path_rules (role_id : Z) (rules : list PathPattern) : loader unit :=
  match path_state_entries_for_role role_id ((fun r => (pp_pattern r, pp_allow r)) <$> rules) with
  | inr entries => loader_write_states N_path_states entries
  | inl conflicts => err (Conflicts conflicts)
  end.

Definition enroll_process (pid pod_id role_id : Z) : loader unit :=
  enroll_pending_process pid pod_id role_id.

(** The stored record of a live process, as its image is read. *)
Definition get_process_info (pid : Z) (s : bpf_state) : option (Z * Z) :=
  task ← task_of_pid pid;
  info ← m_task_storage s !! task;
  Some (pi_pod_id info, pi_role_id info).

(** ** enrollment_alternatives.rs *)

(** The part both kinds of enrollment share: the role's flags and rules. *)
Definition load_role (role_id : Z) : io load_error daemon unit :=
  fun d => match get_role (d_policy d) role_id with
    | None => (inl (UnknownRole role_id), d)
    | Some role =>
        on_bpf (set_role_policy role_id (r_flags role) ;;?
          apply_network_rules role_id (r_network_rules role) ;;?
          apply_path_rules role_id (r_file_paths role)) d
    end.

Definition existing_inode (path : bytes) : io load_error daemon Z :=
  match inode_of path with
  | None => err PathMissing
  | Some inode => ok inode
  end.

Definition enroll_by_executable_path (executable_path : bytes) (pod_id role_id : Z) : io load_error daemon unit :=
  inode <-? existing_inode executable_path ;;
  load_role role_id ;;?
  on_bpf (add_exec_enrollment inode pod_id role_id).

Definition remove_executable_enrollment (executable_path : bytes) : io load_error daemon unit :=
  inode <-? existing_inode executable_path ;;
  on_bpf (remove_exec_enrollment inode).

Definition enroll_by_cgroup_path (cgroup_path : bytes) (pod_id role_id : Z) : io load_error daemon unit :=
  cgroup_id <-? existing_inode cgroup_path ;;
  load_role role_id ;;?
  on_bpf (add_cgroup_enrollment cgroup_id pod_id role_id).

Definition remove_cgroup_enrollment_at (cgroup_path : bytes) : io load_error daemon unit :=
  cgroup_id <-? existing_inode cgroup_path ;;
  on_bpf (remove_cgroup_enrollment cgroup_id).

Definition pod_xattr : bytes := text "user.bpfjailer.pod_id".
Definition role_xattr : bytes := text "user.bpfjailer.role_id".

(** The second attribute is set after the first; a failure in between leaves the
    first. *)
Definition set_xattr_enrollment (path : bytes) (pod_id role_id : Z) (a : attrs) : bool * attrs :=
  match inode_of path with
  | None => (false, a)
  | Some _ =>
      match xattr_set path pod_xattr (le_bytes 8 pod_id) a with
      | None => (false, a)
      | Some a1 =>
          match xattr_set path role_xattr (le_bytes 4 role_id) a1 with
          | None => (false, a1)
          | Some a2 => (true, a2)
          end
      end
  end.

(** [None] is the error of [xattr::get]; [Some None] an absent or malformed
    pair. *)
Definition check_xattr_enrollment (path : bytes) (a : attrs) : option (option (Z * Z)) :=
  match xattr_get path pod_xattr a with
  | None => None
  | Some None => Some None
  | Some (Some pod_value) =>
      match xattr_get path role_xattr a with
      | None => None
      | Some None => Some None
      | Some (Some role_value) =>
          if negb (length pod_value =? 8)%nat || negb (length role_value =? 4)%nat then Some None
          else Some (Some (le_value pod_value, le_value role_value))
      end
  end.

(** Failures of the removals are ignored. *)
Definition remove_xattr_enrollment (path : bytes) (a : attrs) : attrs :=
  let a1 := default a (xattr_remove path pod_xattr a) in
  default a1 (xattr_remove path role_xattr a1).

(** Enrollments of the policy that fail are logged and skipped. *)
Definition load_from_policy : io load_error daemon unit :=
  fun d =>
  (for_each (fun '(path, pod, role) => ignore_error (enroll_by_executable_path path pod role))
    (get_exec_enrollments (d_policy d)) ;;?
    for_each (fun '(path, pod, role) => ignore_error (enroll_by_cgroup_path path pod role))
      (get_cgroup_enrollments (d_policy d))) d.

(** ** enrollment.rs *)

Definition respond (r : (load_error + unit) * daemon) : EnrollmentResponse * daemon :=
  match r with
  | (inr _, d) => (Success, d)
  | (inl e, d) => (Error (Failed e), d)
  end.

(** The [Enroll] arm: only the flags and the request itself can fail it. *)
Definition handle_enroll (pid pod_id role_id : Z) : io load_error daemon unit :=
  fun d => match get_role (d_policy d) role_id with
    | None => (inl (UnknownRole role_id), d)
    | Some role =>
        on_bpf (set_role_policy role_id (r_flags role) ;;?
          ignore_error (apply_network_rules role_id (r_network_rules role)) ;;?
          ignore_error (apply_path_rules role_id (r_file_paths role)) ;;?
          enroll_process pid pod_id role_id) d
    end.

Definition set_policy (pm : PolicyManager) (d : daemon) : daemon := Daemon (d_bpf d) pm (d_attrs d).
Definition set_attrs (a : attrs) (d : daemon) : daemon := Daemon (d_bpf d) (d_policy d) a.

Definition handle_define_role (role : Role) (d : daemon) : EnrollmentResponse * daemon :=
  match unenforced_settings role with
  | [] => respond ((on_bpf (apply_role (Sink := TrackerSink) role) ;;? ok tt)
        (set_policy (define_role role (d_policy d)) d))
  | unenforced => (Error (Unenforced unenforced), d)
  end.

(** One request of the peer [pid]. *)
Definition handle_client (pid : Z) (request : EnrollmentRequest) (d : daemon) : EnrollmentResponse * daemon :=
  match request with
  | Enroll pod_id role_id => respond (handle_enroll pid pod_id role_id d)
  | Query query_pid =>
      match get_process_info query_pid (d_bpf d) with
      | Some (pod_id, role_id) => (ProcessInfoResp pod_id role_id, d)
      | None => (Error NotEnrolled, d)
      end
  | EnrollExecutable path pod_id role_id => respond (enroll_by_executable_path path pod_id role_id d)
  | RemoveExecutable path => respond (remove_executable_enrollment path d)
  | DefineRole role => handle_define_role role d
  | EnrollCgroup path pod_id role_id => respond (enroll_by_cgroup_path path pod_id role_id d)
  | RemoveCgroup path => respond (remove_cgroup_enrollment_at path d)
  | SetXattr path pod_id role_id =>
      let '(done_, a) := set_xattr_enrollment path pod_id role_id (d_attrs d) in
      (if done_ then Success else Error XattrFailed, set_attrs a d)
  | CheckXattr path =>
      match check_xattr_enrollment path (d_attrs d) with
      | Some (Some (pod_id, role_id)) => (XattrInfo pod_id role_id, d)
      | Some None => (Error NoXattr, d)
      | None => (Error XattrFailed, d)
      end
  | RemoveXattr path => (Success, set_attrs (remove_xattr_enrollment path (d_attrs d)) d)
  end.

(** ** The client *)

(** bpfjailer-client's [EnrollmentClient], called by process [pid] over a
    connection that works: what it makes of the daemon's answer. *)
Inductive client_error :=
| Refused (e : request_error)
| Unexpected.

Definition client_enroll (pid pod_id role_id : Z) (d : daemon) : (client_error + unit) * daemon :=
  let '(response, d') := handle_client pid (Enroll pod_id role_id) d in
  (match response with
    | Success => inr tt
    | Error e => inl (Refused e)
    | _ => inl Unexpected
    end, d').

Definition client_query (pid query_pid : Z) (d : daemon) : (client_error + Z * Z) * daemon :=
  let '(response, d') := handle_client pid (Query query_pid) d in
  (match response with
    | ProcessInfoResp pod_id role_id => inr (pod_id, role_id)
    | Error e => inl (Refused e)
    | _ => inl Unexpected
    end, d').

(** ** main.rs *)

(** The daemon's start on a loaded object: [policy] is the parsed policy file,
    if there is one, with the iteration order of its roles; [order] is the
    iteration order of the manager's roles afterwards. *)
Definition start_policy (policy : option (PolicyConfig * list (bytes * Role))) : PolicyManager :=
  match policy with
  | Some (config, entries) => (load_from_file config entries new_manager).2
  | None => new_manager
  end.

Definition start (policy : option (PolicyConfig * list (bytes * Role))) (order : list (bytes * Role))
    (s : bpf_state) (a : attrs) : daemon :=
  let pm := start_policy policy in
  let all_patterns := order ≫= fun '(_, role) => pp_pattern <$> r_file_paths role in
  let s1 := if bool_decide (all_patterns = []) then s else (invalidate_cache s).2 in
  let s2 := (for_each (fun '(_, role) =>
      ignore_error (apply_role (Sink := TrackerSink) role)) order s1).2 in
  (load_from_policy (Daemon s2 pm a)).2.
End daemon.

(** The maps when the walk over the roles begins. *)
Definition fresh_maps (order : list (bytes * Role)) : bpf_state :=
  if bool_decide ((order ≫= fun '(_, role) => pp_pattern <$> r_file_paths role) = [])
  then init_state else (invalidate_cache init_state).2.

Lemma fresh_maps_generation order :
  (Forall (fun e => r_file_paths e.2 = []) order -> generation (fresh_maps order) = 0)
  /\ (Exists (fun e => r_file_paths e.2 <> []) order -> generation (fresh_maps order) = 1).
Proof.
  unfold fresh_maps. set (patterns := order ≫= _). split; intros Ho.
  - rewrite bool_decide_eq_true_2; [vm_compute; reflexivity|].
    subst patterns. induction Ho as [|[name role] order Hr _ IH]; [done|]. cbn [snd] in Hr.
    rewrite bind_cons, Hr. exact IH.
  - rewrite bool_decide_eq_false_2; [vm_compute; reflexivity|].
    subst patterns. induction Ho as [[name role] order Hr|[name role] order _ IH]; rewrite bind_cons;
      intros [H1 H2]%app_eq_nil; [|by apply IH].
    cbn [snd] in Hr. apply fmap_nil_inv in H1. done.
Qed.

(** ** Requests as sequences of single writes *)

Section simulation.
Context `{World : FileWorld} `{Resolver : !DomainResolver} `{KL : KernelLayout}.
(** The process whose request is handled. *)
Context (peer : Z).

(** What userspace does to the maps, one write at a time. *)
Definition user_event (ev : event) : Prop :=
  match ev with
  | EvEnrollRequest pid _ => pid = peer
  | EvPolicyUpdate _ => True
  | _ => False
  end.

(** The state a loader function leaves is reached by such writes. *)
Definition traced {A} (p : loader A) : Prop :=
  forall s, exists evs, Forall user_event evs /\ steps evs s (p s).2.

Lemma steps_app evs evs' s s1 s2 : steps evs s s1 -> steps evs' s1 s2 -> steps (evs ++ evs') s s2.
Proof. induction 1; [done|]. intros. econstructor; eauto. Qed.

Lemma traced_keep {A} (p : loader A) : (forall s, (p s).2 = s) -> traced p.
Proof. intros Hp s. exists []. rewrite Hp. split; constructor. Qed.

Lemma traced_ok {A} (a : A) : traced (ok a).
Proof. by apply traced_keep. Qed.

Lemma traced_err {A} e : traced (A := A) (err e).
Proof. by apply traced_keep. Qed.

Lemma traced_parsed {A} (r : parse_error + A) : traced (parsed r).
Proof. apply traced_keep. intros s. by destruct r. Qed.

Lemma traced_bind {A B} (p : loader A) (k : A -> loader B) :
  traced p -> (forall a, traced (k a)) -> traced (io_bind p k).
Proof.
  intros Hp Hk s. destruct (Hp s) as (evs & He & Hs). unfold io_bind.
  destruct (p s) as [[e|a] s1]; [by exists evs|]. destruct (Hk a s1) as (evs' & He' & Hs').
  exists (evs ++ evs'). split; [by apply Forall_app|by eapply steps_app].
Qed.

Lemma traced_for_each {X} (f : X -> loader unit) xs : (forall x, traced (f x)) -> traced (for_each f xs).
Proof. intros Hf. induction xs as [|x xs IH]; [apply traced_ok|]. by apply traced_bind. Qed.

Lemma traced_collect_each {X Y} (f : X -> loader (list Y)) xs :
  (forall x, traced (f x)) -> traced (collect_each f xs).
Proof.
  intros Hf. induction xs as [|x xs IH]; [apply traced_ok|]. apply traced_bind; [done|]. intros ys.
  apply traced_bind; [done|]. intros zs. apply traced_ok.
Qed.

Lemma traced_ignore {A} (p : loader A) : traced p -> traced (ignore_error p).
Proof. intros Hp s. exact (Hp s). Qed.

Lemma traced_set n f : n <> N_pending_enrollments -> forall s, exists evs,
  Forall user_event evs /\ steps evs s (set_map n f s).
Proof.
  intros Hn s. exists [EvPolicyUpdate (set_map n f s)]. split; [by repeat constructor|].
  econstructor; [|constructor]. apply (step_event (EvPolicyUpdate (set_map n f s))). split_and!; try done. by destruct n.
Qed.

Lemma traced_update n k v : n <> N_pending_enrollments -> traced (update n k v).
Proof.
  intros Hn s. unfold update. destruct (_ || _); [by apply traced_set|]. exists []. split; constructor.
Qed.

Lemma traced_delete n k : n <> N_pending_enrollments -> traced (delete_key n k).
Proof.
  intros Hn s. unfold delete_key. destruct (bool_decide _); [by apply traced_set|]. exists []. split; constructor.
Qed.

(** A request staged for a pid is one enrollment event. *)
Lemma enroll_pending_event pid pod_id role_id s :
  (enroll_pending_process pid pod_id role_id s).2
  = (run_event (EvEnrollRequest pid (ProcessInfo pod_id role_id 0 0)) s).2.
Proof.
  unfold enroll_pending_process, update, run_event, modify, ret, bind, map_update, capacity, map_by_name,
    map_store. cbn [md_type pending_enrollments].
  change (to_ne_bytes 4 pid) with (key_image pending_enrollments pid).
  change (<[13%nat := 0]> _) with (value_image pending_enrollments (ProcessInfo pod_id role_id 0 0)).
  unfold set_pending_enrollments, set_map. cbn [snd]. by destruct (_ || _), s.
Qed.

Lemma traced_pending pod_id role_id : traced (enroll_pending_process peer pod_id role_id).
Proof.
  intros s. exists [EvEnrollRequest peer (ProcessInfo pod_id role_id 0 0)]. split; [by repeat constructor|].
  rewrite enroll_pending_event. econstructor; [|constructor]. by apply (step_event (EvEnrollRequest _ _)).
Qed.

(** Follow the structure of a loader function down to its writes. *)
Ltac solve_traced :=
  repeat first
    [ apply traced_ok | apply traced_err | apply traced_parsed
    | apply traced_update; done | apply traced_delete; done
    | apply traced_pending
    | apply traced_bind; [|intros ?] | apply traced_for_each; intros ?
    | apply traced_collect_each; intros ?
    | match goal with |- traced (ignore_error _) => apply traced_ignore end
    | case_match ].

Lemma traced_apply_role role : traced (apply_role (Sink := TrackerSink) role).
Proof.
  unfold apply_role, apply_state_rules, apply_network_rule, apply_ip_rule, apply_domain_rule. cbn.
  unfold loader_write_states, update_role_flags, loader_add_network_rule, loader_add_ip_rule,
    loader_add_domain_rule, set_proxy_config, loader_cache_resolved_ip. solve_traced.
Qed.

Lemma traced_load_rules role_id role :
  traced (set_role_policy role_id (r_flags role) ;;?
    apply_network_rules role_id (r_network_rules role) ;;?
    apply_path_rules role_id (r_file_paths role)).
Proof.
  unfold set_role_policy, apply_network_rules, apply_path_rules, loader_write_states, update_role_flags,
    loader_add_network_rule. solve_traced.
Qed.

(** The same for functions of the daemon. *)
Definition traced_daemon {A} (p : io load_error daemon A) : Prop :=
  forall d, exists evs, Forall user_event evs /\ steps evs (d_bpf d) (d_bpf (p d).2)
  /\ d_policy (p d).2 = d_policy d.

Lemma traced_on_bpf {A} (p : loader A) : traced p -> traced_daemon (on_bpf p).
Proof.
  intros Hp d. destruct (Hp (d_bpf d)) as (evs & He & Hs). exists evs. unfold on_bpf.
  by destruct (p (d_bpf d)) as [r s].
Qed.

Lemma traced_daemon_keep {A} (p : io load_error daemon A) : (forall d, (p d).2 = d) -> traced_daemon p.
Proof. intros Hp d. exists []. rewrite Hp. split_and!; try done; constructor. Qed.

Lemma traced_daemon_bind {A B} (p : io load_error daemon A) (k : A -> io load_error daemon B) :
  traced_daemon p -> (forall a, traced_daemon (k a)) -> traced_daemon (io_bind p k).
Proof.
  intros Hp Hk d. destruct (Hp d) as (evs & He & Hs & Hpm). unfold io_bind.
  destruct (p d) as [[e|a] d1]; [by exists evs|]. destruct (Hk a d1) as (evs' & He' & Hs' & Hpm').
  exists (evs ++ evs'). split_and!; [by apply Forall_app|by eapply steps_app|by rewrite Hpm'].
Qed.

Lemma traced_inode path : traced_daemon (existing_inode path).
Proof. apply traced_daemon_keep. intros d. unfold existing_inode. by case_match. Qed.

Lemma traced_load_role role_id : traced_daemon (load_role role_id).
Proof.
  intros d. unfold load_role. destruct (get_role (d_policy d) role_id) as [role|].
  - apply traced_on_bpf, traced_load_rules.
  - exists []. split_and!; try done; constructor.
Qed.

Lemma traced_exec_enrollment path pod_id role_id : traced_daemon (enroll_by_executable_path path pod_id role_id).
Proof.
  apply traced_daemon_bind; [apply traced_inode|intros inode].
  apply traced_daemon_bind; [apply traced_load_role|intros _]. apply traced_on_bpf. by apply traced_update.
Qed.

Lemma traced_cgroup_enrollment path pod_id role_id : traced_daemon (enroll_by_cgroup_path path pod_id role_id).
Proof.
  apply traced_daemon_bind; [apply traced_inode|intros inode].
  apply traced_daemon_bind; [apply traced_load_role|intros _]. apply traced_on_bpf. by apply traced_update.
Qed.

Lemma traced_handle_enroll pod_id role_id : traced_daemon (handle_enroll peer pod_id role_id).
Proof.
  intros d. unfold handle_enroll. destruct (get_role (d_policy d) role_id) as [role|].
  - apply traced_on_bpf. unfold set_role_policy, apply_network_rules, apply_path_rules, loader_write_states,
      update_role_flags, loader_add_network_rule, enroll_process. solve_traced.
  - exists []. split_and!; try done; constructor.
Qed.

Lemma respond_daemon r : (respond r).2 = r.2.
Proof. by destruct r as [[e|u] d]. Qed.

(** What a request does to the manager. *)
Definition request_op (req : EnrollmentRequest) : list manager_op :=
  match req with
  | DefineRole role => match unenforced_settings role with [] => [OpDefine role] | _ => [] end
  | _ => []
  end.

Lemma request_simulated req d :
  let d' := (handle_client peer req d).2 in
  (exists evs, Forall user_event evs /\ steps evs (d_bpf d) (d_bpf d'))
  /\ d_policy d' = fold_left run_op (request_op req) (d_policy d).
Proof.
  assert (forall A (p : io load_error daemon A), traced_daemon p ->
      (exists evs, Forall user_event evs /\ steps evs (d_bpf d) (d_bpf (p d).2))
      /\ d_policy (p d).2 = d_policy d) as Htd.
  { intros A p Hp. destruct (Hp d) as (evs & ? & ? & ?). eauto. }
  assert (exists evs, Forall user_event evs /\ steps evs (d_bpf d) (d_bpf d)) as Hnil
    by (exists []; split; constructor).
  destruct req; cbn [handle_client request_op fold_left]; rewrite ?respond_daemon.
  - apply (Htd unit), traced_handle_enroll.
  - by destruct (get_process_info _ _) as [[]|].
  - apply (Htd unit), traced_exec_enrollment.
  - apply (Htd unit), traced_daemon_bind; [apply traced_inode|intros ?]. by apply traced_on_bpf, traced_delete.
  - unfold handle_define_role. destruct (unenforced_settings role); [|done]. rewrite respond_daemon.
    destruct (traced_daemon_bind _ _ (traced_on_bpf _ (traced_apply_role role))
        (fun _ => traced_daemon_keep (ok tt) (fun d => eq_refl)) (set_policy (define_role role (d_policy d)) d))
      as (evs & He & Hs & Hp). split; [by exists evs|done].
  - apply (Htd unit), traced_cgroup_enrollment.
  - apply (Htd unit), traced_daemon_bind; [apply traced_inode|intros ?]. by apply traced_on_bpf, traced_delete.
  - by destruct (set_xattr_enrollment _ _ _ _).
  - by destruct (check_xattr_enrollment _ _) as [[[]|]|].
  - done.
Qed.

Lemma traced_daemon_for_each {X} (f : X -> io load_error daemon unit) xs :
  (forall x, traced_daemon (f x)) -> traced_daemon (for_each f xs).
Proof.
  intros Hf. induction xs as [|x xs IH]; [by apply traced_daemon_keep|]. by apply traced_daemon_bind.
Qed.

Lemma traced_load_from_policy : traced_daemon load_from_policy.
Proof.
  intros d. unfold load_from_policy.
  eapply traced_daemon_bind; [|intros ?]; apply traced_daemon_for_each; intros [[path pod] role].
  - intros d'. apply (traced_exec_enrollment path pod role d').
  - intros d'. apply (traced_cgroup_enrollment path pod role d').
Qed.

Lemma start_simulated policy order s a :
  (exists evs, Forall user_event evs /\ steps evs s (d_bpf (start policy order s a)))
  /\ d_policy (start policy order s a) = start_policy policy.
Proof.
  unfold start. set (s1 := if bool_decide _ then _ else _).
  assert (step (EvPolicyUpdate s1) s s1) as H1.
  { apply (step_event (EvPolicyUpdate s1)). unfold s1. case_bool_decide; [by split_and!|].
    rewrite invalidate_cache_bump, bump_generation_eq. by split_and!. }
  set (p := for_each _ order). assert (traced p) as Hp.
  { apply traced_for_each. intros [name role]. apply traced_ignore, traced_apply_role. }
  destruct (Hp s1) as (evs & He & Hs).
  destruct (traced_load_from_policy (Daemon (p s1).2 (start_policy policy) a)) as (evs' & He' & Hs' & Hpol).
  split; [|done]. exists ((EvPolicyUpdate s1 :: evs) ++ evs'). split.
  - apply Forall_app. split; [by apply Forall_cons|done].
  - eapply steps_app; [|exact Hs']. by econstructor.
Qed.
End simulation.
