(* ===== verification/DaemonRuns.v ===== *)
(** * Runs of the daemon and the hooks together

    Requests to the daemon (Daemon.v) interleaved with the events of the system
    (System.v): what every run keeps, what an accepted enrollment leads to, and
    what refused or incomplete requests leave behind. *)

From S2P Require Import Prelude CLayout BpfMap Rust Kernel KernelTypes Types Machine Scenario Hash PathWalk StateMachine Enrollment Hooks FileOpen Network Codec Patterns Parse Loader Policy Apply Exec Guards RolePolicy RoleLimits System Coherence Daemon.

Section runs.
Context `{World : FileWorld} `{Resolver : !DomainResolver} `{KL : KernelLayout}.

Inductive daemon_event :=
| OnKernel (ev : event)
| OnRequest (pid : Z) (request : EnrollmentRequest).

Inductive dstep : daemon_event -> daemon -> daemon -> Prop :=
| dstep_kernel ev d s' : step ev (d_bpf d) s' -> dstep (OnKernel ev) d (set_bpf s' d)
| dstep_request pid request d : dstep (OnRequest pid request) d (handle_client pid request d).2.

Inductive dsteps : list daemon_event -> daemon -> daemon -> Prop :=
| dsteps_nil d : dsteps [] d d
| dsteps_cons ev evs d d1 d2 : dstep ev d d1 -> dsteps evs d1 d2 -> dsteps (ev :: evs) d d2.

(** ** Invariants *)

Lemma user_not_free peer evs t : Forall (user_event peer) evs -> EvTaskFree t ∉ evs.
Proof. intros Hu Hin. rewrite Forall_forall in Hu. by apply Hu in Hin. Qed.

Lemma request_op_ok req : Forall op_ok (request_op req).
Proof. destruct req; try by constructor. cbn. case_match; by repeat constructor. Qed.

Lemma dstep_enrolled ev d d' t :
  dstep ev d d' -> OnKernel (EvTaskFree t) <> ev -> enrolled (d_bpf d) t = true -> enrolled (d_bpf d') t = true.
Proof.
  intros [ev' d0 s' Hst|pid req d0] Hf.
  - eapply step_enrolled; [done|]. congruence.
  - destruct (request_simulated pid req d0) as [(evs & Hu & Hs) _].
    eapply steps_enrolled; [done|by eapply user_not_free].
Qed.

Lemma dsteps_enrolled evs d d' t :
  dsteps evs d d' -> OnKernel (EvTaskFree t) ∉ evs -> enrolled (d_bpf d) t = true -> enrolled (d_bpf d') t = true.
Proof.
  induction 1 as [|ev evs d d1 d2 Hst _ IH]; [done|]. intros [? ?]%not_elem_of_cons ?.
  apply IH; [done|]. by eapply dstep_enrolled.
Qed.

Lemma dsteps_inv evs d d' :
  dsteps evs d d' -> state_ok (d_bpf d) /\ manager_ok (d_policy d) -> state_ok (d_bpf d') /\ manager_ok (d_policy d').
Proof.
  induction 1 as [d|ev evs d d1 d2 Hst _ IH]; [done|]. intros [Hok Hm]. apply IH.
  destruct Hst as [ev' d s' Hst|pid req d].
  - split; [by eapply step_state_ok|done].
  - destruct (request_simulated pid req d) as [(evs' & Hu & Hs) Hp]. split.
    + by eapply steps_state_ok.
    + rewrite Hp. apply run_ops_ok; [apply request_op_ok|done].
Qed.

(** ** Requests wait *)

(** The event neither serves nor replaces a request of [pid]. *)
Definition leaves_request (pid : Z) (ev : event) : Prop :=
  match ev with
  | EvFileOpen e _ | EvBprmCheck e _ => current_pid e <> pid
  | EvEnrollRequest p _ => p <> pid /\ in_width 32 p
  | _ => True
  end.

Lemma current_pid_range e : in_width 32 (current_pid e).
Proof. apply (wrap_range 32). lia. Qed.

Lemma pending_key_inj p q :
  in_width 32 p -> in_width 32 q -> key_image pending_enrollments p = key_image pending_enrollments q -> p = q.
Proof. intros Hp Hq Heq. apply (to_bytes_inj u32_repr) in Heq; [done|solve_fits; done..]. Qed.

(** The row of a pid is only touched under its key. *)
Lemma pending_for_ext s s' pid :
  m_pending_enrollments s' !! key_image pending_enrollments pid
  = m_pending_enrollments s !! key_image pending_enrollments pid -> pending_for s' pid = pending_for s pid.
Proof. intros Hl. unfold pending_for. by rewrite !map_lookup_hash, Hl by done. Qed.

Lemma after_pending_other e s pid :
  in_width 32 pid -> current_pid e <> pid -> pending_for (after_pending e s) pid = pending_for s pid.
Proof.
  intros Hp Hne. apply pending_for_ext. unfold after_pending.
  destruct (pending_for s (current_pid e)) as [p|] eqn:Hpf; [|by rewrite check_pending_none].
  rewrite (check_pending_some _ _ _ _ _ Hpf). cbn [m_pending_enrollments set_pending_enrollments].
  assert (m_pending_enrollments (if bool_decide (is_Some (m_task_storage s !! e_current_task e))
      || e_storage_alloc e (e_current_task e) then set_task_storage <[e_current_task e := p]> s else s)
      = m_pending_enrollments s) as -> by by case_match.
  unfold map_delete. case_bool_decide; [|done]. cbn. apply lookup_delete_ne.
  intros Heq. apply Hne. by apply pending_key_inj; [apply current_pid_range| |].
Qed.

Lemma file_open_pending e file s :
  m_pending_enrollments (file_open e file s).2 = m_pending_enrollments (after_pending e s).
Proof.
  rewrite file_open_eq. destruct (m_task_storage _ !! _) as [info|]; [|done].
  destruct (pi_pod_id info =? 0); [done|].
  destruct (map_lookup role_flags _ _) as [flags|]; [|done].
  destruct (f_path_dentry (e_mem e) file =? 0); [by case_match|].
  pose proof (file_path_decision_frame e info (f_path_dentry (e_mem e) file)
      (f_path_mnt (e_mem e) file) (after_pending e s)) as (_ & _ & _ & Hs & _).
  destruct (file_path_decision _ _ _ _ _) as [[r|] s']; simpl in *; [done|]. by case_match.
Qed.

Lemma bprm_pending e bprm s :
  m_pending_enrollments (bprm_check_security e bprm s).2 = m_pending_enrollments (after_pending e s).
Proof.
  destruct (exec_info e s) as [info|] eqn:Hi; [|by rewrite bprm_no_storage].
  destruct (Z.eq_dec (pi_pod_id info) 0) as [Hp|Hp].
  - rewrite (bprm_unjailed _ _ _ _ Hi Hp). unfold exec_state. repeat (case_match; simpl); done.
  - rewrite (bprm_jailed _ _ _ _ Hi Hp). destruct (map_lookup role_flags _ _) as [flags|]; [|done].
    destruct (bprm_file (e_mem e) bprm =? 0); [by case_match|].
    pose proof (exec_path_decision_frame e info (bprm_file (e_mem e) bprm) (after_pending e s))
      as [(_ & _ & _ & Hs & _) _].
    destruct (exec_path_decision _ _ _ _) as [[r|] s']; simpl in *; [done|]. by case_match.
Qed.

Lemma audit_only_pending {A} (res : A * bpf_state) s :
  res.2 = s \/ (exists ev, res.2 = set_audit_events (cons ev) s) ->
  m_pending_enrollments res.2 = m_pending_enrollments s.
Proof. by intros [->|[ev ->]]. Qed.

Lemma step_pending ev s s' pid :
  step ev s s' -> in_width 32 pid -> leaves_request pid ev -> pending_for s' pid = pending_for s pid.
Proof.
  intros [ev' s0 Hen] Hpid Hl.
  assert (forall s1, m_pending_enrollments s1 = m_pending_enrollments s0 ->
      pending_for s1 pid = pending_for s0 pid) as Hsame by (intros s1 Hs; apply pending_for_ext; by rewrite Hs).
  destruct ev' as [e task|e file|e sock a|e sock a|e sock msg sz|e bprm|e d| | |e child|e k|e c a z
      |p i|s''|task]; cbn [run_event enabled leaves_request] in *.
  - apply Hsame. unfold task_alloc, task_storage_get_create, task_storage_get, task_storage_write. unfold_prog.
    repeat (case_match; simplify_eq; simpl); done.
  - rewrite <-(after_pending_other e s0 pid) by done. apply pending_for_ext. by rewrite file_open_pending.
  - apply Hsame, audit_only_pending, socket_bind_frame.
  - apply Hsame, audit_only_pending, socket_connect_frame.
  - done.
  - rewrite <-(after_pending_other e s0 pid) by done. apply pending_for_ext. by rewrite bprm_pending.
  - apply Hsame. unfold path_rename, bind, ret. case_match; [done|]. by rewrite bump_generation_eq.
  - apply Hsame. unfold sb_mount, bind. by rewrite bump_generation_eq.
  - apply Hsame. unfold sb_umount, bind. by rewrite bump_generation_eq.
  - apply Hsame, audit_only_pending, ptrace_frame.
  - apply Hsame, audit_only_pending, guard_current_frame.
  - apply Hsame, audit_only_pending, guard_current_frame.
  - apply pending_for_ext. destruct Hl as [Hne Hp]. cbn. unfold map_update. cbn [md_type pending_enrollments].
    destruct (_ || _); [|done]. cbn. unfold map_store. apply lookup_insert_ne.
    intros Heq. apply Hne. by apply pending_key_inj.
  - apply Hsame, Hen.
  - by apply Hsame.
Qed.

Lemma user_leaves peer evs pid :
  peer <> pid -> in_width 32 peer -> Forall (user_event peer) evs -> Forall (leaves_request pid) evs.
Proof.
  intros Hne Hw Hu. eapply Forall_impl; [exact Hu|]. intros ev. destruct ev; cbn; try done. by intros ->.
Qed.

Lemma steps_pending evs s s' pid :
  steps evs s s' -> in_width 32 pid -> Forall (leaves_request pid) evs -> pending_for s' pid = pending_for s pid.
Proof.
  intros Hs Hp. induction Hs as [|ev evs s s1 s2 Hst _ IH]; [done|]. intros [Hl Hls]%Forall_cons.
  rewrite IH by done. by eapply step_pending.
Qed.

(** The same of the daemon's events. *)
Definition quiet (pid : Z) (ev : daemon_event) : Prop :=
  match ev with
  | OnKernel ev => leaves_request pid ev
  | OnRequest peer _ => peer <> pid /\ in_width 32 peer
  end.

Lemma dsteps_pending evs d d' pid :
  dsteps evs d d' -> in_width 32 pid -> Forall (quiet pid) evs ->
  pending_for (d_bpf d') pid = pending_for (d_bpf d) pid.
Proof.
  intros Hs Hp. induction Hs as [|ev evs d d1 d2 Hst _ IH]; [done|]. intros [Hl Hls]%Forall_cons.
  rewrite IH by done. destruct Hst as [ev' d s' Hst|peer req d]; cbn in Hl.
  - by eapply step_pending.
  - destruct Hl. destruct (request_simulated peer req d) as [(evs' & Hu & Hst) _].
    eapply steps_pending; [done..|]. by eapply user_leaves.
Qed.

(** An accepted enrollment waits for its process. *)
Lemma enroll_accepted pid pod_id role_id d d' :
  handle_client pid (Enroll pod_id role_id) d = (Success, d') ->
  in_width 64 pod_id -> in_width 32 role_id -> pod_id <> 0 ->
  pending_for (d_bpf d') pid = Some (ProcessInfo pod_id role_id 0 0).
Proof.
  cbn [handle_client]. unfold respond, handle_enroll. intros Hh Hpod Hrole Hnz.
  destruct (get_role (d_policy d) role_id) as [role|]; [|done]. unfold on_bpf in Hh.
  destruct (io_bind _ _ (d_bpf d)) as [[e|u] s'] eqn:Hrun; [done|]. injection Hh as <-. cbn [d_bpf set_bpf].
  apply io_bind_inr in Hrun as (_ & s1 & _ & (_ & s2 & _ & (_ & s3 & _ & He)%io_bind_inr)%io_bind_inr).
  pose proof (enroll_pending_event pid pod_id role_id s3) as Hev.
  unfold enroll_process, enroll_pending_process, update in He.
  destruct (_ || _) eqn:Hroom; [|done]. injection He as _ <-.
  unfold pending_for. rewrite map_lookup_hash by done.
  change (m_pending_enrollments (set_map N_pending_enrollments ?m s3)) with m.
  change (to_ne_bytes 4 pid) with (key_image pending_enrollments pid). rewrite lookup_insert_eq.
  cbn [fmap option_fmap option_map].
  change (of_bytes (md_value pending_enrollments) _)
    with (of_bytes process_info_repr (to_bytes process_info_repr (ProcessInfo pod_id role_id 0 0))).
  rewrite (of_to_bytes process_info_repr) by (solve_fits; try done; apply in_width_0; lia).
  cbn [pi_pod_id]. apply Z.eqb_neq in Hnz. by rewrite Hnz.
Qed.

(** Serving a request, at an open or an exec. *)
Lemma request_served e s p :
  pending_for s (current_pid e) = Some p -> storage_available e s (e_current_task e) = true ->
  forall hook : prog Z,
  ((exists file, hook = file_open e file) \/ (exists bprm, hook = bprm_check_security e bprm)) ->
  m_task_storage (hook s).2 !! e_current_task e = Some p.
Proof.
  intros Hp Ha.
  assert (m_task_storage (after_pending e s) !! e_current_task e = Some p) as Hs.
  { unfold after_pending. rewrite check_pending_self, Hp. fold (storage_available e s (e_current_task e)).
    by rewrite Ha. }
  intros hook [[file ->]|[bprm ->]].
  - by rewrite file_open_storage.
  - rewrite (bprm_storage_jailed e bprm s p); [done| |by eapply pending_for_pod].
    unfold exec_info. by rewrite Hs.
Qed.
End runs.

(** ** What an enrollment re-applies *)

Section reapply.
Context `{World : FileWorld} `{Resolver : !DomainResolver}.

Lemma network_rules_emit id rules :
  emits (apply_network_rules id rules) (inl <$> (rules ≫= network_writes id)) tt.
Proof.
  rewrite <-bind_inl. apply emits_for_each. intros r. unfold network_writes.
  destruct (expand_network_rule _ _ _ _) as [[protocol ports]|]; [|apply emits_ok].
  rewrite <-bind_inl. apply emits_for_each. intros port.
  eapply emits_seq; [apply emits_update|apply emits_update|done].
Qed.

Lemma path_rules_emit id patterns :
  let rules := (fun r => (pp_pattern r, pp_allow r)) <$> patterns in
  emits (apply_path_rules id patterns)
    (match path_state_entries_for_role id rules with
    | inr _ => inl <$> state_writes N_path_states id rules
    | inl conflicts => [inr (Conflicts conflicts)]
    end) tt.
Proof.
  intros rules. unfold apply_path_rules, state_writes. fold rules.
  destruct (path_state_entries_for_role id rules) as [cs|entries]; [apply emits_err|].
  unfold loader_write_states. destruct entries; [apply emits_ok|apply for_each_updates].
Qed.

(** However it ends, a function that emits steps has made some of their writes. *)
Lemma emits_some {A} (p : loader A) steps r s :
  emits p steps r -> exists ws, (p s).2 = puts ws s /\ forall w, w ∈ ws -> w ∈ omap step_write steps.
Proof.
  intros ->. unfold io_bind, ok.
  assert (exists ws, (for_each run_step steps s).2 = puts ws s
      /\ forall w, w ∈ ws -> w ∈ omap step_write steps) as (ws & Hs & Hw).
  { clear. revert s. induction steps as [|st steps IH]; intros s; [exists []; set_solver|].
    cbn [for_each]. unfold io_bind. destruct st as [w|e]; cbn [run_step]; [|exists []; set_solver].
    destruct (do_write w s) as [[e|u] s1] eqn:Hd.
    - exists []. split; [|set_solver]. unfold do_write, update in Hd. case_match; by simplify_eq.
    - apply do_write_ok in Hd as ->. destruct (IH (put s w)) as (ws & -> & Hw). exists (w :: ws).
      split; [done|]. cbn. set_solver. }
  exists ws. split; [|done]. by destruct (for_each run_step steps s) as [[e|u] s1].
Qed.

(** Writing a whole section again changes nothing, as long as its rows are as
    the section leaves them. *)
Lemma section_again role s n :
  n <> N_domain_rules -> n <> N_dns_cache ->
  (forall w, w ∈ section_writes role n -> map_by_name n s !! w_key w = last_write n (w_key w) (section_writes role n)) ->
  for_each do_write (section_writes role n) s = (inr tt, s).
Proof.
  intros Hd Hc Hs. apply writes_again. intros w Hw.
  assert (w_map w = n) as -> by (apply section_map in Hw as [?|[_ ?]]; [done|set_solver]). by apply Hs.
Qed.

(** The flags, port rules and path rules of a role whose rows are in place. *)
Lemma load_rules_keep role s :
  (forall n w, n ∈ [N_role_flags; N_network_rules; N_path_states] -> w ∈ section_writes role n ->
    map_by_name n s !! w_key w = last_write n (w_key w) (section_writes role n)) ->
  set_role_policy (r_id role) (r_flags role) s = (inr tt, s)
  /\ apply_network_rules (r_id role) (r_network_rules role) s = (inr tt, s)
  /\ apply_path_rules (r_id role) (r_file_paths role) s
  = (match path_state_entries_for_role (r_id role) (file_rules role) with
    | inr _ => inr tt | inl conflicts => inl (Conflicts conflicts) end, s).
Proof.
  intros Hs.
  assert (forall n, n ∈ [N_role_flags; N_network_rules; N_path_states] ->
      for_each do_write (section_writes role n) s = (inr tt, s)) as Hagain.
  { intros n Hn. apply section_again; [set_solver..|]. intros w. by apply Hs. }
  split_and!.
  - pose proof (Hagain N_role_flags ltac:(set_solver)) as H. cbn [section_writes for_each] in H.
    unfold io_bind, do_write, ok in H. cbn [w_map w_key w_value] in H.
    unfold set_role_policy, update_role_flags. by destruct (update _ _ _ _) as [[e|[]] s1].
  - rewrite network_rules_emit. unfold io_bind. rewrite run_inl.
    change (r_network_rules role ≫= _) with (section_writes role N_network_rules). by rewrite Hagain by set_solver.
  - rewrite path_rules_emit. unfold io_bind. change ((fun r => (pp_pattern r, pp_allow r)) <$> _) with (file_rules role).
    destruct (path_state_entries_for_role (r_id role) (file_rules role)) as [cs|entries]; [done|].
    rewrite run_inl. change (state_writes _ _ _) with (section_writes role N_path_states). by rewrite Hagain by set_solver.
Qed.

(** After a role has been applied, an enrollment under it finds everything in
    place. *)
Lemma reapply_keeps role s sk s' :
  apply_role (Sink := TrackerSink) role s = (inr sk, s') ->
  set_role_policy (r_id role) (r_flags role) s' = (inr tt, s')
  /\ apply_network_rules (r_id role) (r_network_rules role) s' = (inr tt, s')
  /\ (apply_path_rules (r_id role) (r_file_paths role) s').2 = s'.
Proof.
  intros (_ & _ & ->)%(apply_role_ok TrackerSink tracker_map_sink).
  destruct (load_rules_keep role (puts (role_writes role) s)) as (? & ? & ->); [|done].
  intros n w Hn Hw. assert (n ∈ policy_maps) as Hn' by (unfold policy_maps; set_solver).
  rewrite puts_lookup, role_last_write by done. destruct (last_write n (w_key w) _) eqn:Hl; [done|].
  apply last_write_None in Hl. rewrite Forall_forall in Hl. destruct (Hl w Hw).
  split; [|done]. apply section_map in Hw as [?|[_ ?]]; [done|set_solver].
Qed.

(** The request of a process whose role is in place only stages its row. *)
Lemma enroll_stages pid pod_id role d s sk :
  apply_role (Sink := TrackerSink) role s = (inr sk, d_bpf d) -> get_role (d_policy d) (r_id role) = Some role ->
  handle_client pid (Enroll pod_id (r_id role)) d
  = respond (on_bpf (enroll_pending_process pid pod_id (r_id role)) d).
Proof.
  intros Ha Hg. destruct (reapply_keeps role s sk _ Ha) as (H1 & H2 & H3).
  cbn [handle_client]. unfold handle_enroll. rewrite Hg. unfold on_bpf, io_bind, ignore_error.
  rewrite H1. cbv beta iota. rewrite H2. cbn [snd]. cbv beta iota. by rewrite H3.
Qed.

(** ** Roles that failed to apply *)

Lemma puts_untouched n ws s : (forall w, w ∈ ws -> w_map w <> n) -> map_by_name n (puts ws s) = map_by_name n s.
Proof.
  intros Hw. apply map_eq. intros k. rewrite puts_lookup, last_write_other; [done|]. by apply Forall_forall.
Qed.

Lemma puts_app ws ws' s : puts ws' (puts ws s) = puts (ws ++ ws') s.
Proof. unfold puts. by rewrite fold_left_app. Qed.

(** The writes of an enrollment, before it stages the row, stay in these maps. *)
Definition early_maps : list map_name := [N_role_flags; N_path_states; N_exec_states; N_network_rules].

Lemma define_wide_fails peer role r d :
  within_capacity (d_bpf d) -> role_ok role -> r ∈ r_network_rules role -> too_wide r ->
  unenforced_settings role = [] ->
  exists e done_, handle_client peer (DefineRole role) d
  = (Error (Failed e), Daemon (puts done_ (d_bpf d)) (define_role role (d_policy d)) (d_attrs d))
  /\ done_ `prefix_of` head_writes role.
Proof.
  intros Hc Hok Hin Hw Hun.
  destruct (wide_range_fails TrackerSink tracker_map_sink role r (d_bpf d) Hc Hok Hin Hw) as (e & done_ & He & Hd).
  exists e, done_. split; [|done]. cbn [handle_client]. unfold handle_define_role. rewrite Hun.
  unfold io_bind, on_bpf. cbn [d_bpf set_policy]. by rewrite He.
Qed.

(** The flag row can be written over an interrupted application. *)
Lemma flag_row_fits role done_ s :
  done_ `prefix_of` head_writes role -> Z.of_nat (size (m_role_flags s)) < capacity N_role_flags ->
  set_role_policy (r_id role) (r_flags role) (puts done_ s)
  = (inr tt, put (puts done_ s) (Write N_role_flags (to_ne_bytes 4 (r_id role)) [policy_flags_to_u8 (r_flags role)])).
Proof.
  intros Hd Hroom. unfold set_role_policy, update_role_flags, update, put. cbn [w_map w_key w_value].
  destruct done_ as [|w done_].
  - apply Z.ltb_lt in Hroom. change (map_by_name N_role_flags (puts [] s)) with (m_role_flags s).
    by rewrite Hroom, orb_true_r.
  - unfold head_writes in Hd. apply prefix_cons_inv_1 in Hd as ->. rewrite bool_decide_eq_true_2; [done|].
    set (w := Write _ _ _). apply (written_present (w :: done_) s w). set_solver.
Qed.

Lemma enroll_after_failure pid pod_id role done_ d :
  done_ `prefix_of` head_writes role -> get_role (d_policy d) (r_id role) = Some role ->
  Z.of_nat (size (m_role_flags (d_bpf d))) < capacity N_role_flags ->
  Z.of_nat (size (m_pending_enrollments (d_bpf d))) < capacity N_pending_enrollments ->
  exists s', handle_client pid (Enroll pod_id (r_id role)) (set_bpf (puts done_ (d_bpf d)) d) = (Success, set_bpf s' d)
  /\ forall n, n ∉ N_pending_enrollments :: early_maps -> map_by_name n s' = map_by_name n (d_bpf d).
Proof.
  intros Hd Hg Hf Hp. set (s := d_bpf d) in *.
  set (s1 := put (puts done_ s) (Write N_role_flags (to_ne_bytes 4 (r_id role)) [policy_flags_to_u8 (r_flags role)])).
  destruct (emits_some _ _ _ s1 (network_rules_emit (r_id role) (r_network_rules role))) as (ws & Hs2 & Hws).
  destruct (emits_some _ _ _ (puts ws s1) (path_rules_emit (r_id role) (r_file_paths role))) as (ws' & Hs3 & Hws').
  assert (exists all, puts ws' (puts ws s1) = puts all s /\ forall w, w ∈ all -> w_map w ∈ early_maps) as (all & Hall & Hmaps).
  { exists (done_ ++ [Write N_role_flags (to_ne_bytes 4 (r_id role)) [policy_flags_to_u8 (r_flags role)]] ++ ws ++ ws').
    split; [by rewrite <-!puts_app|].
    intros w [Hw|[ ->%list_elem_of_singleton|[Hw|Hw]%elem_of_app]%elem_of_app]%elem_of_app.
    - assert (w ∈ head_writes role) as Hmap%head_map by (destruct Hd as [? ->]; set_solver).
      unfold early_maps. set_solver.
    - unfold early_maps. set_solver.
    - apply Hws in Hw. rewrite omap_inl in Hw.
      apply list_elem_of_bind in Hw as (r & (? & ? & ? & ->)%network_write_in & _). unfold early_maps. set_solver.
    - apply Hws' in Hw. case_match; [set_solver|]. rewrite omap_inl in Hw.
      apply state_write_key in Hw as [-> _]. unfold early_maps. set_solver. }
  assert (map_by_name N_pending_enrollments (puts all s) = m_pending_enrollments s) as Hpend.
  { apply (puts_untouched N_pending_enrollments). intros w Hw%Hmaps Heq. rewrite Heq in Hw.
    unfold early_maps in Hw. clear -Hw. set_unfold. intuition congruence. }
  set (v := <[13%nat := 0]> (<[12%nat := 0]> (copy_at 8 (to_ne_bytes 4 (r_id role)) (copy_at 0 (to_ne_bytes 8 pod_id) (replicate 16 0))))).
  exists (put (puts all s) (Write N_pending_enrollments (to_ne_bytes 4 pid) v)). split.
  - cbn [handle_client]. unfold handle_enroll, respond, on_bpf, io_bind. cbn [d_policy d_bpf set_bpf]. rewrite Hg.
    rewrite flag_row_fits by done. fold s1. unfold ignore_error. rewrite Hs2, Hs3, Hall.
    unfold enroll_process, enroll_pending_process, update. rewrite Hpend.
    apply Z.ltb_lt in Hp. rewrite Hp, orb_true_r. unfold put. cbn [w_map w_key w_value].
    by rewrite Hpend.
  - intros n Hn. change (put (puts all s) ?w) with (puts [w] (puts all s)). rewrite puts_app.
    apply puts_untouched. intros w [Hw%Hmaps| ->%list_elem_of_singleton]%elem_of_app Heq; apply Hn.
    + rewrite <-Heq. set_solver.
    + rewrite <-Heq. cbn. set_solver.
Qed.
End reapply.

(** ** Decisions that outlive a definition *)

Section redefinition.
Context `{World : FileWorld} `{Resolver : !DomainResolver} `{KL : KernelLayout}.

Lemma decision_same_policy s s' : decision_frame s s' -> same_policy s s'.
Proof.
  unfold decision_frame, same_policy, policy_maps. intros Hf n Hn. destruct_and!.
  repeat (apply elem_of_cons in Hn as [->|Hn]; [cbn; congruence|]). by apply elem_of_nil in Hn.
Qed.

Lemma file_open_same_policy e file s : same_policy s (file_open e file s).2.
Proof.
  pose proof (enrollment_same_policy _ _ (after_pending_frame e s)) as Hf. rewrite file_open_eq.
  destruct (m_task_storage _ !! _) as [info|]; [|done]. destruct (pi_pod_id info =? 0); [done|].
  assert (forall s1 ctx, same_policy s s1 -> same_policy s (audit_deny e info AUDIT_HOOK_FILE_OPEN ctx s1).2) as Hd.
  { intros s1 ctx H1. etransitivity; [exact H1|]. intros n _. by destruct n. }
  destruct (map_lookup role_flags _ _) as [flags|]; [|by apply Hd].
  destruct (f_path_dentry (e_mem e) file =? 0); [case_match; [by apply Hd|done]|].
  pose proof (decision_same_policy _ _ (file_path_decision_frame e info (f_path_dentry (e_mem e) file)
      (f_path_mnt (e_mem e) file) (after_pending e s))) as H2.
  destruct (file_path_decision _ _ _ _ _) as [[r|] s']; cbn [snd] in *; [by etransitivity|].
  case_match; [apply Hd|]; by etransitivity.
Qed.

Lemma frame_state_ok s s' : user_frame s s' -> state_ok s -> state_ok s'.
Proof. intros (Ht & _ & _ & Hb & _) [H1 H2]. unfold state_ok, storage_fits. by rewrite Ht, Hb. Qed.

(** However a definition ends, it has written to the policy tables and nothing
    else. *)
Lemma define_role_writes peer role d :
  exists ws, d_bpf (handle_client peer (DefineRole role) d).2 = puts ws (d_bpf d)
  /\ forall w, w ∈ ws -> w_map w ∈ policy_maps.
Proof.
  cbn [handle_client]. unfold handle_define_role.
  destruct (unenforced_settings role); [|exists []; set_solver]. rewrite respond_daemon.
  unfold io_bind, on_bpf. cbn [d_bpf set_policy].
  destruct (emits_some _ _ _ (d_bpf d) (apply_role_emits TrackerSink tracker_map_sink role)) as (ws & Hs & Hw).
  exists ws. split; [|intros w Hin; by apply (role_write_map role), Hw].
  destruct (apply_role role (d_bpf d)) as [[e|sk] s']; exact Hs.
Qed.

(** Writes to the policy tables release no role from its flags and stage no
    request. *)
Lemma policy_writes_flags ws s role_id flags :
  map_lookup role_flags (m_role_flags s) role_id = Some flags ->
  exists flags', map_lookup role_flags (m_role_flags (puts ws s)) role_id = Some flags'.
Proof.
  rewrite !map_lookup_hash by done. intros (bs & Hbs & _)%fmap_Some.
  change (m_role_flags ?s) with (map_by_name N_role_flags s) in *. rewrite puts_lookup, Hbs.
  destruct (last_write _ _ ws); eauto.
Qed.

Lemma policy_writes_pending ws s pid :
  (forall w, w ∈ ws -> w_map w ∈ policy_maps) -> pending_for (puts ws s) pid = pending_for s pid.
Proof.
  intros Hw. apply pending_for_ext. f_equal. apply (puts_untouched N_pending_enrollments).
  intros w Hin Heq. apply Hw in Hin. rewrite Heq in Hin. unfold policy_maps in Hin. set_solver.
Qed.
End redefinition.

(** ** A world to evaluate in *)

(** One file with extended attributes, and one process. *)
Definition AGENT : bytes := text "/usr/bin/agent".

Definition test_world : FileWorld := {|
  attrs := gmap (bytes * bytes) bytes;
  inode_of := fun path => if decide (path = AGENT) then Some 77 else None;
  task_of_pid := fun pid => if decide (pid = 42) then Some TASK else None;
  xattr_set := fun path name value a =>
  if decide (path = AGENT) then Some (<[(path, name) := value]> a) else None;
  xattr_get := fun path name a => if decide (path = AGENT) then Some (a !! (path, name)) else None;
  xattr_remove := fun path name a => Some (delete (path, name) a);
|}.

(** The daemon with its built-in roles, on the given maps. *)
Definition test_daemon (s : bpf_state) : daemon (World := test_world) := Daemon (World := test_world) s new_manager ∅.

(** ** Properties *)



(** C10. An accepted enrollment takes effect. Once a client's [enroll] with a
    non-zero pod has returned [Ok], the first open or exec of the process puts
    the requested pod and role into the record of the task that makes it, if
    that task has storage or it can be allocated there, however long that takes
    and whatever other processes, requests and policy changes come in between;
    the process itself makes no further request in the meantime. A client's
    [query] of the task's pid then returns them, and the task stays jailed until
    it is freed. (Pod 0 is accepted and never takes effect, and a failed
    allocation loses the request: [pending_consumed_once].) *)
Theorem enroll_takes_effect `{World : FileWorld} `{Resolver : !DomainResolver} `{KL : KernelLayout}
    (pid pod_id role_id : Z) (d d' d1 d2 : daemon) (evs evs' : list daemon_event) (e : hook_env) (hook : prog Z) :
  client_enroll pid pod_id role_id d = (inr tt, d') ->
  in_width 32 pid -> in_width 64 pod_id -> in_width 32 role_id -> pod_id <> 0 ->
  dsteps evs d' d1 -> Forall (quiet pid) evs ->
  current_pid e = pid -> storage_available e (d_bpf d1) (e_current_task e) = true ->
  (exists file, hook = file_open e file) \/ (exists bprm, hook = bprm_check_security e bprm) ->
  dsteps evs' (set_bpf (hook (d_bpf d1)).2 d1) d2 -> OnKernel (EvTaskFree (e_current_task e)) ∉ evs' ->
  m_task_storage (hook (d_bpf d1)).2 !! e_current_task e = Some (ProcessInfo pod_id role_id 0 0)
  /\ (forall client q, task_of_pid q = Some (e_current_task e) ->
       (client_query client q (set_bpf (hook (d_bpf d1)).2 d1)).1 = inr (pod_id, role_id))
  /\ enrolled (d_bpf d2) (e_current_task e) = true.
Proof.
  intros Hh Hpid Hpod Hrole Hnz Hst Hq <- Ha Hhook Hst' Hf.
  assert (pending_for (d_bpf d1) (current_pid e) = Some (ProcessInfo pod_id role_id 0 0)) as Hp.
  { rewrite (dsteps_pending evs d' d1) by done. apply (enroll_accepted _ _ _ d); [|done..].
    unfold client_enroll in Hh. destruct (handle_client _ _ d) as [[] d3]; by inversion Hh. }
  pose proof (request_served e (d_bpf d1) _ Hp Ha hook Hhook) as Hs. split_and!; [done| |].
  { intros client q Hq'. unfold client_query. cbn [handle_client]. unfold get_process_info. rewrite Hq'.
    cbn [mbind option_bind]. cbn [d_bpf set_bpf]. by rewrite Hs. }
  eapply dsteps_enrolled; [exact Hst'|done|]. apply enrolled_spec. by eexists.
Qed.

(** Pid 42 enrolls under a built-in role, another process asks about it, and
    then it opens a file. *)
Lemma enroll_takes_effect_witness :
  let d' := (handle_client (World := test_world) (Resolver := one_name) 42 (Enroll 5 1) (test_daemon init_state)).2 in
  (client_query (World := test_world) (Resolver := one_name) 99 42
    (set_bpf (World := test_world) (file_open (env_with mem_etc) FILE (d_bpf (World := test_world) d')).2 d')).1
  = inr (5, 1).
Proof.
  intros d'.
  assert (forall client q, task_of_pid (FileWorld := test_world) q = Some TASK ->
    (client_query (World := test_world) (Resolver := one_name) client q
      (set_bpf (World := test_world) (file_open (env_with mem_etc) FILE (d_bpf (World := test_world) d')).2 d')).1
    = inr (5, 1)) as H; [|apply (H 99 42 eq_refl)].
  apply (enroll_takes_effect (World := test_world) (Resolver := one_name) 42 5 1 (test_daemon init_state) d' d'
    (set_bpf (World := test_world) (file_open (env_with mem_etc) FILE (d_bpf (World := test_world) d')).2 d')
    [OnRequest 99 (Query 42)] [] (env_with mem_etc) (file_open (env_with mem_etc) FILE)).
  - vm_compute. reflexivity.
  - vm_compute. split; congruence.
  - vm_compute. split; congruence.
  - vm_compute. split; congruence.
  - congruence.
  - apply (dsteps_cons _ _ _ d'); [|apply dsteps_nil].
    assert ((handle_client (World := test_world) (Resolver := one_name) 99 (Query 42) d').2 = d') as Hq
      by (vm_compute; reflexivity).
    rewrite <-Hq at 2. apply dstep_request.
  - apply Forall_singleton. vm_compute. split_and!; congruence.
  - vm_compute. reflexivity.
  - vm_compute. reflexivity.
  - left. by exists FILE.
  - apply dsteps_nil.
  - apply not_elem_of_nil.
Defined.

(** What a request is answered, and what it leaves. *)
Definition answer `{World : FileWorld} `{Resolver : !DomainResolver} (pid : Z) (request : EnrollmentRequest)
    (d : daemon) : EnrollmentResponse := (handle_client pid request d).1.
Definition after_request `{World : FileWorld} `{Resolver : !DomainResolver} (pid : Z) (request : EnrollmentRequest)
    (d : daemon) : daemon := (handle_client pid request d).2.

(** The request is answered with an error and changes nothing. *)
Definition refused `{World : FileWorld} `{Resolver : !DomainResolver} (pid : Z) (d : daemon)
    (request : EnrollmentRequest) : Prop := exists e, handle_client pid request d = (Error e, d).

(** Enrolling under a role that is already in the maps changes nothing but
    the request: the flags, port rules and path rules that the daemon writes
    again are the ones already there, and the answer is [Success] unless the
    table of requests is full. *)
Theorem enroll_rewrites_nothing `{World : FileWorld} `{Resolver : !DomainResolver} `{KL : KernelLayout}
    (pid pod_id : Z) (role : Role) (d : daemon) (s : bpf_state) (sk : list skip) :
  apply_role (Sink := TrackerSink) role s = (inr sk, d_bpf d) -> get_role (d_policy d) (r_id role) = Some role ->
  after_request pid (Enroll pod_id (r_id role)) d
  = set_bpf (run_event (EvEnrollRequest pid (ProcessInfo pod_id (r_id role) 0 0)) (d_bpf d)).2 d
  /\ (Z.of_nat (size (m_pending_enrollments (d_bpf d))) < capacity N_pending_enrollments ->
      answer pid (Enroll pod_id (r_id role)) d = Success).
Proof.
  intros Ha Hg. unfold answer, after_request. rewrite (enroll_stages pid pod_id role d s sk Ha Hg).
  pose proof (enroll_pending_event pid pod_id (r_id role) (d_bpf d)) as Hev.
  unfold on_bpf. split.
  - rewrite respond_daemon, <-Hev. by destruct (enroll_pending_process pid pod_id (r_id role) (d_bpf d)).
  - intros Hroom%Z.ltb_lt. unfold enroll_pending_process, update.
    change (map_by_name N_pending_enrollments (d_bpf d)) with (m_pending_enrollments (d_bpf d)).
    by rewrite Hroom, orb_true_r.
Qed.

(** The agent's role, applied to empty maps and known to the manager. *)
Lemma enroll_rewrites_nothing_witness :
  let d := Daemon (World := test_world) agent_state (define_role agent_role new_manager) ∅ in
  (handle_client (World := test_world) (Resolver := one_name) 42 (Enroll 5 7) d).1 = Success.
Proof.
  intros d.
  destruct (enroll_rewrites_nothing (World := test_world) (Resolver := one_name) 42 5 agent_role d init_state
    [SkipNetworkRule (text "icmp"); SkipUnresolved (text "nowhere")] agent_applies) as [_ H].
  - vm_compute. reflexivity.
  - apply H. vm_compute. reflexivity.
Defined.



(** A role that allows /etc, and the same id redefined to deny it. *)
Definition etc_role (allow : bool) : Role :=
  MkRole 7 (text "etc") (MkPolicyFlags true true true false true false false false false)
    [MkPathPattern (text "/etc/**") allow] [] [] false [] [] None.

(** The daemon after the first definition, with a task jailed under the role. *)
Definition etc_daemon : daemon (World := test_world) :=
  let d := (handle_client (World := test_world) (Resolver := one_name) 1 (DefineRole (etc_role true))
    (test_daemon init_state)).2 in
  set_bpf (World := test_world)
    (set_task_storage (fun _ => {[TASK := jailed_info]}) (d_bpf (World := test_world) d)) d.

(** C40. Redefining a role does not touch the decisions the cache holds under its
    old rules.  Take any jailed task with flags and nothing waiting for it, and
    an open that a path rule decides and the cache keeps.  Whatever definition
    the daemon then receives for whatever role, that of the task included, and
    whatever it answers, the same open by that task gets the same answer again, at
    any later time, with nothing waiting for it and the filesystem unchanged,
    although the rules in the maps may by now say the opposite. *)
Theorem redefinition_serves_stale_decision `{World : FileWorld} `{Resolver : !DomainResolver} `{KL : KernelLayout}
    (peer : Z) (role : Role) (d : daemon) (e e' : hook_env) (file flags : Z) (info : process_info) :
  let s := d_bpf d in
  let redefined := (handle_client peer (DefineRole role) (set_bpf (file_open e file s).2 d)).2 in
  state_ok s -> m_task_storage s !! e_current_task e = Some info -> pi_pod_id info <> 0 ->
  pending_for s (current_pid e) = None -> pending_for s (current_pid e') = None ->
  map_lookup role_flags (m_role_flags s) (pi_role_id info) = Some flags ->
  decided_by_rule e s info file ->
  e_mem e' = e_mem e -> e_current_task e' = e_current_task e ->
  (file_open e' file (d_bpf redefined)).1 = (file_open e file s).1.
Proof.
  intros s redefined Hok Hi Hp Hpe Hpe' Hf Hd Hm Ht.
  destruct (define_role_writes peer role (set_bpf (file_open e file s).2 d)) as (ws & Hs & Hw).
  fold redefined in Hs. cbn [d_bpf set_bpf] in Hs.
  pose proof (after_pending_none e s Hpe) as Hap.
  pose proof (puts_frame ws (file_open e file s).2) as Hfr. rewrite <-Hs in Hfr.
  assert (m_role_flags (file_open e file s).2 = m_role_flags s) as Hsame
    by (apply (file_open_same_policy e file s N_role_flags); unfold policy_maps; set_solver).
  rewrite <-Hsame in Hf. destruct (policy_writes_flags ws _ _ _ Hf) as [flags' Hf'].
  rewrite Hsame in Hf. rewrite <-Hs in Hf'.
  apply (file_open_repeats e e' file s (d_bpf redefined) info flags flags'); try done; try apply Hfr.
  - apply (frame_state_ok _ _ Hfr). by apply file_open_state_ok.
  - apply after_pending_none. rewrite Hs, policy_writes_pending by done.
    unfold pending_for. rewrite file_open_pending, Hap. exact Hpe'.
  - destruct Hfr as [-> _]. by rewrite file_open_storage, Hap.
Qed.

(** /etc was allowed when it was opened, and DefineRole forbids it: the open is
    still allowed, which an evaluation without the cache would refuse. *)
Lemma redefinition_serves_stale_decision_witness :
  let s := d_bpf (World := test_world) etc_daemon in
  let redefined := (handle_client (World := test_world) (Resolver := one_name) 1 (DefineRole (etc_role false))
    (set_bpf (World := test_world) (file_open (env_with mem_etc) FILE s).2 etc_daemon)).2 in
  (file_open (env_with mem_etc) FILE (d_bpf (World := test_world) redefined)).1 = 0
  /\ uncached_verdict (env_with mem_etc) FILE (d_bpf (World := test_world) redefined) = -13.
Proof.
  split; [|vm_compute; reflexivity].
  etransitivity; [apply (redefinition_serves_stale_decision (World := test_world) (Resolver := one_name)
    1 (etc_role false) etc_daemon (env_with mem_etc) (env_with mem_etc) FILE 0x17 jailed_info)|vm_compute; reflexivity].
  - split; [apply map_Forall_singleton, jailed_info_fits|vm_compute; reflexivity].
  - vm_compute. reflexivity.
  - vm_compute. congruence.
  - vm_compute. reflexivity.
  - vm_compute. reflexivity.
  - vm_compute. reflexivity.
  - split_and!; vm_compute; congruence.
  - reflexivity.
  - reflexivity.
Defined.

(** C34. Refusals leave no trace.  A role that asks for something no hook
    enforces is not registered.  [Enroll], [EnrollExecutable] and [EnrollCgroup]
    for a role the manager does not hold, and the requests that enroll or release
    a file that does not exist or store attributes on it, are answered with an
    error and change neither the maps nor the manager nor any attribute; nor do
    [CheckXattr], and [RemoveXattr] where there is nothing that could be removed
    (it is answered with [Success] all the same).  [SetXattr] is not among the
    first: it never asks whether the role is known, and its answer and effect are
    the same under any manager. *)
Theorem refusals_leave_no_trace `{World : FileWorld} `{Resolver : !DomainResolver} (pid pod_id role_id : Z)
    (path : bytes) (role : Role) (d : daemon) :
  (unenforced_settings role <> [] ->
     handle_client pid (DefineRole role) d = (Error (Unenforced (unenforced_settings role)), d))
  /\ (get_role (d_policy d) role_id = None ->
        Forall (refused pid d)
          [Enroll pod_id role_id; EnrollExecutable path pod_id role_id; EnrollCgroup path pod_id role_id])
  /\ (inode_of path = None ->
        Forall (refused pid d)
          [EnrollExecutable path pod_id role_id; EnrollCgroup path pod_id role_id; RemoveExecutable path;
           RemoveCgroup path; SetXattr path pod_id role_id])
  /\ (handle_client pid (CheckXattr path) d).2 = d
  /\ ((forall name a, xattr_remove path name a = None) -> handle_client pid (RemoveXattr path) d = (Success, d))
  /\ (forall pm, handle_client pid (SetXattr path pod_id role_id) (set_policy pm d)
        = let '(response, d') := handle_client pid (SetXattr path pod_id role_id) d in (response, set_policy pm d')).
Proof.
  split_and!.
  - intros Hun. cbn [handle_client]. unfold handle_define_role. by destruct (unenforced_settings role).
  - intros Hg. repeat (apply Forall_cons; split); [..|by apply Forall_nil];
      unfold refused; cbn [handle_client]; unfold handle_enroll, enroll_by_executable_path, enroll_by_cgroup_path, existing_inode,
        load_role, respond, io_bind.
    + rewrite Hg. eauto.
    + destruct (inode_of path); [|by eauto]. cbn. rewrite Hg. eauto.
    + destruct (inode_of path); [|by eauto]. cbn. rewrite Hg. eauto.
  - intros Hi. repeat (apply Forall_cons; split); [..|by apply Forall_nil];
      unfold refused; cbn [handle_client]; unfold enroll_by_executable_path, enroll_by_cgroup_path, remove_executable_enrollment,
        remove_cgroup_enrollment_at, existing_inode, set_xattr_enrollment, respond, io_bind; rewrite Hi; eauto.
    exists XattrFailed. by destruct d.
  - cbn [handle_client]. by destruct (check_xattr_enrollment _ _) as [[[]|]|].
  - intros Hr. cbn [handle_client]. unfold remove_xattr_enrollment. rewrite !Hr. by destruct d.
  - intros pm. cbn [handle_client d_attrs set_policy]. by destruct (set_xattr_enrollment _ _ _ _) as [[] a].
Qed.

(** A role that asks for signed binaries. *)
Definition signed_role : Role :=
  MkRole 9 (text "signed") (MkPolicyFlags true true true true true true true true false)
    [] [] [] false [] [] None.

Lemma refusals_leave_no_trace_witness :
  let d := test_daemon init_state in
  handle_client (World := test_world) (Resolver := one_name) 42
    (DefineRole signed_role) d
  = (Error (Unenforced [SetRequireSignedBinary]), d)
  /\ (exists e, handle_client (World := test_world) (Resolver := one_name) 42 (Enroll 5 99) d = (Error e, d))
  /\ (handle_client (World := test_world) (Resolver := one_name) 42 (SetXattr AGENT 5 99) d).1 = Success.
Proof.
  intros d. split_and!; [..|vm_compute; reflexivity].
  - destruct (refusals_leave_no_trace (World := test_world) (Resolver := one_name) 42 5 99 [] signed_role d)
      as (H & _). apply H. vm_compute. congruence.
  - destruct (refusals_leave_no_trace (World := test_world) (Resolver := one_name) 42 5 99 [] restricted_role d)
      as (_ & H & _). specialize (H eq_refl). by apply Forall_cons in H as [? _].
Defined.

(** What the daemon relies on of extended attributes: a value that is set is
    read back, and setting one name does not change another. *)
Record xattr_laws (World : FileWorld) : Prop := {
  xl_get_set : forall path name value a a', xattr_set path name value a = Some a' ->
    xattr_get path name a' = Some (Some value);
  xl_get_other : forall path name name' value a a', xattr_set path name value a = Some a' -> name <> name' ->
    xattr_get path name' a' = xattr_get path name' a;
}.

(** An enrollment stored on a file is read back: after [SetXattr] has
    succeeded, [CheckXattr] of the same file answers with the same pod and
    role. *)
Theorem xattr_roundtrip `{World : FileWorld} `{Resolver : !DomainResolver} (pid pid' pod_id role_id : Z)
    (path : bytes) (d : daemon) :
  xattr_laws World -> in_width 64 pod_id -> in_width 32 role_id ->
  (handle_client pid (SetXattr path pod_id role_id) d).1 = Success ->
  let d' := (handle_client pid (SetXattr path pod_id role_id) d).2 in
  handle_client pid' (CheckXattr path) d' = (XattrInfo pod_id role_id, d').
Proof.
  intros Hx Hpod Hrole. cbn [handle_client]. unfold set_xattr_enrollment.
  destruct (inode_of path); [|done]. destruct (xattr_set path pod_xattr _ _) as [a1|] eqn:H1; [|done].
  destruct (xattr_set path role_xattr _ a1) as [a2|] eqn:H2; [|done]. intros _. cbn.
  assert (pod_xattr <> role_xattr) as Hne by (vm_compute; congruence).
  unfold check_xattr_enrollment.
  rewrite (xl_get_other _ Hx _ _ _ _ _ _ H2), (xl_get_set _ Hx _ _ _ _ _ H1), (xl_get_set _ Hx _ _ _ _ _ H2) by done.
  rewrite !length_le_bytes. cbn [Nat.eqb negb orb]. by rewrite !le_value_le_bytes.
Qed.

Lemma xattr_roundtrip_witness :
  xattr_laws test_world
  /\ (let d' := (handle_client (World := test_world) (Resolver := one_name) 42 (SetXattr AGENT 5 1)
        (test_daemon init_state)).2 in
      handle_client (World := test_world) (Resolver := one_name) 43 (CheckXattr AGENT) d' = (XattrInfo 5 1, d')).
Proof.
  assert (xattr_laws test_world) as Hx.
  { split; cbn.
    - intros path name value a a' H. case_decide; [|discriminate H]. injection H as <-. by rewrite lookup_insert_eq.
    - intros path name name' value a a' H Hne. case_decide; [|discriminate H]. injection H as <-.
      rewrite lookup_insert_ne; [reflexivity|congruence]. }
  split; [exact Hx|].
  apply (xattr_roundtrip (World := test_world) (Resolver := one_name) 42 43 5 1 AGENT (test_daemon init_state) Hx);
    vm_compute; [split; congruence|split; congruence|reflexivity].
Defined.
