(* ===== verification/Footprint.v ===== *)
(** * What a request may touch

    Every function of bpf_loader.rs writes through [update] and [delete_key], so
    what a request to the daemon can change is a set of rows: its footprint.
    [touches] gives a function its footprint, with one lemma per construct, and
    [request_touches] that of a whole request: the tables of processes and
    enrollments, and of the policy tables only rows of the role the request
    names. *)

From S2P Require Import Prelude CLayout BpfMap Rust Kernel KernelTypes Types Machine Scenario Hash PathWalk StateMachine Enrollment Hooks FileOpen Network Codec Patterns Parse Loader Policy Apply Exec Guards RolePolicy RoleLimits System Coherence Daemon DaemonRuns.

Section within.
Context (Q : map_name -> bytes -> Prop).

(** The states agree outside the rows in [Q]. *)
Definition within (s s' : bpf_state) : Prop :=
  user_frame s s' /\ forall n k, ~ Q n k -> map_by_name n s' !! k = map_by_name n s !! k.

#[export] Instance within_preorder : PreOrder within.
Proof.
  unfold within. split.
  - intros s. by split.
  - intros s1 s2 s3 [H1 H1'] [H2 H2']. split; [by etransitivity|]. intros n k Hn. by rewrite H2', H1'.
Qed.

(** A loader function changes rows in [Q] at most. *)
Definition touches {A} (p : loader A) : Prop := forall s, within s (p s).2.

Lemma touches_keep {A} (p : loader A) : (forall s, (p s).2 = s) -> touches p.
Proof. intros Hp s. by rewrite Hp. Qed.

Lemma touches_bind {A B} (p : loader A) (k : A -> loader B) :
  touches p -> (forall a, touches (k a)) -> touches (io_bind p k).
Proof.
  intros Hp Hk s. pose proof (Hp s) as H. unfold io_bind. destruct (p s) as [[e|a] s1]; [done|].
  etransitivity; [exact H|apply Hk].
Qed.

Lemma touches_ignore {A} (p : loader A) : touches p -> touches (ignore_error p).
Proof. intros Hp s. exact (Hp s). Qed.

Lemma touches_set n k m s :
  Q n k -> (forall k', k' <> k -> m !! k' = map_by_name n s !! k') -> within s (set_map n m s).
Proof.
  intros HQ Hm. split; [done|]. intros n' k' Hn. destruct (decide (n' = n)) as [->|Hne].
  - rewrite map_by_name_set_eq. apply Hm. by intros ->.
  - by rewrite map_by_name_set_ne.
Qed.

Lemma touches_update n k v : Q n k -> touches (update n k v).
Proof.
  intros HQ s. unfold update. destruct (_ || _); [|done]. apply (touches_set n k); [done|].
  intros k' Hk. by rewrite lookup_insert_ne.
Qed.

Lemma touches_delete n k : Q n k -> touches (delete_key n k).
Proof.
  intros HQ s. unfold delete_key. destruct (bool_decide _); [|done]. apply (touches_set n k); [done|].
  intros k' Hk. by rewrite lookup_delete_ne.
Qed.

Lemma puts_within ws s : (forall w, w ∈ ws -> Q (w_map w) (w_key w)) -> within s (puts ws s).
Proof.
  intros Hw. split; [apply puts_frame|]. intros n k Hn. rewrite puts_lookup.
  destruct (last_write n k ws) as [v|] eqn:Hl; [|done]. unfold last_write in Hl.
  apply fmap_Some in Hl as (w & [Hin [<- <-]]%last_such_Some & _). by destruct (Hn (Hw w Hin)).
Qed.

Lemma touches_emits {A} (p : loader A) steps r :
  emits p steps r -> (forall w, w ∈ omap step_write steps -> Q (w_map w) (w_key w)) -> touches p.
Proof.
  intros He Hw s. destruct (emits_some p steps r s He) as (ws & -> & Hws).
  apply puts_within. auto.
Qed.
End within.

Lemma within_mono (Q Q' : map_name -> bytes -> Prop) s s' :
  (forall n k, Q n k -> Q' n k) -> within Q s s' -> within Q' s s'.
Proof. intros HQ [Hf Hr]. split; [done|]. intros n k Hn. apply Hr. intros H. by apply Hn, HQ. Qed.

(** ** Applying rules *)

Section rules.
Context `{Resolver : !DomainResolver}.

(** The rows of a role, in any table. *)
Definition rows_of (role_id : Z) (n : map_name) (k : bytes) : Prop := role_key role_id k.

Lemma state_write_rows n role_id rules w :
  w ∈ state_writes n role_id rules -> rows_of role_id (w_map w) (w_key w).
Proof. by intros (_ & st & h & ->)%state_write_key. Qed.

Lemma touches_flags role_id flags : touches (rows_of role_id) (set_role_policy role_id flags).
Proof. by apply touches_update. Qed.

Lemma touches_network role_id rules : touches (rows_of role_id) (apply_network_rules role_id rules).
Proof.
  apply (touches_emits _ _ _ _ (network_rules_emit role_id rules)). intros w. rewrite omap_inl.
  by intros (r & (? & ? & ? & ->)%network_write_in & _)%list_elem_of_bind.
Qed.

Lemma touches_paths role_id rules : touches (rows_of role_id) (apply_path_rules role_id rules).
Proof.
  apply (touches_emits _ _ _ _ (path_rules_emit role_id rules)). intros w.
  case_match; [by intros ?%elem_of_nil|]. rewrite omap_inl. apply state_write_rows.
Qed.

Lemma touches_apply_role role : touches (rows_of (r_id role)) (apply_role (Sink := TrackerSink) role).
Proof.
  apply (touches_emits _ _ _ _ (apply_role_emits TrackerSink tracker_map_sink role)).
  intros w Hw. by apply role_write_key.
Qed.

(** The part of a role that every enrollment applies again. *)
Lemma touches_load_rules role_id role :
  touches (rows_of role_id) (set_role_policy role_id (r_flags role) ;;?
    apply_network_rules role_id (r_network_rules role) ;;?
    apply_path_rules role_id (r_file_paths role)).
Proof.
  apply touches_bind; [apply touches_flags|intros _]. apply touches_bind; [apply touches_network|intros _].
  apply touches_paths.
Qed.
End rules.

(** ** Requests *)

Section requests.
Context `{World : FileWorld} `{Resolver : !DomainResolver}.

(** The role a request is about. *)
Definition request_role (req : EnrollmentRequest) : option Z :=
  match req with
  | Enroll _ role_id | EnrollExecutable _ _ role_id | EnrollCgroup _ _ role_id => Some role_id
  | DefineRole role => Some (r_id role)
  | _ => None
  end.

(** Rows outside the policy tables, and the rows of that role. *)
Definition request_rows (role : option Z) (n : map_name) (k : bytes) : Prop :=
  n ∉ policy_maps \/ exists role_id, role = Some role_id /\ role_key role_id k.

Definition touches_daemon (Q : map_name -> bytes -> Prop) {A} (p : io load_error daemon A) : Prop :=
  forall d, within Q (d_bpf d) (d_bpf (p d).2).

Lemma touches_on_bpf Q {A} (p : loader A) : touches Q p -> touches_daemon Q (on_bpf p).
Proof. intros Hp d. specialize (Hp (d_bpf d)). unfold on_bpf. by destruct (p (d_bpf d)). Qed.

Lemma touches_daemon_keep Q {A} (p : io load_error daemon A) :
  (forall d, d_bpf (p d).2 = d_bpf d) -> touches_daemon Q p.
Proof. intros Hp d. by rewrite Hp. Qed.

Lemma touches_daemon_bind Q {A B} (p : io load_error daemon A) (k : A -> io load_error daemon B) :
  touches_daemon Q p -> (forall a, touches_daemon Q (k a)) -> touches_daemon Q (io_bind p k).
Proof.
  intros Hp Hk d. pose proof (Hp d) as H. unfold io_bind. destruct (p d) as [[e|a] d1]; [done|].
  etransitivity; [exact H|apply Hk].
Qed.

Lemma touches_daemon_mono (Q Q' : map_name -> bytes -> Prop) {A} (p : io load_error daemon A) :
  (forall n k, Q n k -> Q' n k) -> touches_daemon Q p -> touches_daemon Q' p.
Proof. intros HQ Hp d. eapply within_mono; [exact HQ|apply Hp]. Qed.

Lemma role_rows_named role_id n k : rows_of role_id n k -> request_rows (Some role_id) n k.
Proof. intros Hk. right. by exists role_id. Qed.

Lemma touches_inode Q path : touches_daemon Q (existing_inode path).
Proof. apply touches_daemon_keep. intros d. unfold existing_inode. by case_match. Qed.

Lemma touches_load_role role_id : touches_daemon (request_rows (Some role_id)) (load_role role_id).
Proof.
  intros d. unfold load_role. destruct (get_role (d_policy d) role_id) as [role|]; [|done].
  apply (touches_daemon_mono (rows_of role_id)); [apply role_rows_named|].
  apply touches_on_bpf, touches_load_rules.
Qed.

(** The tables of processes and enrollments belong to no role. *)
Lemma elsewhere role n k :
  n ∈ [N_pending_enrollments; N_exec_enrollment; N_cgroup_enrollment] -> request_rows role n k.
Proof.
  intros Hn. left. unfold policy_maps. clear -Hn. set_unfold. intuition congruence.
Qed.

Lemma touches_handle_enroll pid pod_id role_id :
  touches_daemon (request_rows (Some role_id)) (handle_enroll pid pod_id role_id).
Proof.
  intros d. unfold handle_enroll. destruct (get_role (d_policy d) role_id) as [role|]; [|done].
  apply touches_on_bpf.
  apply touches_bind; [|intros _; apply touches_bind; [|intros _; apply touches_bind; [|intros _]]].
  1: intros s; eapply within_mono; [apply role_rows_named|apply touches_flags].
  1: apply touches_ignore; intros s; eapply within_mono; [apply role_rows_named|apply touches_network].
  1: apply touches_ignore; intros s; eapply within_mono; [apply role_rows_named|apply touches_paths].
  apply touches_update, elsewhere. set_solver.
Qed.

Lemma touches_enrollment n path pod_id role_id :
  n = N_exec_enrollment \/ n = N_cgroup_enrollment -> forall value : Z -> Z -> bytes,
  touches_daemon (request_rows (Some role_id))
    (inode <-? existing_inode path ;; load_role role_id ;;?
     on_bpf (update n (to_ne_bytes 8 inode) (value pod_id role_id))).
Proof.
  intros Hn value. apply touches_daemon_bind; [apply touches_inode|intros inode].
  apply touches_daemon_bind; [apply touches_load_role|intros _].
  apply touches_on_bpf, touches_update, elsewhere. destruct Hn as [-> | ->]; set_solver.
Qed.

Lemma touches_release n path :
  n = N_exec_enrollment \/ n = N_cgroup_enrollment ->
  touches_daemon (request_rows None)
    (inode <-? existing_inode path ;; on_bpf (delete_key n (to_ne_bytes 8 inode))).
Proof.
  intros Hn. apply touches_daemon_bind; [apply touches_inode|intros inode].
  apply touches_on_bpf, touches_delete, elsewhere. destruct Hn as [-> | ->]; set_solver.
Qed.

Lemma request_touches pid req d :
  within (request_rows (request_role req)) (d_bpf d) (d_bpf (handle_client pid req d).2).
Proof.
  destruct req as [pod role|p|path pod role|path|role|path pod role|path|path pod role|path|path];
    cbn [handle_client request_role]; rewrite ?respond_daemon.
  - apply touches_handle_enroll.
  - by destruct (get_process_info _ _) as [[]|].
  - by apply (touches_enrollment N_exec_enrollment path pod role (or_introl eq_refl)
      (fun pod_id role_id => copy_at 8 (to_ne_bytes 4 role_id) (copy_at 0 (to_ne_bytes 8 pod_id) (replicate 16 0)))).
  - by apply (touches_release N_exec_enrollment path (or_introl eq_refl)).
  - unfold handle_define_role. destruct (unenforced_settings role); [|done]. rewrite respond_daemon.
    refine (touches_daemon_bind _ _ _ _ _ (set_policy (define_role role (d_policy d)) d)).
    + apply (touches_daemon_mono (rows_of (r_id role))); [apply role_rows_named|].
      apply touches_on_bpf, touches_apply_role.
    + intros _. by apply touches_daemon_keep.
  - by apply (touches_enrollment N_cgroup_enrollment path pod role (or_intror eq_refl)
      (fun pod_id role_id => copy_at 8 (to_ne_bytes 4 role_id) (copy_at 0 (to_ne_bytes 8 pod_id) (replicate 16 0)))).
  - by apply (touches_release N_cgroup_enrollment path (or_intror eq_refl)).
  - by destruct (set_xattr_enrollment _ _ _ _).
  - by destruct (check_xattr_enrollment _ _) as [[[]|]|].
  - done.
Qed.
End requests.

(** ** Property *)

(** C8. Requests keep roles apart: whatever a request to the daemon is answered,
    the only rows of the policy tables it can change are those of the one role it
    names, and it never touches a task's record, a cached decision, the cache's
    generation or the audit log.  Requests that name no role leave every policy
    table as it is. *)
Theorem requests_keep_to_their_role `{World : FileWorld} `{Resolver : !DomainResolver} (pid : Z)
    (req : EnrollmentRequest) (d : daemon) :
  let s := d_bpf d in
  let s' := d_bpf (handle_client pid req d).2 in
  user_frame s s'
  /\ (forall n k, n ∈ policy_maps -> map_by_name n s' !! k <> map_by_name n s !! k ->
        exists role_id, request_role req = Some role_id /\ role_key role_id k)
  /\ (request_role req = None -> same_policy s s').
Proof.
  intros s s'. destruct (request_touches pid req d) as [Hf Hr]. fold s s' in Hf, Hr. split_and!; [done|..].
  - intros n k Hn Hne. destruct (request_role req) as [id|].
    + exists id. split; [done|]. destruct (decide (take 4 k = le_bytes 4 id)) as [?|Hk]; [done|].
      destruct Hne. apply Hr. intros [?|(id' & [= <-] & ?)]; done.
    + destruct Hne. apply Hr. intros [?|(? & ? & _)]; done.
  - intros Hno n Hn. apply map_eq. intros k. apply Hr. rewrite Hno. intros [?|(? & ? & _)]; done.
Qed.
