(* ===== verification/Race.v ===== *)
(** * Requests at the same time

    The daemon answers each connection in its own task, and [Enroll] releases the
    lock on the policy once it has read the role (enrollment.rs): what it writes
    afterwards can come after the writes of another request.  Both requests are
    split where the source takes and releases the lock. *)

From S2P Require Import Prelude CLayout BpfMap Rust Kernel KernelTypes Types Machine Scenario Hash PathWalk StateMachine Enrollment Hooks FileOpen Network Codec Patterns Parse Loader Policy Apply Exec Guards RolePolicy RoleLimits System Coherence Daemon DaemonRuns Footprint.

Section parts.
Context `{World : FileWorld} `{Resolver : !DomainResolver}.

(** [Enroll] after the lock is dropped, with the role it read. *)
Definition enroll_rest (pid pod_id role_id : Z) (role : Role) : loader unit :=
  set_role_policy role_id (r_flags role) ;;?
  ignore_error (apply_network_rules role_id (r_network_rules role)) ;;?
  ignore_error (apply_path_rules role_id (r_file_paths role)) ;;?
  enroll_process pid pod_id role_id.

(** [DefineRole] under the lock, and after it. *)
Definition define_registers (role : Role) (d : daemon) : daemon := set_policy (define_role role (d_policy d)) d.
Definition define_rest (role : Role) : loader (list skip) := apply_role (Sink := TrackerSink) role.

Lemma enroll_parts pid pod_id role_id d :
  handle_enroll pid pod_id role_id d
  = match get_role (d_policy d) role_id with
    | None => (inl (UnknownRole role_id), d)
    | Some role => on_bpf (enroll_rest pid pod_id role_id role) d
    end.
Proof. done. Qed.

Lemma define_parts role d :
  unenforced_settings role = [] ->
  handle_define_role role d = respond ((on_bpf (define_rest role) ;;? ok tt) (define_registers role d)).
Proof. intros Hu. unfold handle_define_role. by rewrite Hu. Qed.

(** ** The row of the flags *)

Definition flags_row (role_id : Z) (s : bpf_state) : option bytes := m_role_flags s !! to_ne_bytes 4 role_id.

Definition not_flags (n : map_name) (k : bytes) : Prop := n <> N_role_flags.

Lemma not_flags_row role_id s s' : within not_flags s s' -> flags_row role_id s' = flags_row role_id s.
Proof. intros [_ Hr]. apply (Hr N_role_flags). unfold not_flags. tauto. Qed.

Lemma update_row n k v s s' : update n k v s = (inr tt, s') -> map_by_name n s' !! k = Some v.
Proof.
  unfold update. destruct (_ || _); [|done]. intros H. injection H as <-.
  rewrite map_by_name_set_eq. apply lookup_insert_eq.
Qed.

(** An enrollment that gets past its first write leaves the flags of the role it
    read. *)
Lemma enroll_rest_flags pid pod_id role_id role s s' :
  enroll_rest pid pod_id role_id role s = (inr tt, s') ->
  flags_row role_id s' = Some [policy_flags_to_u8 (r_flags role)].
Proof.
  unfold enroll_rest, set_role_policy, update_role_flags, io_bind at 1.
  destruct (update N_role_flags _ _ s) as [[e|[]] s1] eqn:Hu; [done|]. apply update_row in Hu. intros Hrest.
  rewrite <-Hu. change (map_by_name N_role_flags s1) with (m_role_flags s1). apply (not_flags_row role_id).
  match type of Hrest with ?p s1 = _ => assert (touches not_flags p) as Ht end.
  { apply touches_bind; [apply touches_ignore|intros _; apply touches_bind; [apply touches_ignore|intros _]].
    - apply (touches_emits _ _ _ _ (network_rules_emit role_id _)). intros w. rewrite omap_inl.
      by intros (r & (? & ? & ? & ->)%network_write_in & _)%list_elem_of_bind.
    - apply (touches_emits _ _ _ _ (path_rules_emit role_id _)). intros w.
      case_match; [by intros ?%elem_of_nil|]. rewrite omap_inl. by intros [-> _]%state_write_key.
    - by apply touches_update. }
  specialize (Ht s1). by rewrite Hrest in Ht.
Qed.

(** A definition that succeeds leaves its own. *)
Lemma define_rest_flags role s sk s' :
  define_rest role s = (inr sk, s') -> flags_row (r_id role) s' = Some [policy_flags_to_u8 (r_flags role)].
Proof.
  intros (_ & _ & ->)%(apply_role_ok TrackerSink tracker_map_sink). unfold flags_row.
  change (m_role_flags ?s) with (map_by_name N_role_flags s). rewrite puts_lookup, role_last_write by (unfold policy_maps; set_solver).
  cbn [section_writes]. unfold last_write. cbn [last_such]. by rewrite decide_True.
Qed.
End parts.

(** ** What the row decides *)

(** Tasks of the role may load modules as these flags say. *)
Definition module_loads_follow `{KL : KernelLayout} (flags : PolicyFlags) (role_id : Z) (s : bpf_state) : Prop :=
  forall e kmod_name, jailed_as e role_id s ->
  (kernel_module_request e kmod_name s).1 = 0 <-> allow_module_load flags = true.

Lemma flags_row_follow `{KL : KernelLayout} flags role_id s :
  flags_row role_id s = Some [policy_flags_to_u8 flags] -> module_loads_follow flags role_id s.
Proof.
  intros Hrow e kmod_name (info & Hi & Hp & Hr). unfold kernel_module_request.
  rewrite (guard_current_allows e _ s info Hi Hp). unfold role_grants. rewrite Hr.
  pose proof (flag_bits flags) as (_ & _ & _ & _ & Hbit & _ & Hb).
  assert (map_lookup role_flags (m_role_flags s) role_id = Some (policy_flags_to_u8 flags)) as ->.
  { rewrite map_lookup_hash by done. change (key_image role_flags role_id) with (to_ne_bytes 4 role_id).
    unfold flags_row in Hrow. rewrite Hrow. cbn [fmap option_fmap option_map]. f_equal.
    unfold of_bytes. cbn. rewrite wrap_small by done. lia. }
  rewrite <-Hbit. naive_solver.
Qed.

(** The answers and the state of two requests, one after the other. *)
Definition both_succeed `{World : FileWorld} `{Resolver : !DomainResolver} (pid1 : Z) (req1 : EnrollmentRequest)
    (pid2 : Z) (req2 : EnrollmentRequest) (d d2 : daemon) : Prop :=
  exists d1, handle_client pid1 req1 d = (Success, d1) /\ handle_client pid2 req2 d1 = (Success, d2).

Section sequential.
Context `{World : FileWorld} `{Resolver : !DomainResolver}.

Lemma respond_success (r : (load_error + unit) * daemon) d' : respond r = (Success, d') -> r = (inr tt, d').
Proof. unfold respond. destruct r as [[e|[]] d1]; [done|]. intros H. by injection H as ->. Qed.

Lemma define_success pid role d d' :
  handle_client pid (DefineRole role) d = (Success, d') ->
  flags_row (r_id role) (d_bpf d') = Some [policy_flags_to_u8 (r_flags role)]
  /\ get_role (d_policy d') (r_id role) = Some role.
Proof.
  cbn [handle_client]. intros H. assert (unenforced_settings role = []) as Hu
    by (unfold handle_define_role in H; by destruct (unenforced_settings role)).
  rewrite define_parts in H by done. apply respond_success in H. unfold io_bind, on_bpf in H.
  destruct (define_rest role _) as [[e|sk] s] eqn:Hd; [done|]. apply define_rest_flags in Hd. unfold ok in H.
  injection H as <-. split; [done|]. unfold get_role. cbn. apply lookup_insert_eq.
Qed.

Lemma enroll_success pid pod_id role d d' :
  handle_client pid (Enroll pod_id (r_id role)) d = (Success, d') -> get_role (d_policy d) (r_id role) = Some role ->
  flags_row (r_id role) (d_bpf d') = Some [policy_flags_to_u8 (r_flags role)].
Proof.
  cbn [handle_client]. intros H%respond_success Hg. rewrite enroll_parts, Hg in H. unfold on_bpf in H.
  destruct (enroll_rest pid pod_id (r_id role) role (d_bpf d)) as [r s] eqn:He. injection H as -> <-.
  by apply enroll_rest_flags in He.
Qed.

Lemma sequential_flags pid peer pod_id new d d' :
  both_succeed pid (Enroll pod_id (r_id new)) peer (DefineRole new) d d'
  \/ both_succeed peer (DefineRole new) pid (Enroll pod_id (r_id new)) d d' ->
  flags_row (r_id new) (d_bpf d') = Some [policy_flags_to_u8 (r_flags new)].
Proof.
  intros [(d1 & H1 & H2)|(d1 & H1 & H2)].
  - by apply define_success in H2 as [? _].
  - apply define_success in H1 as [_ Hg]. by apply (enroll_success pid pod_id new d1).
Qed.
End sequential.

(** ** Theorem *)

(** C38. An [Enroll] that has read a role before a [DefineRole] of the same id,
    and writes after it, undoes part of it: both are answered with success, the
    policy holds the new definition, and yet the loading of modules by the tasks
    of the role follows the flags of the old one. No order of the two requests
    one after the other ends like that: it then follows the flags of the new
    one. *)
Theorem enroll_define_race `{World : FileWorld} `{Resolver : !DomainResolver} `{KL : KernelLayout}
    (peer pid pod_id : Z) (old new : Role) (d : daemon) (s2 s3 : bpf_state) (sk : list skip)
    (Hold : get_role (d_policy d) (r_id new) = Some old)
    (Hnew : unenforced_settings new = [])
    (Hdefine : define_rest new (d_bpf (define_registers new d)) = (inr sk, s2))
    (Henroll : enroll_rest pid pod_id (r_id new) old s2 = (inr tt, s3)) :
  let raced := set_bpf s3 (define_registers new d) in
  get_role (d_policy raced) (r_id new) = Some new
  /\ (forall s, same_policy (d_bpf raced) s -> module_loads_follow (r_flags old) (r_id new) s)
  /\ forall d' s,
       both_succeed pid (Enroll pod_id (r_id new)) peer (DefineRole new) d d'
       \/ both_succeed peer (DefineRole new) pid (Enroll pod_id (r_id new)) d d' ->
       same_policy (d_bpf d') s -> module_loads_follow (r_flags new) (r_id new) s.
Proof.
  assert (forall s s', same_policy s s' -> flags_row (r_id new) s' = flags_row (r_id new) s) as Hsame.
  { intros s s' Hs. unfold flags_row. change (m_role_flags ?s) with (map_by_name N_role_flags s).
    by rewrite (Hs N_role_flags) by (unfold policy_maps; set_solver). }
  intros raced. split_and!.
  - unfold get_role. cbn. apply lookup_insert_eq.
  - intros s Hs. apply flags_row_follow. rewrite (Hsame _ _ Hs). by apply (enroll_rest_flags pid pod_id (r_id new) old s2).
  - intros d' s Hseq Hs. apply flags_row_follow. rewrite (Hsame _ _ Hs). by eapply sequential_flags.
Qed.

(** The role that could load modules, redefined so that it cannot. *)
Definition loading_role (allow : bool) : Role :=
  MkRole 7 (text "loading") (MkPolicyFlags true true true false true false allow false false) [] [] [] false [] [] None.

Definition loading_daemon : daemon (World := test_world) :=
  (handle_client (World := test_world) (Resolver := one_name) 1 (DefineRole (loading_role true)) (test_daemon init_state)).2.

Definition loading_raced : bpf_state :=
  (enroll_rest 42 5 7 (loading_role true)
    (define_rest (Resolver := one_name) (loading_role false) (d_bpf (World := test_world) loading_daemon)).2).2.

Definition loading_jailed : bpf_state := set_task_storage (fun _ => {[TASK := jailed_info]}) loading_raced.

Lemma enroll_define_race_witness :
  get_role (define_role (loading_role false) (d_policy (World := test_world) loading_daemon)) 7
    = Some (loading_role false)
  /\ (kernel_module_request (env_with mem_etc) 0 loading_jailed).1 = 0.
Proof.
  split; [reflexivity|].
  refine (proj2 (proj1 (proj2 (enroll_define_race (World := test_world) (Resolver := one_name) 2 42 5
    (loading_role true) (loading_role false) loading_daemon
    (define_rest (Resolver := one_name) (loading_role false) (d_bpf (World := test_world) loading_daemon)).2
    loading_raced [] _ _ _ _)) loading_jailed _ (env_with mem_etc) 0 _) eq_refl).
  - vm_compute. reflexivity.
  - vm_compute. reflexivity.
  - vm_compute. reflexivity.
  - vm_compute. reflexivity.
  - unfold loading_jailed. cbn [d_bpf set_bpf]. generalize loading_raced. intros st n _. by destruct n.
  - exists jailed_info. split_and!; [vm_compute; reflexivity|vm_compute; congruence|reflexivity].
Defined.
