(* ===== verification/Bootstrap.v ===== *)
(** * The bootstrap loader

    bpfjailer-bootstrap/src/main.rs: the verdict on what is already pinned
    ([compare]), the policy check, [populate_maps], and the order in which
    [pin_all] makes its pins, with bpfjailer-common's [LSM_PROGRAMS],
    [PINNED_MAPS] and [check_enrollable].  Loading, attaching and the pin calls
    themselves are the kernel's: a run of [pin_all] is a number of its steps that
    succeeded.  The pin directory is what [read_pin_state] finds in it. *)

From S2P Require Import Prelude CLayout BpfMap Rust Kernel KernelTypes Types Machine Scenario Hash PathWalk StateMachine Enrollment Hooks FileOpen Network Codec Patterns Parse Loader Policy Apply Exec Guards RolePolicy RoleLimits System Coherence Daemon DaemonRuns.

(** ** What is pinned *)

Definition LSM_PROGRAMS : list bytes :=
  text <$> ["task_alloc"; "file_open"; "socket_bind"; "socket_connect"; "socket_sendmsg";
            "bprm_check_security"; "path_rename"; "sb_mount"; "sb_umount"; "ptrace_access_check";
            "kernel_module_request"; "bpf"]%string.

Definition PINNED_MAPS : list bytes :=
  text <$> ["task_storage"; "role_flags"; "pending_enrollments"; "network_rules"; "path_states";
            "exec_states"; "path_decision_cache"; "cache_generation"; "exec_enrollment";
            "cgroup_enrollment"; "audit_events"]%string.

Record PinState := MkPinState {
  ps_progs : gset bytes;
  ps_maps : gset bytes;
  ps_build_id : option bytes;
}.

Definition no_pins : PinState := MkPinState ∅ ∅ None.

(** A line of the list of differences. *)
Inductive difference :=
| ProgramsMissing (names : gset bytes)
| ProgramsExtra (names : gset bytes)
| MapsMissing (names : gset bytes)
| MapsExtra (names : gset bytes)
| OtherBuild (id : bytes)
| NoBuildId.

Inductive PinVerdict :=
| Absent
| Current
| Stale (differences : list difference).

(** [format!("{:016x}")] *)
Definition hex_digit (d : Z) : Z := if d <? 10 then 48 + d else 87 + d.
Definition hex16 (x : Z) : bytes :=
  (fun i => hex_digit ((x / 16 ^ Z.of_nat i) mod 16)) <$> reverse (seq 0 16).

(** [build_id_of] a file with that content. *)
Definition build_id_of (object : bytes) : Z := fnv1a_digest object.

Definition describe (missing extra : gset bytes) (m e : gset bytes -> difference) : list difference :=
  (if bool_decide (missing = ∅) then [] else [m missing])
  ++ (if bool_decide (extra = ∅) then [] else [e extra]).

Definition compare (found : PinState) (expected_build_id : Z) : PinVerdict :=
  if bool_decide (ps_progs found = ∅) && bool_decide (ps_maps found = ∅) && bool_decide (ps_build_id found = None)
  then Absent
  else
    let expected := hex16 expected_build_id in
    let want_progs : gset bytes := list_to_set LSM_PROGRAMS in
    let want_maps : gset bytes := list_to_set PINNED_MAPS in
    let differences :=
      describe (want_progs ∖ ps_progs found) (ps_progs found ∖ want_progs) ProgramsMissing ProgramsExtra
      ++ describe (want_maps ∖ ps_maps found) (ps_maps found ∖ want_maps) MapsMissing MapsExtra
      ++ match ps_build_id found with
         | Some id => if decide (id = expected) then [] else [OtherBuild id]
         | None => [NoBuildId]
         end in
    match differences with
    | [] => Current
    | _ => Stale differences
    end.

(** ** Pinning *)

Inductive pin_step :=
| PinMap (name : bytes)
| PinProg (name : bytes)
| PinLink (i : nat)
| RecordBuildId (id : Z).

Definition pin (p : PinState) (st : pin_step) : PinState :=
  match st with
  | PinMap name => MkPinState (ps_progs p) ({[name]} ∪ ps_maps p) (ps_build_id p)
  | PinProg name => MkPinState ({[name]} ∪ ps_progs p) (ps_maps p) (ps_build_id p)
  | PinLink _ => p
  | RecordBuildId id => MkPinState (ps_progs p) (ps_maps p) (Some (hex16 id))
  end.

(** The steps in order; the id comes last. *)
Definition pin_all (links : nat) (build_id : Z) : list pin_step :=
  (PinMap <$> PINNED_MAPS) ++ (PinProg <$> LSM_PROGRAMS) ++ (PinLink <$> seq 0 links)
  ++ [RecordBuildId build_id].

(** The directory when the first [k] steps have succeeded. *)
Definition pinned_after (k links : nat) (build_id : Z) (p : PinState) : PinState :=
  fold_left pin (take k (pin_all links build_id)) p.

(** ** Policy and maps *)

Definition ROOT_CGROUP_INO : Z := 1.

Definition check_enrollable (ino : Z) : load_error + unit :=
  if ino =? ROOT_CGROUP_INO then inl RootCgroup else inr tt.

(** The check after parsing; [entries] is the order in which roles are visited. *)
Definition load_policy (config : PolicyConfig) (entries : list (bytes * Role))
    : (bytes * list setting) + PolicyConfig :=
  match list_find (fun e : bytes * Role => unenforced_settings e.2 <> []) entries with
  | Some (_, (name, role)) => inl (name, unenforced_settings role)
  | None => inr config
  end.

Section populate.
Context `{World : FileWorld} `{Resolver : !DomainResolver}.

Definition enrollment_image (pod_id role_id : Z) : bytes :=
  copy_at 8 (to_ne_bytes 4 role_id) (copy_at 0 (to_ne_bytes 8 pod_id) (replicate 16 0)).

Definition populate_exec (config : PolicyConfig) (e : ExecEnrollment) : loader unit :=
  match inode_of (ee_executable_path e) with
  | Some inode =>
      match config_get_role config (ee_role e) with
      | Some role => update N_exec_enrollment (to_ne_bytes 8 inode) (enrollment_image (ee_pod_id e) (r_id role))
      | None => ok tt
      end
  | None => ok tt
  end.

Definition populate_cgroup (config : PolicyConfig) (e : CgroupEnrollment) : loader unit :=
  match inode_of (ce_cgroup_path e) with
  | Some cgroup_id =>
      match check_enrollable cgroup_id with
      | inl reason => err reason
      | inr _ =>
          match config_get_role config (ce_role e) with
          | Some role => update N_cgroup_enrollment (to_ne_bytes 8 cgroup_id) (enrollment_image (ce_pod_id e) (r_id role))
          | None => ok tt
          end
      end
  | None => ok tt
  end.

(** [if let Some(map) = map_by_name(object, name)]: the loop is skipped on an
    object without the map. *)
Definition if_map (maps : gset bytes) (n : map_name) (p : loader unit) : loader unit :=
  if decide (map_text n ∈ maps) then p else ok tt.

(** [maps] are the maps of the object. *)
Definition populate_maps (maps : gset bytes) (config : PolicyConfig) (entries : list (bytes * Role)) : loader unit :=
  for_each (fun '(_, role) => apply_role (Sink := ObjectSink maps) role ;;? ok tt) entries ;;?
  if_map maps N_exec_enrollment (for_each (populate_exec config) (pc_exec_enrollments config)) ;;?
  if_map maps N_cgroup_enrollment (for_each (populate_cgroup config) (pc_cgroup_enrollments config)).

(** How [run] ends. *)
Inductive outcome :=
| AlreadyPinned
| RefusedStale (differences : list difference)
| RefusedPolicy (role : bytes) (settings : list setting)
| PopulateFailed (e : load_error)
| PinsStopped (k : nat)
| Pinned.

(** [run]: on a freshly loaded object [s] with these maps: [k] of the pin steps
    succeed. *)
Definition bootstrap_run (object : bytes) (maps : gset bytes) (config : PolicyConfig) (entries : list (bytes * Role)) (links k : nat)
    (s : bpf_state) (p : PinState) : outcome * bpf_state * PinState :=
  let build_id := build_id_of object in
  match compare p build_id with
  | Current => (AlreadyPinned, s, p)
  | Stale differences => (RefusedStale differences, s, p)
  | Absent =>
      match load_policy config entries with
      | inl (name, settings) => (RefusedPolicy name settings, s, p)
      | inr config =>
          match populate_maps maps config entries s with
          | (inl e, s') => (PopulateFailed e, s', p)
          | (inr _, s') =>
              let p' := pinned_after k links build_id p in
              if (k <? length (pin_all links build_id))%nat then (PinsStopped k, s', p') else (Pinned, s', p')
          end
      end
  end.
End populate.

(** ** The verdict is exact *)

Definition want_progs : gset bytes := list_to_set LSM_PROGRAMS.
Definition want_maps : gset bytes := list_to_set PINNED_MAPS.

Lemma describe_nil missing extra m e : describe missing extra m e = [] <-> missing = ∅ /\ extra = ∅.
Proof. unfold describe. repeat case_bool_decide; naive_solver. Qed.

Lemma both_differences (X Y : gset bytes) : X ∖ Y = ∅ /\ Y ∖ X = ∅ <-> Y = X.
Proof. split; [|set_solver]. intros [H1 H2]. apply set_eq. intros x.
  destruct (decide (x ∈ X)), (decide (x ∈ Y)); set_solver. Qed.

Lemma list_to_set_cons_ne (x : bytes) l : (list_to_set (x :: l) : gset bytes) <> ∅.
Proof. cbn. set_solver. Qed.

Lemma compare_current found id :
  compare found id = Current
  <-> ps_progs found = want_progs /\ ps_maps found = want_maps /\ ps_build_id found = Some (hex16 id).
Proof.
  unfold compare. fold want_progs want_maps.
  set (ds := describe _ _ ProgramsMissing _ ++ _).
  assert (ds = [] <-> ps_progs found = want_progs /\ ps_maps found = want_maps
    /\ ps_build_id found = Some (hex16 id)) as Hds.
  { unfold ds. rewrite !app_nil, !describe_nil, !both_differences.
    destruct (ps_build_id found) as [i|]; [case_decide|]; naive_solver. }
  destruct (_ && _) eqn:Ha.
  - split; [done|]. intros (Hp & _ & _). rewrite !andb_true_iff, !bool_decide_eq_true in Ha.
    destruct Ha as [[Ha _] _]. rewrite Ha in Hp. symmetry in Hp. by apply list_to_set_cons_ne in Hp.
  - rewrite <-Hds. destruct ds; naive_solver.
Qed.

Lemma compare_absent found id : compare found id = Absent <-> found = no_pins.
Proof.
  unfold compare. destruct (_ && _) eqn:Ha.
  - rewrite !andb_true_iff, !bool_decide_eq_true in Ha. destruct found. cbn in Ha.
    destruct Ha as [[-> ->] ->]. done.
  - split; [by case_match|]. intros ->. done.
Qed.

(** ** Sixteen hexadecimal digits *)

Lemma hex_digit_inj a b : 0 <= a < 16 -> 0 <= b < 16 -> hex_digit a = hex_digit b -> a = b.
Proof. unfold hex_digit. intros. destruct (Z.ltb_spec a 10), (Z.ltb_spec b 10); lia. Qed.

Lemma hex16_inj x y : in_width 64 x -> in_width 64 y -> hex16 x = hex16 y -> x = y.
Proof.
  intros [Hx0 Hx] [Hy0 Hy] Heq. unfold hex16 in Heq.
  assert (forall i, (i < 16)%nat -> (x / 16 ^ Z.of_nat i) mod 16 = (y / 16 ^ Z.of_nat i) mod 16) as Hd.
  { intros i Hi. apply hex_digit_inj; [apply Z.mod_pos_bound; lia..|].
    assert (i ∈ reverse (seq 0 16)) as Hin by (rewrite elem_of_reverse, elem_of_seq; lia).
    apply list_elem_of_lookup in Hin as [j Hj].
    apply (f_equal (fun l => l !! j)) in Heq. rewrite !list_lookup_fmap, Hj in Heq. by injection Heq. }
  assert (forall n : nat, (n <= 16)%nat -> x mod 16 ^ Z.of_nat n = y mod 16 ^ Z.of_nat n) as Hmod.
  { induction n as [|n IH]; intros Hn; [by rewrite !Z.mod_1_r|].
    assert (0 < 16 ^ Z.of_nat n) by (apply Z.pow_pos_nonneg; lia).
    replace (16 ^ Z.of_nat (S n)) with (16 ^ Z.of_nat n * 16) by (rewrite Nat2Z.inj_succ, Z.pow_succ_r by lia; lia).
    rewrite !Z.rem_mul_r by lia. rewrite IH, Hd by lia. done. }
  specialize (Hmod 16%nat ltac:(lia)). change (16 ^ Z.of_nat 16) with (2 ^ 64) in Hmod.
  rewrite !Z.mod_small in Hmod by lia. done.
Qed.

(** ** Pinning in order *)

Definition names_step (st : pin_step) : bool :=
  match st with RecordBuildId _ => false | _ => true end.

Lemma pins_keep_id steps p :
  forallb names_step steps = true -> ps_build_id (fold_left pin steps p) = ps_build_id p.
Proof.
  revert p. induction steps as [|st steps IH]; intros p; [done|]. cbn. intros [Hst Hs]%andb_true_iff.
  rewrite IH by done. by destruct st.
Qed.

Lemma pins_grow steps p :
  ps_progs p ⊆ ps_progs (fold_left pin steps p) /\ ps_maps p ⊆ ps_maps (fold_left pin steps p).
Proof.
  revert p. induction steps as [|st steps IH]; intros p; [done|]. cbn. destruct (IH (pin p st)).
  destruct st; cbn in *; set_solver.
Qed.

Lemma pin_maps_progs (maps progs : list bytes) (links : nat) p :
  fold_left pin ((PinMap <$> maps) ++ (PinProg <$> progs) ++ (PinLink <$> seq 0 links)) p
  = MkPinState (list_to_set progs ∪ ps_progs p) (list_to_set maps ∪ ps_maps p) (ps_build_id p).
Proof.
  rewrite !fold_left_app.
  assert (forall l p, fold_left pin (PinMap <$> l) p = MkPinState (ps_progs p) (list_to_set l ∪ ps_maps p) (ps_build_id p)) as Hm.
  { induction l as [|n l IH]; intros q; cbn; [destruct q; cbn; f_equal; set_solver|]. rewrite IH. cbn. f_equal. set_solver. }
  assert (forall l p, fold_left pin (PinProg <$> l) p = MkPinState (list_to_set l ∪ ps_progs p) (ps_maps p) (ps_build_id p)) as Hp.
  { induction l as [|n l IH]; intros q; cbn; [destruct q; cbn; f_equal; set_solver|]. rewrite IH. cbn. f_equal. set_solver. }
  assert (forall l p, fold_left pin (PinLink <$> l) p = p) as Hl by (induction l; intros; cbn; auto).
  by rewrite Hm, Hp, Hl.
Qed.

Lemma pin_all_done links id p :
  fold_left pin (pin_all links id) p
  = MkPinState (want_progs ∪ ps_progs p) (want_maps ∪ ps_maps p) (Some (hex16 id)).
Proof.
  unfold pin_all. rewrite !app_assoc, fold_left_app, <-!app_assoc, pin_maps_progs. done.
Qed.

Lemma pinned_partly k links id :
  (0 < k < length (pin_all links id))%nat ->
  ps_build_id (pinned_after k links id no_pins) = None /\ ps_maps (pinned_after k links id no_pins) <> ∅.
Proof.
  unfold pinned_after, pin_all. rewrite !app_assoc, length_app. cbn [length]. intros [H0 Hk].
  rewrite take_app_le by lia. split.
  - rewrite pins_keep_id; [done|]. apply forallb_forall. intros st Hst%list_elem_of_In.
    apply elem_of_take in Hst as (i & Hi & _). apply list_elem_of_lookup_2 in Hi.
    rewrite !elem_of_app, !list_elem_of_fmap in Hi. naive_solver.
  - destruct k as [|k]; [lia|]. cbn [PINNED_MAPS fmap list_fmap app take fold_left].
    match goal with |- context [fold_left pin ?l ?q] => destruct (pins_grow l q) as [_ Hg] end.
    intros He. rewrite He in Hg. cbn in Hg. set_solver.
Qed.

Lemma build_id_width object : in_width 64 (build_id_of object).
Proof. apply fold_round_range. unfold in_width, FNV1A64_OFFSET_BASIS. lia. Qed.

(** The next run on what [k] pin steps left. *)
Lemma compare_after k links id id' :
  in_width 64 id -> in_width 64 id' ->
  let p := pinned_after k links id no_pins in
  (k = 0%nat -> p = no_pins)
  /\ (0 < k < length (pin_all links id) -> exists ds, compare p id' = Stale ds)%nat
  /\ (length (pin_all links id) <= k -> if decide (id = id') then compare p id' = Current
      else exists ds, compare p id' = Stale ds)%nat.
Proof.
  intros Hid Hid' p. assert (compare p id' = Absent -> p = no_pins) as Habs by apply compare_absent.
  assert (compare p id' = Current -> ps_build_id p = Some (hex16 id')) as Hcur by (intros H%compare_current; apply H).
  split_and!.
  - by intros ->.
  - intros Hk. destruct (pinned_partly k links id Hk) as [Hb Hm]. fold p in Hb, Hm.
    destruct (compare p id'); [rewrite Habs in Hm by done; done|rewrite Hcur in Hb by done; done|by eexists].
  - intros Hk. assert (p = MkPinState (want_progs ∪ ∅) (want_maps ∪ ∅) (Some (hex16 id))) as Hp
      by (unfold p, pinned_after; rewrite take_ge by done; apply pin_all_done).
    rewrite !(right_id_L ∅ (∪)) in Hp. case_decide as Heq.
    + apply compare_current. by rewrite Hp, Heq.
    + destruct (compare p id'); [|exfalso|by eexists].
      { rewrite Habs in Hp by done. apply (f_equal ps_build_id) in Hp. discriminate Hp. }
      specialize (Hcur eq_refl). rewrite Hp in Hcur. apply (inj Some) in Hcur. by apply hex16_inj in Hcur.
Qed.

(** ** Theorems *)

(** The record a run leaves decides the next run correctly.  On a host with
    nothing pinned: a run refused by the policy check or by the maps leaves
    nothing pinned; a run that pinned everything makes every later run of an
    object with the same id stop as already pinned, and every run of an object
    with another id refuse as stale; a run whose pinning stopped part way makes
    every later run refuse as stale, whatever its object, unless not one pin was
    made.  Later runs that stop or refuse change nothing. *)
Theorem next_run_decides `{World : FileWorld} `{Resolver : !DomainResolver} (object : bytes) (maps : gset bytes) (config : PolicyConfig)
    (entries : list (bytes * Role)) (links k : nat) (s : bpf_state) :
  let '(r, _, p) := bootstrap_run object maps config entries links k s no_pins in
  let refused p := forall object' maps' config' entries' links' k' s', exists ds,
    bootstrap_run object' maps' config' entries' links' k' s' p = (RefusedStale ds, s', p) in
  match r with
  | RefusedPolicy _ _ | PopulateFailed _ => p = no_pins
  | PinsStopped _ => if decide (k = 0)%nat then p = no_pins else refused p
  | Pinned => forall object' maps' config' entries' links' k' s', exists r',
      bootstrap_run object' maps' config' entries' links' k' s' p = (r', s', p)
      /\ if decide (build_id_of object = build_id_of object') then r' = AlreadyPinned
         else exists ds, r' = RefusedStale ds
  | AlreadyPinned | RefusedStale _ => False
  end.
Proof.
  unfold bootstrap_run at 1. rewrite (proj2 (compare_absent no_pins _) eq_refl).
  destruct (load_policy config entries) as [[name settings]|config']; [done|].
  destruct (populate_maps maps config' entries s) as [[e|u] s']; [done|].
  pose proof (compare_after k links _ _ (build_id_width object) (build_id_width object)) as (H0 & _).
  destruct (k <? length (pin_all links (build_id_of object)))%nat eqn:Hk.
  - case_decide; [by apply H0|]. intros object' maps'. intros.
    destruct (compare_after k links _ _ (build_id_width object) (build_id_width object')) as (_ & [ds Hc] & _).
    { apply Nat.ltb_lt in Hk. lia. }
    exists ds. unfold bootstrap_run. by rewrite Hc.
  - intros object' maps'. intros. apply Nat.ltb_ge in Hk.
    destruct (compare_after k links _ _ (build_id_width object) (build_id_width object')) as (_ & _ & Hc).
    specialize (Hc Hk). unfold bootstrap_run. case_decide.
    + exists AlreadyPinned. by rewrite Hc.
    + destruct Hc as [ds Hc]. exists (RefusedStale ds). rewrite Hc. eauto.
Qed.

(** The advice printed with a refusal, to remove the pin directory and run
    again, does not work before a reboot: the build id is recorded outside that
    directory, so after a complete run and the removal of every pin every further
    run, of any object, still refuses as stale. *)
Theorem removed_pins_still_refused `{World : FileWorld} `{Resolver : !DomainResolver} (object : bytes) (maps : gset bytes)
    (config : PolicyConfig) (entries : list (bytes * Role)) (links k : nat) (s s1 : bpf_state) (p : PinState)
    (Hrun : bootstrap_run object maps config entries links k s no_pins = (Pinned, s1, p)) :
  let removed := MkPinState ∅ ∅ (ps_build_id p) in
  forall object' maps' config' entries' links' k' s', exists ds,
    bootstrap_run object' maps' config' entries' links' k' s' removed = (RefusedStale ds, s', removed).
Proof.
  intros removed object' maps' config' entries' links' k' s'. unfold bootstrap_run in Hrun.
  rewrite (proj2 (compare_absent no_pins _) eq_refl) in Hrun.
  destruct (load_policy config entries) as [[name settings]|c]; [done|].
  destruct (populate_maps maps c entries s) as [[e|u] s2]; [done|].
  destruct (_ <? _)%nat eqn:Hk; [done|]. injection Hrun as _ Hp. apply Nat.ltb_ge in Hk.
  unfold pinned_after in Hp. rewrite take_ge, pin_all_done in Hp by done.
  unfold bootstrap_run. destruct (compare removed (build_id_of object')) as [| |ds] eqn:Hc.
  - apply compare_absent in Hc. unfold removed in Hc. by rewrite <-Hp in Hc.
  - apply compare_current in Hc as (Hc & _). symmetry in Hc. by apply list_to_set_cons_ne in Hc.
  - by exists ds.
Qed.

Lemma removed_pins_still_refused_witness :
  exists p, forall s', exists ds,
    bootstrap_run (World := test_world) (Resolver := one_name) [127; 69; 76; 70] ∅ empty_config [] 12 36 s'
      (MkPinState ∅ ∅ (ps_build_id p))
    = (RefusedStale ds, s', MkPinState ∅ ∅ (ps_build_id p)).
Proof.
  eexists. intros s'.
  eapply (removed_pins_still_refused (World := test_world) (Resolver := one_name) [127; 69; 76; 70] ∅ empty_config [] 12 36
    init_state init_state).
  unfold bootstrap_run. rewrite (proj2 (compare_absent no_pins _) eq_refl). reflexivity.
Defined.
