(* ===== verification/Pins.v ===== *)
(** * Pins

    The record of what is pinned, on the file tree: [read_pin_state],
    [pin_all] and [record_build_id] of bpfjailer-bootstrap/src/main.rs, and the
    daemon's functions for the same directory (bpf_loader.rs).  [pin_all_io]
    refines the abstract steps of Bootstrap.v, whatever the operating system
    refuses on the way. *)

From S2P Require Import Prelude CLayout BpfMap Rust Kernel KernelTypes Types Machine Scenario Hash PathWalk StateMachine Enrollment Hooks FileOpen Network Codec Patterns Parse Loader Files Policy Apply Exec Guards RolePolicy RoleLimits System Coherence Daemon DaemonRuns Bootstrap.

(** [BPF_PIN_PATH] and [BUILD_ID_PATH], as components. *)
Definition BPF_PIN_PATH : path := components (text "/sys/fs/bpf/bpfjailer").
Definition BUILD_ID_PATH : path := components (text "/run/bpfjailer/build-id").

Definition maps_dir : path := BPF_PIN_PATH ++ [text "maps"].
Definition progs_dir : path := BPF_PIN_PATH ++ [text "progs"].
Definition links_dir : path := BPF_PIN_PATH ++ [text "links"].

(** ** The bootstrap loader *)

(** [names]: a directory that cannot be read is empty, a name that is not UTF-8
    is passed over. *)
Definition names (t : tree) (dir : path) : gset bytes := filter utf8_valid (default ∅ (read_dir t dir)).

(** A recorded id: trimmed, and nothing when that leaves nothing. *)
Definition recorded_id (content : bytes) : option bytes :=
  let s := trim content in if decide (s = []) then None else Some s.

Definition read_pin_state (t : tree) : PinState :=
  MkPinState (names t progs_dir) (names t maps_dir) (read_to_string t BUILD_ID_PATH ≫= recorded_id).

(** What libbpf found in the object file. *)
Record bpf_object := BpfObject {
  obj_maps : gset bytes;
  obj_progs : gset bytes;
}.

Inductive pin_error :=
| PinFs (e : fs_error)
| NoSuchMap (name : bytes)
| NoSuchProgram (name : bytes).

(** [format!("link_{}", i)] *)
Definition link_name (i : nat) : bytes := text "link_" ++ decimal (Z.of_nat i).

Section pinning.
Context `{OS : Os}.

Definition record_build_id (build_id : Z) : io pin_error tree unit :=
  let parent := removelast BUILD_ID_PATH in
  create_dir_all PinFs parent ;;?
  write_file PinFs parent (text "build-id") (hex16 build_id).

(** The loops of [pin_all]: an object the list names and libbpf did not find is
    an error, as is a pin that fails. *)
Definition pin_maps (o : bpf_object) : io pin_error tree unit :=
  for_each (fun name =>
    if decide (name ∈ obj_maps o) then pin_at PinFs maps_dir name else err (NoSuchMap name)) PINNED_MAPS.

Definition pin_progs (o : bpf_object) : io pin_error tree unit :=
  for_each (fun name =>
    if decide (name ∈ obj_progs o) then pin_at PinFs progs_dir name else err (NoSuchProgram name)) LSM_PROGRAMS.

Definition pin_links (links : nat) : io pin_error tree unit :=
  for_each (fun i => pin_at PinFs links_dir (link_name i)) (seq 0 links).

Definition pin_all_io (o : bpf_object) (links : nat) (build_id : Z) : io pin_error tree unit :=
  create_dir_all PinFs BPF_PIN_PATH ;;?
  create_dir_all PinFs maps_dir ;;?
  create_dir_all PinFs progs_dir ;;?
  create_dir_all PinFs links_dir ;;?
  pin_maps o ;;?
  pin_progs o ;;?
  pin_links links ;;?
  record_build_id build_id.

(** ** The daemon's functions for pins *)

Definition is_pinned (t : tree) : bool := exists_path t BPF_PIN_PATH.

(** [pin_all] of bpf_loader.rs: for every map it has it only logs what it would
    pin. *)
Definition daemon_pin_all : io fs_error tree unit :=
  create_dir_all id BPF_PIN_PATH ;;?
  create_dir_all id maps_dir ;;?
  create_dir_all id progs_dir ;;?
  for_each (fun _ => ok tt) PINNED_MAPS.

(** Every way [load_from_pins] ends. *)
Inductive load_from_pins_error :=
| NotPinned
| NoAuditMap
| CannotOpen
| AuditOnly.

Definition load_from_pins (open_pin : path -> bool) (t : tree) : load_from_pins_error + bpf_object :=
  if negb (is_pinned t) then inl NotPinned
  else
    let audit_map_path := maps_dir ++ [text "audit_events"] in
    if negb (exists_path t audit_map_path) then inl NoAuditMap
    else if negb (open_pin audit_map_path) then inl CannotOpen
    else inl AuditOnly.

Definition unpin_all : io fs_error tree unit :=
  fun t => if negb (is_pinned t) then (inr tt, t) else remove_dir_all id BPF_PIN_PATH t.
End pinning.

(** ** Reading back *)

Definition plain (c : Z) : bool := (33 <=? c) && (c <=? 126).

Lemma strip_plain patterns s :
  Forall (fun w => match head w with Some c => negb (plain c) | None => false end = true) patterns ->
  Forall (fun c => plain c = true) s -> strip_one patterns s = None.
Proof.
  intros Hp Hs. unfold strip_one.
  assert (list_find (fun w => take (length w) s = w) patterns = None) as ->; [|done].
  apply list_find_None. eapply Forall_impl; [exact Hp|]. cbn. intros w Hw Ht.
  destruct w as [|c w]; [done|]. cbn in Hw. destruct s as [|c' s]; [done|]. cbn in Ht.
  injection Ht as <- _. apply Forall_cons in Hs as [Hs _]. by rewrite Hs in Hw.
Qed.

Lemma strip_all_plain n patterns s :
  Forall (fun w => match head w with Some c => negb (plain c) | None => false end = true) patterns ->
  Forall (fun c => plain c = true) s -> strip_all n patterns s = s.
Proof. intros Hp Hs. destruct n; [done|]. cbn. by rewrite strip_plain. Qed.

Lemma trim_plain s : Forall (fun c => plain c = true) s -> trim s = s.
Proof.
  intros Hs. unfold trim.
  rewrite (strip_all_plain _ white_space s); [|apply (bool_decide_unpack _); vm_compute; exact I|done].
  rewrite strip_all_plain; [by rewrite reverse_involutive|apply (bool_decide_unpack _); vm_compute; exact I|].
  by apply Forall_reverse.
Qed.

Lemma hex16_plain id : Forall (fun c => plain c = true) (hex16 id).
Proof.
  unfold hex16. apply Forall_fmap, Forall_forall. intros i _. cbn. unfold hex_digit, plain.
  pose proof (Z.mod_pos_bound (id / 16 ^ Z.of_nat i) 16). case_match; lia.
Qed.

Lemma utf8_plain s : Forall (fun c => plain c = true) s -> utf8_valid s = true.
Proof.
  induction 1 as [|c s Hc _ IH]; [done|]. cbn. unfold plain in Hc.
  assert ((0 <=? c) && (c <=? 127) = true) as -> by lia. done.
Qed.

Lemma length_hex16 id : length (hex16 id) = 16%nat.
Proof. unfold hex16. by rewrite length_fmap, length_reverse, length_seq. Qed.

(** What a write of the id leaves, when [n] bytes arrived. *)
Definition written_id (n : nat) (id : Z) : option bytes :=
  if decide (n = 0%nat) then None else Some (take n (hex16 id)).

Lemma recorded_prefix n id : recorded_id (take n (hex16 id)) = written_id n id.
Proof.
  unfold recorded_id, written_id. rewrite trim_plain by apply Forall_take, hex16_plain.
  destruct n as [|n]; [done|]. rewrite (decide_False (P := S n = 0%nat)) by lia.
  rewrite decide_False; [done|]. intros Ht%(f_equal length). rewrite length_take, length_hex16 in Ht. cbn in Ht. lia.
Qed.

(** ** Refinement *)

(** What is pinned: the programs, the maps and the record, and the links. *)
Abbreviation pins := (PinState * gset bytes)%type.

Definition view (t : tree) : pins := (read_pin_state t, names t links_dir).

(** The abstract steps, with the links they name. *)
Definition pin_view (v : pins) (st : pin_step) : pins :=
  (pin v.1 st, match st with PinLink i => {[link_name i]} ∪ v.2 | _ => v.2 end).

(** The same but for the record. *)
Definition with_record (v : pins) (id : option bytes) : pins :=
  (MkPinState (ps_progs v.1) (ps_maps v.1) id, v.2).

(** A name added to one of the three listings. *)
Definition add_name (dir : path) (name : bytes) (v : pins) : pins :=
  let new d := if decide (d = dir) then {[name]} else ∅ in
  (MkPinState (new progs_dir ∪ ps_progs v.1) (new maps_dir ∪ ps_maps v.1) (ps_build_id v.1), new links_dir ∪ v.2).

Lemma view_eq t :
  tree_ok t ->
  view t = (MkPinState (filter utf8_valid (entries_of progs_dir t)) (filter utf8_valid (entries_of maps_dir t))
    (read_to_string t BUILD_ID_PATH ≫= recorded_id), filter utf8_valid (entries_of links_dir t)).
Proof. intros Hok. unfold view, read_pin_state, names. by rewrite !read_dir_entries. Qed.

(** What is pinned is read off the names six components deep and the record. *)
Lemma view_agree t t' :
  tree_ok t -> tree_ok t' -> (forall p, length p = 6%nat -> t' !! p = t !! p) ->
  t' !! BUILD_ID_PATH = t !! BUILD_ID_PATH -> view t' = view t.
Proof.
  intros Hok Hok' Hlong Hid.
  assert (forall dir, length dir = 5%nat -> entries_of dir t' = entries_of dir t) as He.
  { intros dir Hd. apply set_eq. intros x. rewrite !entries_of_spec, Hlong; [done|]. rewrite length_app, Hd. done. }
  rewrite !view_eq, !He by done. do 2 f_equal.
  unfold read_to_string, read_file. change (node_at ?t BUILD_ID_PATH) with (t !! BUILD_ID_PATH). by rewrite Hid.
Qed.

(** Directories added along a path that reaches neither a listing nor the
    record. *)
Lemma view_dirs_added t t' q :
  tree_ok t -> tree_ok t' -> (forall p, t' !! p <> t !! p -> p `prefix_of` q) ->
  (length q <= 5)%nat -> ~ BUILD_ID_PATH `prefix_of` q -> view t' = view t.
Proof.
  intros Hok Hok' Hp Hq Hb. apply view_agree; [done|done|..].
  - intros p Hl. destruct (decide (t' !! p = t !! p)) as [?|Hne]; [done|].
    apply Hp, prefix_length in Hne. lia.
  - destruct (decide (t' !! BUILD_ID_PATH = t !! BUILD_ID_PATH)) as [?|Hne]; [done|]. by apply Hp in Hne.
Qed.

(** An operation on the tree makes the abstract steps, or some of the first of
    them before it fails. *)
Definition sim (p : io pin_error tree unit) (steps : list pin_step) : Prop :=
  forall t r t', p t = (r, t') -> tree_ok t ->
  tree_ok t'
  /\ match r with
     | inr _ => view t' = fold_left pin_view steps (view t)
     | inl _ => exists k, (k <= length steps)%nat /\ view t' = fold_left pin_view (take k steps) (view t)
     end.

Lemma sim_bind p q steps steps' : sim p steps -> sim q steps' -> sim (p ;;? q) (steps ++ steps').
Proof.
  intros Hp Hq t r t' Hrun Hok. unfold io_bind in Hrun. destruct (p t) as [[e|[]] t1] eqn:Hpt.
  - injection Hrun as <- <-. destruct (Hp _ _ _ Hpt Hok) as (? & k & Hk & Hr). split; [done|].
    exists k. rewrite length_app, take_app_le by done. split; [lia|done].
  - destruct (Hp _ _ _ Hpt Hok) as (Hok1 & Hr1). destruct (Hq _ _ _ Hrun Hok1) as (Hok' & Hr). split; [done|].
    rewrite Hr1 in Hr. destruct r as [e|[]].
    + destruct Hr as (k & Hk & Hr). exists (length steps + k)%nat. rewrite length_app. split; [lia|].
      by rewrite take_app_add, fold_left_app.
    + by rewrite fold_left_app.
Qed.

Lemma sim_err e : sim (err e) [].
Proof. intros t r t' [= <- <-] Hok. split; [done|]. by exists 0%nat. Qed.

Lemma sim_err_any e steps : sim (err e) steps.
Proof. intros t r t' [= <- <-] Hok. split; [done|]. exists 0%nat. split; [lia|done]. Qed.

Lemma sim_for_each {X} (f : X -> io pin_error tree unit) (g : X -> pin_step) xs :
  (forall x, x ∈ xs -> sim (f x) [g x]) -> sim (for_each f xs) (g <$> xs).
Proof.
  intros Hf. induction xs as [|x xs IH]; [by intros t r t' [= <- <-] Hok|].
  apply (sim_bind _ _ [g x]); [apply Hf, list_elem_of_here|]. apply IH. intros y Hy. by apply Hf, list_elem_of_further.
Qed.

Section refinement.
Context `{OS : Os}.

Lemma dirs_keep_view {E} (fs : fs_error -> E) q t r t' :
  create_dir_all fs q t = (r, t') -> (length q <= 5)%nat -> ~ BUILD_ID_PATH `prefix_of` q -> tree_ok t ->
  tree_ok t' /\ view t' = view t.
Proof.
  intros Hrun Hq Hb Hok. apply create_dirs_ok in Hrun as (Hok' & _ & _ & Hp); [|done..].
  split; [done|by apply (view_dirs_added t t' q)].
Qed.

Lemma sim_dirs q :
  (length q <= 5)%nat -> ~ BUILD_ID_PATH `prefix_of` q -> sim (create_dir_all PinFs q) [].
Proof.
  intros Hq Hb t r t' Hrun Hok. apply dirs_keep_view in Hrun as [Hok' Hr]; [|done..].
  split; [done|]. destruct r; [by exists 0%nat|done].
Qed.

Lemma view_pinned t dir name :
  tree_ok t -> node_at t dir = Some Dir -> t !! (dir ++ [name]) = None -> utf8_valid name = true ->
  (length dir = 5)%nat ->
  view (<[dir ++ [name] := Pin]> t) = add_name dir name (view t).
Proof.
  intros Hok Hd Hn Hu Hl. rewrite !view_eq; [|done|by apply tree_ok_insert; [..|congruence]].
  assert (forall d, filter utf8_valid (entries_of d (<[dir ++ [name] := Pin]> t))
      = (if decide (d = dir) then {[name]} else ∅) ∪ filter utf8_valid (entries_of d t)) as He.
  { intros d. rewrite entries_insert. case_decide as Hdd; [subst d|by rewrite (left_id_L ∅ (∪))].
    apply set_eq. intros x. rewrite elem_of_union, !elem_of_filter, elem_of_union, elem_of_singleton.
    split; [naive_solver|]. intros [->|[? ?]]; [|by auto]. split; [by rewrite Hu|by left]. }
  rewrite !He. unfold add_name. cbn [fst snd ps_progs ps_maps ps_build_id]. do 2 f_equal.
  unfold read_to_string, read_file. rewrite node_at_insert_ne; [done|].
  intros Heq%(f_equal length). rewrite length_app, Hl in Heq. discriminate Heq.
Qed.

Lemma sim_pin dir name st :
  (length dir = 5)%nat -> utf8_valid name = true -> (forall v, pin_view v st = add_name dir name v) ->
  sim (pin_at PinFs dir name) [st].
Proof.
  intros Hl Hu Hst t r t' Hrun Hok. unfold pin_at in Hrun.
  assert (forall e, (inl e, t) = (r, t') -> tree_ok t' /\ match r with
     | inr _ => view t' = fold_left pin_view [st] (view t)
     | inl _ => exists k, (k <= length [st])%nat
         /\ view t' = fold_left pin_view (take k [st]) (view t) end) as Hfail.
  { intros e [= <- <-]. split; [done|]. exists 0%nat. split; [lia|done]. }
  destruct (node_at t dir) as [[| | |]|] eqn:Hd; [|by eapply Hfail..].
  destruct (t !! (dir ++ [name])) as [n|] eqn:Hn; [by eapply Hfail|].
  destruct (os_pin _ t); [|by eapply Hfail]. injection Hrun as <- <-. split.
  - apply tree_ok_insert; [done|done|congruence].
  - cbn [fold_left]. by rewrite view_pinned, Hst.
Qed.

Lemma names_utf8 : forallb utf8_valid (PINNED_MAPS ++ LSM_PROGRAMS) = true.
Proof. vm_compute. reflexivity. Qed.

Lemma decimal_digits_plain fuel n acc :
  Forall (fun c => plain c = true) acc -> Forall (fun c => plain c = true) (decimal_digits fuel n acc).
Proof.
  revert n acc. induction fuel as [|fuel IH]; intros n acc Ha; [done|]. cbn [decimal_digits].
  assert (Forall (fun c => plain c = true) ((48 + n mod 10) :: acc)) as Ha'.
  { apply Forall_cons. split; [|done]. unfold plain. pose proof (Z.mod_pos_bound n 10). lia. }
  case_match; [done|by apply IH].
Qed.

Lemma link_utf8 i : utf8_valid (link_name i) = true.
Proof.
  apply utf8_plain, Forall_app. split; [apply (bool_decide_unpack _); vm_compute; exact I|].
  by apply decimal_digits_plain.
Qed.

Lemma sim_names f dir (names_ : list bytes) (g : bytes -> pin_step) :
  (length dir = 5)%nat -> Forall (fun name => utf8_valid name = true) names_ ->
  (forall name v, pin_view v (g name) = add_name dir name v) ->
  (forall name, f name = pin_at PinFs dir name \/ exists e, f name = err e) ->
  sim (for_each f names_) (g <$> names_).
Proof.
  intros Hl Hu Hg Hf. apply sim_for_each. intros name Hin. rewrite Forall_forall in Hu.
  destruct (Hf name) as [-> |[e ->]]; [apply sim_pin; auto|apply sim_err_any].
Qed.

Lemma dirs_differ : progs_dir <> maps_dir /\ progs_dir <> links_dir /\ maps_dir <> links_dir.
Proof. vm_compute. split_and!; congruence. Qed.

(** Each kind of step adds its name to its listing. *)
Lemma pin_view_add v name i :
  pin_view v (PinMap name) = add_name maps_dir name v /\ pin_view v (PinProg name) = add_name progs_dir name v
  /\ pin_view v (PinLink i) = add_name links_dir (link_name i) v.
Proof.
  destruct dirs_differ as (? & ? & ?). unfold pin_view, add_name, pin. cbv beta zeta.
  split_and!; repeat case_decide; try congruence; rewrite !(left_id_L ∅ (∪));
    by destruct v as [[] ?].
Qed.

(** The steps before the first link. *)
Definition named_steps : list pin_step := (PinMap <$> PINNED_MAPS) ++ (PinProg <$> LSM_PROGRAMS).

(** Everything [pin_all] does before the links. *)
Lemma sim_named o :
  sim (create_dir_all PinFs BPF_PIN_PATH ;;? create_dir_all PinFs maps_dir ;;? create_dir_all PinFs progs_dir ;;?
    create_dir_all PinFs links_dir ;;? pin_maps o ;;? pin_progs o) named_steps.
Proof.
  assert (forall q, (length q <= 5)%nat -> ~ BUILD_ID_PATH `prefix_of` q -> forall p steps, sim p steps ->
      sim (create_dir_all PinFs q ;;? p) steps) as Hdir.
  { intros q Hq Hb p steps Hp. apply (sim_bind _ _ []); [by apply sim_dirs|done]. }
  assert (forall q, bool_decide (BUILD_ID_PATH `prefix_of` q) = false -> ~ BUILD_ID_PATH `prefix_of` q) as Hb
    by (intros q H%bool_decide_eq_false; done).
  do 4 (apply Hdir; [vm_compute; lia|apply Hb; vm_compute; reflexivity|]).
  apply sim_bind.
  - apply (sim_names _ maps_dir); [done|apply (bool_decide_unpack _); vm_compute; exact I| |].
    + intros name v. by apply (pin_view_add v name 0).
    + intros name. case_decide; [by left|right; by eexists].
  - apply (sim_names _ progs_dir); [done|apply (bool_decide_unpack _); vm_compute; exact I| |].
    + intros name v. by apply (pin_view_add v name 0).
    + intros name. case_decide; [by left|right; by eexists].
Qed.

Lemma sim_links links : sim (pin_links links) (PinLink <$> seq 0 links).
Proof.
  apply sim_for_each. intros i _. apply sim_pin; [done|apply link_utf8|]. intros v. by apply (pin_view_add v [] i).
Qed.

(** ** The record *)

Definition run_dir : path := removelast BUILD_ID_PATH.

Lemma build_id_path : BUILD_ID_PATH = run_dir ++ [text "build-id"].
Proof. vm_compute. reflexivity. Qed.

Lemma sim_run_dir : sim (create_dir_all PinFs run_dir) [].
Proof.
  assert (bool_decide (BUILD_ID_PATH `prefix_of` run_dir) = false) as Hb%bool_decide_eq_false by (vm_compute; reflexivity).
  apply sim_dirs; [vm_compute; lia|done].
Qed.

(** The tree with the first [n] bytes of the id written. *)
Definition with_id (n : nat) (id : Z) (t : tree) : tree := <[BUILD_ID_PATH := Regular (take n (hex16 id))]> t.

Lemma with_id_reads n id t :
  tree_ok t -> node_at t run_dir = Some Dir -> t !! BUILD_ID_PATH <> Some Dir ->
  tree_ok (with_id n id t) /\ view (with_id n id t) = with_record (view t) (written_id n id).
Proof.
  intros Hok Hd Hb. unfold with_id. rewrite build_id_path in *.
  assert (tree_ok (<[run_dir ++ [text "build-id"] := Regular (take n (hex16 id))]> t)) as Hok'
    by by apply tree_ok_insert.
  split; [done|]. rewrite !view_eq by done. unfold with_record. cbn [fst snd ps_progs ps_maps].
  rewrite !entries_insert, !decide_False by (vm_compute; congruence). do 2 f_equal. unfold read_to_string, read_file.
  rewrite build_id_path, node_at_snoc, lookup_insert_eq, utf8_plain by apply Forall_take, hex16_plain.
  apply recorded_prefix.
Qed.

(** A write that does not succeed stops short. *)
Lemma write_id_reads id t r t' :
  write_file PinFs run_dir (text "build-id") (hex16 id) t = (r, t') -> tree_ok t ->
  (exists e, r = inl e /\ t' = t)
  \/ exists n, tree_ok t' /\ view t' = with_record (view t) (written_id n id)
     /\ match r with inr _ => (16 <= n)%nat | inl _ => (n < 16)%nat end.
Proof.
  intros Hrun Hok. unfold write_file in Hrun. rewrite <-build_id_path in Hrun.
  destruct (node_at t run_dir) as [[| | |]|] eqn:Hd; try (left; injection Hrun as <- <-; by eexists).
  assert (t !! BUILD_ID_PATH <> Some Dir ->
    ((if (os_written BUILD_ID_PATH (hex16 id) t <? length (hex16 id))%nat
      then inl (PinFs (Incomplete BUILD_ID_PATH)) else inr tt),
      with_id (os_written BUILD_ID_PATH (hex16 id) t) id t) = (r, t') ->
    exists n, tree_ok t' /\ view t' = with_record (view t) (written_id n id)
     /\ match r with inr _ => (16 <= n)%nat | inl _ => (n < 16)%nat end) as Hwrite.
  { rewrite length_hex16. set (n := os_written _ _ _). intros Hn Heq. exists n.
    assert (t' = with_id n id t) as -> by congruence. destruct (with_id_reads n id t Hok Hd Hn) as [? ?].
    split_and!; [done..|]. destruct (Nat.ltb_spec n 16); by (injection Heq as <-). }
  destruct (t !! BUILD_ID_PATH) as [[|c| |]|]; try (left; injection Hrun as <- <-; by eexists);
    (destruct (os_open BUILD_ID_PATH t); [right; by apply Hwrite|left; injection Hrun as <- <-; by eexists]).
Qed.

(** The record: all of it, none of it, or what arrived of it. *)
Lemma record_build_id_reads id t r t' :
  record_build_id id t = (r, t') -> tree_ok t ->
  tree_ok t'
  /\ match r with
     | inr _ => view t' = with_record (view t) (Some (hex16 id))
     | inl _ => view t' = view t \/ exists n, (n < 16)%nat /\ view t' = with_record (view t) (written_id n id)
     end.
Proof.
  unfold record_build_id, io_bind. fold run_dir. intros Hrun Hok.
  destruct (create_dir_all PinFs run_dir t) as [[e|[]] t1] eqn:Hdirs;
    destruct (sim_run_dir _ _ _ Hdirs Hok) as (Hok1 & Hr1).
  - injection Hrun as <- <-. split; [done|]. destruct Hr1 as (k & _ & Hr). left. by rewrite Hr, take_nil.
  - cbn in Hr1. rewrite <-Hr1.
    apply write_id_reads in Hrun as [(e & -> & ->)|(n & Hok' & Hr & Hn)]; [split; [done|by left]| |done].
    split; [done|]. destruct r as [e|u]; [right; by exists n|]. rewrite Hr. unfold written_id.
    rewrite decide_False by lia. by rewrite take_ge by (rewrite length_hex16; lia).
Qed.

(** ** The whole of [pin_all] *)

(** The steps before the record. *)
Definition object_steps (links : nat) : list pin_step := named_steps ++ (PinLink <$> seq 0 links).

(** An object without one of the maps or programs of the lists. *)
Definition lacks (o : bpf_object) : Prop :=
  (exists name, name ∈ PINNED_MAPS /\ name ∉ obj_maps o) \/ (exists name, name ∈ LSM_PROGRAMS /\ name ∉ obj_progs o).

#[export] Instance lacks_decision o : Decision (lacks o).
Proof.
  refine (cast_if (decide (Exists (fun name => name ∉ obj_maps o) PINNED_MAPS
    \/ Exists (fun name => name ∉ obj_progs o) LSM_PROGRAMS))); unfold lacks; by rewrite !Exists_exists in *.
Defined.

Lemma lacks_none o :
  ~ lacks o -> Forall (fun name => name ∈ obj_maps o) PINNED_MAPS /\ Forall (fun name => name ∈ obj_progs o) LSM_PROGRAMS.
Proof.
  intros Hl. split; apply Forall_forall; intros name Hin; apply dec_stable; intros Hno; apply Hl; [left|right]; eauto.
Qed.

(** [pin_all] up to the links, then the rest. *)
Lemma pin_all_stages o links id t :
  exists named, sim named named_steps
  /\ (lacks o -> forall t1, exists e t2, named t1 = (inl e, t2))
  /\ pin_all_io o links id t = (named ;;? pin_links links ;;? record_build_id id) t.
Proof.
  eexists. split; [apply (sim_named o)|]. split.
  - intros Hl. do 4 apply io_fails_after. destruct Hl as [(name & Hin & Hno)|(name & Hin & Hno)].
    + apply io_fails_before, (for_each_fails _ _ name); [done|]. intros s. rewrite decide_False by done.
      by exists (NoSuchMap name), s.
    + apply io_fails_after, (for_each_fails _ _ name); [done|]. intros s. rewrite decide_False by done.
      by exists (NoSuchProgram name), s.
  - unfold pin_all_io. do 5 (apply io_seq_split; intros ?). done.
Qed.

Lemma pin_all_io_reads o links id t r t' :
  pin_all_io o links id t = (r, t') -> tree_ok t ->
  tree_ok t'
  /\ match r with
     | inr _ => view t' = with_record (fold_left pin_view (object_steps links) (view t)) (Some (hex16 id))
     | inl _ => (exists k, (k <= length (object_steps links))%nat
           /\ view t' = fold_left pin_view (take k (object_steps links)) (view t))
         \/ exists n, (n < 16)%nat
           /\ view t' = with_record (fold_left pin_view (object_steps links) (view t)) (written_id n id)
     end.
Proof.
  intros Hrun Hok. destruct (pin_all_stages o links id t) as (named & Hnamed & _ & Heq). rewrite Heq in Hrun. clear Heq.
  pose proof (sim_bind _ _ _ _ Hnamed (sim_links links)) as Hsim. fold (object_steps links) in Hsim.
  rewrite <-(io_bind_assoc named (fun _ => pin_links links) (fun _ => record_build_id id)) in Hrun.
  set (objects := named ;;? pin_links links) in *. unfold io_bind in Hrun.
  destruct (objects t) as [[e|[]] t1] eqn:Hobj; destruct (Hsim _ _ _ Hobj Hok) as (Hok1 & Hr1).
  - injection Hrun as <- <-. split; [done|]. by left.
  - destruct (record_build_id_reads id t1 r t' Hrun Hok1) as (Hok' & Hr). split; [done|].
    rewrite Hr1 in Hr. destruct r as [e|u]; [|done]. destruct Hr as [Hr|(n & Hn & Hr)].
    + left. exists (length (object_steps links)). split; [lia|]. by rewrite firstn_all.
    + right. by exists n.
Qed.
End refinement.

(** ** The next run *)

Lemma view_steps steps v : (fold_left pin_view steps v).1 = fold_left pin steps v.1.
Proof. revert v. induction steps as [|st steps IH]; intros v; [done|]. cbn [fold_left]. by rewrite IH. Qed.

Lemma object_steps_all links id : pin_all links id = object_steps links ++ [RecordBuildId id].
Proof. unfold pin_all, object_steps, named_steps. by rewrite <-!app_assoc. Qed.

Lemma object_steps_done links p :
  fold_left pin (object_steps links) p = MkPinState (want_progs ∪ ps_progs p) (want_maps ∪ ps_maps p) (ps_build_id p).
Proof. unfold object_steps, named_steps. rewrite <-app_assoc. apply pin_maps_progs. Qed.

(** A record that is not the whole id matches no object's. *)
Lemma partial_record n id id' : (n < 16)%nat -> written_id n id <> Some (hex16 id').
Proof.
  unfold written_id. case_decide; [done|]. intros Hn Heq. apply (inj Some), (f_equal length) in Heq.
  rewrite length_take, !length_hex16 in Heq. lia.
Qed.

Lemma stale_unless p id : p <> no_pins -> ps_build_id p <> Some (hex16 id) -> exists ds, compare p id = Stale ds.
Proof.
  intros Hp Hi. destruct (compare p id) as [| |ds] eqn:Hc; [|apply compare_current in Hc as (_ & _ & Hc)|by exists ds].
  - by apply compare_absent in Hc.
  - done.
Qed.

(** What a failed run leaves, seen by any later one. *)
Lemma failed_pins_stale k links :
  (0 < k <= length (object_steps links))%nat ->
  forall id', exists ds, compare (fold_left pin (take k (object_steps links)) no_pins) id' = Stale ds.
Proof.
  intros Hk id'. destruct (pinned_partly k links 0) as [Hb Hm].
  { rewrite object_steps_all, length_app. cbn [length]. lia. }
  unfold pinned_after in Hb, Hm. rewrite object_steps_all, take_app_le in Hb, Hm by lia.
  apply stale_unless; [|by rewrite Hb]. intros He. by rewrite He in Hm.
Qed.

Lemma pinned_nonempty links p id :
  let q := fold_left pin (object_steps links) p in MkPinState (ps_progs q) (ps_maps q) id <> no_pins.
Proof.
  cbv zeta. rewrite object_steps_done. intros [= He _ _]. cbn [ps_progs] in He. apply (list_to_set_cons_ne (text "task_alloc") (tail LSM_PROGRAMS)).
  unfold want_progs in He. cbn [LSM_PROGRAMS fmap list_fmap tail] in *. set_solver.
Qed.

Lemma dirs_below d : d = progs_dir \/ d = maps_dir \/ d = links_dir -> exists x, d = BPF_PIN_PATH ++ [x].
Proof. unfold progs_dir, maps_dir, links_dir. intros [H|[H|H]]; eexists; exact H. Qed.

Lemma pins_not_record : ~ BPF_PIN_PATH `prefix_of` BUILD_ID_PATH.
Proof. apply (bool_decide_unpack _). vm_compute. exact I. Qed.

(** Without the directory there is the record at most. *)
Lemma view_unpinned t :
  tree_ok t -> is_pinned t = false ->
  view t = (MkPinState ∅ ∅ (read_to_string t BUILD_ID_PATH ≫= recorded_id), ∅).
Proof.
  intros Hok Hgone. rewrite view_eq by done.
  assert (forall d, d = progs_dir \/ d = maps_dir \/ d = links_dir -> filter utf8_valid (entries_of d t) = ∅) as He.
  { intros d Hd. destruct (dirs_below d Hd) as [x ->]. rewrite entries_absent; [set_solver|done|].
    rewrite node_at_snoc. intros Hx. specialize (Hok BPF_PIN_PATH x). rewrite Hx in Hok.
    unfold is_pinned, exists_path in Hgone. apply bool_decide_eq_false in Hgone. rewrite Hok in Hgone by by eexists.
    apply Hgone. by eexists. }
  by rewrite !He by auto.
Qed.

(** What [unpin_all] leaves: the record, which is not in the directory. *)
Lemma unpin_all_reads `{OS : Os} t t' :
  unpin_all t = (inr tt, t') -> tree_ok t ->
  is_pinned t' = false /\ view t' = (MkPinState ∅ ∅ (ps_build_id (read_pin_state t)), ∅).
Proof.
  unfold unpin_all. intros Hrun Hok.
  assert (tree_ok t' /\ is_pinned t' = false /\ t' !! BUILD_ID_PATH = t !! BUILD_ID_PATH) as (Hok' & Hgone & Hid).
  { destruct (is_pinned t) eqn:Hp; cbn [negb] in Hrun; [|assert (t' = t) as -> by congruence; done].
    apply remove_dir_all_ok in Hrun as [Hok' Hl]; [|done]. split_and!; [done|..].
    - unfold is_pinned, exists_path. apply bool_decide_eq_false.
      change (node_at t' BPF_PIN_PATH) with (t' !! BPF_PIN_PATH). rewrite Hl, decide_True by done. by intros [].
    - rewrite Hl, decide_False; [done|]. apply pins_not_record. }
  split; [done|]. rewrite view_unpinned by done. do 2 f_equal. unfold read_pin_state. cbn [ps_build_id].
  unfold read_to_string, read_file. change (node_at ?t BUILD_ID_PATH) with (t !! BUILD_ID_PATH). by rewrite Hid.
Qed.

(** ** Links *)

Lemma named_no_links steps v :
  Forall (fun st => match st with PinLink _ => False | _ => True end) steps ->
  (fold_left pin_view steps v).2 = v.2.
Proof.
  intros Hs. revert v. induction Hs as [|st steps Hst _ IH]; intros v; [done|]. cbn [fold_left]. rewrite IH. by destruct st.
Qed.

Lemma named_steps_named : Forall (fun st => match st with PinLink _ => False | _ => True end) named_steps.
Proof. unfold named_steps. apply Forall_app. split; by apply Forall_fmap, Forall_true. Qed.

Lemma link_steps js v :
  fold_left pin_view (PinLink <$> js) v = (v.1, list_to_set (link_name <$> js) ∪ v.2).
Proof.
  revert v. induction js as [|j js IH]; intros [p L]; [cbn; by rewrite (left_id_L ∅ (∪))|].
  cbn [fmap list_fmap fold_left]. rewrite IH. cbn [pin_view pin fst snd list_to_set]. f_equal. set_solver.
Qed.

(** Part of the steps: either no link yet, or every map and program and some
    first links. *)
Lemma view_partial k links v :
  let v' := fold_left pin_view (take k (object_steps links)) v in
  v'.2 = v.2 \/ exists j, (j <= links)%nat
    /\ v' = (MkPinState (want_progs ∪ ps_progs v.1) (want_maps ∪ ps_maps v.1) (ps_build_id v.1),
             list_to_set (link_name <$> seq 0 j) ∪ v.2).
Proof.
  cbv zeta. unfold object_steps.
  destruct (decide (k <= length named_steps)%nat) as [Hk|Hk].
  - left. rewrite take_app_le by done. apply named_no_links, Forall_take, named_steps_named.
  - right. exists ((k - length named_steps) `min` links)%nat. split; [lia|].
    rewrite take_app_ge, fold_left_app, <-fmap_take, take_seq, link_steps by lia.
    rewrite named_no_links by apply named_steps_named. f_equal. rewrite view_steps.
    pose proof (object_steps_done 0 v.1) as Hd. unfold object_steps in Hd. cbn [seq fmap list_fmap] in Hd.
    by rewrite app_nil_r in Hd.
Qed.

(** Pinning an object that lacks something fails before the first link. *)
Lemma pin_all_io_lacking `{OS : Os} o links id t r t' :
  pin_all_io o links id t = (r, t') -> tree_ok t -> lacks o ->
  (exists e, r = inl e) /\ names t' links_dir = names t links_dir.
Proof.
  intros Hrun Hok Hl. destruct (pin_all_stages o links id t) as (named & Hnamed & Hfail & Heq). rewrite Heq in Hrun.
  destruct (Hfail Hl t) as (e & t2 & Hn). unfold io_bind in Hrun. rewrite Hn in Hrun. injection Hrun as <- <-.
  destruct (Hnamed _ _ _ Hn Hok) as (_ & k & _ & Hv). split; [by exists e|].
  change (names t2 links_dir) with (view t2).2. rewrite Hv. apply named_no_links, Forall_take, named_steps_named.
Qed.

(** An operating system that refuses nothing. *)
#[export] Instance permitting : Os := {
  os_mkdir := fun _ _ => true;
  os_pin := fun _ _ => true;
  os_open := fun _ _ => true;
  os_remove := fun _ _ => true;
  os_bind := fun _ _ => true;
  os_written := fun _ content _ => length content;
}.

Definition full_object : bpf_object :=
  BpfObject (want_maps ∪ list_to_set (text <$> ["ip_rules"; "proxy_config"; "domain_rules"; "dns_cache"; "path_buf"]%string))
    want_progs.

(** The functions of the daemon for the same directory make directories only,
    and never connect to what is pinned. *)
Lemma daemon_pins_nothing `{OS : Os} t r t' :
  daemon_pin_all t = (r, t') -> tree_ok t ->
  view t' = view t /\ forall open_pin, exists e, load_from_pins open_pin t' = inl e.
Proof.
  intros Hrun Hok. split; [|intros open_pin; unfold load_from_pins; repeat case_match; by eexists].
  assert (forall q, In q [BPF_PIN_PATH; maps_dir; progs_dir] -> (length q <= 5)%nat /\ ~ BUILD_ID_PATH `prefix_of` q) as Hq.
  { intros q [<-|[<-|[<-|[]]]]; (split; [vm_compute; lia|apply (bool_decide_unpack _); vm_compute; exact I]). }
  assert (forall q t r t', In q [BPF_PIN_PATH; maps_dir; progs_dir] -> create_dir_all id q t = (r, t') -> tree_ok t ->
    tree_ok t' /\ view t' = view t) as Hdir by (intros; eapply dirs_keep_view; [done|by apply Hq|by apply Hq|done]).
  unfold daemon_pin_all, io_bind in Hrun.
  destruct (create_dir_all id BPF_PIN_PATH t) as [[e1|[]] t1] eqn:H1; apply Hdir in H1 as [Hok1 <-]; [|by left|done| |by left|done];
    [by injection Hrun as _ <-|].
  destruct (create_dir_all id maps_dir t1) as [[e2|[]] t2] eqn:H2; apply Hdir in H2 as [Hok2 <-];
    [|by right; left|done| |by right; left|done]; [by injection Hrun as _ <-|].
  destruct (create_dir_all id progs_dir t2) as [[e3|[]] t3] eqn:H3; apply Hdir in H3 as [_ <-];
    [|by right; right; left|done| |by right; right; left|done]; by injection Hrun as _ <-.
Qed.

(** What [pin_all] leaves on the file tree decides the next run, whatever
    the operating system refuses on the way.  On a host with nothing pinned, a run
    that succeeds is recognised by every later run: as current by the same
    object, as stale by any other.  A run that fails, in making a directory, at
    any pin, or in writing the record, even part of it, either has pinned nothing
    or is taken for stale by every later run. *)
Lemma pin_all_decides `{OS : Os} (o : bpf_object) (links : nat) (id : Z) (t t' : tree)
    (r : pin_error + unit) (Hid : in_width 64 id) (Hok : tree_ok t) (Hnone : view t = (no_pins, ∅))
    (Hrun : pin_all_io o links id t = (r, t')) :
  match r with
  | inr _ => forall id', in_width 64 id' ->
      if decide (id = id') then compare (read_pin_state t') id' = Current
      else exists ds, compare (read_pin_state t') id' = Stale ds
  | inl _ => view t' = (no_pins, ∅) \/ forall id', exists ds, compare (read_pin_state t') id' = Stale ds
  end.
Proof.
  change (read_pin_state t') with (view t').1.
  apply pin_all_io_reads in Hrun as [_ Hr]; [|done]. rewrite Hnone in Hr. destruct r as [e|[]].
  - destruct Hr as [(k & Hk & ->)|(n & Hn & ->)].
    + destruct k as [|k]; [by left|]. right. rewrite view_steps. apply failed_pins_stale. lia.
    + right. intros id'. unfold with_record. cbn [fst]. rewrite view_steps.
      apply stale_unless; [apply pinned_nonempty|by apply partial_record].
  - intros id' Hid'. rewrite Hr. unfold with_record. cbn [fst]. rewrite view_steps, object_steps_done.
    cbn [fst ps_progs ps_maps ps_build_id no_pins]. rewrite !(right_id_L ∅ (∪)). case_decide as Heq.
    + apply compare_current. by rewrite Heq.
    + apply stale_unless; [intros He; apply (f_equal ps_build_id) in He; discriminate He|]. intros Hh. apply (inj Some) in Hh. by apply hex16_inj in Hh.
Qed.

Lemma empty_tree_ok : tree_ok ∅.
Proof. intros dir name [nd Hn]. by rewrite lookup_empty in Hn. Qed.

Lemma nothing_pinned : view ∅ = (no_pins, ∅).
Proof. apply (view_unpinned ∅ empty_tree_ok). vm_compute. reflexivity. Qed.

Lemma full_object_pinned :
  exists t', pin_all_io full_object 12 1 ∅ = (inr tt, t') /\ t' !! BPF_PIN_PATH = Some Dir.
Proof.
  assert (let x := pin_all_io full_object 12 1 ∅ in (x.1, x.2 !! BPF_PIN_PATH) = (inr tt, Some Dir)) as H
    by (vm_compute; reflexivity).
  cbv zeta in H. destruct (pin_all_io full_object 12 1 ∅) as [r t']. exists t'. cbn [fst snd] in H. split; congruence.
Qed.

Lemma unpin_permitted t : t !! BPF_PIN_PATH = Some Dir -> exists t', unpin_all t = (inr tt, t').
Proof.
  intros Hd. unfold unpin_all. destruct (is_pinned t); [|by exists t]. cbn [negb]. unfold remove_dir_all.
  change (node_at t BPF_PIN_PATH) with (t !! BPF_PIN_PATH). rewrite Hd. by eexists.
Qed.

(** ** Theorem *)

(** The advice printed with a refusal, to remove the pin directory and run
    again, does not work before a reboot.  The record is kept outside that
    directory: when everything was pinned and [unpin_all] has then removed the
    directory, the daemon sees nothing pinned, and yet every run of the bootstrap,
    of any object, the same one included, still refuses as stale. *)
Theorem unpinned_still_refused `{OS : Os} (o : bpf_object) (links : nat) (id : Z) (t t' t'' : tree)
    (Hok : tree_ok t) (Hrun : pin_all_io o links id t = (inr tt, t')) (Hunpin : unpin_all t' = (inr tt, t'')) :
  is_pinned t'' = false
  /\ ps_progs (read_pin_state t'') = ∅ /\ ps_maps (read_pin_state t'') = ∅
  /\ forall id', exists ds, compare (read_pin_state t'') id' = Stale ds.
Proof.
  apply pin_all_io_reads in Hrun as [Hok' Hr]; [|done]. apply unpin_all_reads in Hunpin as [Hp Hv]; [|done].
  split; [done|]. change (read_pin_state t'') with (view t'').1. rewrite Hv. cbn [fst ps_progs ps_maps].
  split_and!; [done..|]. intros id'. change (read_pin_state t') with (view t').1. rewrite Hr.
  unfold with_record. cbn [fst ps_build_id].
  destruct (compare _ id') as [| |ds] eqn:Hc; [by apply compare_absent in Hc|
    |by exists ds].
  apply compare_current in Hc as (Hc & _). cbn [ps_progs] in Hc. symmetry in Hc. by apply list_to_set_cons_ne in Hc.
Qed.

Lemma unpinned_still_refused_witness :
  exists t' t'', pin_all_io full_object 12 1 ∅ = (inr tt, t') /\ unpin_all t' = (inr tt, t'')
  /\ exists ds, compare (read_pin_state t'') 1 = Stale ds.
Proof.
  destruct full_object_pinned as (t' & Hrun & Hd). destruct (unpin_permitted t' Hd) as [t'' Hunpin].
  exists t', t''. split; [exact Hrun|]. split; [exact Hunpin|].
  exact (proj2 (proj2 (proj2 (unpinned_still_refused full_object 12 1 ∅ t' t'' empty_tree_ok Hrun Hunpin))) 1).
Defined.
