(* ===== verification/Loaders.v ===== *)
(** * The two loaders

    A policy reaches the maps through the bootstrap loader (Bootstrap.v) or
    through the start of the daemon (Daemon.v).  Both are shown to make the same
    writes: the walk over the roles, then the rows of the enrollments. *)

From S2P Require Import Prelude CLayout BpfMap Rust Kernel KernelTypes Types Machine Scenario Hash PathWalk StateMachine Enrollment Hooks FileOpen Network Codec Patterns Parse Loader Policy Apply Exec Guards RolePolicy RoleLimits System Coherence Daemon DaemonRuns Bootstrap.

Section loaders.
Context `{World : FileWorld} `{Resolver : !DomainResolver}.

(** ** The rows of enrollments *)

Definition enrollment_writes (n : map_name) (t : bytes * Z * Z) : list write :=
  let '(path, pod_id, role_id) := t in
  match inode_of path with
  | Some inode => [Write n (to_ne_bytes 8 inode) (enrollment_image pod_id role_id)]
  | None => []
  end.

(** The enrollments of a policy, with the ids of their roles. *)
Definition exec_triples (config : PolicyConfig) : list (bytes * Z * Z) :=
  get_exec_enrollments (MkPolicyManager config ∅).
Definition cgroup_triples (config : PolicyConfig) : list (bytes * Z * Z) :=
  get_cgroup_enrollments (MkPolicyManager config ∅).

(** All a policy makes either loader write. *)
Definition policy_writes (config : PolicyConfig) (roles : list Role) : list write :=
  (roles ≫= role_writes) ++ (exec_triples config ≫= enrollment_writes N_exec_enrollment)
  ++ (cgroup_triples config ≫= enrollment_writes N_cgroup_enrollment).

(** ** The bootstrap loader *)

Definition exec_steps (config : PolicyConfig) (e : ExecEnrollment) : list walk_step :=
  match config_get_role config (ee_role e) with
  | Some role => inl <$> enrollment_writes N_exec_enrollment (ee_executable_path e, ee_pod_id e, r_id role)
  | None => []
  end.

Definition cgroup_steps (config : PolicyConfig) (e : CgroupEnrollment) : list walk_step :=
  match inode_of (ce_cgroup_path e) with
  | Some ino =>
      match check_enrollable ino, config_get_role config (ce_role e) with
      | inl reason, _ => [inr reason]
      | inr _, Some role => inl <$> enrollment_writes N_cgroup_enrollment (ce_cgroup_path e, ce_pod_id e, r_id role)
      | inr _, None => []
      end
  | None => []
  end.

Lemma populate_exec_emits config e : emits (populate_exec config e) (exec_steps config e) tt.
Proof.
  unfold populate_exec, exec_steps, enrollment_writes.
  destruct (inode_of _), (config_get_role _ _); first [apply emits_ok|apply emits_update].
Qed.

Lemma populate_cgroup_emits config e : emits (populate_cgroup config e) (cgroup_steps config e) tt.
Proof.
  unfold populate_cgroup, cgroup_steps, enrollment_writes.
  destruct (inode_of _); [|apply emits_ok]. destruct (check_enrollable _); [apply emits_err|].
  destruct (config_get_role _ _); first [apply emits_ok|apply emits_update].
Qed.

(** What is said of [populate_maps] is said of runs that succeed, and those are
    the same on an object with more maps. *)
Definition all_maps : gset bytes := list_to_set (map_text <$>
  [N_role_flags; N_network_rules; N_pending_enrollments; N_path_states; N_exec_states; N_exec_enrollment;
   N_cgroup_enrollment; N_ip_rules; N_proxy_config; N_domain_rules; N_dns_cache]).

Lemma in_all_maps maps n : map_text n ∈ maps ∪ all_maps.
Proof.
  apply elem_of_union_r, elem_of_list_to_set, list_elem_of_fmap_2. destruct n; set_solver.
Qed.

Lemma populate_succeeds maps config entries :
  map_text N_exec_enrollment ∈ maps -> map_text N_cgroup_enrollment ∈ maps ->
  succeeds_as (populate_maps maps config entries) (populate_maps (maps ∪ all_maps) config entries).
Proof.
  intros He Hc. assert (forall n p, map_text n ∈ maps -> succeeds_as (if_map maps n p) (if_map (maps ∪ all_maps) n p)) as Hif.
  { intros n p Hn. unfold if_map. by rewrite !decide_True by set_solver. }
  apply succeeds_bind; [|intros _; apply succeeds_bind; [by apply Hif|intros _; by apply Hif]].
  apply succeeds_for_each. intros [name role]. apply succeeds_bind; [|done].
  apply apply_role_succeeds, object_sink_succeeds. set_solver.
Qed.

Lemma populate_emits maps config entries :
  (forall n, map_text n ∈ maps) ->
  emits (populate_maps maps config entries)
    ((entries.*2 ≫= role_steps) ++ (pc_exec_enrollments config ≫= exec_steps config)
    ++ (pc_cgroup_enrollments config ≫= cgroup_steps config)) tt.
Proof.
  intros Hm. unfold populate_maps, if_map. rewrite !decide_True by done.
  eapply emits_bind; [|eapply emits_bind; apply emits_for_each; [apply populate_exec_emits|apply populate_cgroup_emits]].
  assert (entries.*2 ≫= role_steps = entries ≫= (fun e => role_steps e.2)) as ->
    by (induction entries as [|e l IH]; [done|]; by rewrite fmap_cons, !bind_cons, IH).
  apply emits_for_each. intros [name role].
  eapply emits_seq; [by apply apply_role_emits, object_map_sink|apply emits_ok|by rewrite app_nil_r].
Qed.

Lemma exec_steps_writes config es :
  omap step_write (es ≫= exec_steps config)
  = omap (fun e => (fun r => (ee_executable_path e, ee_pod_id e, r_id r)) <$> config_get_role config (ee_role e)) es
  ≫= enrollment_writes N_exec_enrollment.
Proof.
  induction es as [|e es IH]; [done|]. rewrite bind_cons, omap_app, IH. cbn [omap list_omap]. unfold exec_steps.
  destruct (config_get_role _ _); cbn [fmap option_fmap option_map]; [|done]. by rewrite omap_inl, bind_cons.
Qed.

Lemma cgroup_steps_writes config es :
  all_writes (es ≫= cgroup_steps config) ->
  omap step_write (es ≫= cgroup_steps config)
  = omap (fun e => (fun r => (ce_cgroup_path e, ce_pod_id e, r_id r)) <$> config_get_role config (ce_role e)) es
  ≫= enrollment_writes N_cgroup_enrollment.
Proof.
  induction es as [|e es IH]; [done|]. rewrite bind_cons. intros [He Hes]%Forall_app.
  rewrite omap_app, IH by done. cbn [omap list_omap].
  assert (omap step_write (cgroup_steps config e)
      = default [] (enrollment_writes N_cgroup_enrollment <$>
      ((fun r => (ce_cgroup_path e, ce_pod_id e, r_id r)) <$> config_get_role config (ce_role e)))) as ->.
  { unfold cgroup_steps in *. destruct (config_get_role _ _) as [role|];
      cbn [fmap option_fmap option_map default enrollment_writes]; unfold enrollment_writes in *;
      (destruct (inode_of _) as [ino|]; [|done]);
      (destruct (check_enrollable ino); [by apply Forall_cons in He as [[? ?] _]|done]). }
  destruct (config_get_role _ _); cbn [fmap option_fmap option_map default]; [by rewrite bind_cons|done].
Qed.

Lemma steps_capacity steps s r s' :
  for_each run_step steps s = (inr r, s') -> within_capacity s -> within_capacity s'.
Proof.
  intros Hs Hc. pose proof Hs as [Ha _]%steps_ok.
  pose proof (writes_capacity (omap step_write steps) s Hc) as Hcap. by rewrite <-steps_writes, Hs in Hcap.
Qed.

(** A run that fills the maps made exactly the policy's writes, and they fit. *)
Lemma populate_writes maps config entries s u s' :
  map_text N_exec_enrollment ∈ maps -> map_text N_cgroup_enrollment ∈ maps ->
  populate_maps maps config entries s = (inr u, s') -> within_capacity s ->
  s' = puts (policy_writes config entries.*2) s /\ all_writes (entries.*2 ≫= role_steps)
  /\ within_capacity s'.
Proof.
  intros Hie Hic Hpop%populate_succeeds; [|done..]. revert Hpop.
  rewrite populate_emits, io_bind_inr by apply in_all_maps. intros (u' & s1 & Hs & [= _ <-]) Hc.
  pose proof Hs as [Ha Hs1]%steps_ok.
  pose proof (steps_capacity _ _ _ _ Hs Hc) as Hcap.
  unfold all_writes in Ha. rewrite !Forall_app in Ha. destruct Ha as (Hr & _ & Hcg).
  split_and!; [|done..]. rewrite Hs1, !omap_app, omap_bind_steps, exec_steps_writes, cgroup_steps_writes by done.
  done.
Qed.

(** ** The daemon *)

Lemma section_in_role role n w : w ∈ section_writes role n -> w ∈ role_writes role.
Proof.
  intros Hin. rewrite role_writes_eq. destruct n; cbn [section_writes] in Hin; try by apply elem_of_nil in Hin.
  1: apply list_elem_of_singleton in Hin.
  all: rewrite elem_of_cons, !elem_of_app; tauto.
Qed.

(** A role whose tables are in place is loaded again without effect. *)
Lemma load_role_keeps role d entries :
  get_role (d_policy d) (r_id role) = Some role -> tables_of role (d_bpf d) ->
  path_state_entries_for_role (r_id role) (file_rules role) = inr entries ->
  load_role (r_id role) d = (inr tt, d).
Proof.
  intros Hg Ht Hc. unfold load_role. rewrite Hg.
  destruct (load_rules_keep role (d_bpf d)) as (H1 & H2 & H3).
  { intros n w Hn Hw. apply (tables_in_of policy_maps); [done|done|unfold policy_maps; set_solver|].
    by eapply role_write_key, section_in_role. }
  unfold on_bpf, io_bind. rewrite H1, H2, H3, Hc. by destruct d.
Qed.

(** One loop of [load_from_policy], for rows that go to [n]. *)
Definition enroll_row (n : map_name) (t : bytes * Z * Z) : io load_error daemon unit :=
  let '(path, pod_id, role_id) := t in
  ignore_error (inode <-? existing_inode path ;; load_role role_id ;;?
    on_bpf (do_write (Write n (to_ne_bytes 8 inode) (enrollment_image pod_id role_id)))).

Lemma enroll_rows n ts ws d s0 :
  n ∉ policy_maps -> same_policy s0 (d_bpf d) ->
  (forall path pod_id role_id, (path, pod_id, role_id) ∈ ts -> forall s, same_policy s0 s ->
    load_role role_id (set_bpf s d) = (inr tt, set_bpf s d)) ->
  within_capacity (puts ((ts ≫= enrollment_writes n) ++ ws) (d_bpf d)) ->
  for_each (enroll_row n) ts d = (inr tt, set_bpf (puts (ts ≫= enrollment_writes n) (d_bpf d)) d).
Proof.
  intros Hn. revert d. induction ts as [|[[path pod] role] ts IH]; intros d Hp Hl Hc; [by destruct d|].
  assert (enroll_row n (path, pod, role) d
      = (inr tt, set_bpf (puts (enrollment_writes n (path, pod, role)) (d_bpf d)) d)) as Hrow.
  { unfold enroll_row, ignore_error, io_bind, existing_inode. rewrite bind_cons in Hc. cbn [enrollment_writes] in *.
    destruct (inode_of path) as [ino|]; [|by destruct d]. unfold ok.
    pose proof (Hl path pod role ltac:(set_solver) (d_bpf d) Hp) as Hlr.
    assert (set_bpf (d_bpf d) d = d) as Hd by by destruct d. rewrite Hd in Hlr. rewrite Hlr.
    unfold on_bpf. rewrite <-!app_assoc in Hc. cbn [app] in Hc. by rewrite (do_write_fits _ _ _ Hc). }
  cbn [for_each]. unfold io_bind. rewrite Hrow, bind_cons.
  rewrite IH; cbn [d_bpf set_bpf].
  - by rewrite puts_app.
  - intros n' Hn'. rewrite puts_untouched; [by apply Hp|]. unfold enrollment_writes. intros w Hw.
    destruct (inode_of path); [|by apply elem_of_nil in Hw]. apply list_elem_of_singleton in Hw as ->. cbn. congruence.
  - intros p' pod' r' Hin s Hs. by apply (Hl p' pod' r'); [set_solver|].
  - by rewrite puts_app, app_assoc, <-bind_cons.
Qed.

Lemma for_each_snd {E S X Y} (f : Y -> io E S unit) (xs : list (X * Y)) s :
  for_each (fun '(_, y) => f y) xs s = for_each f xs.*2 s.
Proof.
  revert s. induction xs as [|[x y] xs IH]; intros s; [done|]. cbn. apply io_bind_ext; [done|]. intros _. apply IH.
Qed.

(** A loop whose steps all succeed is the loop that ignores their errors. *)
Lemma for_each_ignored {E S X A} (f : X -> io E S A) xs s u s' :
  for_each (fun x => f x ;;? ok tt) xs s = (inr u, s') -> for_each (fun x => ignore_error (f x)) xs s = (inr tt, s').
Proof.
  revert s. induction xs as [|x xs IH]; intros s; [by intros [= _ <-]|]. cbn [for_each].
  rewrite io_bind_inr. intros (u1 & s1 & Hx & Hxs). apply io_bind_inr in Hx as (v & s2 & Hx & [= _ <-]).
  unfold io_bind, ignore_error at 1. rewrite Hx. by apply IH.
Qed.

Lemma puts_maps ws s s' n :
  (forall n, map_by_name n s = map_by_name n s') -> map_by_name n (puts ws s) = map_by_name n (puts ws s').
Proof. intros Hm. apply map_eq. intros k. by rewrite !puts_lookup, Hm. Qed.

Lemma capacity_maps s s' :
  (forall n, map_by_name n s = map_by_name n s') -> within_capacity s' -> within_capacity s.
Proof. intros Hm Hc n. rewrite Hm. apply Hc. Qed.

(** The roles of an accepted policy, as the daemon's manager and the walk see
    them. *)
Lemma accepted_roles config entries config' :
  load_policy config entries = inr config' ->
  config' = config /\ Forall (fun e => unenforced_settings e.2 = []) entries.
Proof.
  unfold load_policy. destruct (list_find _ entries) as [[i [name role]]|] eqn:Hf; [done|].
  intros [= <-]. split; [done|]. apply list_find_None in Hf. eapply Forall_impl; [done|]. cbn. intros e He.
  by destruct (unenforced_settings e.2); [|destruct He].
Qed.

Lemma accepted_manager config entries :
  Forall (fun e => unenforced_settings e.2 = []) entries ->
  start_policy (Some (config, entries)) = MkPolicyManager config (index_by_id entries).
Proof.
  intros Ha. unfold start_policy, load_from_file.
  rewrite (proj2 (list_find_None _ entries)); [done|]. eapply Forall_impl; [done|]. naive_solver.
Qed.

Lemma no_conflicts role : unenforced_settings role = [] ->
  exists entries, path_state_entries_for_role (r_id role) (file_rules role) = inr entries.
Proof.
  intros [Hf _]%enforced_conflict_free. destruct (compile_rows (r_id role) _ Hf) as (entries & He & _). by exists entries.
Qed.

Lemma NoDup_fmap_elem {A B} (f : A -> B) l x y :
  NoDup (f <$> l) -> x ∈ l -> y ∈ l -> f x = f y -> x = y.
Proof.
  induction l as [|z l IH]; [by intros _ ?%elem_of_nil|]. cbn. intros [Hz Hnd]%NoDup_cons.
  intros [->|Hx]%elem_of_cons [->|Hy]%elem_of_cons Hf; [done| | |by apply IH]; destruct Hz; apply list_elem_of_fmap; eauto.
Qed.

(** The manager finds, under the id of a named role, that role. *)
Lemma index_of_named config entries name role :
  entries ≡ₚ map_to_list (pc_roles config) -> NoDup (r_id <$> entries.*2) ->
  config_get_role config name = Some role ->
  role ∈ entries.*2 /\ get_role (MkPolicyManager config (index_by_id entries)) (r_id role) = Some role.
Proof.
  intros Hp Hnd Hg. assert ((name, role) ∈ entries) as Hin by (by rewrite Hp, elem_of_map_to_list).
  assert (role ∈ entries.*2) as Hr by (apply list_elem_of_fmap; by exists (name, role)). split; [done|].
  unfold get_role. cbn. destruct (index_lookup entries (r_id role)) as [(e & He & Hid & ->)|[Hn _]].
  - f_equal. apply (NoDup_fmap_elem r_id entries.*2); [done| |done|done]. apply list_elem_of_fmap. by exists e.
  - by destruct (Hn _ Hin).
Qed.

(** The roles of a policy, applied by the daemon to empty maps. *)
Lemma roles_started roles s :
  NoDup (r_id <$> roles) -> Forall (fun r => in_width 32 (r_id r)) roles ->
  (forall n, map_by_name n s = ∅) -> all_writes (roles ≫= role_steps) ->
  within_capacity (puts (roles ≫= role_writes) s) ->
  for_each (fun role => ignore_error (apply_role (Sink := TrackerSink) role)) roles s
  = (inr tt, puts (roles ≫= role_writes) s)
  /\ forall role, role ∈ roles -> tables_of role (puts (roles ≫= role_writes) s).
Proof.
  intros Hnd Hw He Ha Hc.
  assert (apply_roles TrackerSink roles s = (inr tt, puts (roles ≫= role_writes) s)) as Happ.
  { rewrite (apply_roles_emits TrackerSink tracker_map_sink). unfold io_bind.
    rewrite steps_writes, omap_bind_steps, writes_fit by done. done. }
  split; [by eapply for_each_ignored|].
  eapply (applied_roles_tables TrackerSink tracker_map_sink); [done|done| |exact Happ].
  intros r _ n k _ _. by rewrite He, lookup_empty.
Qed.

(** The enrollments of a policy, registered over the roles' tables. *)
Lemma enrollments_started config entries s a :
  entries ≡ₚ map_to_list (pc_roles config) -> NoDup (r_id <$> entries.*2) ->
  Forall (fun e => unenforced_settings e.2 = []) entries ->
  (forall role, role ∈ entries.*2 -> tables_of role s) ->
  let ws := (exec_triples config ≫= enrollment_writes N_exec_enrollment)
  ++ (cgroup_triples config ≫= enrollment_writes N_cgroup_enrollment) in
  within_capacity (puts ws s) ->
  d_bpf (load_from_policy (Daemon s (MkPolicyManager config (index_by_id entries)) a)).2 = puts ws s.
Proof.
  intros Hp Hnd Hu Ht ws Hc. set (d := Daemon s _ a).
  assert (forall name role, config_get_role config name = Some role -> forall s1, same_policy s s1 ->
      load_role (r_id role) (set_bpf s1 d) = (inr tt, set_bpf s1 d)) as Hl.
  { intros name role Hg s1 Hs1. destruct (index_of_named config entries name role Hp Hnd Hg) as [Hin Hr].
    pose proof Hin as Hin'. apply list_elem_of_fmap in Hin' as (e & -> & He). rewrite Forall_forall in Hu.
    destruct (no_conflicts e.2 (Hu e He)) as [es Hes].
    apply (load_role_keeps e.2 (set_bpf s1 d) es); [exact Hr| |done].
    apply (tables_same _ s); [done|]. by apply Ht. }
  assert (load_from_policy d = (for_each (enroll_row N_exec_enrollment) (exec_triples config) ;;?
      for_each (enroll_row N_cgroup_enrollment) (cgroup_triples config)) d) as ->.
  { unfold load_from_policy. apply io_bind_ext; [|intros _ d']; apply for_each_ext; by intros [[? ?] ?] ?. }
  unfold io_bind.
  rewrite (enroll_rows _ _ (cgroup_triples config ≫= enrollment_writes N_cgroup_enrollment) d s);
    [|unfold policy_maps; set_solver|done| |done].
  2:{ intros path pod role (e & _ & (r & Hr & [= -> -> ->])%fmap_Some)%list_elem_of_omap. by eapply Hl. }
  rewrite (enroll_rows _ _ [] _ s); cbn [d_bpf set_bpf snd].
  - by rewrite puts_app.
  - unfold policy_maps. set_solver.
  - intros n Hn. apply puts_untouched. intros w (t & Hw & _)%list_elem_of_bind. destruct t as [[path pod] role].
    cbn in Hw. destruct (inode_of path); [|by apply elem_of_nil in Hw]. apply list_elem_of_singleton in Hw as ->.
    unfold policy_maps in Hn. cbn. set_solver.
  - intros path pod role (e & _ & (r & Hr & [= -> -> ->])%fmap_Some)%list_elem_of_omap. by apply (Hl (ce_role e)).
  - rewrite app_nil_r, puts_app. done.
Qed.
End loaders.

(** ** The same maps *)

(** The maps userspace fills, those of [map_name], hold the same bytes.  The
    generation of the decision cache, which the daemon's start advances, and the
    maps only the programs write are not among them. *)
Definition same_maps (s s' : bpf_state) : Prop := forall n, map_by_name n s = map_by_name n s'.

(** The daemon makes the maps that [populate_maps] made, and neither touches
    anything but the generation. *)
Lemma populated_same_maps `{World : FileWorld} `{Resolver : !DomainResolver} (maps : gset bytes) (config : PolicyConfig)
    (entries entries' order : list (bytes * Role)) (s : bpf_state) (a : attrs) :
  Forall (fun e => unenforced_settings e.2 = []) entries ->
  map_text N_exec_enrollment ∈ maps -> map_text N_cgroup_enrollment ∈ maps ->
  populate_maps maps config entries init_state = (inr tt, s) ->
  entries ≡ₚ map_to_list (pc_roles config) -> entries' ≡ₚ map_to_list (pc_roles config) ->
  order ≡ₚ map_to_list (pc_roles config) ->
  NoDup (r_id <$> entries.*2) -> Forall (fun r => in_width 32 (r_id r)) entries.*2 ->
  let d := start (Some (config, entries')) order init_state a in
  same_maps (d_bpf d) s /\ user_frame (fresh_maps order) (d_bpf d) /\ user_frame init_state s.
Proof.
  intros Hu Hie Hic Hpop Hentries Hentries' Horder Hids Hwidth.
  assert (forall n, map_by_name n init_state = ∅) as Hempty by by intros [].
  apply populate_writes in Hpop as (Hs & Ha & Hc); [|done..|intros n'; rewrite Hempty; by destruct n'].
  assert (order ≡ₚ entries) as Ho by (by rewrite Horder, Hentries).
  assert (entries' ≡ₚ entries) as He' by (by rewrite Hentries', Hentries).
  set (s1 := fresh_maps order).
  assert (forall n, map_by_name n s1 = map_by_name n init_state) as Hs1.
  { intros n'. unfold s1, fresh_maps. case_bool_decide; [done|]. by destruct n'. }
  assert (forall ws n, map_by_name n (puts ws s1) = map_by_name n (puts ws init_state)) as Hputs
    by (intros; by apply puts_maps).
  set (ws := (exec_triples config ≫= enrollment_writes N_exec_enrollment)
    ++ (cgroup_triples config ≫= enrollment_writes N_cgroup_enrollment)).
  set (rws := order.*2 ≫= role_writes).
  assert (forall n, map_by_name n (puts ws (puts rws s1)) = map_by_name n s) as Hall.
  { intros n'. rewrite puts_app, Hputs, <-puts_app. unfold rws.
    rewrite (puts_perm TrackerSink tracker_map_sink order.*2 entries.*2), puts_app, Hs; rewrite ?Ho; done. }
  assert (d_bpf (start (Some (config, entries')) order init_state a) = puts ws (puts rws s1)) as Hstart.
  { unfold start. rewrite accepted_manager by by rewrite He'. fold (fresh_maps order). fold s1. rewrite for_each_snd.
    destruct (roles_started order.*2 s1) as [-> Ht]; cbn [snd].
    - by rewrite Ho.
    - by rewrite Ho.
    - intros n'. by rewrite Hs1.
    - unfold all_writes. by rewrite Ho.
    - intros n'. pose proof (puts_size n' ws (puts rws s1)) as Hsz. rewrite Hall in Hsz. specialize (Hc n').
      unfold rws in Hsz. lia.
    - fold rws. apply enrollments_started; [done| |by rewrite He'| |].
      + by rewrite He'.
      + intros role Hr. apply Ht. by rewrite Ho, <-He'.
      + by apply (capacity_maps _ s). }
  cbv zeta. rewrite Hstart. split_and!; [exact Hall| |rewrite Hs; apply puts_frame].
  etransitivity; apply puts_frame.
Qed.

(** States filled like that differ in the generation at most. *)
Lemma same_but_generation order s s' :
  same_maps s s' -> user_frame (fresh_maps order) s -> user_frame init_state s' ->
  set_cache_generation (fun _ => m_cache_generation s') s = s'
  /\ generation s' = 0 /\ generation s = generation (fresh_maps order).
Proof.
  intros Hm (H1 & H2 & H3 & H4 & H5) (G1 & G2 & G3 & G4 & G5).
  assert (m_task_storage (fresh_maps order) = m_task_storage init_state
    /\ m_path_decision_cache (fresh_maps order) = m_path_decision_cache init_state
    /\ m_path_buf (fresh_maps order) = m_path_buf init_state
    /\ m_audit_events (fresh_maps order) = m_audit_events init_state) as (F1 & F2 & F4 & F5)
    by (unfold fresh_maps; by case_bool_decide).
  split_and!; [|unfold generation; by rewrite G3|unfold generation; by rewrite H3].
  apply state_ext; [|intros n; rewrite <-Hm; by destruct n].
  rewrite <-F1 in G1. rewrite <-F2 in G2. rewrite <-F4 in G4. rewrite <-F5 in G5.
  split_and!; cbn [set_cache_generation m_task_storage m_path_decision_cache m_cache_generation m_path_buf m_audit_events];
    first [reflexivity|etransitivity; [eassumption|symmetry; eassumption]].
Qed.

(** The two loaders on one policy, as steps. *)
Lemma loaders_agree `{World : FileWorld} `{Resolver : !DomainResolver} (object : bytes) (maps : gset bytes)
    (config : PolicyConfig)
    (entries entries' order : list (bytes * Role)) (links k : nat) (s : bpf_state) (p : PinState) (a : attrs)
    (Hie : map_text N_exec_enrollment ∈ maps) (Hic : map_text N_cgroup_enrollment ∈ maps)
    (Hrun : bootstrap_run object maps config entries links k init_state no_pins = (Pinned, s, p))
    (Hentries : entries ≡ₚ map_to_list (pc_roles config))
    (Hentries' : entries' ≡ₚ map_to_list (pc_roles config))
    (Horder : order ≡ₚ map_to_list (pc_roles config))
    (Hids : NoDup (r_id <$> entries.*2)) (Hwidth : Forall (fun r => in_width 32 (r_id r)) entries.*2) :
  same_maps (d_bpf (start (Some (config, entries')) order init_state a)) s.
Proof.
  unfold bootstrap_run in Hrun. rewrite (proj2 (compare_absent no_pins _) eq_refl) in Hrun.
  destruct (load_policy config entries) as [[? ?]|c] eqn:Hpol; [done|].
  apply accepted_roles in Hpol as [-> Hu].
  destruct (populate_maps maps config entries init_state) as [[e|[]] s1] eqn:Hpop; [done|].
  assert (s1 = s) as -> by (by destruct (_ <? _)%nat; [done|injection Hrun]).
  by apply (populated_same_maps maps config entries).
Qed.

(** A policy with the agent's role, an enrolled binary and a cgroup that does not
    exist. *)
Definition agent_config : PolicyConfig :=
  MkPolicyConfig {[text "agent" := agent_role; text "restricted" := web_role]} []
    [MkExecEnrollment AGENT 5 (text "agent")] [MkCgroupEnrollment (text "/sys/fs/cgroup/none") 6 (text "restricted")].
