(* ===== verification/RoleLife.v ===== *)
(** * A role over the life of the daemon

    RolePolicy.v says what the hooks decide once a role's tables are in place;
    here the tables are followed through everything that can happen afterwards.
    [in_force] is the invariant of one role, [life_step] the steps of the running
    system: hooks, requests to the daemon, and changes of the filesystem that a
    hook has announced.  Only a new definition of the same id can end it. *)

From S2P Require Import Prelude CLayout BpfMap Rust Kernel KernelTypes Types Machine Scenario Hash PathWalk StateMachine Enrollment Hooks FileOpen Network Codec Patterns Parse Loader Policy Apply Exec Guards RolePolicy RoleLimits System Coherence Daemon DaemonRuns Footprint Bootstrap Loaders.

(** ** Steps *)

(** Userspace does not appear among the kernel's events: it acts through the
    daemon. *)
Definition by_kernel (ev : event) : Prop :=
  match ev with
  | EvPolicyUpdate _ | EvEnrollRequest _ _ => False
  | _ => True
  end.

(** Role ids are [u32]. *)
Definition request_ok (req : EnrollmentRequest) : Prop :=
  forall role_id, request_role req = Some role_id -> in_width 32 role_id.

(** The request does not give the id another definition. *)
Definition spares (role_id : Z) (req : EnrollmentRequest) : Prop :=
  request_ok req /\ forall role, req = DefineRole role -> r_id role <> role_id.

(** What all the rules of a role say, of the tasks jailed under it: every hook that
    can refuse decides by them, the file and exec hooks for paths whose names and
    states do not collide with those of the rules. *)
Record enforces `{Resolver : !DomainResolver} `{KL : KernelLayout} (role : Role) (m : mem) (s : bpf_state) : Prop := {
  en_bind : forall e sock address, jailed_as e (r_id role) s ->
    (socket_bind e sock address s).1 = 0 <-> port_permitted role (endpoint (e_mem e) sock address) = true;
  en_connect : forall e sock address dest port, jailed_as e (r_id role) s -> dest_is (e_mem e) address dest port ->
    (socket_connect e sock address s).1 = 0
    <-> connect_permitted role dest port (endpoint (e_mem e) sock address) = true;
  en_open : forall e file path, e_mem e = m -> jailed_as e (r_id role) (after_pending e s) ->
    collision_free (r_id role) (file_rules role) path ->
    file_at m (task_fs_root m (e_current_task e)) (f_path_dentry m file) (f_path_mnt m file) path ->
    (file_open e file s).1 = if open_permitted role path then 0 else - EACCES;
  en_exec : forall e bprm path info, exec_info e s = Some info -> pi_pod_id info <> 0 ->
    pi_role_id info = r_id role -> collision_free (r_id role) (exec_rules role) path ->
    bprm_file (e_mem e) bprm <> 0 ->
    file_at (e_mem e) (task_fs_root (e_mem e) (e_current_task e))
      (f_path_dentry (e_mem e) (bprm_file (e_mem e) bprm)) (f_path_mnt (e_mem e) (bprm_file (e_mem e) bprm)) path ->
    (bprm_check_security e bprm s).1 = if exec_permitted role path then 0 else - EACCES;
  en_ptrace : forall e child info, m_task_storage s !! child = Some info -> pi_pod_id info <> 0 ->
    pi_role_id info = r_id role ->
    (ptrace_access_check e child s).1 = 0 <-> allow_ptrace (r_flags role) = true;
  en_module : forall e kmod_name, jailed_as e (r_id role) s ->
    (kernel_module_request e kmod_name s).1 = 0 <-> allow_module_load (r_flags role) = true;
  en_bpf : forall e cmd attr size, jailed_as e (r_id role) s ->
    (bpf e cmd attr size s).1 = 0 <-> allow_bpf_load (r_flags role) = true;
}.

Section life.
Context `{World : FileWorld} `{Resolver : !DomainResolver} `{KL : KernelLayout}.

Inductive life_step (allowed : EnrollmentRequest -> Prop) : mem * daemon -> mem * daemon -> Prop :=
| life_hook m d s' ev :
    by_kernel ev -> step ev (d_bpf d) s' -> event_sees m (d_bpf d) ev ->
    life_step allowed (m, d) (m, set_bpf s' d)
| life_request m d pid req :
    allowed req -> life_step allowed (m, d) (m, (handle_client pid req d).2)
| life_change m m' d :
    (* the tree changes, with the bump of the hook that announced it *)
    generation (d_bpf d) + 1 < 2 ^ 32 ->
    life_step allowed (m, d) (m', set_bpf (bump_generation (d_bpf d)).2 d).

(** The role is known, its tables are in place, and nothing cached under it is
    out of date. *)
Record in_force (role : Role) (m : mem) (d : daemon) : Prop := {
  if_ok : role_ok role;
  if_free : conflict_free (file_rules role) /\ conflict_free (exec_rules role);
  if_known : get_role (d_policy d) (r_id role) = Some role;
  if_tables : tables_of role (d_bpf d);
  if_cache : cache_inv_for (eq (r_id role)) m (d_bpf d);
}.

(** The guards read a bit of the role's flags. *)
Lemma grants_flag role s info bit (b : bool) :
  tables_in network_maps role s -> pi_role_id info = r_id role ->
  (Z.land (policy_flags_to_u8 (r_flags role)) bit <> 0 <-> b = true) -> role_grants s info bit <-> b = true.
Proof.
  intros Ht Hr Hb. unfold role_grants. rewrite Hr, (role_flags_lookup role) by done. rewrite <-Hb. naive_solver.
Qed.

(** Such a role is enforced. *)
Lemma in_force_enforces role m d : in_force role m d -> enforces role m (d_bpf d).
Proof.
  intros [Hok [Hff Hfe] _ Ht (Hs & Hco & _)]. pose proof (network_tables role _ Ht) as Hn. split.
  - intros. by apply bind_permitted.
  - intros. by apply connect_decided.
  - intros e file path <- Hj Hcf Hat. by apply (open_decided (eq (r_id role))).
  - intros. by apply (exec_decided _ _ _ _ _ info).
  - intros e child info Hi Hp Hr. rewrite (ptrace_allows e child _ info Hi Hp).
    apply (grants_flag role); [done|done|]. apply (flag_bits (r_flags role)).
  - intros e kmod_name (info & Hi & Hp & Hr). unfold kernel_module_request. rewrite (guard_current_allows e _ _ info Hi Hp).
    apply (grants_flag role); [done|done|]. apply (flag_bits (r_flags role)).
  - intros e cmd attr size (info & Hi & Hp & Hr). unfold bpf. rewrite (guard_current_allows e _ _ info Hi Hp).
    apply (grants_flag role); [done|done|]. apply (flag_bits (r_flags role)).
Qed.

(** ** Hooks leave the policy alone *)

Lemma audit_only_same_policy {A} (res : A * bpf_state) s :
  res.2 = s \/ (exists ev, res.2 = set_audit_events (cons ev) s) -> same_policy s res.2.
Proof. intros [->|[ev ->]]; intros n _; by destruct n. Qed.

Lemma bprm_same_policy e bprm s : same_policy s (bprm_check_security e bprm s).2.
Proof.
  pose proof (enrollment_same_policy _ _ (after_pending_frame e s)) as Hf.
  destruct (exec_info e s) as [info|] eqn:Hi; [|by rewrite bprm_no_storage].
  destruct (Z.eq_dec (pi_pod_id info) 0) as [Hp|Hp].
  - rewrite (bprm_unjailed _ _ _ _ Hi Hp). cbn [snd].
    etransitivity; [apply enrollment_same_policy, (exec_state_frame e s)|].
    destruct (auto_enrollment _ _ _); intros n _; by destruct n.
  - rewrite (bprm_jailed _ _ _ _ Hi Hp).
    assert (forall s1 ctx, same_policy s s1 -> same_policy s (audit_deny e info AUDIT_HOOK_BPRM_CHECK ctx s1).2) as Hd.
    { intros s1 ctx H1. etransitivity; [exact H1|]. intros n _. by destruct n. }
    destruct (map_lookup role_flags _ _) as [flags|]; [|by apply Hd].
    destruct (bprm_file (e_mem e) bprm =? 0); [case_match; [by apply Hd|done]|].
    destruct (exec_path_decision_frame e info (bprm_file (e_mem e) bprm) (after_pending e s)) as [H2%decision_same_policy _].
    destruct (exec_path_decision _ _ _ _) as [[r|] s']; cbn [snd] in *; [by etransitivity|].
    case_match; [apply Hd|]; by etransitivity.
Qed.

Lemma bump_same_policy s : same_policy s (bump_generation s).2.
Proof. rewrite bump_generation_eq. intros n _. by destruct n. Qed.

Lemma hook_same_policy ev s s' : step ev s s' -> by_kernel ev -> same_policy s s'.
Proof.
  intros [ev' s0 Hen] Hk.
  destruct ev' as [e task|e file|e sock a|e sock a|e sock msg sz|e bprm|e d| | |e child|e k|e c a z
      |pid i|s''|task]; cbn [run_event enabled by_kernel] in *; try done.
  - apply enrollment_same_policy, task_alloc_frame.
  - apply file_open_same_policy.
  - apply audit_only_same_policy, socket_bind_frame.
  - apply audit_only_same_policy, socket_connect_frame.
  - apply bprm_same_policy.
  - unfold path_rename, bind, ret. case_match; [done|].
    pose proof (bump_same_policy s0). by destruct (bump_generation s0).
  - apply audit_only_same_policy, ptrace_frame.
  - apply audit_only_same_policy, guard_current_frame.
  - apply audit_only_same_policy, guard_current_frame.
Qed.

(** ** Requests leave the role's rows alone *)

(** The rows of a role are as they were. *)
Definition same_rows (role_id : Z) (s s' : bpf_state) : Prop :=
  forall n k, n ∈ policy_maps -> role_key role_id k -> map_by_name n s' !! k = map_by_name n s !! k.

Lemma tables_rows role s s' : same_rows (r_id role) s s' -> tables_of role s -> tables_of role s'.
Proof. intros Hs Ht n k Hn Hk. rewrite Hs by done. by apply Ht. Qed.

Lemma role_key_inj a b k :
  in_width 32 a -> in_width 32 b -> role_key a k -> role_key b k -> a = b.
Proof.
  unfold role_key. intros Ha Hb -> Heq%(f_equal le_value). by rewrite !le_value_le_bytes in Heq.
Qed.

Lemma within_other role role_id s s' :
  in_width 32 role_id -> (forall id, role = Some id -> in_width 32 id /\ id <> role_id) ->
  within (request_rows role) s s' -> same_rows role_id s s'.
Proof.
  intros Hw Ho [_ Hr] n k Hn Hk. apply Hr. intros [?|(id & Hid & Hk')]; [done|].
  apply Ho in Hid as [? Hne]. apply Hne. by eapply role_key_inj.
Qed.

Lemma within_nowhere s s' : within (request_rows None) s s' -> same_policy s s'.
Proof.
  intros [_ Hr] n Hn. apply map_eq. intros k. apply Hr. by intros [?|(? & ? & _)].
Qed.

Lemma same_policy_rows role_id s s' : same_policy s s' -> same_rows role_id s s'.
Proof. intros Hs n k Hn _. by rewrite Hs. Qed.

(** A role whose tables are in place is applied again without effect. *)
Lemma reload_in_place role s :
  tables_of role s ->
  set_role_policy (r_id role) (r_flags role) s = (inr tt, s)
  /\ apply_network_rules (r_id role) (r_network_rules role) s = (inr tt, s)
  /\ (apply_path_rules (r_id role) (r_file_paths role) s).2 = s.
Proof.
  intros Ht. destruct (load_rules_keep role s) as (H1 & H2 & H3); [|by rewrite H3].
  intros n w Hn Hw. apply (tables_in_of policy_maps); [done|done|unfold policy_maps; set_solver|].
  by eapply role_write_key, section_in_role.
Qed.

Lemma load_role_in_place role d :
  get_role (d_policy d) (r_id role) = Some role -> tables_of role (d_bpf d) ->
  d_bpf (load_role (r_id role) d).2 = d_bpf d.
Proof.
  intros Hg (H1 & H2 & H3)%reload_in_place. unfold load_role. rewrite Hg. unfold on_bpf, io_bind.
  rewrite H1, H2. by destruct (apply_path_rules _ _ _).
Qed.

Lemma enroll_in_place pid pod_id role d :
  get_role (d_policy d) (r_id role) = Some role -> tables_of role (d_bpf d) ->
  within (request_rows None) (d_bpf d) (d_bpf (handle_enroll pid pod_id (r_id role) d).2).
Proof.
  intros Hg (H1 & H2 & H3)%reload_in_place. unfold handle_enroll. rewrite Hg. unfold on_bpf, io_bind, ignore_error.
  rewrite H1, H2. cbn [snd]. rewrite H3. unfold enroll_process, enroll_pending_process.
  match goal with |- context [update ?n ?k ?v ?s] =>
    pose proof (touches_update (request_rows None) n k v (elsewhere None n k ltac:(set_solver)) s) as Ht;
    by destruct (update n k v s) end.
Qed.

Lemma enrollment_in_place n path pod_id role (value : Z -> Z -> bytes) d :
  n = N_exec_enrollment \/ n = N_cgroup_enrollment ->
  get_role (d_policy d) (r_id role) = Some role -> tables_of role (d_bpf d) ->
  within (request_rows None) (d_bpf d)
    (d_bpf ((inode <-? existing_inode path ;; load_role (r_id role) ;;?
      on_bpf (update n (to_ne_bytes 8 inode) (value pod_id (r_id role)))) d).2).
Proof.
  intros Hn Hg Ht. unfold io_bind, existing_inode. destruct (inode_of path) as [ino|]; [|done]. unfold ok.
  pose proof (load_role_in_place role d Hg Ht) as Hl. destruct (load_role (r_id role) d) as [[e|[]] d1];
    cbn [snd] in *; [by rewrite Hl|]. rewrite <-Hl. apply touches_on_bpf, touches_update, elsewhere.
  destruct Hn as [-> | ->]; set_solver.
Qed.

Lemma request_in_place pid req role d :
  request_role req = Some (r_id role) -> (forall r, req = DefineRole r -> r_id r <> r_id role) ->
  get_role (d_policy d) (r_id role) = Some role -> tables_of role (d_bpf d) ->
  within (request_rows None) (d_bpf d) (d_bpf (handle_client pid req d).2).
Proof.
  intros Hr Hd Hg Ht. destruct req as [pod id|p|path pod id|path|r|path pod id|path|path pod id|path|path];
    try discriminate Hr; cbn [request_role] in Hr; injection Hr as Hid; cbn [handle_client]; rewrite ?respond_daemon.
  - subst id. by apply enroll_in_place.
  - subst id. by apply (enrollment_in_place N_exec_enrollment path pod role
      (fun pod_id role_id => copy_at 8 (to_ne_bytes 4 role_id) (copy_at 0 (to_ne_bytes 8 pod_id) (replicate 16 0))) d
      (or_introl eq_refl)).
  - by destruct (Hd r eq_refl).
  - subst id. by apply (enrollment_in_place N_cgroup_enrollment path pod role
      (fun pod_id role_id => copy_at 8 (to_ne_bytes 4 role_id) (copy_at 0 (to_ne_bytes 8 pod_id) (replicate 16 0))) d
      (or_intror eq_refl)).
Qed.

Lemma request_spares pid req role d :
  spares (r_id role) req -> in_width 32 (r_id role) ->
  get_role (d_policy d) (r_id role) = Some role -> tables_of role (d_bpf d) ->
  same_rows (r_id role) (d_bpf d) (d_bpf (handle_client pid req d).2).
Proof.
  intros [Hok Hd] Hw Hg Ht. destruct (decide (request_role req = Some (r_id role))) as [Hr|Hr].
  - by apply same_policy_rows, within_nowhere, (request_in_place pid req role).
  - apply (within_other (request_role req)); [done| |apply request_touches].
    intros id Hid. split; [by apply Hok|]. intros ->. done.
Qed.

(** ** The cache *)

Lemma verdict_rows role_id m s s' dentry mnt root :
  same_rows role_id s s' ->
  path_verdict m (m_path_states s') role_id dentry mnt root = path_verdict m (m_path_states s) role_id dentry mnt root.
Proof.
  intros Hs. unfold path_verdict, check_path_state_machine. rewrite !sm_check_run by by apply collect_ok.
  case_match; [done|]. apply run_ext. intros st h. rewrite !map_lookup_hash by done. f_equal.
  apply (Hs N_path_states); [unfold policy_maps; set_solver|done].
Qed.

Lemma cache_inv_rows role_id m s s' :
  user_frame s s' -> state_ok s' -> same_rows role_id s s' ->
  cache_inv_for (eq role_id) m s -> cache_inv_for (eq role_id) m s'.
Proof.
  intros (_ & Hc & Hg & _) Hok Hr (_ & Hco & Hna). split; [done|]. split.
  - intros k v HR Hk Hl. unfold generation. rewrite Hc in Hl. rewrite Hg, <-HR, (verdict_rows role_id m s s') by done.
    rewrite HR. by apply (Hco k v).
  - unfold cache_not_ahead, generation. by rewrite Hc, Hg.
Qed.

(** ** The invariant *)

Lemma request_state_ok pid req d : state_ok (d_bpf d) -> state_ok (d_bpf (handle_client pid req d).2).
Proof.
  intros Hok. destruct (request_simulated pid req d) as [(evs & _ & Hs) _]. by eapply steps_state_ok.
Qed.

Lemma request_known pid req d role :
  get_role (d_policy d) (r_id role) = Some role -> (forall r, req = DefineRole r -> r_id r <> r_id role) ->
  get_role (d_policy (handle_client pid req d).2) (r_id role) = Some role.
Proof.
  intros Hg Hd. destruct (request_simulated pid req d) as [_ ->]. destruct req; cbn [request_op fold_left]; try done.
  destruct (unenforced_settings _); cbn [fold_left run_op]; [|done]. unfold get_role, define_role in *.
  cbn [pm_role_map]. rewrite lookup_insert_ne; [done|]. by apply Hd.
Qed.

Lemma life_step_in_force role c c' :
  life_step (spares (r_id role)) c c' -> in_force role c.1 c.2 -> in_force role c'.1 c'.2.
Proof.
  intros Hst [Hok Hfree Hg Ht Hc].
  destruct Hst as [m d s' ev Hk Hev Hsee|m d pid req Hsp|m m' d Hgen]; cbn [fst snd d_bpf d_policy set_bpf] in *.
  - split; cbn [d_bpf d_policy set_bpf]; try done.
    + apply (tables_same role (d_bpf d)); [by apply (hook_same_policy ev)|done].
    + by apply (event_inv _ m (d_bpf d) s' ev).
  - pose proof (request_spares pid req role d Hsp (rk_id _ Hok) Hg Ht) as Hr. destruct Hsp as [Hreq Hd]. split; try done.
    + by apply request_known.
    + by apply (tables_rows role (d_bpf d)).
    + apply (cache_inv_rows _ _ (d_bpf d)); [apply (request_touches pid req d)|apply request_state_ok, Hc|done..].
  - pose proof (tables_same role _ _ (bump_same_policy (d_bpf d)) Ht). destruct Hc as (? & _ & ?).
    split; cbn [d_bpf d_policy set_bpf]; try done. by apply bump_inv.
Qed.

(** An open, as a step. *)
Lemma life_open allowed m d e file :
  e_mem e = m -> life_step allowed (m, d) (m, set_bpf (file_open e file (d_bpf d)).2 d).
Proof.
  intros Hm. pose proof (step_event (EvFileOpen e file) (d_bpf d) I) as Hst. cbn [run_event] in Hst.
  by apply (life_hook allowed m d _ (EvFileOpen e file)).
Qed.

Lemma life_in_force role c c' :
  rtc (life_step (spares (r_id role))) c c' -> in_force role c.1 c.2 -> in_force role c'.1 c'.2.
Proof. induction 1; eauto using life_step_in_force. Qed.
End life.

(** ** The start of the daemon *)

Section start.
Context `{World : FileWorld} `{Resolver : !DomainResolver} `{KL : KernelLayout}.

(** What is assumed of a parsed policy: the iteration lists its roles, and their
    ids are different [u32]s. *)
Definition policy_ok (policy : option (PolicyConfig * list (bytes * Role))) : Prop :=
  forall config entries, policy = Some (config, entries) ->
  entries ≡ₚ map_to_list (pc_roles config) /\ NoDup (r_id <$> entries.*2)
  /\ Forall (fun r => in_width 32 (r_id r)) entries.*2.

(** The manager holds the named roles under their ids, and all are accepted. *)
Record started_manager (pm : PolicyManager) : Prop := {
  sm_ok : manager_ok pm;
  sm_named : forall name r, config_get_role (pm_config pm) name = Some r -> get_role pm (r_id r) = Some r;
  sm_ids : forall id, is_Some (get_role pm id) -> in_width 32 id;
  sm_free : forall name r, config_get_role (pm_config pm) name = Some r ->
    conflict_free (file_rules r) /\ conflict_free (exec_rules r);
  sm_distinct : NoDup (r_id <$> (map_to_list (pc_roles (pm_config pm))).*2);
}.

Lemma no_rules_free : conflict_free [].
Proof. apply (bool_decide_unpack _). vm_compute. exact I. Qed.

Lemma new_manager_started : started_manager new_manager.
Proof.
  split; [apply new_manager_ok|..].
  - intros name r. unfold config_get_role. cbn [new_manager pm_config pc_roles].
    intros [[_ <-]|[_ [[_ <-]|[_ H]]%lookup_insert_Some]]%lookup_insert_Some; [done..|].
    by rewrite lookup_empty in H.
  - intros id [r Hr]. revert Hr. unfold get_role. cbn [new_manager pm_role_map].
    intros [[<- _]|[_ [[<- _]|[_ H]]%lookup_insert_Some]]%lookup_insert_Some; [split; lia..|].
    by rewrite lookup_empty in H.
  - intros name r. unfold config_get_role. cbn [new_manager pm_config pc_roles].
    intros [[_ <-]|[_ [[_ <-]|[_ H]]%lookup_insert_Some]]%lookup_insert_Some; [split; apply no_rules_free..|].
    by rewrite lookup_empty in H.
  - apply (bool_decide_unpack _). vm_compute. exact I.
Qed.

Lemma start_policy_started policy : policy_ok policy -> started_manager (start_policy policy).
Proof.
  intros Hpol. destruct policy as [[config entries]|]; [|apply new_manager_started].
  destruct (Hpol config entries eq_refl) as (Hp & Hnd & Hw). unfold start_policy.
  pose proof (load_from_file_ok config entries new_manager Hp new_manager_ok) as Hm.
  unfold load_from_file in *. destruct (list_find _ entries) as [[i [name role]]|] eqn:Hf;
    [apply new_manager_started|]. apply list_find_None in Hf. cbn [snd] in *. split; [done|..].
  - intros name r Hr. by eapply index_of_named.
  - intros id [r Hr]. unfold get_role in Hr. cbn [pm_role_map] in Hr.
    destruct (index_lookup entries id) as [(e & He & <- & _)|[_ Hn]]; [|congruence].
    rewrite Forall_forall in Hw. apply Hw, list_elem_of_fmap. by exists e.
  - intros name r Hr. apply enforced_conflict_free. rewrite Forall_forall in Hf.
    destruct (decide (unenforced_settings r = [])) as [?|Hne]; [done|].
    destruct (Hf (name, r)); [|done]. by rewrite Hp, elem_of_map_to_list.
  - cbn [pm_config]. by rewrite <-Hp.
Qed.

(** The maps after part of the walk. *)
Definition walk (roles : list Role) (s : bpf_state) : bpf_state :=
  (for_each (fun role => ignore_error (apply_role (Sink := TrackerSink) role)) roles s).2.

Lemma walk_cons role roles s :
  walk (role :: roles) s = walk roles (apply_role (Sink := TrackerSink) role s).2.
Proof. done. Qed.

Lemma walk_app pre post s : walk (pre ++ post) s = walk post (walk pre s).
Proof. revert s. induction pre as [|r pre IH]; intros s; [done|]. apply IH. Qed.

Lemma walk_within (Q : map_name -> bytes -> Prop) roles s :
  (forall r n k, r ∈ roles -> role_key (r_id r) k -> Q n k) -> within Q s (walk roles s).
Proof.
  revert s. induction roles as [|r roles IH]; intros s HQ; [done|]. rewrite walk_cons.
  etransitivity; [|apply IH; intros; eapply HQ; [by apply list_elem_of_further|done]].
  eapply within_mono; [|apply touches_apply_role]. intros n k Hk. apply (HQ r); [apply list_elem_of_here|done].
Qed.

Lemma walk_rows roles role_id s :
  in_width 32 role_id -> (forall r, r ∈ roles -> in_width 32 (r_id r) /\ r_id r <> role_id) ->
  same_rows role_id s (walk roles s).
Proof.
  intros Hw Hr n k Hn Hk. apply (walk_within (fun n k => ~ role_key role_id k)); [|tauto].
  intros r n' k' [? Hne]%Hr Hk' Hk''. apply Hne. by eapply role_key_inj.
Qed.

(** A role whose turn in the walk succeeds has its tables at the end of it. *)
Lemma walk_tables pre role post s sk :
  NoDup (r_id <$> pre ++ role :: post) -> Forall (fun r => in_width 32 (r_id r)) (pre ++ role :: post) ->
  fresh_role s (r_id role) -> (apply_role (Sink := TrackerSink) role (walk pre s)).1 = inr sk ->
  tables_of role (walk (pre ++ role :: post) s).
Proof.
  intros Hnd Hw Hf Ha. rewrite Forall_app, Forall_cons, !Forall_forall in Hw. destruct Hw as (Hpre & Hr & Hpost).
  rewrite fmap_app, fmap_cons in Hnd. apply NoDup_app in Hnd as (_ & Hd & [Hn _]%NoDup_cons).
  rewrite walk_app, walk_cons. eapply tables_rows; [apply walk_rows; [done|]|].
  - intros r Hin. split; [by apply Hpost|]. intros Heq. apply Hn. rewrite <-Heq. apply list_elem_of_fmap. eauto.
  - destruct (apply_role role (walk pre s)) as [res s1] eqn:Happ. cbn [fst snd] in *. subst res.
    assert (same_rows (r_id role) s (walk pre s)) as Hrows.
    { apply walk_rows; [done|]. intros r Hin. split; [by apply Hpre|]. intros Heq.
      apply (Hd (r_id r)); [apply list_elem_of_fmap; eauto|]. rewrite Heq. apply list_elem_of_here. }
    eapply (applied_tables TrackerSink tracker_map_sink); [|exact Happ].
    intros n k Hn' Hk. rewrite Hrows by done. by apply Hf.
Qed.

(** ** Enrollments of the policy are requests *)

Lemma enrollments_life allowed (request : bytes -> Z -> Z -> EnrollmentRequest)
    (enroll : bytes -> Z -> Z -> io load_error daemon unit) ts m d :
  (forall path pod id d, (handle_client 0 (request path pod id) d).2 = (enroll path pod id d).2) ->
  (forall path pod id, (path, pod, id) ∈ ts -> allowed (request path pod id)) ->
  let run := for_each (fun '(path, pod, id) => ignore_error (enroll path pod id)) ts in
  (run d).1 = inr tt /\ rtc (life_step allowed) (m, d) (m, (run d).2).
Proof.
  intros He. revert d. induction ts as [|[[path pod] id] ts IH]; intros d Ha; [by split|].
  cbn [for_each]. unfold io_bind, ignore_error.
  destruct (IH (enroll path pod id d).2) as (H1 & H2); [intros; apply Ha; by apply list_elem_of_further|].
  split; [exact H1|]. eapply rtc_l; [|exact H2]. rewrite <-He. apply life_request, Ha, list_elem_of_here.
Qed.

(** The enrollments of a policy name roles of the manager. *)
Lemma enrolled_roles_known pm path pod id :
  started_manager pm -> (path, pod, id) ∈ get_exec_enrollments pm ++ get_cgroup_enrollments pm -> in_width 32 id.
Proof.
  intros Hs Hin. apply (sm_ids pm Hs).
  apply elem_of_app in Hin as [Hin|Hin]; apply list_elem_of_omap in Hin as (e & _ & He);
    apply fmap_Some in He as (r & Hr & [= -> -> ->]); eexists; by eapply sm_named.
Qed.

Lemma load_from_policy_life allowed m d :
  (forall req, request_ok req -> (forall role, req <> DefineRole role) -> allowed req) ->
  started_manager (d_policy d) -> rtc (life_step allowed) (m, d) (m, (load_from_policy d).2).
Proof.
  intros Ha Hs. unfold load_from_policy, io_bind.
  destruct (enrollments_life allowed EnrollExecutable enroll_by_executable_path
    (get_exec_enrollments (d_policy d)) m d) as (H1 & H2).
  { intros. apply respond_daemon. }
  { intros path pod id Hin. apply Ha; [|done]. intros role_id [= <-].
    apply (enrolled_roles_known (d_policy d) path pod); [done|]. apply elem_of_app. by left. }
  destruct (for_each _ (get_exec_enrollments (d_policy d)) d) as [[e|u] d1]; cbn [fst snd] in *; [done|].
  destruct (enrollments_life allowed EnrollCgroup enroll_by_cgroup_path
    (get_cgroup_enrollments (d_policy d)) m d1) as (_ & H3).
  { intros. apply respond_daemon. }
  { intros path pod id Hin. apply Ha; [|done]. intros role_id [= <-].
    apply (enrolled_roles_known (d_policy d) path pod); [done|]. apply elem_of_app. by right. }
  by etransitivity.
Qed.

Lemma start_life allowed policy order a m :
  (forall req, request_ok req -> (forall role, req <> DefineRole role) -> allowed req) -> policy_ok policy ->
  rtc (life_step allowed) (m, Daemon (walk order.*2 (fresh_maps order)) (start_policy policy) a)
    (m, start policy order init_state a).
Proof.
  intros Ha Hpol. unfold start. rewrite for_each_snd. apply load_from_policy_life; [done|].
  by apply start_policy_started.
Qed.

Lemma fresh_maps_ok order :
  state_ok (fresh_maps order) /\ m_path_decision_cache (fresh_maps order) = ∅
  /\ forall n, map_by_name n (fresh_maps order) = ∅.
Proof.
  unfold fresh_maps. case_bool_decide; [split_and!; [apply init_state_ok|done|by intros []]|].
  rewrite invalidate_cache_bump. split_and!; [apply bump_state_ok, init_state_ok|done|by intros []].
Qed.

Lemma walk_simulated roles s : state_ok s -> state_ok (walk roles s) /\ user_frame s (walk roles s).
Proof.
  intros Hok. assert (user_frame s (walk roles s)) as Hf by by apply (walk_within (fun _ _ => True)).
  split; [|done]. destruct Hf as (Ht & _ & _ & Hb & _), Hok. unfold state_ok, storage_fits. by rewrite Ht, Hb.
Qed.

Lemma empty_cache_inv R m s : state_ok s -> m_path_decision_cache s = ∅ -> cache_inv_for R m s.
Proof.
  intros Hok He. split; [done|]. split.
  - intros k v _ _ Hl. by rewrite empty_cache_lookup in Hl.
  - intros k v Hl. by rewrite empty_cache_lookup in Hl.
Qed.

(** A role of the policy that was applied is in force when the daemon is up. *)
Lemma started_in_force policy order pre post name role a m sk :
  policy_ok policy -> order ≡ₚ map_to_list (pc_roles (pm_config (start_policy policy))) ->
  order = pre ++ (name, role) :: post -> role_ok role ->
  (apply_role (Sink := TrackerSink) role (walk pre.*2 (fresh_maps order))).1 = inr sk ->
  in_force role m (start policy order init_state a).
Proof.
  intros Hpol Hp Ho Hok Ha. pose proof (start_policy_started policy Hpol) as Hs.
  assert (NoDup (r_id <$> order.*2)) as Hnd by (rewrite Hp; apply (sm_distinct _ Hs)).
  assert (forall e, e ∈ order -> config_get_role (pm_config (start_policy policy)) e.1 = Some e.2) as Hnamed.
  { intros [n r] He. rewrite Hp in He. by apply elem_of_map_to_list. }
  assert (config_get_role (pm_config (start_policy policy)) name = Some role) as Hr
    by (apply (Hnamed (name, role)); set_solver).
  destruct (fresh_maps_ok order) as (Hfok & Hfc & Hfm).
  destruct (walk_simulated order.*2 _ Hfok) as [Hwok (_ & Hc & _)].
  eapply (life_in_force role (m, Daemon _ _ a) (m, start policy order init_state a)).
  - apply (start_life _ policy order a m); [|done]. intros req Hreq Hd. split; [done|]. intros r ->. by destruct (Hd r).
  - split; cbn [fst snd d_bpf d_policy].
    + done.
    + by eapply sm_free.
    + by eapply sm_named.
    + rewrite Ho in *. rewrite fmap_app, fmap_cons in *. cbn [snd] in *. eapply walk_tables; [done| |..|exact Ha].
      * apply Forall_forall. intros r Hin. change (pre.*2 ++ role :: post.*2) with (pre.*2 ++ ((name, role) :: post).*2) in Hin.
        rewrite <-fmap_app in Hin. apply list_elem_of_fmap in Hin as (e & -> & He). apply (sm_ids _ Hs). eexists.
        eapply sm_named; [done|]. by apply Hnamed.
      * intros n k _ _. by rewrite Hfm, lookup_empty.
    + apply empty_cache_inv; [done|]. by rewrite Hc.
Qed.
End start.

(** ** Property *)

(** C1. A role of the policy is enforced for the whole life of the daemon, if
    its application at the start succeeds. Start the daemon on a policy whose
    role ids differ, with a well-formed role ([role_ok]: its numbers fit their
    widths, its resolved addresses are addresses, its domain names do not
    collide) in it. If this role's own turn in the walk over the roles succeeds
    (a failure is only logged, and the role need not be enforced then: see
    [wide_range_aborts]), it is enforced after any run of hooks, announced
    filesystem changes and requests in which no request gives its id another
    definition and the generation of the cache does not wrap: whatever other
    roles failed to apply, were defined or redefined, and however often
    processes were enrolled. Enforced means ([enforces]): every bind, connect,
    module load and bpf call of a task jailed under the role, every ptrace of
    such a task, and every open and exec by one whose path the walk collects in
    full and whose names and states do not collide with those of the rules, is
    decided by the role's rules and flags. *)
Theorem started_role_enforced `{World : FileWorld} `{Resolver : !DomainResolver} `{KL : KernelLayout}
    (policy : option (PolicyConfig * list (bytes * Role))) (order pre post : list (bytes * Role)) (name : bytes)
    (role : Role) (sk : list skip) (a : attrs) (m0 m : mem) (d : daemon) :
  policy_ok policy -> order ≡ₚ map_to_list (pc_roles (pm_config (start_policy policy))) ->
  order = pre ++ (name, role) :: post -> role_ok role ->
  (apply_role (Sink := TrackerSink) role (walk pre.*2 (fresh_maps order))).1 = inr sk ->
  rtc (life_step (spares (r_id role))) (m0, start policy order init_state a) (m, d) ->
  enforces role m (d_bpf d).
Proof.
  intros. apply in_force_enforces. eapply (life_in_force role (m0, _) (m, d)); [done|].
  by eapply started_in_force.
Qed.

(** A policy of one role. *)
Section solo.
Context (role : Role).

Definition solo_config : PolicyConfig :=
  MkPolicyConfig {[text "agent" := role]} [] [MkExecEnrollment AGENT 5 (text "agent")] [].
Definition solo_order : list (bytes * Role) := [(text "agent", role)].
Definition solo_policy : option (PolicyConfig * list (bytes * Role)) := Some (solo_config, solo_order).

Definition solo_start : daemon (World := test_world) :=
  start (World := test_world) (Resolver := one_name) solo_policy solo_order init_state ∅.

(** Pid 42 enrolls and is jailed by the file it opens. *)
Definition solo_enrolled : daemon (World := test_world) :=
  (handle_client (World := test_world) (Resolver := one_name) 42 (Enroll 5 7) solo_start).2.
Definition solo_jailed : daemon (World := test_world) :=
  set_bpf (World := test_world)
    (file_open (env_with mem_etc) FILE (d_bpf (World := test_world) solo_enrolled)).2 solo_enrolled.

Lemma solo_policy_ok : in_width 32 (r_id role) -> policy_ok solo_policy.
Proof.
  intros Hw config entries Heq. unfold solo_policy in Heq. injection Heq as <- <-.
  cbn [solo_config pc_roles solo_order fmap list_fmap snd]. rewrite map_to_list_singleton. split_and!.
  - exact (Permutation_refl _).
  - apply NoDup_singleton.
  - by apply Forall_singleton.
Qed.

Lemma solo_roles :
  unenforced_settings role = [] -> solo_order ≡ₚ map_to_list (pc_roles (pm_config (start_policy solo_policy))).
Proof.
  intros Hu. unfold start_policy, solo_policy, load_from_file. destruct (list_find _ solo_order) as [[i [n r]]|] eqn:Hf.
  - apply list_find_Some in Hf as (Hi & Hne & _). apply list_elem_of_lookup_2 in Hi.
    apply list_elem_of_singleton in Hi. injection Hi as _ ->. by destruct Hne.
  - cbn [snd pm_config solo_config pc_roles]. rewrite map_to_list_singleton. exact (Permutation_refl _).
Qed.

Lemma solo_spares pod : in_width 32 (r_id role) -> r_id role = 7 -> spares (r_id role) (Enroll pod 7).
Proof. intros Hw Hid. split; [|done]. intros id [= <-]. by rewrite <-Hid. Qed.

Lemma solo_run :
  in_width 32 (r_id role) -> r_id role = 7 ->
  rtc (life_step (World := test_world) (Resolver := one_name) (spares (r_id role)))
    (mem_etc, solo_start) (mem_etc, solo_jailed).
Proof.
  intros Hw Hid. apply rtc_l with (mem_etc, solo_enrolled).
  - apply (life_request (World := test_world) (Resolver := one_name) _ mem_etc solo_start 42 (Enroll 5 7)).
    by apply solo_spares.
  - apply rtc_once.
    exact (life_open (World := test_world) (Resolver := one_name) _ mem_etc solo_enrolled (env_with mem_etc) FILE eq_refl).
Qed.
End solo.

(** Another process defines another role. *)
Definition solo_later : daemon (World := test_world) :=
  (handle_client (World := test_world) (Resolver := one_name) 43 (DefineRole web_role) (solo_jailed agent_role)).2.

Lemma agent_id : in_width 32 (r_id agent_role).
Proof. vm_compute. split; congruence. Qed.

Lemma started_role_enforced_witness :
  (socket_connect (env_with mem_etc) SOCK ADDR4 (d_bpf (World := test_world) solo_later)).1 = 0.
Proof.
  assert (enforces (Resolver := one_name) agent_role mem_etc (d_bpf (World := test_world) solo_later)) as He.
  { apply (started_role_enforced (World := test_world) (Resolver := one_name) (solo_policy agent_role)
      (solo_order agent_role) [] [] (text "agent") agent_role
      [SkipNetworkRule (text "icmp"); SkipUnresolved (text "nowhere")] ∅ mem_etc).
    - apply solo_policy_ok, agent_id.
    - apply solo_roles. vm_compute. exact eq_refl.
    - exact eq_refl.
    - apply agent_role_ok.
    - vm_compute. reflexivity.
    - fold (solo_start agent_role). eapply rtc_r; [apply (solo_run agent_role agent_id eq_refl)|].
      apply (life_request (World := test_world) (Resolver := one_name) _ mem_etc (solo_jailed agent_role) 43 (DefineRole web_role)).
      split.
      + intros id H. injection H as <-. vm_compute. split; congruence.
      + intros r H. injection H as <-. vm_compute. congruence. }
  apply (en_connect _ _ _ He (env_with mem_etc) SOCK ADDR4 (Some (Ipv4 10 1 2 3)) 443).
  - exists (ProcessInfo 5 7 0 0). split_and!; [vm_compute; reflexivity|vm_compute; congruence|reflexivity].
  - split_and!; [apply Ipv4_ok; unfold is_byte; lia|vm_compute; congruence|vm_compute; reflexivity].
  - vm_compute. reflexivity.
Defined.
