(* ===== verification/Ledger.v ===== *)
(** * What the maps know of roles

    The policy tables and the decision cache only ever mention ids the manager
    knows: an invariant of the running daemon ([ledger]).  A role defined under a
    new id therefore starts from nothing, and is enforced from then on exactly as
    defined.  With RoleLife.v this follows a role from the policy file, or from
    the request that defined it, to every later verdict. *)

From S2P Require Import Prelude CLayout BpfMap Rust Kernel KernelTypes Types Machine Scenario Hash PathWalk StateMachine Enrollment Hooks FileOpen Network Codec Patterns Parse Loader Policy Apply Exec Guards RolePolicy RoleLimits System Coherence Daemon DaemonRuns Footprint Bootstrap Loaders RoleLife.

(** ** Keys of the cache *)

Section cache_keys.
Context `{KL : KernelLayout}.

(** Every entry the cache may hold satisfies [P]. *)
Definition cached_roles (P : Z -> Prop) (s : bpf_state) : Prop :=
  forall k v, c_fits path_cache_key_repr k ->
  map_lookup path_decision_cache (m_path_decision_cache s) k = Some v -> P (ck_role_id k).

Lemma cached_roles_ext P s s' :
  m_path_decision_cache s' = m_path_decision_cache s -> cached_roles P s -> cached_roles P s'.
Proof. unfold cached_roles. by intros ->. Qed.

Lemma cached_store P s k v evicted :
  c_fits path_cache_key_repr k -> P (ck_role_id k) -> cached_roles P s ->
  cached_roles P (set_path_decision_cache (fun c => (map_update path_decision_cache evicted c k v).2) s).
Proof.
  intros Hk HP Hc k' v' Hk' Hl.
  change (map_lookup path_decision_cache (map_store path_decision_cache
      (foldr delete (m_path_decision_cache s) evicted) k v) k' = Some v') in Hl.
  destruct (decide (key_image path_decision_cache k' = key_image path_decision_cache k)) as [Heq|Hne].
  - apply (to_bytes_inj path_cache_key_repr) in Heq as ->; done.
  - rewrite map_lookup_hash in Hl by done. unfold map_store in Hl. rewrite lookup_insert_ne in Hl by done.
    apply fmap_Some in Hl as (bs & Hbs%foldr_delete_sub & ->).
    eapply (Hc k'); [done|]. by rewrite map_lookup_hash, Hbs.
Qed.

Lemma decision_cached P e info d v s :
  c_fits process_info_repr info -> in_width 64 d -> in_width 64 v -> P (pi_role_id info) -> cached_roles P s ->
  cached_roles P (file_path_decision e info d v s).2.
Proof.
  intros Hi Hd Hv HP Hc. pose proof (file_cache_key_fits e info d v Hi Hd Hv) as Hk.
  pose proof (fun val => cached_store P s _ val (e_lru_victims e) Hk HP Hc) as Hst.
  unfold file_path_decision, audit_deny_with, emit_audit_event. unfold_prog.
  repeat (case_match; simplify_eq; simpl);
    solve [exact Hc | apply (cached_roles_ext P s); done | apply Hst
      | refine (cached_roles_ext _ _ _ _ (Hst _)); reflexivity].
Qed.

(** An open caches only under the role of the task, which has flags. *)
Lemma file_open_cached P e file s :
  state_ok s ->
  (forall info, m_task_storage (after_pending e s) !! e_current_task e = Some info -> pi_pod_id info <> 0 ->
    is_Some (map_lookup role_flags (m_role_flags s) (pi_role_id info)) -> in_width 32 (pi_role_id info) ->
    P (pi_role_id info)) ->
  cached_roles P s -> cached_roles P (file_open e file s).2.
Proof.
  intros Hok HP Hc. rewrite file_open_eq. pose proof (after_pending_frame e s) as (Hfr & _ & _ & _ & Hcache & _).
  assert (cached_roles P (after_pending e s)) as Hc1 by by apply (cached_roles_ext P s).
  pose proof (after_pending_state_ok e s Hok) as Hok1.
  destruct (m_task_storage _ !! _) as [info|] eqn:Ht; [|done]. apply Hok1 in Ht as Hfit.
  destruct (pi_pod_id info =? 0) eqn:Hpod; [done|]. apply Z.eqb_neq in Hpod.
  destruct (map_lookup role_flags _ _) as [flags|] eqn:Hfl; [|done].
  assert (P (pi_role_id info)) as HPi.
  { apply HP; [done|done|by exists flags|]. unfold c_fits in Hfit. cbn in Hfit.
    apply Forall2_cons_inv_l in Hfit as (? & ? & _ & Hi & [= <- <-]).
    by apply Forall2_cons_inv_l in Hi as (? & ? & Hr & _ & [= <- <-]). }
  destruct (f_path_dentry (e_mem e) file =? 0); [by case_match|].
  pose proof (decision_cached P e info (f_path_dentry (e_mem e) file) (f_path_mnt (e_mem e) file)
    (after_pending e s) Hfit (read_ptr_range _ _) (read_ptr_range _ _) HPi Hc1) as Hd.
  destruct (file_path_decision _ _ _ _ _) as [[r|] s']; [done|]. by case_match.
Qed.

(** No other event of the kernel touches the cache. *)
Lemma hook_cached P ev s s' :
  step ev s s' -> by_kernel ev ->
  (forall e file, ev = EvFileOpen e file -> cached_roles P (file_open e file s).2) ->
  cached_roles P s -> cached_roles P s'.
Proof.
  intros [ev' s0 Hen] Hk Hopen Hc.
  assert (forall s1, same_cache s0 s1 -> cached_roles P s1) as Hsame
    by (intros s1 (_ & _ & H1); by apply (cached_roles_ext P s0)).
  assert (cached_roles P (bump_generation s0).2) as Hb by (rewrite bump_generation_eq; by apply (cached_roles_ext P s0)).
  destruct ev' as [e task|e file|e sock a|e sock a|e sock msg sz|e bprm|e d| | |e child|e k|e c a z
      |pid i|s''|task]; cbn [run_event enabled by_kernel] in *; try done.
  - apply Hsame, enrollment_same_cache, task_alloc_frame.
  - by apply Hopen.
  - apply Hsame, audit_only_same_cache, socket_bind_frame.
  - apply Hsame, audit_only_same_cache, socket_connect_frame.
  - apply Hsame, bprm_same_cache.
  - unfold path_rename, bind, ret. case_match; [done|]. by destruct (bump_generation s0).
  - apply Hsame, audit_only_same_cache, ptrace_frame.
  - apply Hsame, audit_only_same_cache, guard_current_frame.
  - apply Hsame, audit_only_same_cache, guard_current_frame.
Qed.
End cache_keys.

(** ** The invariant *)

Section ledger.
Context `{World : FileWorld} `{Resolver : !DomainResolver} `{KL : KernelLayout}.

Definition known (d : daemon) (role_id : Z) : Prop := is_Some (get_role (d_policy d) role_id).

Record ledger (d : daemon) : Prop := {
  lg_rows : forall n k, n ∈ policy_maps -> is_Some (map_by_name n (d_bpf d) !! k) ->
    exists role_id, known d role_id /\ role_key role_id k;
  lg_cache : cached_roles (known d) (d_bpf d);
  lg_ids : forall role_id, known d role_id -> in_width 32 role_id;
  lg_state : state_ok (d_bpf d);
  lg_ahead : cache_not_ahead (d_bpf d);
}.

(** A role with flags is known. *)
Lemma flags_known d role_id :
  ledger d -> is_Some (map_lookup role_flags (m_role_flags (d_bpf d)) role_id) -> in_width 32 role_id ->
  known d role_id.
Proof.
  intros Hl [flags Hf] Hw. rewrite map_lookup_hash in Hf by done. apply fmap_Some in Hf as (bs & Hf & _).
  destruct (lg_rows d Hl N_role_flags (key_image role_flags role_id)) as (id & Hk & Hkey);
    [unfold policy_maps; set_solver|by exists bs|].
  assert (id = role_id) as ->; [|done].
  apply (role_key_inj _ _ (key_image role_flags role_id)); [by apply (lg_ids d)|done|done|done].
Qed.

(** The ids known before a request are known after it. *)
Lemma request_monotone pid req d role_id :
  known d role_id -> known (handle_client pid req d).2 role_id.
Proof.
  unfold known. destruct (request_simulated pid req d) as [_ ->]. destruct req; cbn [request_op fold_left]; try done.
  destruct (unenforced_settings role); cbn [fold_left run_op]; [|done]. unfold get_role, define_role.
  cbn [pm_role_map]. intros Hk. destruct (decide (r_id role = role_id)) as [->|Hne].
  - by rewrite lookup_insert_eq.
  - by rewrite lookup_insert_ne.
Qed.

Lemma request_new_id pid req d role_id :
  known (handle_client pid req d).2 role_id -> known d role_id \/ request_role req = Some role_id.
Proof.
  unfold known. destruct (request_simulated pid req d) as [_ ->]. destruct req; cbn [request_op fold_left request_role];
    try by left. destruct (unenforced_settings role); cbn [fold_left run_op]; [|by left]. unfold get_role, define_role.
  cbn [pm_role_map]. destruct (decide (r_id role = role_id)) as [->|Hne]; [by right|].
  rewrite lookup_insert_ne by done. by left.
Qed.

(** The role a request is about is known afterwards, or nothing was written. *)
Lemma request_role_known pid req d role_id :
  request_role req = Some role_id ->
  known (handle_client pid req d).2 role_id \/ d_bpf (handle_client pid req d).2 = d_bpf d.
Proof.
  intros Hr. destruct (get_role (d_policy d) role_id) as [r|] eqn:Hg; [left; apply request_monotone; by exists r|].
  destruct req as [pod id|p|path pod id|path|role|path pod id|path|path pod id|path|path];
    try discriminate Hr; cbn [request_role] in Hr; injection Hr as Hid; subst; cbn [handle_client].
  - right. unfold handle_enroll. by rewrite Hg.
  - right. rewrite respond_daemon. unfold enroll_by_executable_path, existing_inode, load_role, io_bind.
    destruct (inode_of path); [|done]. unfold ok. by rewrite Hg.
  - unfold handle_define_role. destruct (unenforced_settings role) eqn:Hu; [left|by right].
    rewrite respond_daemon. unfold known, on_bpf, io_bind, get_role.
    destruct (apply_role role _) as [[e|sk] s']; cbn; by rewrite lookup_insert_eq.
  - right. rewrite respond_daemon. unfold enroll_by_cgroup_path, existing_inode, load_role, io_bind.
    destruct (inode_of path); [|done]. unfold ok. by rewrite Hg.
Qed.

#[local] Instance role_key_dec role_id k : Decision (role_key role_id k).
Proof. unfold role_key. apply _. Defined.

Lemma request_ledger pid req d : request_ok req -> ledger d -> ledger (handle_client pid req d).2.
Proof.
  intros Hreq Hl. pose proof (request_touches pid req d) as [(_ & Hc & Hg & _) Hr]. split.
  - intros n k Hn Hk. destruct (decide (map_by_name n (d_bpf (handle_client pid req d).2) !! k
      = map_by_name n (d_bpf d) !! k)) as [Heq|Hne].
    { rewrite Heq in Hk. destruct (lg_rows d Hl n k Hn Hk) as (id & ? & ?).
      exists id. split; [by apply request_monotone|done]. }
    destruct (request_role req) as [id|] eqn:Hid.
    + destruct (decide (role_key id k)) as [Hk'|Hk'].
      * destruct (request_role_known pid req d id Hid) as [?|Hsame]; [by exists id|]. by rewrite Hsame in Hne.
      * destruct Hne. apply Hr. intros [?|(id' & [= <-] & ?)]; done.
    + destruct Hne. apply Hr. intros [?|(? & ? & _)]; done.
  - intros k v Hk Hkv. apply request_monotone, (lg_cache d Hl k v Hk). by rewrite <-Hc.
  - intros id [Hk|Hk]%request_new_id; [by apply (lg_ids d)|by apply Hreq].
  - apply request_state_ok, Hl.
  - pose proof (lg_ahead d Hl). unfold cache_not_ahead, generation in *. by rewrite Hc, Hg.
Qed.

(** States with the same tables, under the same manager. *)
Lemma ledger_same s' d :
  ledger d -> same_policy (d_bpf d) s' -> cached_roles (known d) s' -> state_ok s' -> cache_not_ahead s' ->
  ledger (set_bpf s' d).
Proof.
  intros Hl Hp Hc Hok Hna. split; try done.
  - intros n k Hn. cbn [d_bpf set_bpf]. rewrite Hp by done. by apply (lg_rows d Hl).
  - apply (lg_ids d Hl).
Qed.

Lemma life_step_ledger c c' : life_step request_ok c c' -> ledger c.2 -> ledger c'.2.
Proof.
  intros [m d s' ev Hk Hev Hsee|m d pid req Hreq|m m' d Hgen] Hl; cbn [snd] in *.
  - apply ledger_same; [done|..].
    + by eapply hook_same_policy.
    + eapply hook_cached; [done|done| |apply Hl]. intros e file _.
      apply file_open_cached; [apply Hl| |apply Hl]. intros info _ _. by apply flags_known.
    + eapply step_state_ok; [done|apply Hl].
    + assert (cache_inv_for (fun _ => False) m s') as (_ & _ & ?); [|done].
      eapply event_inv; [done|done|]. split; [apply Hl|]. split; [by intros ? ? []|apply Hl].
  - by apply request_ledger.
  - assert (cache_inv_for (fun _ => False) m' (bump_generation (d_bpf d)).2) as (_ & _ & ?)
      by (apply bump_inv; [apply Hl|apply Hl|done]).
    apply ledger_same; [done|apply bump_same_policy|..|done].
    + apply (cached_roles_ext _ (d_bpf d)); [by rewrite bump_generation_eq|apply Hl].
    + apply bump_state_ok, Hl.
Qed.

Lemma life_ledger c c' : rtc (life_step request_ok) c c' -> ledger c.2 -> ledger c'.2.
Proof. induction 1; eauto using life_step_ledger. Qed.

(** It holds when the roles of the policy have been applied. *)
Lemma walk_ledger policy order a :
  policy_ok policy -> order ≡ₚ map_to_list (pc_roles (pm_config (start_policy policy))) ->
  ledger (Daemon (walk order.*2 (fresh_maps order)) (start_policy policy) a).
Proof.
  intros Hpol Hp. pose proof (start_policy_started policy Hpol) as Hs.
  destruct (fresh_maps_ok order) as (Hfok & Hfc & Hfm).
  destruct (walk_simulated order.*2 _ Hfok) as [Hwok (_ & Hc & _)]. split; cbn [d_bpf]; try done.
  - intros n k Hn Hk. destruct (decide (Exists (fun r => role_key (r_id r) k) order.*2)) as [He|He].
    + apply Exists_exists in He as (r & Hr & Hkey). exists (r_id r). split; [|done].
      apply list_elem_of_fmap in Hr as ([name r'] & -> & Hin). exists r'. apply (sm_named _ Hs name).
      rewrite Hp in Hin. by apply elem_of_map_to_list.
    + exfalso. assert (map_by_name n (walk order.*2 (fresh_maps order)) !! k = None) as Hno; [|by rewrite Hno in Hk; destruct Hk].
      destruct (walk_within (fun _ k => Exists (fun r => role_key (r_id r) k) order.*2) order.*2 (fresh_maps order)) as [_ Hr].
      { intros r n' k' Hr Hkey. apply Exists_exists. eauto. }
      rewrite Hr by done. by rewrite Hfm, lookup_empty.
  - intros k v _ Hl. by rewrite Hc, empty_cache_lookup in Hl.
  - apply (sm_ids _ Hs).
  - intros k v Hl. by rewrite Hc, empty_cache_lookup in Hl.
Qed.

(** It holds when the daemon is up. *)
Lemma start_ledger policy order a :
  policy_ok policy -> order ≡ₚ map_to_list (pc_roles (pm_config (start_policy policy))) ->
  ledger (start policy order init_state a).
Proof.
  intros Hpol Hp. apply (life_ledger (fun _ => None, Daemon (walk order.*2 (fresh_maps order)) (start_policy policy) a)
    (fun _ => None, start policy order init_state a)); [|by apply walk_ledger].
  apply (start_life _ policy order a (fun _ => None)); [|done]. by intros req Hreq _.
Qed.

(** A role accepted under a new id is in force at once. *)
Lemma defined_in_force pid role m d d' :
  ledger d -> role_ok role -> get_role (d_policy d) (r_id role) = None ->
  handle_client pid (DefineRole role) d = (Success, d') -> in_force role m d'.
Proof.
  intros Hl Hok Hnew Hh.
  assert (state_ok (d_bpf d')) as Hs'.
  { pose proof (request_state_ok pid (DefineRole role) d (lg_state d Hl)) as Hs. by rewrite Hh in Hs. }
  pose proof (request_touches pid (DefineRole role) d) as [(_ & Hc & Hg & _) _]. rewrite Hh in Hc, Hg.
  cbn [snd handle_client] in *. unfold handle_define_role in Hh.
  destruct (unenforced_settings role) eqn:Hu; [|done].
  unfold respond, io_bind, on_bpf in Hh. cbn [d_bpf set_policy] in Hh.
  destruct (apply_role role (d_bpf d)) as [[e|sk] s1] eqn:Ha; [done|]. injection Hh as <-.
  split; cbn [d_bpf d_policy set_bpf set_policy].
  - done.
  - by apply enforced_conflict_free.
  - unfold get_role, define_role. cbn. apply lookup_insert_eq.
  - eapply (applied_tables TrackerSink tracker_map_sink); [|exact Ha]. intros n k Hn Hk.
    destruct (map_by_name n (d_bpf d) !! k) as [v|] eqn:Hv; [|done]. exfalso.
    destruct (lg_rows d Hl n k Hn) as (id & Hid & Hkey); [by exists v|].
    assert (id = r_id role) as ->; [|unfold known in Hid; rewrite Hnew in Hid; by destruct Hid].
    eapply role_key_inj; [by apply (lg_ids d)|apply (rk_id _ Hok)|done|done].
  - cbn [d_bpf set_bpf set_policy] in Hc, Hg, Hs'. split; [done|]. split.
    + intros k v HR Hk Hkv. exfalso. rewrite Hc in Hkv. pose proof (lg_cache d Hl k v Hk Hkv) as Hkn.
      unfold known in Hkn. rewrite <-HR, Hnew in Hkn. by destruct Hkn.
    + pose proof (lg_ahead d Hl). unfold cache_not_ahead, generation in *. by rewrite Hc, Hg.
Qed.
End ledger.

(** ** Property *)


(** Role 7 is defined over the built-in roles, pid 42 enrolls under it, opens a
    file and connects. *)
Definition builtin_order : list (bytes * Role) := map_to_list (pc_roles (pm_config new_manager)).
Definition built_start : daemon (World := test_world) :=
  start (World := test_world) (Resolver := one_name) None builtin_order init_state ∅.
Definition built_defined : daemon (World := test_world) :=
  (handle_client (World := test_world) (Resolver := one_name) 43 (DefineRole agent_role) built_start).2.
Definition built_enrolled : daemon (World := test_world) :=
  (handle_client (World := test_world) (Resolver := one_name) 42 (Enroll 5 7) built_defined).2.
Definition built_jailed : daemon (World := test_world) :=
  set_bpf (World := test_world)
    (file_open (env_with mem_etc) FILE (d_bpf (World := test_world) built_enrolled)).2 built_enrolled.

