(* ===== verification/Threads.v ===== *)
(** * Requests in parallel

    The daemon serves every connection in a task of its own.  Here a request is
    what the source makes of it: one moment under the lock, in which the policy is
    read or changed, and then a thread of single map operations, between any two
    of which hooks and the threads of other requests can run.  [request_adequate]
    says that a request whose thread runs alone does what [handle_client] does;
    [conc_in_force] that a role whose rules do not contradict each other stays in
    force under every interleaving. *)

From S2P Require Import Prelude CLayout BpfMap Rust Kernel KernelTypes Types Machine Scenario Hash PathWalk StateMachine Enrollment Hooks FileOpen Network Codec Patterns Parse Loader Policy Apply Exec Guards RolePolicy RoleLimits System Coherence Daemon DaemonRuns Footprint Bootstrap Loaders RoleLife.

(** ** Threads *)

(** One operation on a map, or the error that stops the request. *)
Inductive action :=
| AStep (st : walk_step)
| ADelete (n : map_name) (key : bytes).

Definition run_action (a : action) : loader unit :=
  match a with
  | AStep st => run_step st
  | ADelete n key => delete_key n key
  end.

(** Consecutive operations; an error in a tolerant segment ends the segment, in
    another the thread. *)
Abbreviation segment := (bool * list action)%type.
Abbreviation thread := (list segment).

Definition run_segment (g : segment) : loader unit :=
  if g.1 then ignore_error (for_each run_action g.2) else for_each run_action g.2.

Definition run_thread (th : thread) : loader unit := for_each run_segment th.

Inductive thread_step : thread * bpf_state -> thread * bpf_state -> Prop :=
| ts_next b th s : thread_step ((b, []) :: th, s) (th, s)
| ts_done b a acts th s s' :
    run_action a s = (inr tt, s') -> thread_step ((b, a :: acts) :: th, s) ((b, acts) :: th, s')
| ts_tolerated a acts th s e s' :
    run_action a s = (inl e, s') -> thread_step ((true, a :: acts) :: th, s) (th, s')
| ts_failed a acts th s e s' :
    run_action a s = (inl e, s') -> thread_step ((false, a :: acts) :: th, s) ([], s').

(** The step a thread takes, computed. *)
Definition thread_next (th : thread) (s : bpf_state) : thread * bpf_state :=
  match th with
  | [] => ([], s)
  | (_, []) :: th => (th, s)
  | (b, a :: acts) :: th =>
      match run_action a s with
      | (inr _, s') => ((b, acts) :: th, s')
      | (inl _, s') => (if b then th else [], s')
      end
  end.

Fixpoint thread_after (n : nat) (th : thread) (s : bpf_state) : thread * bpf_state :=
  match n with
  | O => (th, s)
  | S n => let '(th', s') := thread_next th s in thread_after n th' s'
  end.

Lemma thread_next_step th s : rtc thread_step (th, s) (thread_next th s).
Proof.
  destruct th as [|[b [|a acts]] th]; cbn [thread_next]; [constructor|apply rtc_once, ts_next|].
  destruct (run_action a s) as [[e|[]] s'] eqn:Ha; apply rtc_once; [|by apply ts_done].
  destruct b; by econstructor.
Qed.

Lemma thread_after_steps n th s : rtc thread_step (th, s) (thread_after n th s).
Proof.
  revert th s. induction n as [|n IH]; intros th s; [constructor|]. cbn [thread_after].
  pose proof (thread_next_step th s) as H. destruct (thread_next th s) as [th' s']. etransitivity; [exact H|apply IH].
Qed.

Lemma thread_runs th s : rtc thread_step (th, s) ([], (run_thread th s).2).
Proof.
  revert s. induction th as [|[b acts] th IH]; intros s; [constructor|].
  unfold run_thread. cbn [for_each]. fold run_thread. revert s. induction acts as [|a acts IHa]; intros s.
  - eapply rtc_l; [apply ts_next|]. unfold io_bind, run_segment. cbn [fst snd for_each].
    destruct b; unfold ignore_error, ok; cbn [snd]; apply IH.
  - unfold io_bind, run_segment. cbn [fst snd for_each]. unfold io_bind.
    destruct (run_action a s) as [[e|[]] s'] eqn:Ha.
    + destruct b; unfold ignore_error; rewrite Ha; cbn [snd].
      * eapply rtc_l; [by apply (ts_tolerated a acts th s e s')|apply IH].
      * eapply rtc_l; [by apply (ts_failed a acts th s e s')|constructor].
    + eapply rtc_l; [by apply (ts_done b a acts th s s')|]. specialize (IHa s').
      unfold io_bind, run_segment in IHa. cbn [fst snd] in IHa. destruct b; unfold ignore_error in *; by rewrite Ha.
Qed.

(** ** Requests as threads *)

Section requests.
Context `{World : FileWorld} `{Resolver : !DomainResolver}.

Definition writes_of (steps : list walk_step) : list action := AStep <$> steps.

Definition flags_steps (role_id : Z) (role : Role) : list walk_step :=
  [inl (Write N_role_flags (to_ne_bytes 4 role_id) [policy_flags_to_u8 (r_flags role)])].

Definition network_steps (role_id : Z) (role : Role) : list walk_step :=
  inl <$> (r_network_rules role ≫= network_writes role_id).

Definition path_steps (role_id : Z) (role : Role) : list walk_step :=
  match path_state_entries_for_role role_id (file_rules role) with
  | inr _ => inl <$> state_writes N_path_states role_id (file_rules role)
  | inl conflicts => [inr (Conflicts conflicts)]
  end.

Definition enrollment_row (pod_id role_id : Z) : bytes :=
  copy_at 8 (to_ne_bytes 4 role_id) (copy_at 0 (to_ne_bytes 8 pod_id) (replicate 16 0)).

(** An enrollment by file: the role's flags and rules, then the row. *)
Definition file_thread (n : map_name) (path : bytes) (pod_id role_id : Z) (d : daemon) : thread :=
  match inode_of path, get_role (d_policy d) role_id with
  | Some inode, Some role =>
      [(false, writes_of (flags_steps role_id role ++ network_steps role_id role ++ path_steps role_id role
        ++ [inl (Write n (to_ne_bytes 8 inode) (enrollment_row pod_id role_id))]))]
  | _, _ => []
  end.

Definition release_thread (n : map_name) (path : bytes) : thread :=
  match inode_of path with
  | Some inode => [(false, [ADelete n (to_ne_bytes 8 inode)])]
  | None => []
  end.

Definition request_thread (pid : Z) (req : EnrollmentRequest) (d : daemon) : thread :=
  match req with
  | Enroll pod_id role_id =>
      match get_role (d_policy d) role_id with
      | Some role =>
          [(false, writes_of (flags_steps role_id role)); (true, writes_of (network_steps role_id role));
           (true, writes_of (path_steps role_id role));
           (false, writes_of [inl (Write N_pending_enrollments (to_ne_bytes 4 pid)
             (<[13%nat := 0]> (<[12%nat := 0]> (enrollment_row pod_id role_id))))])]
      | None => []
      end
  | EnrollExecutable path pod_id role_id => file_thread N_exec_enrollment path pod_id role_id d
  | EnrollCgroup path pod_id role_id => file_thread N_cgroup_enrollment path pod_id role_id d
  | RemoveExecutable path => release_thread N_exec_enrollment path
  | RemoveCgroup path => release_thread N_cgroup_enrollment path
  | DefineRole role =>
      match unenforced_settings role with
      | [] => [(false, writes_of (role_steps role))]
      | _ => []
      end
  | _ => []
  end.

(** The moment under the lock: the policy and the attributes are as the request
    leaves them, the maps as they were. *)
Definition begin_request (pid : Z) (req : EnrollmentRequest) (d : daemon) : daemon :=
  let d' := (handle_client pid req d).2 in Daemon (d_bpf d) (d_policy d') (d_attrs d').
End requests.

(** ** A thread that runs alone *)

Section adequate.
Context `{World : FileWorld} `{Resolver : !DomainResolver}.

Lemma run_writes steps s : for_each run_action (writes_of steps) s = for_each run_step steps s.
Proof.
  revert s. induction steps as [|st steps IH]; intros s; [done|]. cbn [writes_of fmap list_fmap for_each].
  by apply io_bind_ext.
Qed.

Lemma emits_unit (p : loader unit) steps s : emits p steps tt -> p s = for_each run_step steps s.
Proof. intros Hp. rewrite (Hp s). unfold io_bind, ok. by destruct (for_each run_step steps s) as [[e|[]] s']. Qed.

(** A segment does what a function that emits its steps does. *)
Lemma segment_strict (p : loader unit) steps s : emits p steps tt -> run_segment (false, writes_of steps) s = p s.
Proof. intros Hp. unfold run_segment. cbn [fst snd]. by rewrite run_writes, (emits_unit p steps). Qed.

Lemma segment_tolerant (p : loader unit) steps s :
  emits p steps tt -> run_segment (true, writes_of steps) s = ignore_error p s.
Proof. intros Hp. unfold run_segment, ignore_error. cbn [fst snd]. by rewrite run_writes, (emits_unit p steps). Qed.

Lemma thread_one g s : (run_thread [g] s).2 = (run_segment g s).2.
Proof. unfold run_thread. cbn [for_each]. unfold io_bind, ok. by destruct (run_segment g s) as [[e|[]] s']. Qed.

Lemma flags_emit role_id role : emits (set_role_policy role_id (r_flags role)) (flags_steps role_id role) tt.
Proof. exact (emits_write (Write N_role_flags (to_ne_bytes 4 role_id) [policy_flags_to_u8 (r_flags role)])). Qed.

Lemma network_emit role_id role :
  emits (apply_network_rules role_id (r_network_rules role)) (network_steps role_id role) tt.
Proof. apply network_rules_emit. Qed.

Lemma path_emit role_id role : emits (apply_path_rules role_id (r_file_paths role)) (path_steps role_id role) tt.
Proof. apply path_rules_emit. Qed.

(** The rows of a role that an enrollment writes, and its own. *)
Lemma load_rules_emit n k v role_id role :
  emits ((set_role_policy role_id (r_flags role) ;;? apply_network_rules role_id (r_network_rules role) ;;?
      apply_path_rules role_id (r_file_paths role)) ;;? update n k v)
    (flags_steps role_id role ++ network_steps role_id role ++ path_steps role_id role ++ [inl (Write n k v)]) tt.
Proof.
  eapply (emits_seq _ _ (flags_steps role_id role ++ network_steps role_id role ++ path_steps role_id role) tt);
    [|apply (emits_write (Write n k v))|by rewrite <-!app_assoc].
  eapply emits_bind; [apply flags_emit|]. eapply emits_bind; [apply network_emit|]. apply path_emit.
Qed.

Lemma file_thread_adequate n path pod_id role_id d :
  d_bpf ((inode <-? existing_inode path ;; load_role role_id ;;?
    on_bpf (update n (to_ne_bytes 8 inode) (enrollment_row pod_id role_id))) d).2
  = (run_thread (file_thread n path pod_id role_id d) (d_bpf d)).2.
Proof.
  unfold file_thread, existing_inode, io_bind. destruct (inode_of path) as [ino|]; [|done]. unfold ok, load_role.
  destruct (get_role (d_policy d) role_id) as [role|]; [|done].
  rewrite thread_one, (segment_strict _ _ _ (load_rules_emit n (to_ne_bytes 8 ino) (enrollment_row pod_id role_id) role_id role)).
  unfold on_bpf, io_bind.
  destruct (set_role_policy role_id (r_flags role) (d_bpf d)) as [[e|u] s1]; [done|].
  destruct (apply_network_rules role_id (r_network_rules role) s1) as [[e|u'] s2]; [done|].
  destruct (apply_path_rules role_id (r_file_paths role) s2) as [[e|u''] s3]; [done|].
  cbn [d_bpf set_bpf]. by destruct (update n (to_ne_bytes 8 ino) (enrollment_row pod_id role_id) s3).
Qed.

Lemma release_thread_adequate n path d :
  d_bpf ((inode <-? existing_inode path ;; on_bpf (delete_key n (to_ne_bytes 8 inode))) d).2
  = (run_thread (release_thread n path) (d_bpf d)).2.
Proof.
  unfold release_thread, existing_inode, io_bind. destruct (inode_of path) as [ino|]; [|done].
  rewrite thread_one. unfold run_segment, ok, on_bpf. cbn [fst snd for_each run_action]. unfold io_bind.
  by destruct (delete_key n (to_ne_bytes 8 ino) (d_bpf d)) as [[e|[]] s].
Qed.

Lemma enroll_thread_adequate pid pod_id role_id d :
  d_bpf (handle_enroll pid pod_id role_id d).2
  = (run_thread (request_thread pid (Enroll pod_id role_id) d) (d_bpf d)).2.
Proof.
  unfold handle_enroll. cbn [request_thread]. destruct (get_role (d_policy d) role_id) as [role|]; [|done].
  unfold run_thread. cbn [for_each]. unfold on_bpf, io_bind.
  rewrite (segment_strict _ _ (d_bpf d) (flags_emit role_id role)).
  destruct (set_role_policy role_id (r_flags role) (d_bpf d)) as [[e|[]] s1]; [done|].
  rewrite (segment_tolerant _ _ s1 (network_emit role_id role)).
  destruct (ignore_error (apply_network_rules role_id (r_network_rules role)) s1) as [[e|[]] s2] eqn:H2; [done|].
  rewrite (segment_tolerant _ _ s2 (path_emit role_id role)).
  destruct (ignore_error (apply_path_rules role_id (r_file_paths role)) s2) as [[e|[]] s3]; [done|].
  rewrite (segment_strict _ _ s3 (emits_write _)). unfold enroll_process, enroll_pending_process, do_write. cbn [w_map w_key w_value].
  fold (enrollment_row pod_id role_id). unfold ok.
  by destruct (update N_pending_enrollments _ _ s3) as [[e|[]] s4].
Qed.

(** The maps after a request whose thread runs alone are those of
    [handle_client]. *)
Lemma request_adequate pid req d :
  d_bpf (handle_client pid req d).2 = (run_thread (request_thread pid req d) (d_bpf d)).2.
Proof.
  destruct req as [pod role_id|p|path pod role_id|path|role|path pod role_id|path|path pod role_id|path|path];
    cbn [handle_client]; rewrite ?respond_daemon.
  - apply enroll_thread_adequate.
  - cbn [request_thread]. by destruct (get_process_info _ _) as [[]|].
  - apply (file_thread_adequate N_exec_enrollment).
  - apply (release_thread_adequate N_exec_enrollment).
  - cbn [request_thread]. unfold handle_define_role. destruct (unenforced_settings role); [|done].
    rewrite respond_daemon, thread_one. unfold run_segment. cbn [fst snd]. rewrite run_writes.
    pose proof (apply_role_emits TrackerSink tracker_map_sink role (d_bpf d)) as He. unfold io_bind, on_bpf.
    cbn [d_bpf set_policy]. rewrite He. unfold io_bind, ok.
    by destruct (for_each run_step (role_steps role) (d_bpf d)) as [[e|[]] s].
  - apply (file_thread_adequate N_cgroup_enrollment).
  - apply (release_thread_adequate N_cgroup_enrollment).
  - by destruct (set_xattr_enrollment _ _ _ _).
  - by destruct (check_xattr_enrollment _ _) as [[[]|]|].
  - done.
Qed.
End adequate.

(** ** Every interleaving *)

Section interleaving.
Context `{World : FileWorld} `{Resolver : !DomainResolver} `{KL : KernelLayout}.

Record config := Config {
  c_mem : mem;
  c_daemon : daemon;
  c_threads : list thread;
}.

Inductive conc_step (allowed : EnrollmentRequest -> Prop) : config -> config -> Prop :=
| conc_hook m d ths s' ev :
    by_kernel ev -> step ev (d_bpf d) s' -> event_sees m (d_bpf d) ev ->
    conc_step allowed (Config m d ths) (Config m (set_bpf s' d) ths)
| conc_change m m' d ths :
    generation (d_bpf d) + 1 < 2 ^ 32 ->
    conc_step allowed (Config m d ths) (Config m' (set_bpf (bump_generation (d_bpf d)).2 d) ths)
| conc_begin m d ths pid req :
    allowed req ->
    conc_step allowed (Config m d ths) (Config m (begin_request pid req d) (request_thread pid req d :: ths))
| conc_run m d pre post th th' s' :
    thread_step (th, d_bpf d) (th', s') ->
    conc_step allowed (Config m d (pre ++ th :: post)) (Config m (set_bpf s' d) (pre ++ th' :: post)).

(** A thread runs to its end while nothing else does. *)
Lemma thread_alone_at allowed m d pre post th th' s' :
  rtc thread_step (th, d_bpf d) (th', s') ->
  rtc (conc_step allowed) (Config m d (pre ++ th :: post)) (Config m (set_bpf s' d) (pre ++ th' :: post)).
Proof.
  remember (th, d_bpf d) as c eqn:Hc. remember (th', s') as c' eqn:Hc'. intros Hr. revert th d Hc.
  induction Hr as [c|c [th1 s1] c' Hst _ IH]; intros th d ->.
  - injection Hc' as <- <-. by destruct d; constructor.
  - eapply rtc_l; [apply (conc_run allowed m d pre post th th1 s1 Hst)|].
    specialize (IH Hc' th1 (set_bpf s1 d) eq_refl). by destruct d.
Qed.

Lemma thread_alone allowed m d ths th th' s' :
  rtc thread_step (th, d_bpf d) (th', s') ->
  rtc (conc_step allowed) (Config m d (th :: ths)) (Config m (set_bpf s' d) (th' :: ths)).
Proof. apply (thread_alone_at allowed m d [] ths). Qed.

(** The runs of RoleLife.v are the runs in which no two requests overlap. *)
Lemma life_conc allowed c c' :
  rtc (life_step allowed) c c' -> forall ths, exists ths',
  rtc (conc_step allowed) (Config c.1 c.2 ths) (Config c'.1 c'.2 ths').
Proof.
  induction 1 as [c|c c1 c' Hst _ IH]; intros ths; [by exists ths|].
  destruct Hst as [m d s' ev Hk Hev Hsee|m d pid req Ha|m m' d Hg]; cbn [fst snd] in *.
  - destruct (IH ths) as [ths' H]. exists ths'. eapply rtc_l; [by apply (conc_hook allowed m d ths s' ev)|done].
  - destruct (IH ([] :: ths)) as [ths' H]. exists ths'. eapply rtc_l; [by apply (conc_begin allowed m d ths pid req)|].
    pose proof (thread_alone allowed m (begin_request pid req d) ths _ _ _
      (thread_runs (request_thread pid req d) (d_bpf d))) as Hrun.
    rewrite <-request_adequate in Hrun. etransitivity; [exact Hrun|].
    unfold begin_request, set_bpf. cbn [d_policy d_attrs]. by destruct (handle_client pid req d).2.
  - destruct (IH ths) as [ths' H]. exists ths'. eapply rtc_l; [by apply (conc_change allowed m m' d ths)|done].
Qed.

(** ** Rules that do not contradict each other *)

(** No two writes of the role's port or path rules disagree on a row. *)
Definition consistent (role : Role) : Prop :=
  forall n, n ∈ [N_network_rules; N_path_states] ->
  forall w w', w ∈ section_writes role n -> w' ∈ section_writes role n -> w_key w = w_key w' -> w_value w = w_value w'.

(** An operation that leaves the tables of the role as they are. *)
Definition benign (role : Role) (a : action) : Prop :=
  match a with
  | AStep (inl w) =>
      w_map w ∈ policy_maps -> role_key (r_id role) (w_key w) ->
      last_write (w_map w) (w_key w) (role_writes role) = Some (w_value w)
  | AStep (inr _) => True
  | ADelete n _ => n ∉ policy_maps
  end.

Definition benign_thread (role : Role) (th : thread) : Prop := Forall (fun g : segment => Forall (benign role) g.2) th.

Lemma benign_action role a s :
  benign role a -> tables_of role s ->
  user_frame s (run_action a s).2 /\ tables_of role (run_action a s).2.
Proof.
  intros Hb Ht. destruct a as [[w|e]|n k]; cbn [run_action run_step benign] in *.
  - pose proof (touches_update (fun n k => n = w_map w /\ k = w_key w) (w_map w) (w_key w) (w_value w) (conj eq_refl eq_refl) s)
      as [Hf Hrow]. split; [done|]. intros n k Hn Hk. rewrite <-Ht by done.
    destruct (decide (n = w_map w /\ k = w_key w)) as [[-> ->]|Hne]; [|by apply Hrow].
    unfold do_write, update. destruct (_ || _); [|done]. cbn [snd]. rewrite map_by_name_set_eq, lookup_insert_eq, Ht by done.
    symmetry. by apply Hb.
  - done.
  - pose proof (touches_delete (fun n' _ => n' = n) n k eq_refl s) as [Hf Hrow]. split; [done|].
    intros n' k' Hn Hk. rewrite <-Ht by done. apply Hrow. intros ->. done.
Qed.

(** What every operation of a thread does to the state, its next step does. *)
Lemma step_actions (Q : action -> Prop) (R : relation bpf_state) th s th' s' :
  (forall s0, R s0 s0) ->
  (forall a s0, Q a -> R s0 (run_action a s0).2) ->
  thread_step (th, s) (th', s') -> Forall (fun g : segment => Forall Q g.2) th ->
  Forall (fun g : segment => Forall Q g.2) th' /\ R s s'.
Proof.
  intros Hrefl HR Hst Hq. inversion Hst as [b th0 s0|b a acts th0 s0 s1 Ha|a acts th0 s0 e s1 Ha|a acts th0 s0 e s1 Ha]; subst;
    apply Forall_cons in Hq as [Hg Hq]; cbn [snd] in Hg; [done|..];
    apply Forall_cons in Hg as [Ha' Hg]; pose proof (HR a s Ha') as Hr; rewrite Ha in Hr; cbn [snd] in Hr; split; try done.
  by constructor.
Qed.

(** One step of a benign thread. *)
Lemma benign_step role th s th' s' :
  thread_step (th, s) (th', s') -> benign_thread role th -> tables_of role s ->
  benign_thread role th' /\ user_frame s s' /\ tables_of role s'.
Proof.
  intros Hst Hb Ht.
  destruct (step_actions (benign role) (fun s s' => tables_of role s -> user_frame s s' /\ tables_of role s') th s th' s')
    as [? Hr]; [by split|intros a s0 Ha Ht0; by apply benign_action|done|done|]. split; [done|]. by apply Hr.
Qed.

(** ** Requests of a role in force *)

Lemma benign_elsewhere role n k v : n ∉ policy_maps -> benign role (AStep (inl (Write n k v))).
Proof. by intros Hn ? _. Qed.

Lemma enrollment_map_elsewhere n :
  n ∈ [N_pending_enrollments; N_exec_enrollment; N_cgroup_enrollment] -> n ∉ policy_maps.
Proof. unfold policy_maps. intros Hn. set_unfold. intuition congruence. Qed.

(** Steps that write rows of another role. *)
Lemma benign_other role role_id steps :
  in_width 32 role_id -> in_width 32 (r_id role) -> role_id <> r_id role ->
  (forall w, inl w ∈ steps -> role_key role_id (w_key w)) -> Forall (benign role) (writes_of steps).
Proof.
  intros Hi Hr Hne Hk. apply Forall_forall. intros a (st & -> & Hin)%list_elem_of_fmap.
  destruct st as [w|e]; [|done]. intros _ Hown. destruct Hne. by apply (role_key_inj _ _ (w_key w)); [..|apply Hk|].
Qed.

(** Steps that repeat a section of the role. *)
Lemma benign_section role n steps :
  consistent role -> n ∈ [N_role_flags; N_network_rules; N_path_states] ->
  (forall w, inl w ∈ steps -> w ∈ section_writes role n) -> Forall (benign role) (writes_of steps).
Proof.
  intros Hc Hn Hs. apply Forall_forall. intros a (st & -> & Hin)%list_elem_of_fmap.
  destruct st as [w|e]; [|done]. intros Hp _. apply Hs in Hin as Hw.
  assert (w_map w = n) as Hm by (apply section_map in Hw as [?|[_ ?]]; [done|set_solver]).
  rewrite role_last_write, Hm by done. destruct (last_write n (w_key w) (section_writes role n)) as [v|] eqn:Hl.
  - unfold last_write in Hl. apply fmap_Some in Hl as (w' & [Hw' [_ Hkey]]%last_such_Some & ->). f_equal.
    apply elem_of_cons in Hn as [->|Hn]; [|by apply (Hc n)].
    cbn [section_writes] in Hw, Hw'. apply list_elem_of_singleton in Hw as ->. by apply list_elem_of_singleton in Hw' as ->.
  - apply last_write_None in Hl. rewrite Forall_forall in Hl. by destruct (Hl w Hw).
Qed.

Lemma path_steps_in role_id role w : inl w ∈ path_steps role_id role -> w ∈ state_writes N_path_states role_id (file_rules role).
Proof.
  unfold path_steps. case_match; [by intros ?%list_elem_of_singleton|]. by intros (? & [= ->] & ?)%list_elem_of_fmap.
Qed.

(** What an enrollment writes of the role it names. *)
Lemma enrolled_benign role role_id role' steps :
  consistent role -> in_width 32 (r_id role) -> in_width 32 role_id ->
  (role_id = r_id role -> role' = role) ->
  steps ∈ [flags_steps role_id role'; network_steps role_id role'; path_steps role_id role'] ->
  Forall (benign role) (writes_of steps).
Proof.
  intros Hc Hr Hi Hown Hs. destruct (decide (role_id = r_id role)) as [Heq|Hne].
  - rewrite (Hown Heq), Heq in Hs. apply elem_of_cons in Hs as [->|[->|[->|[]%elem_of_nil]%elem_of_cons]%elem_of_cons].
    + apply (benign_section role N_role_flags); [done|set_solver|]. intros w [= ->]%list_elem_of_singleton. set_solver.
    + apply (benign_section role N_network_rules); [done|set_solver|]. by intros w (? & [= ->] & ?)%list_elem_of_fmap.
    + apply (benign_section role N_path_states); [done|set_solver|]. intros w. apply path_steps_in.
  - apply (benign_other role role_id); [done..|]. intros w Hw. apply elem_of_cons in Hs as [->|[->|[->|[]%elem_of_nil]%elem_of_cons]%elem_of_cons].
    + by apply list_elem_of_singleton in Hw as [= ->].
    + apply list_elem_of_fmap in Hw as (? & [= ->] & (r & (? & ? & ? & ->)%network_write_in & _)%list_elem_of_bind). done.
    + apply path_steps_in, state_write_key in Hw as (_ & st & h & Hk). by rewrite Hk.
Qed.

Lemma role_steps_in role w : inl w ∈ role_steps role -> role_key (r_id role) (w_key w).
Proof. intros Hw. apply role_write_key. apply list_elem_of_omap. by exists (inl w). Qed.

Lemma file_benign role n path pod_id role_id d :
  n ∈ [N_pending_enrollments; N_exec_enrollment; N_cgroup_enrollment] ->
  consistent role -> in_width 32 (r_id role) -> in_width 32 role_id ->
  get_role (d_policy d) (r_id role) = Some role -> benign_thread role (file_thread n path pod_id role_id d).
Proof.
  intros Hn%enrollment_map_elsewhere Hc Hr Hi Hg. unfold file_thread. destruct (inode_of path) as [ino|]; [|constructor].
  destruct (get_role (d_policy d) role_id) as [role'|] eqn:Hg'; [|constructor].
  assert (role_id = r_id role -> role' = role) as Hown by congruence.
  pose proof (fun steps => enrolled_benign role role_id role' steps Hc Hr Hi Hown) as Hb.
  apply Forall_singleton. cbn [snd]. unfold writes_of. rewrite !fmap_app, !Forall_app.
  split_and!; [apply Hb; set_solver..|]. apply Forall_singleton, benign_elsewhere, Hn.
Qed.

Lemma release_benign role n path :
  n ∈ [N_pending_enrollments; N_exec_enrollment; N_cgroup_enrollment] -> benign_thread role (release_thread n path).
Proof.
  intros Hn%enrollment_map_elsewhere. unfold release_thread. destruct (inode_of path); [|constructor].
  by apply Forall_singleton, Forall_singleton.
Qed.

(** No request that spares the id has a thread that harms the role. *)
Lemma request_benign role pid req d :
  consistent role -> in_width 32 (r_id role) -> get_role (d_policy d) (r_id role) = Some role ->
  spares (r_id role) req -> benign_thread role (request_thread pid req d).
Proof.
  intros Hc Hr Hg [Hok Hd].
  destruct req as [pod role_id|p|path pod role_id|path|role'|path pod role_id|path|path pod role_id|path|path];
    cbn [request_thread]; try constructor; try (apply release_benign; set_solver).
  - specialize (Hok role_id eq_refl). destruct (get_role (d_policy d) role_id) as [role'|] eqn:Hg'; [|constructor].
    assert (role_id = r_id role -> role' = role) as Hown by congruence.
    pose proof (fun steps => enrolled_benign role role_id role' steps Hc Hr Hok Hown) as Hb.
    unfold benign_thread. rewrite !Forall_cons. cbn [snd]. split_and!; [apply Hb; set_solver..| |constructor].
    apply Forall_singleton, benign_elsewhere, enrollment_map_elsewhere. set_solver.
  - apply file_benign; [set_solver|done..|by apply (Hok role_id)|done].
  - destruct (unenforced_settings role'); [|constructor]. apply Forall_singleton. cbn [snd].
    apply (benign_other role (r_id role')); [by apply Hok|done|by apply Hd|]. apply role_steps_in.
  - apply file_benign; [set_solver|done..|by apply (Hok role_id)|done].
Qed.

(** ** The invariant *)

Definition conc_inv (role : Role) (c : config) : Prop :=
  in_force role (c_mem c) (c_daemon c) /\ Forall (benign_thread role) (c_threads c).

Lemma conc_step_inv role c c' :
  consistent role -> conc_step (spares (r_id role)) c c' -> conc_inv role c -> conc_inv role c'.
Proof.
  intros Hcons Hst [Hf Hb]. destruct Hst as [m d ths s' ev Hk Hev Hsee|m m' d ths Hgen|m d ths pid req Hsp
    |m d pre post th th' s' Hrun]; cbn [c_mem c_daemon c_threads] in *.
  - split; [|done]. by apply (life_step_in_force role (m, d) (m, set_bpf s' d)); [apply (life_hook _ m d s' ev)|].
  - split; [|done]. by apply (life_step_in_force role (m, d) (m', set_bpf (bump_generation (d_bpf d)).2 d)); [apply life_change|].
  - destruct Hf as [Hok Hfree Hg Ht Hc]. split; cbn [c_mem c_daemon c_threads].
    + split; try done. cbn [begin_request d_policy]. by apply request_known; [|apply Hsp].
    + constructor; [|done]. apply request_benign; [done|apply Hok|done..].
  - destruct Hf as [Hok Hfree Hg Ht Hc]. apply Forall_app in Hb as [Hpre [Hth Hpost]%Forall_cons].
    destruct (benign_step role th (d_bpf d) th' s' Hrun Hth Ht) as (Hth' & Hfr & Ht').
    split; cbn [c_mem c_daemon c_threads]; [|apply Forall_app; split; [done|by constructor]].
    split; try done. apply (cache_inv_rows _ _ (d_bpf d)); [done|by eapply frame_state_ok; [|apply Hc]|..|done].
    intros n k Hn Hkey. by rewrite Ht', Ht.
Qed.

Lemma conc_in_force role c c' :
  consistent role -> rtc (conc_step (spares (r_id role))) c c' -> conc_inv role c -> conc_inv role c'.
Proof. intros Hcons. induction 1; eauto using conc_step_inv. Qed.
End interleaving.

(** ** Runs that overlap *)

(** Runs of the daemon, as runs without overlap and then a thread part way. *)
Lemma overlapping `{World : FileWorld} `{Resolver : !DomainResolver} `{KL : KernelLayout} allowed m0 d0 m d pid req n :
  rtc (life_step allowed) (m0, d0) (m, d) -> allowed req ->
  let run := thread_after n (request_thread pid req d) (d_bpf d) in
  exists ths, rtc (conc_step allowed) (Config m0 d0 []) (Config m (set_bpf run.2 (begin_request pid req d)) (run.1 :: ths)).
Proof.
  intros Hl Ha run. destruct (life_conc allowed _ _ Hl []) as [ths H]. exists ths. etransitivity; [exact H|].
  eapply rtc_l; [by apply (conc_begin allowed m d ths pid req)|].
  apply (thread_alone allowed m (begin_request pid req d)). cbn [begin_request d_bpf]. unfold run.
  rewrite <-surjective_pairing. apply thread_after_steps.
Qed.

Definition consistentb `{Resolver : !DomainResolver} (role : Role) : bool :=
  forallb (fun n => forallb (fun w => forallb (fun w' =>
    negb (bool_decide (w_key w = w_key w')) || bool_decide (w_value w = w_value w'))
    (section_writes role n)) (section_writes role n)) [N_network_rules; N_path_states].

Lemma consistentb_ok `{Resolver : !DomainResolver} role : consistentb role = true -> consistent role.
Proof.
  unfold consistentb. intros H n Hn w w' Hw Hw' Hk. rewrite forallb_forall in H.
  specialize (H n ltac:(by apply list_elem_of_In)). rewrite forallb_forall in H.
  specialize (H w ltac:(by apply list_elem_of_In)). rewrite forallb_forall in H.
  specialize (H w' ltac:(by apply list_elem_of_In)). apply orb_prop in H as [H|H].
  - by rewrite bool_decide_eq_true_2 in H.
  - by apply bool_decide_eq_true in H.
Qed.

(** ** Property *)

(** C3. A well-formed role of the policy whose rules do not contradict each
    other, and whose own application at the start of the daemon succeeded, is
    enforced under every interleaving of requests that do not define its id
    again. Start the daemon on a policy whose role ids differ, and let any
    number of connections be served at once, each request a moment under the
    lock and then a sequence of single map operations, with the hooks and the
    filesystem changes and the operations of the other requests between any two
    of them. As long as no request gives the role's id another definition and
    the generation of the cache does not wrap, the role is enforced, also in the
    middle of a request that applies it again. Enforced means ([enforces]):
    every bind, connect, module load and bpf call of a task jailed under the
    role, every ptrace of such a task, and every open and exec by one whose path
    the walk collects in full and whose names and states do not collide with
    those of the rules, is decided by the role's rules and flags. *)
Theorem concurrent_role_enforced `{World : FileWorld} `{Resolver : !DomainResolver} `{KL : KernelLayout}
    (policy : option (PolicyConfig * list (bytes * Role))) (order pre post : list (bytes * Role)) (name : bytes)
    (role : Role) (sk : list skip) (a : attrs) (m0 m : mem) (d : daemon) (ths : list thread) :
  policy_ok policy -> order ≡ₚ map_to_list (pc_roles (pm_config (start_policy policy))) ->
  order = pre ++ (name, role) :: post -> role_ok role -> consistent role ->
  (apply_role (Sink := TrackerSink) role (walk pre.*2 (fresh_maps order))).1 = inr sk ->
  rtc (conc_step (spares (r_id role))) (Config m0 (start policy order init_state a) []) (Config m d ths) ->
  enforces role m (d_bpf d).
Proof.
  intros Hpol Hp Ho Hok Hcons Ha Hrun. apply in_force_enforces.
  apply (conc_in_force role _ _ Hcons) in Hrun as [Hf _]; [done|]. split; [|constructor].
  by eapply started_in_force.
Qed.

(** After [solo_jailed] of RoleLife.v a second process enrolls under the same
    role; its thread stops after [n] steps. *)
Definition second_run (n : nat) (role : Role) : thread * bpf_state :=
  thread_after n (request_thread (World := test_world) (Resolver := one_name) 43 (Enroll 6 7) (solo_jailed role))
    (d_bpf (World := test_world) (solo_jailed role)).

Definition second_daemon (n : nat) (role : Role) : daemon (World := test_world) :=
  set_bpf (World := test_world) (second_run n role).2
    (begin_request (World := test_world) (Resolver := one_name) 43 (Enroll 6 7) (solo_jailed role)).

Lemma second_reached n role :
  in_width 32 (r_id role) -> r_id role = 7 -> exists ths,
  rtc (conc_step (World := test_world) (Resolver := one_name) (spares (r_id role)))
    (Config (World := test_world) mem_etc (solo_start role) []) (Config (World := test_world) mem_etc (second_daemon n role) ths).
Proof.
  intros Hw Hid. pose proof (overlapping (World := test_world) (Resolver := one_name) (spares (r_id role)) mem_etc
    (solo_start role) mem_etc (solo_jailed role) 43 (Enroll 6 7) n (solo_run role Hw Hid) (solo_spares role 6 Hw Hid)) as [ths H].
  by exists ((second_run n role).1 :: ths).
Qed.

(** Pid 43 is half way through its enrollment: the flags and the first port rows
    are written again, the pending row is not. *)
Lemma concurrent_role_enforced_witness :
  (socket_connect (env_with mem_etc) SOCK ADDR4 (d_bpf (World := test_world) (second_daemon 4 agent_role))).1 = 0.
Proof.
  destruct (second_reached 4 agent_role agent_id eq_refl) as [ths Hrun].
  pose proof (concurrent_role_enforced (World := test_world) (Resolver := one_name) (solo_policy agent_role)
      (solo_order agent_role) [] [] (text "agent") agent_role
      [SkipNetworkRule (text "icmp"); SkipUnresolved (text "nowhere")] ∅ mem_etc mem_etc _ ths
      (solo_policy_ok agent_role agent_id)
      (solo_roles agent_role ltac:(vm_compute; exact eq_refl)) eq_refl agent_role_ok
      (consistentb_ok agent_role ltac:(vm_compute; exact eq_refl)) ltac:(vm_compute; reflexivity) Hrun) as He.
  apply (en_connect _ _ _ He (env_with mem_etc) SOCK ADDR4 (Some (Ipv4 10 1 2 3)) 443).
  - exists (ProcessInfo 5 7 0 0). split_and!; [vm_compute; reflexivity|vm_compute; congruence|reflexivity].
  - split_and!; [apply Ipv4_ok; unfold is_byte; lia|vm_compute; congruence|vm_compute; reflexivity].
  - vm_compute. reflexivity.
Defined.

(** ** A role whose rules contradict each other *)

(** The later rule takes the port back. *)
Definition flip_role : Role :=
  MkRole 7 (text "flip") (r_flags agent_role) []
    [MkNetworkRule (text "TCP") None (Some 443) None None true; MkNetworkRule (text "TCP") None (Some 443) None None false]
    [] false [] [] None.

(** While a second enrollment writes the rules again, the earlier one decides:
    the jailed task binds a port that its role denies, before the request and
    after it. *)
Lemma contradiction_window :
  (exists ths, rtc (conc_step (World := test_world) (Resolver := one_name) (spares (r_id flip_role)))
    (Config (World := test_world) mem_etc (solo_start flip_role) [])
    (Config (World := test_world) mem_etc (second_daemon 3 flip_role) ths))
  /\ jailed_as (env_with mem_etc) (r_id flip_role) (d_bpf (World := test_world) (second_daemon 3 flip_role))
  /\ port_permitted flip_role (endpoint mem_etc SOCK ADDR4) = false
  /\ (fun n => (socket_bind (env_with mem_etc) SOCK ADDR4 (d_bpf (World := test_world) (second_daemon n flip_role))).1)
     <$> [0%nat; 3%nat; 20%nat] = [- EACCES; 0; - EACCES].
Proof.
  split_and!.
  - apply second_reached; [vm_compute; split; congruence|exact eq_refl].
  - exists (ProcessInfo 5 7 0 0). split_and!; [vm_compute; reflexivity|vm_compute; congruence|exact eq_refl].
  - vm_compute. exact eq_refl.
  - vm_compute. exact eq_refl.
Qed.
