(* ===== verification/Overlap.v ===== *)
(** * Definitions and enrollments under overlap

    Ledger.v follows one request at a time; here the requests overlap as in
    Threads.v.  The invariant [pool_inv] says that the maps, the cache, the task
    records and all that the running threads still have to write mention only
    roles the manager knows, so no task is ever jailed under an unknown role
    ([jailed_roles_known]).  A role defined while other requests are served is
    therefore written onto nothing, and is in force as soon as the last operation
    of its definition has succeeded ([concurrent_definition_enforced]). *)

From S2P Require Import Prelude CLayout BpfMap Rust Kernel KernelTypes Types Machine Scenario Hash PathWalk StateMachine Enrollment Hooks FileOpen Network Codec Patterns Parse Loader Policy Apply Exec Guards RolePolicy RoleLimits System Coherence Daemon DaemonRuns Footprint Bootstrap Loaders RoleLife Ledger Threads.

(** ** The roles tasks are jailed under *)

Definition enrollment_maps : list map_name := [N_pending_enrollments; N_exec_enrollment; N_cgroup_enrollment].

(** The role a row of one of these tables names. *)
Definition row_role (n : map_name) (row : bytes) : Z :=
  match n with
  | N_pending_enrollments => pi_role_id (of_bytes process_info_repr row)
  | _ => ev_role_id (of_bytes exec_enrollment_value_repr row)
  end.

(** Every role a task is jailed under, or can come to be, satisfies [P]. *)
Record jail_roles (P : Z -> Prop) (s : bpf_state) : Prop := {
  jr_tasks : forall t info, m_task_storage s !! t = Some info -> pi_pod_id info <> 0 -> P (pi_role_id info);
  jr_rows : forall n k row, n ∈ enrollment_maps -> map_by_name n s !! k = Some row -> P (row_role n row);
}.

Lemma jail_roles_mono (P Q : Z -> Prop) s : (forall i, P i -> Q i) -> jail_roles P s -> jail_roles Q s.
Proof. intros HPQ [Ht Hr]. split; eauto. Qed.

Section hooks.
Context `{KL : KernelLayout}.
Context (P : Z -> Prop).

(** Nothing but the tables and the records matters. *)
Lemma jail_roles_ext s s' :
  m_task_storage s' = m_task_storage s -> (forall n, n ∈ enrollment_maps -> map_by_name n s' = map_by_name n s) ->
  jail_roles P s -> jail_roles P s'.
Proof.
  intros Ht Hm [H1 H2]. split.
  - rewrite Ht. exact H1.
  - intros n k row Hn. rewrite Hm by done. by apply H2.
Qed.

Lemma pending_role s pid p : jail_roles P s -> pending_for s pid = Some p -> P (pi_role_id p).
Proof.
  intros Hj. unfold pending_for. rewrite map_lookup_hash by done.
  destruct (m_pending_enrollments s !! _) as [row|] eqn:Hr; [|done]. cbn [fmap option_fmap option_map].
  case_match; [done|]. intros [= <-].
  apply (jr_rows P s Hj N_pending_enrollments _ row) in Hr; [done|unfold enrollment_maps; set_solver].
Qed.

Lemma auto_enrollment_role e s bprm v :
  jail_roles P s -> auto_enrollment e s bprm = Some v -> P (ev_role_id v).
Proof.
  intros Hj. assert (forall k w, map_lookup exec_enrollment (m_exec_enrollment s) k = Some w -> P (ev_role_id w)) as He.
  { intros k w. rewrite map_lookup_hash by done. intros (row & Hr & ->)%fmap_Some.
    apply (jr_rows P s Hj N_exec_enrollment _ row) in Hr; [done|unfold enrollment_maps; set_solver]. }
  assert (forall k w, map_lookup cgroup_enrollment (m_cgroup_enrollment s) k = Some w -> P (ev_role_id w)) as Hc.
  { intros k w. rewrite map_lookup_hash by done. intros (row & Hr & ->)%fmap_Some.
    apply (jr_rows P s Hj N_cgroup_enrollment _ row) in Hr; [done|unfold enrollment_maps; set_solver]. }
  unfold auto_enrollment. destruct (exec_enrollment_for e s bprm) as [w|] eqn:Hw.
  - intros [= <-]. unfold exec_enrollment_for in Hw. repeat case_match; try done. by eapply He.
  - unfold cgroup_enrollment_for. generalize (fun w => Hc (e_cgroup_id e) w).
    generalize (map_lookup cgroup_enrollment (m_cgroup_enrollment s) (e_cgroup_id e)).
    generalize MAX_CGROUP_DEPTH. intros l. induction l as [|l IH]; intros x Hx; cbn [ancestor_loop]; [apply Hx|].
    destruct x as [w|]; [apply Hx|]. apply IH. intros w. case_match; [done|]. apply Hc.
Qed.

Lemma insert_record s t info :
  (pi_pod_id info <> 0 -> P (pi_role_id info)) -> jail_roles P s -> jail_roles P (set_task_storage <[t := info]> s).
Proof.
  intros Hi [H1 H2]. split; [|exact H2]. cbn [m_task_storage set_task_storage].
  intros t' i. destruct (decide (t' = t)) as [->|Hne]; [rewrite lookup_insert_eq; by intros [= <-]|].
  rewrite lookup_insert_ne by done. apply H1.
Qed.

Lemma delete_pending_jail s pid :
  jail_roles P s -> jail_roles P (set_pending_enrollments (fun m => (map_delete pending_enrollments m pid).2) s).
Proof.
  intros [H1 H2]. split; [exact H1|]. intros n k row Hn Hr. apply (H2 n k row Hn).
  destruct n; try exact Hr. cbn [map_by_name m_pending_enrollments set_pending_enrollments] in *.
  unfold map_delete in Hr. case_bool_decide; [|done]. cbn [snd] in Hr. by apply lookup_delete_Some in Hr as [_ Hr].
Qed.

Lemma after_pending_jail e s : jail_roles P s -> jail_roles P (after_pending e s).
Proof.
  intros Hj. unfold after_pending. destruct (pending_for s (current_pid e)) as [p|] eqn:Hp.
  - rewrite (check_pending_some _ _ _ _ _ Hp). apply delete_pending_jail. case_match; [|done].
    apply insert_record; [|done]. intros _. by eapply pending_role.
  - by rewrite (check_pending_none _ _ _ _ Hp).
Qed.

Lemma decision_jail s s' : decision_frame s s' -> jail_roles P s -> jail_roles P s'.
Proof.
  unfold decision_frame. intros Hf. destruct_and!. apply jail_roles_ext; [done|]. intros n Hn. unfold enrollment_maps in Hn.
  repeat (apply elem_of_cons in Hn as [->|Hn]; [done|]). by apply elem_of_nil in Hn.
Qed.

Lemma audit_only_jail {A} (res : A * bpf_state) s :
  res.2 = s \/ (exists ev, res.2 = set_audit_events (cons ev) s) -> jail_roles P s -> jail_roles P res.2.
Proof. intros [->|[ev ->]]; [done|]. apply jail_roles_ext; [done|]. by intros []. Qed.

Lemma bump_jail s : jail_roles P s -> jail_roles P (bump_generation s).2.
Proof. rewrite bump_generation_eq. apply jail_roles_ext; [done|]. by intros []. Qed.

Lemma task_alloc_jail e task s :
  task <> e_current_task e -> jail_roles P s -> jail_roles P (task_alloc e task s).2.
Proof.
  intros Hne Hj. destruct (bool_decide (is_Some (m_task_storage s !! task)) || e_storage_alloc e task) eqn:Ha.
  - destruct (task_alloc_frame e task s) as [Hf Hp]. unfold enrollment_frame in Hf. destruct_and!. split.
    + intros t info Ht Hpod. destruct (decide (t = task)) as [->|Hd].
      * rewrite task_alloc_child in Ht by done. injection Ht as <-.
        destruct (m_task_storage s !! e_current_task e) as [parent|] eqn:Hpar; [|done].
        destruct (pi_pod_id parent =? 0); [done|]. by eapply (jr_tasks P s Hj).
      * rewrite task_alloc_storage in Ht by done. by eapply (jr_tasks P s Hj).
    + intros n k row Hn. unfold enrollment_maps in Hn.
      repeat (apply elem_of_cons in Hn as [->|Hn]; [cbn [map_by_name]; simplify_eq|]); [..|by apply elem_of_nil in Hn].
      * rewrite Hp. apply (jr_rows P s Hj N_pending_enrollments). unfold enrollment_maps. set_solver.
      * intros Hr. apply (jr_rows P s Hj N_exec_enrollment k); [unfold enrollment_maps; set_solver|]. cbn. congruence.
      * intros Hr. apply (jr_rows P s Hj N_cgroup_enrollment k); [unfold enrollment_maps; set_solver|]. cbn. congruence.
  - apply orb_false_iff in Ha as [Hs Ha]. rewrite task_alloc_fail; [done| |done].
    apply bool_decide_eq_false in Hs. by apply eq_None_not_Some.
Qed.

Lemma file_open_jail e file s : jail_roles P s -> jail_roles P (file_open e file s).2.
Proof.
  intros Hj%(after_pending_jail e). rewrite file_open_eq. destruct (m_task_storage _ !! _) as [info|]; [|done].
  destruct (pi_pod_id info =? 0); [done|].
  assert (forall s1 ctx, jail_roles P s1 -> jail_roles P (audit_deny e info AUDIT_HOOK_FILE_OPEN ctx s1).2) as Hd
    by (intros s1 ctx; apply jail_roles_ext; [done|by intros []]).
  destruct (map_lookup role_flags _ _) as [flags|]; [|by apply Hd].
  destruct (f_path_dentry (e_mem e) file =? 0); [case_match; [by apply Hd|done]|].
  pose proof (decision_jail _ _ (file_path_decision_frame e info (f_path_dentry (e_mem e) file)
      (f_path_mnt (e_mem e) file) (after_pending e s)) Hj) as H2.
  destruct (file_path_decision _ _ _ _ _) as [[r|] s']; [done|]. case_match; [by apply Hd|done].
Qed.

Lemma bprm_jail e bprm s : jail_roles P s -> jail_roles P (bprm_check_security e bprm s).2.
Proof.
  intros Hj. pose proof (after_pending_jail e s Hj) as Hj1.
  destruct (exec_info e s) as [info|] eqn:Hi; [|by rewrite bprm_no_storage].
  destruct (Z.eq_dec (pi_pod_id info) 0) as [Hp|Hp].
  - rewrite (bprm_unjailed _ _ _ _ Hi Hp). cbn [snd].
    assert (jail_roles P (exec_state e s)) as Hj2.
    { unfold exec_state. case_match; [done|]. by apply insert_record. }
    destruct (auto_enrollment e s bprm) as [v|] eqn:Hv; [|done]. apply insert_record; [|done].
    intros _. exact (auto_enrollment_role e s bprm v Hj Hv).
  - rewrite (bprm_jailed _ _ _ _ Hi Hp).
    assert (forall s1 ctx, jail_roles P s1 -> jail_roles P (audit_deny e info AUDIT_HOOK_BPRM_CHECK ctx s1).2) as Hd
      by (intros s1 ctx; apply jail_roles_ext; [done|by intros []]).
    destruct (map_lookup role_flags _ _) as [flags|]; [|by apply Hd].
    destruct (bprm_file (e_mem e) bprm =? 0); [case_match; [by apply Hd|done]|].
    destruct (exec_path_decision_frame e info (bprm_file (e_mem e) bprm) (after_pending e s)) as [H2 _].
    apply decision_jail in H2; [|done].
    destruct (exec_path_decision _ _ _ _) as [[r|] s']; [done|]. case_match; [by apply Hd|done].
Qed.

(** No hook brings a role that was not there. *)
Lemma hook_jail ev s s' : step ev s s' -> by_kernel ev -> jail_roles P s -> jail_roles P s'.
Proof.
  intros [ev' s0 Hen] Hk Hj. pose proof (bump_jail s0 Hj) as Hb.
  destruct ev' as [e task|e file|e sock a|e sock a|e sock msg sz|e bprm|e d| | |e child|e k|e c a z
      |pid i|s''|task]; cbn [run_event enabled by_kernel] in *; try done.
  - apply task_alloc_jail; [apply Hen|done].
  - by apply file_open_jail.
  - by eapply audit_only_jail; [apply socket_bind_frame|].
  - by eapply audit_only_jail; [apply socket_connect_frame|].
  - by apply bprm_jail.
  - unfold path_rename, bind, ret. case_match; [done|]. by destruct (bump_generation s0).
  - by eapply audit_only_jail; [apply ptrace_frame|].
  - by eapply audit_only_jail; [apply guard_current_frame|].
  - by eapply audit_only_jail; [apply guard_current_frame|].
  - destruct Hj as [H1 H2]. split; [|exact H2]. cbn. intros t info [_ Ht]%lookup_delete_Some. by apply (H1 t).
Qed.
End hooks.

(** ** What threads may still write *)

(** The operation mentions only roles that satisfy [P]. *)
Definition action_names (P : Z -> Prop) (a : action) : Prop :=
  match a with
  | AStep (inl w) =>
      (w_map w ∈ policy_maps -> exists role_id, P role_id /\ role_key role_id (w_key w))
      /\ (w_map w ∈ enrollment_maps -> P (row_role (w_map w) (w_value w)))
  | AStep (inr _) => True
  | ADelete n _ => n ∉ policy_maps
  end.

Definition thread_names (P : Z -> Prop) (th : thread) : Prop :=
  Forall (fun g : segment => Forall (action_names P) g.2) th.

Lemma action_names_mono (P Q : Z -> Prop) a : (forall i, P i -> Q i) -> action_names P a -> action_names Q a.
Proof.
  intros HPQ. destruct a as [[w|e]|n k]; [|done|done]. intros [H1 H2]. split; [|by eauto].
  intros Hn. destruct (H1 Hn) as (i & Hi & Hk). exists i. eauto.
Qed.

Lemma thread_names_mono (P Q : Z -> Prop) th : (forall i, P i -> Q i) -> thread_names P th -> thread_names Q th.
Proof.
  intros HPQ Hth. eapply Forall_impl; [exact Hth|]. intros g Hg. eapply Forall_impl; [exact Hg|].
  intros a. by apply action_names_mono.
Qed.

(** The tables of enrollments are none of the policy's. *)
Lemma enrollment_not_policy n : n ∈ enrollment_maps -> n ∉ policy_maps.
Proof. apply enrollment_map_elsewhere. Qed.

(** What such an operation does to the maps. *)
Definition named_change (P : Z -> Prop) (s s' : bpf_state) : Prop :=
  user_frame s s' /\ (jail_roles P s -> jail_roles P s')
  /\ forall n k, n ∈ policy_maps ->
       map_by_name n s' !! k = map_by_name n s !! k \/ exists role_id, P role_id /\ role_key role_id k.

Lemma named_change_refl P s : named_change P s s.
Proof. split_and!; [done..|]. intros n k _. by left. Qed.

Lemma action_change P a s : action_names P a -> named_change P s (run_action a s).2.
Proof.
  intros Ha. destruct a as [[w|e]|n k]; cbn [run_action run_step action_names] in *;
    [|apply named_change_refl|].
  - destruct Ha as [Hpol Henr].
    pose proof (touches_update (fun n k => n = w_map w /\ k = w_key w) (w_map w) (w_key w) (w_value w) (conj eq_refl eq_refl) s)
      as [Hf Hrow]. split_and!; [done| |].
    + intros [H1 H2]. split; [destruct Hf as [Ht _]; unfold do_write; rewrite Ht; exact H1|].
      intros n k row Hn Hr. destruct (decide (n = w_map w /\ k = w_key w)) as [[-> ->]|Hne].
      * unfold do_write, update in Hr. destruct (_ || _); [|by eapply H2].
        cbn [snd] in Hr. rewrite map_by_name_set_eq, lookup_insert_eq in Hr. injection Hr as <-. by apply Henr.
      * apply (H2 n k row Hn). rewrite <-Hr. symmetry. by apply Hrow.
    + intros n k Hn. destruct (decide (n = w_map w /\ k = w_key w)) as [[-> ->]|Hne]; [right; by apply Hpol|left; by apply Hrow].
  - pose proof (touches_delete (fun n' k' => n' = n /\ k' = k) n k (conj eq_refl eq_refl) s) as [Hf Hrow].
    split_and!; [done| |].
    + intros [H1 H2]. split; [destruct Hf as [Ht _]; rewrite Ht; exact H1|].
      intros n' k' row Hn Hr. apply (H2 n' k' row Hn).
      destruct (decide (n' = n /\ k' = k)) as [[-> ->]|Hne]; [|rewrite <-Hr; symmetry; by apply Hrow].
      unfold delete_key in Hr. case_bool_decide as Hb; [|done]. cbn [snd] in Hr.
      by rewrite map_by_name_set_eq, lookup_delete_eq in Hr.
    + intros n' k' Hn. left. apply Hrow. intros [-> _]. done.
Qed.

Lemma names_step P th s th' s' :
  thread_step (th, s) (th', s') -> thread_names P th -> thread_names P th' /\ named_change P s s'.
Proof. intros Hst Hth. apply (step_actions (action_names P) (named_change P) th s th' s'); [apply named_change_refl|apply action_change|done..]. Qed.

(** ** Requests *)

Section requests.
Context `{World : FileWorld} `{Resolver : !DomainResolver}.

(** The rows of a role's rules. *)
Definition rule_rows (role_id : Z) (steps : list walk_step) : Prop :=
  forall w, inl w ∈ steps -> role_key role_id (w_key w) /\ w_map w ∈ policy_maps.

Lemma rule_rows_names (P : Z -> Prop) role_id steps :
  P role_id -> rule_rows role_id steps -> Forall (action_names P) (writes_of steps).
Proof.
  intros Hi Hs. apply Forall_forall. intros a (st & -> & Hin)%list_elem_of_fmap. destruct st as [w|e]; [|done].
  apply Hs in Hin as [Hk Hm]. split; [by exists role_id|]. by intros ?%enrollment_not_policy.
Qed.

Lemma state_rule_rows n role_id rules : n ∈ policy_maps -> rule_rows role_id (inl <$> state_writes n role_id rules).
Proof.
  intros Hn w (? & [= <-] & Hw)%list_elem_of_fmap. apply state_write_key in Hw as (-> & st & h & ->). done.
Qed.

Lemma flags_rows role_id role : rule_rows role_id (flags_steps role_id role).
Proof. intros w [= ->]%list_elem_of_singleton. split; [done|]. unfold policy_maps. set_solver. Qed.

Lemma network_rows role_id role : rule_rows role_id (network_steps role_id role).
Proof.
  intros w (? & [= <-] & (r & (? & ? & ? & ->)%network_write_in & _)%list_elem_of_bind)%list_elem_of_fmap.
  split; [done|]. unfold policy_maps. set_solver.
Qed.

Lemma path_rows role_id role : rule_rows role_id (path_steps role_id role).
Proof.
  intros w Hw%path_steps_in. apply (state_rule_rows N_path_states role_id (file_rules role)); [unfold policy_maps; set_solver|].
  apply list_elem_of_fmap. by exists w.
Qed.

Lemma role_rows role : rule_rows (r_id role) (role_steps role).
Proof.
  intros w Hw. split; [by apply role_steps_in|]. apply (role_write_map role). apply list_elem_of_omap. by exists (inl w).
Qed.

(** The role in the row of an enrollment. *)
Lemma row_role_exec pod_id role_id n :
  n <> N_pending_enrollments -> in_width 32 role_id -> row_role n (enrollment_row pod_id role_id) = role_id.
Proof.
  intros Hn Hw. assert (row_role n (enrollment_row pod_id role_id) = le_value (map u8 (le_bytes 4 role_id))) as ->
    by (destruct n; done).
  rewrite map_u8_bytes by apply le_bytes_bytes. by rewrite (le_value_le_bytes 4).
Qed.

Lemma row_role_pending pod_id role_id :
  in_width 32 role_id ->
  row_role N_pending_enrollments (<[13%nat := 0]> (<[12%nat := 0]> (enrollment_row pod_id role_id))) = role_id.
Proof.
  intros Hw. transitivity (le_value (map u8 (le_bytes 4 role_id))); [done|].
  rewrite map_u8_bytes by apply le_bytes_bytes. by rewrite (le_value_le_bytes 4).
Qed.

Lemma enrollment_names (P : Z -> Prop) n k v role_id :
  n ∈ enrollment_maps -> row_role n v = role_id -> P role_id -> action_names P (AStep (inl (Write n k v))).
Proof. intros Hn%enrollment_not_policy <- Hi. split; [done|]. by intros _. Qed.

Lemma file_names (P : Z -> Prop) n path pod_id role_id d :
  n ∈ [N_exec_enrollment; N_cgroup_enrollment] -> in_width 32 role_id -> (known d role_id -> P role_id) ->
  thread_names P (file_thread n path pod_id role_id d).
Proof.
  intros Hn Hw Hi. unfold file_thread. destruct (inode_of path) as [ino|]; [|constructor].
  destruct (get_role (d_policy d) role_id) as [role'|] eqn:Hg; [|constructor]. specialize (Hi ltac:(by exists role')).
  apply Forall_singleton. cbn [snd]. unfold writes_of. rewrite !fmap_app, !Forall_app.
  split_and!; [by apply (rule_rows_names P role_id); [|apply flags_rows]|by apply (rule_rows_names P role_id); [|apply network_rows]
    |by apply (rule_rows_names P role_id); [|apply path_rows]|].
  apply Forall_singleton. apply (enrollment_names P _ _ _ role_id); [unfold enrollment_maps; set_solver| |done].
  apply row_role_exec; [|done]. intros ->. set_solver.
Qed.

Lemma release_names P n path : n ∈ enrollment_maps -> thread_names P (release_thread n path).
Proof.
  intros Hn%enrollment_not_policy. unfold release_thread. destruct (inode_of path); [|constructor].
  by apply Forall_singleton, Forall_singleton.
Qed.

(** When a request has anything to write, its role is known or it defines it. *)
Definition request_serves (d : daemon) (req : EnrollmentRequest) (role_id : Z) : Prop :=
  request_role req = Some role_id
  /\ match req with DefineRole role => unenforced_settings role = [] | _ => known d role_id end.

Lemma request_names (P : Z -> Prop) pid req d :
  request_ok req -> (forall role_id, request_serves d req role_id -> P role_id) ->
  thread_names P (request_thread pid req d).
Proof.
  intros Hok HP. unfold request_serves in HP.
  destruct req as [pod role_id|p|path pod role_id|path|role'|path pod role_id|path|path pod role_id|path|path];
    cbn [request_thread request_role] in *; try constructor;
    try (apply release_names; unfold enrollment_maps; set_solver).
  - specialize (Hok role_id eq_refl). destruct (get_role (d_policy d) role_id) as [role'|] eqn:Hg; [|constructor].
    assert (P role_id) as Hi by (apply HP; split; [done|by exists role']).
    unfold thread_names. rewrite !Forall_cons. cbn [snd].
    split_and!; [by apply (rule_rows_names P role_id); [|apply flags_rows]|by apply (rule_rows_names P role_id); [|apply network_rows]
      |by apply (rule_rows_names P role_id); [|apply path_rows]| |constructor].
    apply Forall_singleton. apply (enrollment_names P _ _ _ role_id); [unfold enrollment_maps; set_solver| |done].
    by apply row_role_pending.
  - apply file_names; [set_solver|by apply (Hok role_id)|]. intros Hk. by apply HP.
  - destruct (unenforced_settings role') eqn:Hu; [|constructor]. apply Forall_singleton. cbn [snd].
    apply (rule_rows_names P (r_id role')); [by apply HP|]. apply role_rows.
  - apply file_names; [set_solver|by apply (Hok role_id)|]. intros Hk. by apply HP.
Qed.
End requests.

(** ** The invariant of the pool *)

Section pool.
Context `{World : FileWorld} `{Resolver : !DomainResolver} `{KL : KernelLayout}.

Record pool_inv (c : config) : Prop := {
  po_ledger : ledger (c_daemon c);
  po_jails : jail_roles (known (c_daemon c)) (d_bpf (c_daemon c));
  po_threads : Forall (thread_names (known (c_daemon c))) (c_threads c);
}.

Lemma served_known pid req d role_id : request_serves d req role_id -> known (begin_request pid req d) role_id.
Proof.
  intros [Hr Hs]. change (known (handle_client pid req d).2 role_id).
  destruct req as [pod id|p|path pod id|path|role|path pod id|path|path pod id|path|path]; try discriminate Hr;
    injection Hr as <-; try (by apply request_monotone).
  unfold known. destruct (request_simulated pid (DefineRole role) d) as [_ ->]. cbn [request_op]. rewrite Hs.
  cbn [fold_left run_op]. unfold get_role, define_role. cbn [pm_role_map]. by rewrite lookup_insert_eq.
Qed.

Lemma begin_ledger pid req d : request_ok req -> ledger d -> ledger (begin_request pid req d).
Proof.
  intros Hreq Hl. split; cbn [begin_request d_bpf].
  - intros n k Hn Hk. destruct (lg_rows d Hl n k Hn Hk) as (id & Hid & ?). exists id. split; [|done].
    by apply (request_monotone pid req).
  - intros k v Hk Hkv. apply (request_monotone pid req), (lg_cache d Hl k v Hk Hkv).
  - intros id [Hk|Hk]%(request_new_id pid req); [by apply (lg_ids d)|by apply Hreq].
  - apply Hl.
  - apply Hl.
Qed.

(** Writes that name known roles only. *)
Lemma change_ledger s' d : named_change (known d) (d_bpf d) s' -> ledger d -> ledger (set_bpf s' d).
Proof.
  intros (Hf & _ & Hr) Hl. pose proof Hf as (_ & Hc & Hg & _). split; cbn [d_bpf set_bpf].
  - intros n k Hn Hk. destruct (Hr n k Hn) as [Heq|Hid]; [|done]. rewrite Heq in Hk. by apply (lg_rows d Hl n).
  - intros k v Hk Hkv. apply (lg_cache d Hl k v Hk). by rewrite <-Hc.
  - apply (lg_ids d Hl).
  - eapply frame_state_ok; [exact Hf|apply Hl].
  - pose proof (lg_ahead d Hl). unfold cache_not_ahead, generation in *. by rewrite Hc, Hg.
Qed.

Lemma conc_step_pool c c' : conc_step request_ok c c' -> pool_inv c -> pool_inv c'.
Proof.
  intros Hst [Hl Hj Ht]. destruct Hst as [m d ths s' ev Hk Hev Hsee|m m' d ths Hgen|m d ths pid req Hreq
    |m d pre post th th' s' Hrun]; cbn [c_mem c_daemon c_threads d_bpf set_bpf] in *; split; cbn [c_daemon c_threads d_bpf set_bpf]; try done.
  - by apply (life_step_ledger (m, d) (m, set_bpf s' d)); [apply (life_hook _ m d s' ev)|].
  - by apply (hook_jail _ ev (d_bpf d)).
  - by apply (life_step_ledger (m, d) (m', set_bpf (bump_generation (d_bpf d)).2 d)); [apply life_change|].
  - by apply bump_jail.
  - by apply begin_ledger.
  - eapply jail_roles_mono; [|exact Hj]. intros i. apply (request_monotone pid req).
  - apply Forall_cons. split.
    + apply request_names; [done|]. intros i. apply served_known.
    + eapply Forall_impl; [exact Ht|]. intros th. apply thread_names_mono. intros i. apply (request_monotone pid req).
  - apply Forall_app in Ht as [_ [Hth _]%Forall_cons]. apply (names_step _ _ _ _ _ Hrun) in Hth as [_ Hch].
    by apply change_ledger.
  - apply Forall_app in Ht as [_ [Hth _]%Forall_cons]. apply (names_step _ _ _ _ _ Hrun) in Hth as [_ (_ & H & _)].
    by apply H.
  - apply Forall_app in Ht as [Hpre [Hth Hpost]%Forall_cons]. apply (names_step _ _ _ _ _ Hrun) in Hth as [Hth' _].
    apply Forall_app. split; [done|]. by apply Forall_cons.
Qed.

Lemma conc_pool c c' : rtc (conc_step request_ok) c c' -> pool_inv c -> pool_inv c'.
Proof. induction 1; eauto using conc_step_pool. Qed.

(** ** The start *)

Lemma walk_policy_only roles s : within (fun n _ => n ∈ policy_maps) s (walk roles s).
Proof.
  revert s. induction roles as [|r roles IH]; intros s; [done|]. rewrite walk_cons. etransitivity; [|apply IH].
  apply (touches_emits (fun n _ => n ∈ policy_maps) _ _ _ (apply_role_emits TrackerSink tracker_map_sink r)). intros w Hw. by apply (role_write_map r).
Qed.

Lemma walk_jails P order : jail_roles P (walk order.*2 (fresh_maps order)).
Proof.
  destruct (walk_policy_only order.*2 (fresh_maps order)) as [(Ht & _) Hr]. destruct (fresh_maps_ok order) as (_ & _ & Hm). split.
  - rewrite Ht. unfold fresh_maps. case_bool_decide; [|rewrite invalidate_cache_bump, bump_generation_eq];
      intros t info; cbn; by rewrite lookup_empty.
  - intros n k row Hn. rewrite Hr by by apply enrollment_not_policy. by rewrite Hm, lookup_empty.
Qed.

Lemma start_pool policy order a m :
  policy_ok policy -> order ≡ₚ map_to_list (pc_roles (pm_config (start_policy policy))) ->
  pool_inv (Config m (start policy order init_state a) []).
Proof.
  intros Hpol Hp. pose proof (start_life request_ok policy order a m (fun req H _ => H) Hpol) as Hlife.
  destruct (life_conc request_ok _ _ Hlife []) as [ths Hrun]. apply conc_pool in Hrun as [Hl Hj _].
  - by split.
  - split; cbn [c_daemon c_threads fst snd]; [by apply walk_ledger|apply walk_jails|constructor].
Qed.

(** ** A definition in progress *)

(** The request is about another role. *)
Definition avoids (role_id : Z) (req : EnrollmentRequest) : Prop :=
  request_ok req /\ request_role req <> Some role_id.

Definition others (role_id i : Z) : Prop := in_width 32 i /\ i <> role_id.

(** The rows of the role are what these writes leave of an empty table. *)
Definition rows_written (role : Role) (ws : list write) (s : bpf_state) : Prop :=
  forall n k, n ∈ policy_maps -> role_key (r_id role) k -> map_by_name n s !! k = last_write n k ws.

(** The thread of the definition: stopped, or with a rest of the role's steps to
    take. *)
Definition define_progress (role : Role) (th : thread) (s : bpf_state) : Prop :=
  th = [] \/ exists before rest, role_steps role = before ++ rest /\ th = [(false, writes_of rest)]
    /\ rows_written role (omap step_write before) s.

Record defining (role : Role) (behind : nat) (c : config) : Prop := {
  df_known : get_role (d_policy (c_daemon c)) (r_id role) = Some role;
  df_jails : jail_roles (others (r_id role)) (d_bpf (c_daemon c));
  df_cache : cached_roles (others (r_id role)) (d_bpf (c_daemon c));
  df_state : state_ok (d_bpf (c_daemon c));
  df_ahead : cache_not_ahead (d_bpf (c_daemon c));
  df_threads : exists pre th post, c_threads c = pre ++ th :: post /\ length post = behind
    /\ Forall (thread_names (others (r_id role))) pre /\ Forall (thread_names (others (r_id role))) post
    /\ define_progress role th (d_bpf (c_daemon c));
}.

Lemma rows_same role ws s s' : same_rows (r_id role) s s' -> rows_written role ws s -> rows_written role ws s'.
Proof. intros Hs Hr n k Hn Hk. rewrite Hs by done. by apply Hr. Qed.

Lemma progress_same role th s s' :
  same_rows (r_id role) s s' -> define_progress role th s -> define_progress role th s'.
Proof.
  intros Hs [->|(before & rest & ? & ? & ?)]; [by left|right]. exists before, rest. split_and!; [done..|].
  by apply (rows_same role _ s).
Qed.

(** Writes of other roles leave the rows. *)
Lemma others_same_rows role_id s s' :
  in_width 32 role_id -> named_change (others role_id) s s' -> same_rows role_id s s'.
Proof.
  intros Hw (_ & _ & Hr) n k Hn Hk. destruct (Hr n k Hn) as [?|(i & [Hi Hne] & Hk')]; [done|].
  destruct Hne. by eapply role_key_inj.
Qed.

Lemma frame_rest (P : Z -> Prop) s s' :
  user_frame s s' -> cached_roles P s /\ state_ok s /\ cache_not_ahead s ->
  cached_roles P s' /\ state_ok s' /\ cache_not_ahead s'.
Proof.
  intros Hf (Hc & Hok & Hna). pose proof Hf as (_ & Hca & Hg & _). split_and!.
  - by apply (cached_roles_ext P s).
  - by eapply frame_state_ok.
  - unfold cache_not_ahead, generation in *. by rewrite Hca, Hg.
Qed.

Lemma do_write_cases w s : do_write w s = (inr tt, put s w) \/ exists e, do_write w s = (inl e, s).
Proof. unfold do_write, update, put. destruct (_ || _); eauto. Qed.

Lemma put_rows role before w s :
  rows_written role (omap step_write before) s -> rows_written role (omap step_write (before ++ [inl w])) (put s w).
Proof.
  intros Hr n k Hn Hk. rewrite omap_app, last_write_app. cbn [omap list_omap step_write]. unfold put, last_write at 1.
  cbn [last_such]. destruct (decide (writes_to n k w)) as [[<- <-]|Hne]; cbn [fmap option_fmap option_map].
  - by rewrite map_by_name_set_eq, lookup_insert_eq.
  - rewrite <-Hr by done. destruct (decide (n = w_map w)) as [->|Hd]; [|by rewrite map_by_name_set_ne].
    rewrite map_by_name_set_eq, lookup_insert_ne; [done|]. intros Heq. by destruct Hne.
Qed.

Lemma put_jail P w s : w_map w ∈ policy_maps -> jail_roles P s -> jail_roles P (put s w).
Proof.
  intros Hw. unfold put. pose proof (set_map_frame (w_map w) (<[w_key w := w_value w]> (map_by_name (w_map w) s)) s) as (Ht & _).
  apply jail_roles_ext; [done|]. intros n Hn%enrollment_not_policy. rewrite map_by_name_set_ne; [done|]. by intros ->.
Qed.

(** A step of the definition itself. *)
Lemma own_step P role before rest th' s s' :
  role_steps role = before ++ rest -> rows_written role (omap step_write before) s ->
  thread_step ([(false, writes_of rest)], s) (th', s') ->
  (jail_roles P s -> jail_roles P s') /\ user_frame s s' /\ define_progress role th' s'.
Proof.
  intros Hsteps Hrows Hst. destruct rest as [|st rest].
  { inversion Hst; subst. split_and!; [done..|by left]. }
  cbn [writes_of fmap list_fmap] in Hst. destruct st as [w|e].
  - assert (w_map w ∈ policy_maps) as Hw by (apply (role_rows role); rewrite Hsteps; set_solver).
    destruct (do_write_cases w s) as [Hd|[e Hd]];
      inversion Hst as [|b a acts th0 s0 s1 Ha| |a acts th0 s0 e0 s1 Ha]; subst; cbn [run_action run_step] in Ha;
      rewrite Hd in Ha; simplify_eq.
    + split_and!; [by apply put_jail|apply set_map_frame|]. right. exists (before ++ [inl w]), rest.
      split_and!; [by rewrite <-app_assoc|done|by apply put_rows].
    + split_and!; [done..|by left].
  - inversion Hst as [|b a acts th0 s0 s1 Ha| |a acts th0 s0 e0 s1 Ha]; subst; cbn [run_action run_step] in Ha;
      unfold err in Ha; simplify_eq. split_and!; [done..|by left].
Qed.

(** Where a step in the middle of a list falls when another place is marked. *)
Lemma marked_split {A} (pre0 post0 pre post : list A) (x y : A) :
  pre0 ++ x :: post0 = pre ++ y :: post ->
  (pre0 = pre /\ x = y /\ post0 = post)
  \/ (exists l, pre = pre0 ++ x :: l /\ post0 = l ++ y :: post)
  \/ (exists l, post = l ++ x :: post0 /\ pre0 = pre ++ y :: l).
Proof.
  revert pre. induction pre0 as [|a pre0 IH]; intros [|b pre] Heq; cbn [app] in Heq; injection Heq as -> Heq.
  - by left.
  - right. left. by exists pre.
  - subst post. right. right. by exists pre0.
  - destruct (IH pre Heq) as [(-> & -> & ->)|[(l & -> & ->)|(l & -> & ->)]]; [by left|right; left|right; right]; by exists l.
Qed.

Lemma define_hook role behind m d ths s' ev :
  by_kernel ev -> step ev (d_bpf d) s' -> event_sees m (d_bpf d) ev ->
  defining role behind (Config m d ths) -> defining role behind (Config m (set_bpf s' d) ths).
Proof.
  intros Hk Hev Hsee [Hkn Hj Hc Hok Hna (pre & th & post & Hths & Hlen & Hpre & Hpost & Hpr)].
  cbn [c_daemon c_threads d_bpf d_policy] in *. split; cbn [c_daemon c_threads d_bpf d_policy set_bpf]; [done|..].
  - by apply (hook_jail _ ev (d_bpf d)).
  - apply (hook_cached _ ev (d_bpf d)); [done..| |done]. intros e file _. apply file_open_cached; [done| |done].
    intros info Ht Hpod _ _. by apply (jr_tasks _ _ (after_pending_jail _ e (d_bpf d) Hj) (e_current_task e)).
  - by apply (step_state_ok ev (d_bpf d)).
  - assert (cache_inv_for (fun _ => False) m s') as (_ & _ & ?); [|done].
    eapply event_inv; [done|done|]. split; [done|]. split; [by intros ? ? []|done].
  - exists pre, th, post. split_and!; [done..|]. apply (progress_same _ _ (d_bpf d)); [|done].
    by apply same_policy_rows, (hook_same_policy ev).
Qed.

Lemma define_change role behind m m' d ths :
  generation (d_bpf d) + 1 < 2 ^ 32 -> defining role behind (Config m d ths) ->
  defining role behind (Config m' (set_bpf (bump_generation (d_bpf d)).2 d) ths).
Proof.
  intros Hgen [Hkn Hj Hc Hok Hna (pre & th & post & Hths & Hlen & Hpre & Hpost & Hpr)].
  cbn [c_daemon c_threads d_bpf d_policy] in *. split; cbn [c_daemon c_threads d_bpf d_policy set_bpf]; [done|..].
  - by apply bump_jail.
  - apply (cached_roles_ext _ (d_bpf d)); [by rewrite bump_generation_eq|done].
  - by apply bump_state_ok.
  - by destruct (bump_inv (fun _ => False) m' (d_bpf d) Hok Hna Hgen) as (_ & _ & ?).
  - exists pre, th, post. split_and!; [done..|]. apply (progress_same _ _ (d_bpf d)); [|done].
    apply same_policy_rows, bump_same_policy.
Qed.

Lemma define_begin role behind m d ths pid req :
  avoids (r_id role) req -> defining role behind (Config m d ths) ->
  defining role behind (Config m (begin_request pid req d) (request_thread pid req d :: ths)).
Proof.
  intros [Hreq Hne] [Hkn Hj Hc Hok Hna (pre & th & post & Hths & Hlen & Hpre & Hpost & Hpr)].
  cbn [c_daemon c_threads d_bpf d_policy] in *. split; cbn [c_daemon c_threads d_bpf]; try done.
  - apply (request_known pid); [done|]. intros r -> Heq. apply Hne. cbn. by rewrite Heq.
  - exists (request_thread pid req d :: pre), th, post. split_and!; [by rewrite Hths|done| |done|done].
    apply Forall_cons. split; [|done]. apply request_names; [done|]. intros i [Hi _]. split; [by apply Hreq|].
    intros ->. done.
Qed.

Lemma define_run role behind m d pre0 post0 th0 th0' s' :
  in_width 32 (r_id role) -> thread_step (th0, d_bpf d) (th0', s') ->
  defining role behind (Config m d (pre0 ++ th0 :: post0)) ->
  defining role behind (Config m (set_bpf s' d) (pre0 ++ th0' :: post0)).
Proof.
  intros Hw Hrun [Hkn Hj Hc Hok Hna (pre & th & post & Hths & Hlen & Hpre & Hpost & Hpr)].
  cbn [c_daemon c_threads d_bpf d_policy] in *.
  assert (user_frame (d_bpf d) s' /\ jail_roles (others (r_id role)) s'
    /\ exists pre th post, pre0 ++ th0' :: post0 = pre ++ th :: post /\ length post = behind
      /\ Forall (thread_names (others (r_id role))) pre /\ Forall (thread_names (others (r_id role))) post
      /\ define_progress role th s') as (Hf & Hj' & Hths').
  { apply marked_split in Hths as [(-> & -> & ->)|[(l & -> & ->)|(l & -> & ->)]].
    - destruct Hpr as [->|(before & rest & Hs & -> & Hr)]; [by inversion Hrun|].
      destruct (own_step (others (r_id role)) role before rest th0' _ _ Hs Hr Hrun) as (H1 & H2 & H3).
      split_and!; [done|by apply H1|]. exists pre, th0', post. done.
    - apply Forall_app in Hpre as [Hp1 [Hp2 Hp3]%Forall_cons]. apply (names_step _ _ _ _ _ Hrun) in Hp2 as [Hp2 Hch].
      split_and!; [apply Hch|by apply Hch|]. exists (pre0 ++ th0' :: l), th, post.
      split_and!; [by rewrite <-app_assoc|done|apply Forall_app; split; [done|by apply Forall_cons]|done|].
      apply (progress_same _ _ (d_bpf d)); [by apply others_same_rows|done].
    - apply Forall_app in Hpost as [Hp1 [Hp2 Hp3]%Forall_cons]. apply (names_step _ _ _ _ _ Hrun) in Hp2 as [Hp2 Hch].
      split_and!; [apply Hch|by apply Hch|]. exists pre, th, (l ++ th0' :: post0).
      split_and!; [by rewrite <-app_assoc|by rewrite <-Hlen, !length_app|done|apply Forall_app; split; [done|by apply Forall_cons]|].
      apply (progress_same _ _ (d_bpf d)); [by apply others_same_rows|done]. }
  destruct (frame_rest _ _ _ Hf (conj Hc (conj Hok Hna))) as (Hc' & Hok' & Hna'). by split.
Qed.

Lemma conc_defining role behind c c' :
  in_width 32 (r_id role) -> rtc (conc_step (avoids (r_id role))) c c' -> defining role behind c -> defining role behind c'.
Proof.
  intros Hw. induction 1 as [|c c1 c' Hst _ IH]; intros Hd; [done|]. apply IH. clear IH.
  destruct Hst; [by eapply define_hook|by eapply define_change|by apply define_begin|by eapply define_run].
Qed.

Lemma known_others d role_id i : ledger d -> get_role (d_policy d) role_id = None -> known d i -> others role_id i.
Proof. intros Hl Hnew Hi. split; [by apply (lg_ids d Hl)|]. intros ->. unfold known in Hi. rewrite Hnew in Hi. by destruct Hi. Qed.

(** A definition begins on empty rows. *)
Lemma define_starts pid role m d ths :
  pool_inv (Config m d ths) -> get_role (d_policy d) (r_id role) = None -> role_ok role -> unenforced_settings role = [] ->
  defining role (length ths)
    (Config m (begin_request pid (DefineRole role) d) (request_thread pid (DefineRole role) d :: ths)).
Proof.
  intros [Hl Hj Ht] Hnew Hok Hu. cbn [c_daemon c_threads] in *.
  pose proof (fun i => known_others d (r_id role) i Hl Hnew) as Hoth.
  split; cbn [c_daemon c_threads begin_request d_bpf d_policy]; try apply Hl.
  - destruct (request_simulated pid (DefineRole role) d) as [_ ->]. cbn [request_op]. rewrite Hu.
    cbn [fold_left run_op]. unfold get_role, define_role. cbn [pm_role_map]. apply lookup_insert_eq.
  - by eapply jail_roles_mono.
  - intros k v Hk Hkv. by apply Hoth, (lg_cache d Hl k v).
  - exists [], (request_thread pid (DefineRole role) d), ths. split_and!; [done..| |].
    + eapply Forall_impl; [exact Ht|]. intros th. by apply thread_names_mono.
    + right. exists [], (role_steps role). cbn [request_thread]. rewrite Hu. split_and!; [done..|].
      intros n k Hn Hk. destruct (map_by_name n (d_bpf d) !! k) as [v|] eqn:Hv; [exfalso|done].
      destruct (lg_rows d Hl n k Hn) as (i & Hi & Hkey); [by exists v|]. apply Hoth in Hi as [Hw Hne]. apply Hne.
      eapply role_key_inj; [done|apply (rk_id _ Hok)|done|done].
Qed.

Lemma names_benign role th :
  in_width 32 (r_id role) -> thread_names (others (r_id role)) th -> benign_thread role th.
Proof.
  intros Hw Hth. eapply Forall_impl; [exact Hth|]. intros g Hg. eapply Forall_impl; [exact Hg|].
  intros [[w|e]|n k]; cbn [action_names benign]; [|done|done]. intros [Hpol _] Hn Hk.
  destruct (Hpol Hn) as (i & [Hi Hne] & Hk'). destruct Hne. by eapply role_key_inj.
Qed.

(** When its last operation has succeeded, the role is in force. *)
Lemma define_ends role m d pre post :
  role_ok role -> unenforced_settings role = [] ->
  defining role (length post) (Config m d (pre ++ [(false, [])] :: post)) ->
  conc_inv role (Config m d (pre ++ [(false, [])] :: post)).
Proof.
  intros Hok Hu [Hkn Hj Hc Hst Hna (pre' & th & post' & Hths & Hlen & Hpre & Hpost & Hpr)].
  cbn [c_daemon c_threads d_bpf d_policy] in *. pose proof (rk_id _ Hok) as Hw.
  apply marked_split in Hths as [(-> & <- & ->)|[(l & -> & ->)|(l & -> & ->)]];
    [|rewrite length_app in Hlen; cbn in Hlen; lia..].
  destruct Hpr as [?|(before & rest & Hs & Hth & Hrows)]; [done|]. injection Hth as Hrest.
  destruct rest as [|st rest]; [|done]. rewrite app_nil_r in Hs. split; cbn [c_mem c_daemon c_threads].
  - split; [done|by apply enforced_conflict_free|done| |].
    + intros n k Hn Hk. unfold role_writes. rewrite Hs. by apply Hrows.
    + split; [done|]. split; [|done]. intros k v HR Hk Hkv. exfalso. destruct (Hc k v Hk Hkv) as [_ Hne]. by apply Hne.
  - apply Forall_app. split; [|apply Forall_cons; split; [by repeat constructor|]].
    + eapply Forall_impl; [exact Hpre|]. intros th'. by apply names_benign.
    + eapply Forall_impl; [exact Hpost|]. intros th'. by apply names_benign.
Qed.
End pool.

(** ** Properties *)

(** C12. No task is ever jailed under a role the daemon does not know, nor can
    it come to be. On a policy whose role ids differ, under every interleaving
    of requests, hooks and filesystem changes since the start of the daemon, the
    role of every jailed task, of every request waiting for a process and of
    every enrollment an exec would find is one the policy manager holds. *)
Theorem jailed_roles_known `{World : FileWorld} `{Resolver : !DomainResolver} `{KL : KernelLayout}
    (policy : option (PolicyConfig * list (bytes * Role))) (order : list (bytes * Role)) (a : attrs)
    (m0 m : mem) (d : daemon) (ths : list thread) :
  policy_ok policy -> order ≡ₚ map_to_list (pc_roles (pm_config (start_policy policy))) ->
  rtc (conc_step request_ok) (Config m0 (start policy order init_state a) []) (Config m d ths) ->
  (forall t info, m_task_storage (d_bpf d) !! t = Some info -> pi_pod_id info <> 0 ->
     exists role, get_role (d_policy d) (pi_role_id info) = Some role)
  /\ (forall pid info, pending_for (d_bpf d) pid = Some info ->
     exists role, get_role (d_policy d) (pi_role_id info) = Some role)
  /\ (forall e bprm v, auto_enrollment e (d_bpf d) bprm = Some v ->
     exists role, get_role (d_policy d) (ev_role_id v) = Some role).
Proof.
  intros Hpol Hp Hrun. apply conc_pool in Hrun as [_ Hj _]; [|by apply start_pool]. split_and!.
  - exact (jr_tasks (known d) (d_bpf d) Hj).
  - intros pid info. exact (pending_role (known d) (d_bpf d) pid info Hj).
  - intros e bprm v. exact (auto_enrollment_role (known d) e (d_bpf d) bprm v Hj).
Qed.

(** *** A run that overlaps *)

#[local] Existing Instance test_world.
#[local] Existing Instance one_name.

Lemma conc_weaken (P Q : EnrollmentRequest -> Prop) c c' :
  (forall req, P req -> Q req) -> rtc (conc_step P) c c' -> rtc (conc_step Q) c c'.
Proof.
  intros HPQ. apply (rtc_congruence (fun c => c)). intros x y [m d ths s' ev ? ? ?|m m' d ths ?|m d ths pid req ?|m d pre post th th' s' ?].
  - by eapply conc_hook.
  - by apply conc_change.
  - apply conc_begin. auto.
  - by apply conc_run.
Qed.

Lemma jailed_roles_known_witness :
  exists role, get_role (d_policy (second_daemon 4 agent_role)) 7 = Some role.
Proof.
  destruct (second_reached 4 agent_role agent_id eq_refl) as [ths Hrun].
  apply (conc_weaken _ request_ok) in Hrun; [|by intros req [H _]]. unfold solo_start in Hrun.
  pose proof (solo_roles agent_role ltac:(vm_compute; exact eq_refl)) as Hroles.
  destruct (jailed_roles_known (solo_policy agent_role) (solo_order agent_role) ∅ mem_etc mem_etc (second_daemon 4 agent_role) ths
    (solo_policy_ok agent_role agent_id) Hroles Hrun) as [H _].
  apply (H TASK (ProcessInfo 5 7 0 0)).
  - vm_compute. exact eq_refl.
  - discriminate.
Defined.


(** Another definition is two operations in when role 7 is defined; it rests while
    the operations of the new definition run, and pid 42 enrolls afterwards. *)
Definition over_thread : thread * bpf_state :=
  thread_after 2 (request_thread 44 (DefineRole web_role) built_start) (d_bpf built_start).
Definition over_daemon : daemon := set_bpf over_thread.2 (begin_request 44 (DefineRole web_role) built_start).

Definition agent_run : thread * bpf_state :=
  thread_after (length (role_steps agent_role)) (request_thread 43 (DefineRole agent_role) over_daemon) (d_bpf over_daemon).
Definition define_daemon : daemon := set_bpf agent_run.2 (begin_request 43 (DefineRole agent_role) over_daemon).

Definition over_enrolled : daemon := (handle_client 42 (Enroll 5 7) define_daemon).2.
Definition over_jailed : daemon :=
  set_bpf (file_open (env_with mem_etc) FILE (d_bpf over_enrolled)).2 over_enrolled.

Lemma request_ok_id req role_id : request_role req = Some role_id -> in_width 32 role_id -> request_ok req.
Proof. intros Hr Hw id. rewrite Hr. by intros [= <-]. Qed.

Lemma over_reached :
  rtc (conc_step request_ok) (Config mem_etc built_start []) (Config mem_etc over_daemon [over_thread.1]).
Proof.
  eapply rtc_l.
  - apply (conc_begin request_ok mem_etc built_start [] 44 (DefineRole web_role)).
    apply (request_ok_id _ (r_id web_role)); [exact eq_refl|vm_compute; split; congruence].
  - apply (thread_alone request_ok mem_etc (begin_request 44 (DefineRole web_role) built_start) []).
    unfold over_thread. rewrite <-surjective_pairing. apply thread_after_steps.
Qed.

Lemma define_reached :
  rtc (conc_step (avoids (r_id agent_role)))
    (Config mem_etc (begin_request 43 (DefineRole agent_role) over_daemon)
      (request_thread 43 (DefineRole agent_role) over_daemon :: [over_thread.1]))
    (Config mem_etc define_daemon ([] ++ [(false, [])] :: [over_thread.1])).
Proof.
  assert (agent_run.1 = [(false, [])]) as Hend by (vm_compute; exact eq_refl).
  change ([] ++ [(false, [])] :: [over_thread.1]) with ([(false, [])] :: [over_thread.1] : list thread). rewrite <-Hend.
  apply (thread_alone _ mem_etc (begin_request 43 (DefineRole agent_role) over_daemon) [over_thread.1]).
  unfold agent_run. rewrite <-surjective_pairing. apply thread_after_steps.
Qed.

Lemma over_served :
  exists ths, rtc (conc_step (spares (r_id agent_role))) (Config mem_etc define_daemon ([] ++ [(false, [])] :: [over_thread.1]))
    (Config mem_etc over_jailed ths).
Proof.
  refine (life_conc (spares (r_id agent_role)) (mem_etc, define_daemon) (mem_etc, over_jailed) _ _).
  apply rtc_l with (mem_etc, over_enrolled).
  - apply (life_request _ mem_etc define_daemon 42 (Enroll 5 7)). apply (solo_spares agent_role 5 agent_id eq_refl).
  - apply rtc_once. exact (life_open _ mem_etc over_enrolled (env_with mem_etc) FILE eq_refl).
Qed.


(** ** A role that is not complete yet *)

(** The port is open, the address is not. *)
Definition gap_role : Role :=
  MkRole 7 (text "gap") (r_flags agent_role) []
    [MkNetworkRule (text "TCP") None (Some 443) None None true] [] false
    [MkIpRule (text "10.1.2.3") (text "connect") false] [] None.

(** The definition is registered and has written nothing; pid 42 enrolls, which
    writes the flags, the port rules and the file rules, and opens a file. *)
Definition gap_begun : daemon := begin_request 43 (DefineRole gap_role) built_start.
Definition gap_thread : thread := request_thread 43 (DefineRole gap_role) built_start.
Definition gap_enrolled : daemon :=
  set_bpf (run_thread (request_thread 42 (Enroll 5 7) gap_begun) (d_bpf gap_begun)).2 (begin_request 42 (Enroll 5 7) gap_begun).
Definition gap_jailed : daemon :=
  set_bpf (file_open (env_with mem_etc) FILE (d_bpf gap_enrolled)).2 gap_enrolled.
Definition gap_done : daemon := set_bpf (run_thread gap_thread (d_bpf gap_jailed)).2 gap_jailed.

(** A request that is served at once. *)
Lemma begin_and_run `{World : FileWorld} `{Resolver : !DomainResolver} `{KL : KernelLayout} allowed m d ths pid req :
  allowed req ->
  rtc (conc_step allowed) (Config m d ths)
    (Config m (set_bpf (run_thread (request_thread pid req d) (d_bpf d)).2 (begin_request pid req d)) ([] :: ths)).
Proof.
  intros Ha. eapply rtc_l; [by apply (conc_begin allowed m d ths pid req)|].
  apply (thread_alone allowed m (begin_request pid req d) ths). apply thread_runs.
Qed.

Lemma gap_reached :
  rtc (conc_step request_ok) (Config mem_etc built_start []) (Config mem_etc gap_jailed [[]; gap_thread])
  /\ rtc (conc_step request_ok) (Config mem_etc gap_jailed [[]; gap_thread]) (Config mem_etc gap_done [[]; []]).
Proof.
  split.
  - apply rtc_l with (Config mem_etc gap_begun [gap_thread]).
    { apply (conc_begin request_ok mem_etc built_start [] 43 (DefineRole gap_role)).
      apply (request_ok_id _ 7); [exact eq_refl|vm_compute; split; congruence]. }
    apply rtc_r with (Config mem_etc gap_enrolled [[]; gap_thread]).
    + apply (begin_and_run request_ok mem_etc gap_begun [gap_thread] 42 (Enroll 5 7)).
      apply (request_ok_id _ 7); [exact eq_refl|vm_compute; split; congruence].
    + apply (conc_hook request_ok mem_etc gap_enrolled [[]; gap_thread]
        (file_open (env_with mem_etc) FILE (d_bpf gap_enrolled)).2 (EvFileOpen (env_with mem_etc) FILE)); [exact I| |].
      * exact (step_event (EvFileOpen (env_with mem_etc) FILE) (d_bpf gap_enrolled) I).
      * exact eq_refl.
  - exact (thread_alone_at request_ok mem_etc gap_jailed [[]] [] _ _ _ (thread_runs gap_thread (d_bpf gap_jailed))).
Qed.

(** In the meantime the task connects where its role forbids it: enrolling writes
    no address, domain, proxy or execution rules, and does not wait for the
    definition that does. *)
Lemma early_enrollment_window :
  rtc (conc_step request_ok) (Config mem_etc built_start []) (Config mem_etc gap_jailed [[]; gap_thread])
  /\ get_role (d_policy gap_jailed) 7 = Some gap_role /\ jailed_as (env_with mem_etc) 7 (d_bpf gap_jailed)
  /\ connect_permitted gap_role (Some (Ipv4 10 1 2 3)) 443 (endpoint mem_etc SOCK ADDR4) = false
  /\ (socket_connect (env_with mem_etc) SOCK ADDR4 (d_bpf gap_jailed)).1 = 0
  /\ rtc (conc_step request_ok) (Config mem_etc gap_jailed [[]; gap_thread]) (Config mem_etc gap_done [[]; []])
  /\ (socket_connect (env_with mem_etc) SOCK ADDR4 (d_bpf gap_done)).1 = - EACCES.
Proof.
  destruct gap_reached as [H1 H2]. split; [exact H1|split; [|split; [|split; [|split; [|split; [exact H2|]]]]]].
  - vm_compute. exact eq_refl.
  - unfold jailed_as. exists (ProcessInfo 5 7 0 0). split; [vm_compute; exact eq_refl|split; [discriminate|exact eq_refl]].
  - vm_compute. exact eq_refl.
  - vm_compute. exact eq_refl.
  - vm_compute. exact eq_refl.
Qed.
