(* ===== verification/Startup.v ===== *)
(** * Starting up

    The two programs from their environment to what they leave enforced:
    [main] and [run] of bpfjailer-bootstrap/src/main.rs, and [load] of
    bpf_loader.rs with [main] of the daemon, over the file tree of Files.v, the
    map state and the list of attached programs.  What libbpf makes of an object
    file is the class [Libbpf], and what serde makes of a policy text the class
    [PolicyText]; a freshly loaded object has empty maps. *)

From S2P Require Import Prelude CLayout BpfMap Rust Kernel KernelTypes Types Machine Scenario Hash PathWalk StateMachine Enrollment Hooks FileOpen Network Codec Patterns Parse Loader Files Policy Apply Exec Guards RolePolicy RoleLimits System Coherence Daemon DaemonRuns Footprint Bootstrap Pins Loaders RoleLife Ledger.

(** ** Which file *)

(** The process's environment and working directory. *)
Record environment := Environment {
  env_var : bytes -> option bytes;
  cwd : path;
}.

(** [PathBuf::parent] of the manifest directory, or [.]: a path without a
    component has no parent. *)
Definition workspace_root (env : environment) : path :=
  match env_var env (text "CARGO_MANIFEST_DIR") with
  | Some p => match components p with
              | [] => cwd env
              | _ => removelast (resolve_path (cwd env) p)
              end
  | None => cwd env
  end.

Definition installed_paths : list path :=
  components ∘ text <$> ["/usr/lib/bpfjailer/bpfjailer.bpf.o"; "/usr/share/bpfjailer/bpfjailer.bpf.o"]%string.

Definition target_paths (root : path) : list path :=
  (fun s => root ++ components (text s)) <$>
    ["target/bpfel-unknown-none/release/bpfjailer.bpf.o"; "target/bpfel-unknown-none/debug/bpfjailer.bpf.o"]%string.

Definition crate_paths (root : path) : list path :=
  (fun s => root ++ components (text s)) <$>
    ["bpfjailer-bpf/target/bpfel-unknown-none/release/bpfjailer.bpf.o";
     "bpfjailer-bpf/target/bpfel-unknown-none/debug/bpfjailer.bpf.o"]%string.

Definition bootstrap_paths (env : environment) : list path :=
  installed_paths ++ target_paths (workspace_root env) ++ crate_paths (workspace_root env)
  ++ target_paths (cwd env).

Definition daemon_paths (env : environment) : list path :=
  installed_paths ++ target_paths (workspace_root env) ++ crate_paths (workspace_root env)
  ++ target_paths (cwd env) ++ crate_paths (cwd env).

(** [possible_paths.find(|p| p.exists())] *)
Definition first_existing (t : tree) (ps : list path) : option path :=
  snd <$> list_find (fun p => exists_path t p = true) ps.

Definition bpf_object_path (env : environment) (t : tree) : option path :=
  first_existing t (bootstrap_paths env).

Definition DEFAULT_POLICY_PATH : bytes := text "/etc/bpfjailer/policy.json".
Definition LOCAL_POLICY_PATH : bytes := text "config/policy.json".

(** The variable's value is used as it is. *)
Definition policy_path (env : environment) (t : tree) : option path :=
  match env_var env (text "BPFJAILER_POLICY") with
  | Some p => Some (resolve_path (cwd env) p)
  | None =>
      first_existing t (resolve_path (cwd env) <$> [DEFAULT_POLICY_PATH; LOCAL_POLICY_PATH])
  end.

(** [version_line] *)
Definition VERSION : bytes := text "0.1.1".

Definition version_line (args : list bytes) (binary : bytes) : option bytes :=
  if existsb (fun a => bool_decide (a = text "--version" \/ a = text "-V")) args
  then Some (binary ++ text " " ++ VERSION) else None.

(** ** What is loaded and attached *)

(** libbpf: the object a file holds, and whether the kernel lets a program of it
    be attached. *)
Class Libbpf := {
  lb_load : bytes -> option bpf_object;
  lb_attach : bytes -> bytes -> bool;
}.

(** serde_json's reading of a policy, and the order in which the map of roles of
    what was read is iterated. *)
Class PolicyText := {
  parse_policy : bytes -> option PolicyConfig;
  role_order : PolicyConfig -> list (bytes * Role);
}.

(** The program a hook event enters; the other events are not hooks. *)
Definition hook_program `{KL : KernelLayout} (ev : event) : option bytes :=
  match ev with
  | EvTaskAlloc _ _ => Some (text "task_alloc")
  | EvFileOpen _ _ => Some (text "file_open")
  | EvSocketBind _ _ _ => Some (text "socket_bind")
  | EvSocketConnect _ _ _ => Some (text "socket_connect")
  | EvSocketSendmsg _ _ _ _ => Some (text "socket_sendmsg")
  | EvBprmCheck _ _ => Some (text "bprm_check_security")
  | EvPathRename _ _ => Some (text "path_rename")
  | EvSbMount => Some (text "sb_mount")
  | EvSbUmount => Some (text "sb_umount")
  | EvPtrace _ _ => Some (text "ptrace_access_check")
  | EvModuleRequest _ _ => Some (text "kernel_module_request")
  | EvBpf _ _ _ _ => Some (text "bpf")
  | EvEnrollRequest _ _ | EvPolicyUpdate _ | EvTaskFree _ => None
  end.

(** An event on a kernel where only [attached] run: a hook without its program
    lets the operation pass. *)
Definition run_attached `{KL : KernelLayout} (attached : list bytes) (ev : event) : prog Z :=
  match hook_program ev with
  | Some name => if decide (name ∈ attached) then run_event ev else ret 0
  | None => run_event ev
  end.

(** ** The bootstrap *)

Section bootstrap.
Context `{World : FileWorld} `{Resolver : !DomainResolver} `{OS : Os} `{LB : Libbpf} `{PT : PolicyText}.

(** The file tree, the links the process holds in the order they were made, and
    the maps of its object. *)
Record host := Host {
  h_tree : tree;
  h_links : list bytes;
  h_maps : bpf_state;
}.

Inductive run_error :=
| NoObject
| UnreadableObject
| StalePins (differences : list difference)
| NoPolicy
| UnreadablePolicy
| UnparsedPolicy
| UnenforcedRole (role : bytes) (settings : list setting)
| NotLoaded
| NotAttached (name : bytes)
| NotPopulated (e : load_error)
| NotPinnedAll (e : pin_error).

(** Operations of the parts, as operations on the host. *)
Definition with_maps {A} (p : loader A) : io run_error host A :=
  fun h => match p (h_maps h) with
    | (inr a, s) => (inr a, Host (h_tree h) (h_links h) s)
    | (inl e, s) => (inl (NotPopulated e), Host (h_tree h) (h_links h) s)
    end.

Definition with_tree {A} (p : io pin_error tree A) : io run_error host A :=
  fun h => match p (h_tree h) with
    | (inr a, t) => (inr a, Host t (h_links h) (h_maps h))
    | (inl e, t) => (inl (NotPinnedAll e), Host t (h_links h) (h_maps h))
    end.

Definition build_id_of_file (p : path) : io run_error host Z :=
  fun h => match read_file (h_tree h) p with
    | Some content => (inr (build_id_of content), h)
    | None => (inl UnreadableObject, h)
    end.

(** [bpf_object_path()?] *)
Definition object_path (env : environment) : io run_error host path :=
  fun h => match bpf_object_path env (h_tree h) with
    | Some p => (inr p, h)
    | None => (inl NoObject, h)
    end.

Definition load_policy_file (env : environment) : io run_error host PolicyConfig :=
  fun h =>
    (match policy_path env (h_tree h) with
     | None => inl NoPolicy
     | Some p =>
         match read_to_string (h_tree h) p with
         | None => inl UnreadablePolicy
         | Some content =>
             match parse_policy content with
             | None => inl UnparsedPolicy
             | Some config =>
                 match load_policy config (role_order config) with
                 | inl (name, settings) => inl (UnenforcedRole name settings)
                 | inr config => inr config
                 end
             end
         end
     end, h).

(** The loop over the programs: one that the object lacks is only logged. *)
Definition attach_loop (content : bytes) (o : bpf_object) : io run_error host unit :=
  for_each (fun name =>
    if decide (name ∈ obj_progs o) then
      if lb_attach content name then
        fun h => (inr tt, Host (h_tree h) (h_links h ++ [name]) (h_maps h))
      else err (NotAttached name)
    else ok tt) LSM_PROGRAMS.

(** An attachment that fails drops the links made before it. *)
Definition load_bpf_object (env : environment) : io run_error host bpf_object :=
  p <-? object_path env ;;
  fun h => match read_file (h_tree h) p ≫= (fun content => (content,.) <$> lb_load content) with
    | None => (inl NotLoaded, h)
    | Some (content, o) =>
        match attach_loop content o (Host (h_tree h) [] init_state) with
        | (inr _, h') => (inr o, h')
        | (inl e, h') => (inl e, Host (h_tree h') [] (h_maps h'))
        end
    end.

Definition run (env : environment) : io run_error host unit :=
  p <-? object_path env ;;
  build_id <-? build_id_of_file p ;;
  h <-? io_get ;;
  match compare (read_pin_state (h_tree h)) build_id with
  | Current => ok tt
  | Stale differences => err (StalePins differences)
  | Absent =>
      policy <-? load_policy_file env ;;
      object <-? load_bpf_object env ;;
      with_maps (populate_maps (obj_maps object) policy (role_order policy)) ;;?
      h' <-? io_get ;;
      with_tree (pin_all_io object (length (h_links h')) build_id)
  end.

(** [main]: the line printed, if any, and the exit status. *)
Definition bootstrap_main (args : list bytes) (env : environment) (h : host) : option bytes * Z * host :=
  match version_line args (text "bpfjailer-bootstrap") with
  | Some line => (Some line, 0, h)
  | None =>
      match run env h with
      | (inr _, h') => (None, 0, h')
      | (inl _, h') => (None, 1, h')
      end
  end.

(** The programs that stay attached when the process has exited: those whose
    link is pinned. *)
Definition still_attached (pinned : gset bytes) (links : list bytes) : list bytes :=
  omap (fun '(i, name) => if decide (link_name i ∈ pinned) then Some name else None)
    (zip (seq 0 (length links)) links).

Definition survivors (h : host) : list bytes := still_attached (names (h_tree h) links_dir) (h_links h).
End bootstrap.

(** ** The daemon *)

Section daemon_start.
Context `{World : FileWorld} `{Resolver : !DomainResolver} `{LB : Libbpf} `{PT : PolicyText}.

Inductive daemon_error :=
| DaemonNoObject
| DaemonNotLoaded
| DaemonNoMap (name : bytes)
| DaemonNotAttached (name : bytes).

(** The maps whose absence is an error; the others are only logged. *)
Definition required_maps : list bytes :=
  text <$> ["role_flags"; "pending_enrollments"; "network_rules"; "path_states"; "exec_states"]%string.

(** The attachment loop of the daemon, which leaks its links. *)
Fixpoint daemon_attach (content : bytes) (o : bpf_object) (programs : list bytes) : daemon_error + list bytes :=
  match programs with
  | [] => inr []
  | name :: programs' =>
      if decide (name ∈ obj_progs o) then
        if lb_attach content name then
          match daemon_attach content o programs' with
          | inr attached => inr (name :: attached)
          | inl e => inl e
          end
        else inl (DaemonNotAttached name)
      else daemon_attach content o programs'
  end.

(** [load]: the programs attached. *)
Definition daemon_load (env : environment) (t : tree) : daemon_error + list bytes :=
  match first_existing t (daemon_paths env) with
  | None => inl DaemonNoObject
  | Some p =>
      match read_file t p ≫= (fun content => (content,.) <$> lb_load content) with
      | None => inl DaemonNotLoaded
      | Some (content, o) =>
          match list_find (fun name => name ∉ obj_maps o) required_maps with
          | Some (_, name) => inl (DaemonNoMap name)
          | None => daemon_attach content o LSM_PROGRAMS
          end
      end
  end.

(** The policy file, when there is one that can be read and parsed; a failure is
    only logged. *)
Definition daemon_policy (env : environment) (t : tree) : option (PolicyConfig * list (bytes * Role)) :=
  p ← policy_path env t;
  content ← read_to_string t p;
  config ← parse_policy content;
  Some (config, role_order config).

(** signed_binary.rs: a manager that is made and never asked, and that takes no
    binary for signed. *)
Definition load_certificates (cert_path : bytes) : option unit := Some tt.
Definition validate_binary (binary_path : bytes) : option bool := Some false.

(** [main] up to the server: the programs attached and the daemon's state. *)
Definition daemon_main (env : environment) (t : tree) (a : attrs) : daemon_error + list bytes * daemon :=
  match daemon_load env t with
  | inl e => inl e
  | inr attached =>
      let policy := daemon_policy env t in
      inr (attached, start policy (role_order (pm_config (start_policy policy))) init_state a)
  end.
End daemon_start.

(** ** Attaching *)

Section attaching.
Context `{World : FileWorld} `{Resolver : !DomainResolver} `{OS : Os} `{LB : Libbpf} `{PT : PolicyText}.

(** The programs of the list that the object has, in order. *)
Definition present (o : bpf_object) : list bytes := filter (fun name => name ∈ obj_progs o) LSM_PROGRAMS.

Lemma attach_loop_ok content o h r h' :
  attach_loop content o h = (r, h') ->
  h_tree h' = h_tree h /\ h_maps h' = h_maps h
  /\ match r with inr _ => h_links h' = h_links h ++ present o | inl e => exists name, e = NotAttached name end.
Proof.
  unfold attach_loop, present. generalize LSM_PROGRAMS. intros l. revert h.
  induction l as [|name l IH]; intros h; cbn [for_each].
  - intros [= <- <-]. by rewrite app_nil_r.
  - unfold io_bind. rewrite filter_cons. case_decide; [|apply IH].
    destruct (lb_attach content name); [|intros [= <- <-]; split_and!; eauto].
    intros (? & ? & Hl)%IH. cbn [h_tree h_maps h_links] in *. split_and!; [done..|].
    destruct r; [done|]. by rewrite Hl, <-app_assoc.
Qed.

Lemma daemon_attach_ok content o programs attached :
  daemon_attach content o programs = inr attached -> attached = filter (fun name => name ∈ obj_progs o) programs.
Proof.
  revert attached. induction programs as [|name programs IH]; intros attached; [by intros [= <-]|].
  cbn [daemon_attach]. rewrite filter_cons. case_decide; [|apply IH].
  destruct (lb_attach content name); [|done]. destruct (daemon_attach content o programs); [done|].
  intros [= <-]. f_equal. by apply IH.
Qed.

(** The daemon's loop attaches whatever the bootstrap's does. *)
Lemma daemon_attach_follows content o h h' :
  attach_loop content o h = (inr tt, h') -> daemon_attach content o LSM_PROGRAMS = inr (present o).
Proof.
  unfold attach_loop, present. generalize LSM_PROGRAMS. intros l. revert h.
  induction l as [|name l IH]; intros h; [done|]. cbn [for_each daemon_attach]. unfold io_bind. rewrite filter_cons.
  case_decide; [|apply IH]. destruct (lb_attach content name); [|done]. intros Hrun%IH. by rewrite Hrun.
Qed.

Lemma present_all o : ~ lacks o -> present o = LSM_PROGRAMS.
Proof.
  intros [_ Hp]%lacks_none. unfold present. revert Hp. generalize LSM_PROGRAMS. intros l.
  induction 1 as [|name l Hin _ IH]; [done|]. by rewrite filter_cons, decide_True, IH.
Qed.

Lemma present_no_link links : still_attached ∅ links = [].
Proof.
  unfold still_attached. generalize (zip (seq 0 (length links)) links). intros l. induction l as [|[i name] l IH]; [done|].
  cbn [omap list_omap]. rewrite decide_False by set_solver. exact IH.
Qed.

Lemma still_attached_first j :
  (j <= length LSM_PROGRAMS)%nat ->
  still_attached (list_to_set (link_name <$> seq 0 j)) LSM_PROGRAMS = take j LSM_PROGRAMS.
Proof. intros Hj. do 13 (destruct j as [|j]; [vm_compute; reflexivity|]). cbn in Hj. lia. Qed.

(** Every hook's program is in the list. *)
Lemma hook_programs `{KL : KernelLayout} ev name : hook_program ev = Some name -> name ∈ LSM_PROGRAMS.
Proof.
  intros H. apply (bool_decide_unpack _). destruct ev; cbn [hook_program] in H; try discriminate H; injection H as <-;
    vm_compute; exact I.
Qed.

Lemma run_attached_all `{KL : KernelLayout} ev s : run_attached LSM_PROGRAMS ev s = run_event ev s.
Proof.
  unfold run_attached. destruct (hook_program ev) as [name|] eqn:Hev; [|done].
  by rewrite decide_True by by eapply hook_programs.
Qed.

(** ** A run, taken apart *)

Lemma load_bpf_object_ok env h r h' :
  load_bpf_object env h = (r, h') ->
  h_tree h' = h_tree h
  /\ match r with
     | inr o => exists p content, bpf_object_path env (h_tree h) = Some p /\ read_file (h_tree h) p = Some content
         /\ lb_load content = Some o /\ h_maps h' = init_state /\ h_links h' = present o
         /\ daemon_attach content o LSM_PROGRAMS = inr (present o)
     | inl _ => True
     end.
Proof.
  unfold load_bpf_object, io_bind, object_path.
  destruct (bpf_object_path env (h_tree h)) as [p|] eqn:Hp; [|by intros [= <- <-]].
  destruct (read_file (h_tree h) p) as [content|] eqn:Hread; cbn [mbind option_bind]; [|by intros [= <- <-]].
  destruct (lb_load content) as [o|] eqn:Hload; cbn [fmap option_fmap option_map]; [|by intros [= <- <-]].
  destruct (attach_loop content o _) as [[e|[]] h1] eqn:Ha; pose proof (attach_loop_ok _ _ _ _ _ Ha) as (Ht & Hm & Hl);
    intros [= <- <-]; cbn [h_tree h_maps h_links] in *; [done|].
  split; [done|]. exists p, content. split_and!; try done. by apply daemon_attach_follows in Ha.
Qed.
End attaching.

Section runs.
Context `{World : FileWorld} `{Resolver : !DomainResolver} `{OS : Os} `{LB : Libbpf} `{PT : PolicyText}.

(** The id of the object a run finds. *)
Definition object_id (env : environment) (t : tree) : option Z :=
  p ← bpf_object_path env t; content ← read_file t p; Some (build_id_of content).

(** The policy a run accepts. *)
Definition accepted_policy (env : environment) (t : tree) : option PolicyConfig :=
  p ← policy_path env t; content ← read_to_string t p; config ← parse_policy content;
  match load_policy config (role_order config) with inr c => Some c | inl _ => None end.

(** A run that gets as far as pinning. *)
Record reaches_pinning (env : environment) (t : tree) (config : PolicyConfig) (content : bytes) (o : bpf_object)
    (s : bpf_state) : Prop := {
  rp_policy : accepted_policy env t = Some config;
  rp_object : bpf_object_path env t ≫= read_file t = Some content;
  rp_load : lb_load content = Some o;
  rp_attach : daemon_attach content o LSM_PROGRAMS = inr (present o);
  rp_maps : populate_maps (obj_maps o) config (role_order config) init_state = (inr tt, s);
}.

(** Everything a run can do. *)
Lemma run_cases env h r h' :
  run env h = (r, h') ->
  match object_id env (h_tree h) with
  | None => h' = h /\ (r = inl NoObject \/ r = inl UnreadableObject)
  | Some id =>
      match compare (read_pin_state (h_tree h)) id with
      | Current => r = inr tt /\ h' = h
      | Stale ds => r = inl (StalePins ds) /\ h' = h
      | Absent =>
          ((exists e, r = inl e) /\ h_tree h' = h_tree h)
          \/ exists config content o s r' t', reaches_pinning env (h_tree h) config content o s
              /\ pin_all_io o (length (present o)) (build_id_of content) (h_tree h) = (r', t')
              /\ h' = Host t' (present o) s
              /\ r = match r' with inl e => inl (NotPinnedAll e) | inr _ => inr tt end
      end
  end.
Proof.
  unfold run, object_id, io_bind, object_path, build_id_of_file, io_get.
  destruct (bpf_object_path env (h_tree h)) as [p|] eqn:Hp; cbn [mbind option_bind]; [|intros [= <- <-]; auto].
  destruct (read_file (h_tree h) p) as [content|] eqn:Hread; cbn [mbind option_bind]; [|intros [= <- <-]; auto].
  destruct (compare _ _) as [| |ds]; [|by intros [= <- <-]..].
  destruct (load_policy_file env h) as [[e|config] h1] eqn:Hpol.
  { intros [= <- <-]. left. split; [by eexists|]. unfold load_policy_file in Hpol. by injection Hpol as _ <-. }
  assert (h1 = h /\ accepted_policy env (h_tree h) = Some config) as [-> Hacc].
  { unfold load_policy_file in Hpol. unfold accepted_policy.
    destruct (policy_path env _) as [q|]; [|done]. cbn [mbind option_bind].
    destruct (read_to_string _ q) as [text_|]; [|done]. cbn [mbind option_bind].
    destruct (parse_policy text_) as [c|]; [|done]. cbn [mbind option_bind].
    destruct (load_policy c (role_order c)) as [[? ?]|c']; [done|]. injection Hpol as -> ->. done. }
  destruct (load_bpf_object env h) as [[e|o] h2] eqn:Hload; apply load_bpf_object_ok in Hload as [Ht Ho].
  { intros [= <- <-]. left. eauto. }
  destruct Ho as (p' & content' & Hp' & Hread' & Hlb & Hm & Hl & Ha).
  assert (p' = p) as -> by congruence. assert (content' = content) as -> by congruence.
  unfold with_maps. rewrite Hm.
  destruct (populate_maps (obj_maps o) config (role_order config) init_state) as [[e|[]] s] eqn:Hpop.
  { intros [= <- <-]. left. cbn [h_tree]. eauto. }
  unfold with_tree. cbn [h_tree h_links h_maps]. rewrite Ht, Hl.
  destruct (pin_all_io o (length (present o)) (build_id_of content) (h_tree h)) as [r' t'] eqn:Hpin.
  intros Heq. right. exists config, content, o, s, r', t'. split_and!.
  - split; try done. by rewrite Hp.
  - done.
  - destruct r' as [e|[]]; by injection Heq.
  - destruct r' as [e|[]]; by injection Heq.
Qed.
End runs.

(** ** What is left pinned *)

Section left.
Context `{OS : Os}.

(** Pinning on a host with nothing pinned: no link, or every program attached,
    every map and program pinned, and some first links. *)
Lemma pinning_leaves o id t r t' :
  pin_all_io o (length (present o)) id t = (r, t') -> tree_ok t -> view t = (no_pins, ∅) ->
  match r with
  | inr _ => ~ lacks o /\ names t' links_dir = list_to_set (link_name <$> seq 0 (length LSM_PROGRAMS))
      /\ read_pin_state t' = MkPinState want_progs want_maps (Some (hex16 id))
  | inl _ => names t' links_dir = ∅
      \/ exists j, (j <= length LSM_PROGRAMS)%nat /\ names t' links_dir = list_to_set (link_name <$> seq 0 j)
           /\ present o = LSM_PROGRAMS /\ ps_progs (read_pin_state t') = want_progs
           /\ ps_maps (read_pin_state t') = want_maps
  end.
Proof.
  intros Hrun Hok Hnone. change (names t' links_dir) with (view t').2. change (read_pin_state t') with (view t').1.
  destruct (decide (lacks o)) as [Hl|Hl].
  { destruct (pin_all_io_lacking _ _ _ _ _ _ Hrun Hok Hl) as [[e ->] Hn]. left.
    change (names ?t links_dir) with (view t).2 in Hn. by rewrite Hn, Hnone. }
  rewrite (present_all o Hl) in *. apply pin_all_io_reads in Hrun as [_ Hr]; [|done]. rewrite Hnone in Hr.
  assert (forall k, let v := fold_left pin_view (take k (object_steps (length LSM_PROGRAMS))) (no_pins, ∅) in
    v.2 = ∅ \/ exists j, (j <= length LSM_PROGRAMS)%nat
      /\ v = (MkPinState want_progs want_maps None, list_to_set (link_name <$> seq 0 j))) as Hpart.
  { intros k. destruct (view_partial k (length LSM_PROGRAMS) (no_pins, ∅)) as [H|(j & Hj & H)]; [by left|right].
    exists j. split; [done|]. cbv zeta in H. rewrite H. cbn [fst snd no_pins ps_progs ps_maps ps_build_id].
    by rewrite !(right_id_L ∅ (∪)). }
  assert (fold_left pin_view (object_steps (length LSM_PROGRAMS)) (no_pins, ∅)
    = (MkPinState want_progs want_maps None, list_to_set (link_name <$> seq 0 (length LSM_PROGRAMS)))) as Hfull.
  { unfold object_steps. rewrite fold_left_app, link_steps, named_no_links by apply named_steps_named.
    rewrite view_steps. pose proof (object_steps_done 0 no_pins) as Hd. unfold object_steps in Hd.
    cbn [seq fmap list_fmap] in Hd. rewrite app_nil_r in Hd. cbn [fst snd]. rewrite Hd.
    cbn [no_pins ps_progs ps_maps ps_build_id]. by rewrite !(right_id_L ∅ (∪)). }
  destruct r as [e|[]].
  - destruct Hr as [(k & _ & Hr)|(n & _ & Hr)]; [destruct (Hpart k) as [Hk|(j & Hj & Hk)]|].
    + left. by rewrite Hr.
    + right. exists j. rewrite Hr, Hk. exact (conj Hj (conj eq_refl (conj eq_refl (conj eq_refl eq_refl)))).
    + right. exists (length LSM_PROGRAMS). rewrite Hr, Hfull.
      exact (conj (le_n _) (conj eq_refl (conj eq_refl (conj eq_refl eq_refl)))).
  - rewrite Hr, Hfull. exact (conj Hl (conj eq_refl eq_refl)).
Qed.
End left.

(** Nothing is pinned on the host. *)
Record unpinned (h : host) : Prop := {
  up_tree : tree_ok (h_tree h);
  up_none : view (h_tree h) = (no_pins, ∅);
}.

Lemma unpinned_absent h id : unpinned h -> compare (read_pin_state (h_tree h)) id = Absent.
Proof.
  intros [_ Hn]. change (read_pin_state (h_tree h)) with (view (h_tree h)).1. rewrite Hn. by apply compare_absent.
Qed.

Lemma unpinned_names h : unpinned h -> names (h_tree h) links_dir = ∅.
Proof. intros [_ Hn]. change (names (h_tree h) links_dir) with (view (h_tree h)).2. by rewrite Hn. Qed.

(** ** What the daemon finds *)

Lemma first_existing_app t ps qs p : first_existing t ps = Some p -> first_existing t (ps ++ qs) = Some p.
Proof.
  unfold first_existing. intros Hp. destruct (list_find _ ps) as [[i q]|] eqn:Hf; [|done].
  by rewrite (list_find_app_l _ _ _ _ _ Hf).
Qed.

Lemma daemon_paths_more env : daemon_paths env = bootstrap_paths env ++ crate_paths (cwd env).
Proof. unfold daemon_paths, bootstrap_paths. rewrite <-!app_assoc. reflexivity. Qed.

(** Where the bootstrap finds an object, the daemon finds the same. *)
Lemma same_object env t p : bpf_object_path env t = Some p -> first_existing t (daemon_paths env) = Some p.
Proof.
  unfold bpf_object_path. intros Hp. rewrite daemon_paths_more.
  exact (first_existing_app t (bootstrap_paths env) (crate_paths (cwd env)) p Hp).
Qed.

Lemma required_pinned : Forall (fun name => name ∈ PINNED_MAPS) required_maps.
Proof. apply (bool_decide_unpack _). vm_compute. exact I. Qed.

Section found.
Context `{World : FileWorld} `{Resolver : !DomainResolver} `{LB : Libbpf} `{PT : PolicyText}.

Lemma daemon_loads env t content o :
  bpf_object_path env t ≫= read_file t = Some content -> lb_load content = Some o -> ~ lacks o ->
  daemon_load env t = daemon_attach content o LSM_PROGRAMS.
Proof.
  intros Hobj Hlb [Hm _]%lacks_none. destruct (bpf_object_path env t) as [p|] eqn:Hp; [|discriminate Hobj].
  cbn [mbind option_bind] in Hobj. unfold daemon_load. rewrite (same_object _ _ _ Hp), Hobj. cbn [mbind option_bind].
  rewrite Hlb. cbn [fmap option_fmap option_map].
  assert (list_find (fun name => name ∉ obj_maps o) required_maps = None) as ->; [|done].
  apply list_find_None. eapply Forall_impl; [exact required_pinned|]. cbn beta. rewrite Forall_forall in Hm. auto.
Qed.

(** Where the bootstrap accepts a policy, the daemon reads the same. *)
Lemma same_policy_file env t config :
  accepted_policy env t = Some config ->
  daemon_policy env t = Some (config, role_order config)
  /\ Forall (fun e => unenforced_settings e.2 = []) (role_order config).
Proof.
  unfold accepted_policy, daemon_policy. destruct (policy_path env t) as [p|]; [|done]. cbn [mbind option_bind].
  destruct (read_to_string t p) as [content|]; [|done]. cbn [mbind option_bind].
  destruct (parse_policy content) as [c|]; [|done]. cbn [mbind option_bind].
  destruct (load_policy c (role_order c)) as [?|c'] eqn:Hl; [done|]. intros [= ->].
  by apply accepted_roles in Hl as [-> Hu].
Qed.
End found.

Lemma object_id_width env t id : object_id env t = Some id -> in_width 64 id.
Proof.
  unfold object_id. destruct (bpf_object_path env t) as [p|]; [|done]. cbn [mbind option_bind].
  destruct (read_file t p) as [content|]; [|done]. cbn [mbind option_bind]. intros [= <-]. apply build_id_width.
Qed.

Lemma object_id_content env t id content :
  object_id env t = Some id -> bpf_object_path env t ≫= read_file t = Some content -> id = build_id_of content.
Proof.
  unfold object_id. generalize (bpf_object_path env t). intros [p|] Hid Hc; [|discriminate Hc].
  cbn [mbind option_bind] in Hid, Hc. rewrite Hc in Hid. cbn [mbind option_bind] in Hid. by injection Hid.
Qed.

Lemma daemon_main_load `{World : FileWorld} `{Resolver : !DomainResolver} `{LB : Libbpf} `{PT : PolicyText}
    env t a attached d : daemon_main env t a = inr (attached, d) -> daemon_load env t = inr attached.
Proof. unfold daemon_main. destruct (daemon_load env t) as [e|att]; [done|]. intros H. by injection H as ->. Qed.

Lemma daemon_load_present `{LB : Libbpf} env t content o attached :
  bpf_object_path env t ≫= read_file t = Some content -> lb_load content = Some o ->
  daemon_load env t = inr attached -> attached = present o.
Proof.
  destruct (bpf_object_path env t) as [p|] eqn:Hp; [|done]. intros Hobj Hload. unfold daemon_load.
  rewrite (same_object _ _ _ Hp). cbn [mbind option_bind] in Hobj |- *. rewrite Hobj. cbn [mbind option_bind].
  rewrite Hload. cbn [fmap option_fmap option_map]. destruct (list_find _ required_maps) as [[? ?]|]; [done|].
  apply daemon_attach_ok.
Qed.

(** ** A host, for the witnesses *)

(** A host with an object and a policy, and nothing pinned. *)
Definition bare_tree : tree :=
  let dirs := (fun s => (components (text s), Dir)) <$>
    ["/usr"; "/usr/lib"; "/usr/lib/bpfjailer"; "/etc"; "/etc/bpfjailer"]%string in
  list_to_map ((components (text "/usr/lib/bpfjailer/bpfjailer.bpf.o"), Regular [127; 69; 76; 70])
    :: (components DEFAULT_POLICY_PATH, Regular (text "{}")) :: dirs).

Definition bare_host : host := Host bare_tree [] init_state.
Definition plain_env : environment := Environment (fun _ => None) [].

Lemma bare_unpinned : unpinned bare_host.
Proof.
  assert (tree_ok bare_tree) as Hok by (apply tree_okb_ok; vm_compute; reflexivity).
  split; [exact Hok|]. cbn [bare_host h_tree]. rewrite view_unpinned; [|exact Hok|vm_compute; reflexivity].
  assert (read_to_string bare_tree BUILD_ID_PATH = None) as -> by (vm_compute; reflexivity). reflexivity.
Qed.

Definition one_object (o : bpf_object) : Libbpf := {| lb_load := fun _ => Some o; lb_attach := fun _ _ => true |}.
Definition agent_text : PolicyText :=
  {| parse_policy := fun _ => Some agent_config; role_order := fun config => map_to_list (pc_roles config) |}.

Abbreviation agent_run :=
  (run (World := test_world) (Resolver := one_name) (OS := permitting) (LB := one_object full_object) (PT := agent_text)).

Lemma agent_installs : exists h', agent_run plain_env bare_host = (inr tt, h').
Proof.
  assert ((agent_run plain_env bare_host).1 = inr tt) as H by (vm_compute; reflexivity).
  generalize dependent (agent_run plain_env bare_host). intros [r h'] H. exists h'. cbn [fst] in H. by rewrite H.
Qed.

Lemma agent_main : exists h', bootstrap_main (World := test_world) (Resolver := one_name) (OS := permitting)
    (LB := one_object full_object) (PT := agent_text) [] plain_env bare_host = (None, 0, h').
Proof. destruct agent_installs as [h' Hrun]. exists h'. unfold bootstrap_main. cbn [version_line existsb]. by rewrite Hrun. Qed.

(** The same object without its last program. *)
Definition short_object : bpf_object := BpfObject (obj_maps full_object) (want_progs ∖ {[text "bpf"]}).

Lemma short_starts :
  exists attached d, daemon_main (World := test_world) (Resolver := one_name) (LB := one_object short_object)
    (PT := agent_text) plain_env bare_tree ∅ = inr (attached, d).
Proof.
  assert (match daemon_main (World := test_world) (Resolver := one_name) (LB := one_object short_object)
    (PT := agent_text) plain_env bare_tree ∅ with inl _ => false | inr _ => true end = true) as H
    by (vm_compute; reflexivity).
  destruct (daemon_main (World := test_world) (Resolver := one_name) _ _ _) as [e|[attached d]];
    [discriminate H|by exists attached, d].
Qed.

Lemma policy_ok_some config entries :
  entries ≡ₚ map_to_list (pc_roles config) -> NoDup (r_id <$> entries.*2) ->
  Forall (fun r => in_width 32 (r_id r)) entries.*2 -> policy_ok (Some (config, entries)).
Proof. intros ? ? ? config' entries' Heq. by injection Heq as <- <-. Qed.

Lemma agent_policy_ok : policy_ok (daemon_policy (PT := agent_text) plain_env bare_tree).
Proof.
  assert (daemon_policy (PT := agent_text) plain_env bare_tree = Some (agent_config, map_to_list (pc_roles agent_config)))
    as -> by (vm_compute; reflexivity).
  apply policy_ok_some; [reflexivity|..].
  - apply (bool_decide_unpack _). vm_compute. exact I.
  - apply Forall_forall. intros r Hr. vm_compute in Hr.
    repeat (apply elem_of_cons in Hr as [->|Hr]; [vm_compute; done|]). by apply elem_of_nil in Hr.
Qed.

(** ** What a run leaves *)

Lemma version_line_eq args binary :
  version_line args binary
  = if bool_decide (text "--version" ∈ args \/ text "-V" ∈ args) then Some (binary ++ text " " ++ VERSION) else None.
Proof.
  unfold version_line. destruct (existsb _ args) eqn:He; case_bool_decide as Hin; try done.
  - apply existsb_exists in He as (a & Ha%list_elem_of_In & [-> | ->]%bool_decide_eq_true); tauto.
  - assert (existsb (fun a => bool_decide (a = text "--version" \/ a = text "-V")) args = true); [|congruence].
    apply existsb_exists. destruct Hin as [H|H]; (eexists; split; [by apply list_elem_of_In|]);
      apply bool_decide_eq_true; [by left|by right].
Qed.

Lemma run_leaves `{World : FileWorld} `{Resolver : !DomainResolver} `{OS : Os} `{LB : Libbpf}
    `{PT : PolicyText} `{KL : KernelLayout} env h r h' :
  run env h = (r, h') -> unpinned h ->
  match r with
  | inr _ =>
      (forall ev s, run_attached (survivors h') ev s = run_event ev s)
      /\ ps_progs (read_pin_state (h_tree h')) = want_progs /\ ps_maps (read_pin_state (h_tree h')) = want_maps
  | inl _ =>
      survivors h' = []
      \/ exists n, survivors h' = take n LSM_PROGRAMS /\ ps_progs (read_pin_state (h_tree h')) = want_progs
           /\ ps_maps (read_pin_state (h_tree h')) = want_maps
  end.
Proof.
  intros Hrun Hnone. assert (forall h', h_tree h' = h_tree h -> survivors h' = []) as Hkeep.
  { intros h1 Ht. unfold survivors. rewrite Ht, unpinned_names by done. apply present_no_link. }
  apply run_cases in Hrun. destruct (object_id env (h_tree h)) as [id|]; [|destruct Hrun as [-> [-> | ->]]; left; by apply Hkeep].
  rewrite unpinned_absent in Hrun by done.
  destruct Hrun as [[[e ->] Ht]|(config & content & o & s & r' & t' & Hreach & Hpin & -> & ->)]; [left; by apply Hkeep|].
  pose proof (pinning_leaves _ _ _ _ _ Hpin (up_tree _ Hnone) (up_none _ Hnone)) as Hl. unfold survivors.
  cbn [h_tree h_links]. destruct r' as [e|[]].
  - destruct Hl as [-> |(j & Hj & -> & -> & Hp & Hm)]; [left; apply present_no_link|]. right. exists j.
    split; [by apply still_attached_first|]. split; [exact Hp|exact Hm].
  - destruct Hl as (Hl & -> & ->). rewrite present_all by done. rewrite still_attached_first by done. rewrite firstn_all.
    split; [intros; apply run_attached_all|]. split; reflexivity.
Qed.

(** ** Theorems *)

(** C5. On a host with nothing pinned, a bootstrap that exits with success,
    unless it was only asked for its version, has left all twelve programs
    attached after it exits, so every hook runs, and has pinned every program
    and every map of the lists. The lists are LSM_PROGRAMS and PINNED_MAPS:
    ip_rules, domain_rules, proxy_config, dns_cache and path_buf are not pinned,
    which maps.rs calls a known gap. A bootstrap that exits with failure,
    wherever and for whatever reason it fails, leaves either no program
    attached, or all the programs and maps of the lists pinned and the first of
    the programs attached. *)
Theorem bootstrap_installs `{World : FileWorld} `{Resolver : !DomainResolver} `{OS : Os} `{LB : Libbpf}
    `{PT : PolicyText} `{KL : KernelLayout} (args : list bytes) (env : environment) (h h' : host)
    (line : option bytes) (status : Z)
    (Hnone : unpinned h) (Hrun : bootstrap_main args env h = (line, status, h')) :
  if bool_decide (text "--version" ∈ args \/ text "-V" ∈ args) then h' = h /\ status = 0
  else if status =? 0 then
      (forall ev s, run_attached (survivors h') ev s = run_event ev s)
      /\ ps_progs (read_pin_state (h_tree h')) = want_progs /\ ps_maps (read_pin_state (h_tree h')) = want_maps
  else
      survivors h' = []
      \/ exists n, survivors h' = take n LSM_PROGRAMS /\ ps_progs (read_pin_state (h_tree h')) = want_progs
           /\ ps_maps (read_pin_state (h_tree h')) = want_maps.
Proof.
  unfold bootstrap_main in Hrun. rewrite version_line_eq in Hrun. case_bool_decide; [by injection Hrun as _ <- <-|].
  destruct (run env h) as [r h1] eqn:Hr. apply run_leaves in Hr; [|done].
  destruct r as [e|u]; injection Hrun as _ <- <-; exact Hr.
Qed.

Lemma bootstrap_installs_witness :
  exists h', bootstrap_main (World := test_world) (Resolver := one_name) (OS := permitting)
    (LB := one_object full_object) (PT := agent_text) [] plain_env bare_host = (None, 0, h')
  /\ forall ev s, run_attached (survivors h') ev s = run_event ev s.
Proof.
  destruct agent_main as [h' Hrun]. exists h'. split; [exact Hrun|].
  exact (proj1 (bootstrap_installs (World := test_world) (Resolver := one_name) (OS := permitting)
    (LB := one_object full_object) (PT := agent_text) [] plain_env bare_host h' None 0 bare_unpinned Hrun)).
Defined.

(** What is pinned includes the maps of the enrollments. *)
Lemma pinned_enrollment_maps o :
  ~ lacks o -> map_text N_exec_enrollment ∈ obj_maps o /\ map_text N_cgroup_enrollment ∈ obj_maps o.
Proof.
  intros [Hm _]%lacks_none. rewrite Forall_forall in Hm.
  split; apply Hm; apply (bool_decide_unpack _); vm_compute; exact I.
Qed.



(** C7. The first run of the bootstrap on a host with nothing pinned decides the
    next one correctly, whatever the operating system refused on the way, as
    long as the pins and the record of the build are not touched between the
    runs. After a success the later run, in any environment, changes nothing: it
    succeeds when it finds the same object and refuses as stale when it finds
    another. After a failure either nothing is pinned and nothing recorded, or
    the later run fails and changes nothing: what was half installed is never
    taken for an installation. *)
Theorem next_bootstrap_decides `{World : FileWorld} `{Resolver : !DomainResolver} `{OS : Os} `{LB : Libbpf}
    `{PT : PolicyText} (env env' : environment) (h h' later later' : host) (r r' : run_error + unit)
    (Hnone : unpinned h) (Hrun : run env h = (r, h')) (Hsame : view (h_tree later) = view (h_tree h'))
    (Hlater : run env' later = (r', later')) :
  match r with
  | inr _ =>
      later' = later
      /\ match object_id env' (h_tree later) with
         | None => r' = inl NoObject \/ r' = inl UnreadableObject
         | Some id =>
             if decide (object_id env (h_tree h) = Some id) then r' = inr tt else exists ds, r' = inl (StalePins ds)
         end
  | inl _ => view (h_tree h') = (no_pins, ∅) \/ (later' = later /\ exists e, r' = inl e)
  end.
Proof.
  apply run_cases in Hrun. apply run_cases in Hlater.
  assert (read_pin_state (h_tree later) = read_pin_state (h_tree h')) as Hread by exact (f_equal fst Hsame).
  rewrite Hread in Hlater.
  destruct (object_id env (h_tree h)) as [id|] eqn:Hid;
    [|destruct Hrun as [-> [-> | ->]]; left; apply (up_none _ Hnone)].
  rewrite unpinned_absent in Hrun by done.
  destruct Hrun as [[[e ->] Ht]|(config & content & o & s & q & t' & Hreach & Hpin & -> & ->)];
    [left; rewrite Ht; apply (up_none _ Hnone)|].
  cbn [h_tree] in *.
  assert (id = build_id_of content) as -> by exact (object_id_content _ _ _ _ Hid (rp_object _ _ _ _ _ _ Hreach)).
  pose proof (pin_all_decides _ _ _ _ _ _ (build_id_width content) (up_tree _ Hnone) (up_none _ Hnone) Hpin) as Hnext.
  destruct q as [e|[]].
  - destruct Hnext as [?|Hnext]; [by left|right].
    destruct (object_id env' (h_tree later)) as [id'|]; [|destruct Hlater as [-> [-> | ->]]; eauto].
    destruct (Hnext id') as [ds Hds]. rewrite Hds in Hlater. destruct Hlater as [-> ->]. eauto.
  - destruct (object_id env' (h_tree later)) as [id'|] eqn:Hid'; [|destruct Hlater as [-> [-> | ->]]; eauto].
    specialize (Hnext id' (object_id_width _ _ _ Hid')). case_decide as Heq.
    + rewrite decide_True by congruence. rewrite Hnext in Hlater. destruct Hlater as [-> ->]. done.
    + rewrite decide_False by congruence. destruct Hnext as [ds Hds]. rewrite Hds in Hlater. destruct Hlater as [-> ->]. eauto.
Qed.

Lemma next_bootstrap_decides_witness :
  exists h', agent_run plain_env bare_host = (inr tt, h') /\ (agent_run plain_env h').2 = h'.
Proof.
  destruct agent_installs as [h' Hrun]. exists h'. split; [exact Hrun|].
  destruct (agent_run plain_env h') as [r' later'] eqn:Hlater.
  exact (proj1 (next_bootstrap_decides (World := test_world) (Resolver := one_name) (OS := permitting)
    (LB := one_object full_object) (PT := agent_text) plain_env plain_env bare_host h' h' later' (inr tt) r'
    bare_unpinned Hrun eq_refl Hlater)).
Defined.

(** C36. A program that the object lacks is treated differently. On a host with
    nothing pinned, the bootstrap never succeeds with such an object, and leaves
    nothing attached. The daemon, where it starts, starts with the rest: every
    operation the missing program guards is then allowed, for every task,
    without a trace. *)
Theorem missing_program_unenforced `{World : FileWorld} `{Resolver : !DomainResolver} `{OS : Os} `{LB : Libbpf}
    `{PT : PolicyText} `{KL : KernelLayout} (env : environment) (h : host) (content : bytes) (o : bpf_object)
    (name : bytes) (Hnone : unpinned h)
    (Hobj : bpf_object_path env (h_tree h) ≫= read_file (h_tree h) = Some content) (Hload : lb_load content = Some o)
    (Hname : name ∈ LSM_PROGRAMS) (Hmissing : name ∉ obj_progs o) :
  (forall r h', run env h = (r, h') -> (exists e, r = inl e) /\ survivors h' = [])
  /\ forall a attached d, daemon_main env (h_tree h) a = inr (attached, d) ->
       attached = present o
       /\ forall ev s, hook_program ev = Some name -> run_attached attached ev s = (0, s).
Proof.
  assert (lacks o) as Hl by (right; eauto). split.
  - intros r h' Hrun. assert (forall h', h_tree h' = h_tree h -> survivors h' = []) as Hkeep.
    { intros h1 Ht. unfold survivors. rewrite Ht, unpinned_names by done. apply present_no_link. }
    apply run_cases in Hrun. destruct (object_id env (h_tree h)) as [id|]; [|destruct Hrun as [-> [-> | ->]]; eauto].
    rewrite unpinned_absent in Hrun by done.
    destruct Hrun as [[He Ht]|(config & content' & o' & s & r' & t' & [_ Hobj' Hlb _ _] & Hpin & -> & ->)]; [eauto|].
    assert (content' = content) as -> by exact (inj Some _ _ (eq_trans (eq_sym Hobj') Hobj)).
    assert (o' = o) as -> by exact (inj Some _ _ (eq_trans (eq_sym Hlb) Hload)).
    destruct (pin_all_io_lacking _ _ _ _ _ _ Hpin (up_tree _ Hnone) Hl) as [[e ->] Hn]. split; [by eexists|].
    unfold survivors. cbn [h_tree h_links]. rewrite Hn, unpinned_names by done. apply present_no_link.
  - intros a attached d Hd. assert (attached = present o) as ->.
    { apply daemon_main_load in Hd. by eapply daemon_load_present. }
    split; [done|]. intros ev s Hev. unfold run_attached. rewrite Hev, decide_False; [done|].
    unfold present. rewrite list_elem_of_filter. tauto.
Qed.

Lemma missing_program_unenforced_witness :
  exists attached d, daemon_main (World := test_world) (Resolver := one_name) (LB := one_object short_object)
    (PT := agent_text) plain_env bare_tree ∅ = inr (attached, d)
  /\ run_attached attached (EvBpf (env_with mem_etc) 5 0 0) init_state = (0, init_state).
Proof.
  destruct short_starts as (attached & d & Hd). exists attached, d. split; [exact Hd|].
  refine (proj2 (proj2 (missing_program_unenforced (World := test_world) (Resolver := one_name) (OS := permitting)
    (LB := one_object short_object) (PT := agent_text) plain_env bare_host [127; 69; 76; 70] short_object (text "bpf")
    bare_unpinned _ eq_refl _ _) ∅ attached d Hd) (EvBpf (env_with mem_etc) 5 0 0) init_state eq_refl).
  - vm_compute. reflexivity.
  - apply (bool_decide_unpack _). vm_compute. exact I.
  - apply (bool_decide_unpack _). vm_compute. exact I.
Defined.
