(* ===== verification/Wire.v ===== *)
(** * The enrollment socket

    One connection from end to end: [handle_client] of
    bpfjailer-daemon/src/enrollment.rs on the bytes it reads and writes, and the
    calls of bpfjailer-client/src/enrollment.rs.  What serde_json writes and
    reads, and how an error is worded, is the class [Json]; [JsonLaws] is what the
    two sides rely on. *)

From S2P Require Import Prelude CLayout BpfMap Rust Kernel KernelTypes Types Machine Scenario Hash PathWalk StateMachine Enrollment Hooks FileOpen Network Codec Patterns Parse Loader Files Policy Apply Exec Guards RolePolicy RoleLimits System Coherence Daemon DaemonRuns Bootstrap Pins.

(** The responses as they are sent: an error is a text. *)
Inductive WireResponse :=
| WireSuccess
| WireError (message : bytes)
| WireProcessInfo (pod_id role_id : Z)
| WireXattrInfo (pod_id role_id : Z).

Class Json := {
  request_to_string : EnrollmentRequest -> bytes;
  request_from_str : bytes -> option EnrollmentRequest;
  response_to_string : WireResponse -> bytes;
  response_from_slice : bytes -> option WireResponse;
  error_text : request_error -> bytes;
}.

Definition NEWLINE : Z := 10.

(** [read_line]: up to the first newline, which is kept, or to the end. *)
Fixpoint first_line (input : bytes) : bytes :=
  match input with
  | [] => []
  | c :: rest => if c =? NEWLINE then [c] else c :: first_line rest
  end.

Section wire.
Context `{World : FileWorld} `{Resolver : !DomainResolver} `{J : Json}.

Definition wire_response (r : EnrollmentResponse) : WireResponse :=
  match r with
  | Success => WireSuccess
  | Error e => WireError (error_text e)
  | ProcessInfoResp pod_id role_id => WireProcessInfo pod_id role_id
  | XattrInfo pod_id role_id => WireXattrInfo pod_id role_id
  end.

(** The daemon's side: [cred] is what [peer_cred] answers, the peer's pid if the
    platform gives one; [None] is its failure.  What is returned is what is
    written. *)
Definition handle_connection (cred : option (option Z)) (input : bytes) (d : daemon) : bytes * daemon :=
  match cred with
  | None => ([], d)
  | Some peer =>
      let pid := default 0 peer in
      let line := first_line input in
      if utf8_valid line then
        match request_from_str line with
        | None => ([], d)
        | Some request =>
            let '(response, d') := handle_client (u32 pid) request d in
            (response_to_string (wire_response response) ++ [NEWLINE], d')
        end
      else ([], d)
  end.

(** The client's side, called by process [pid] while the server is there. *)
Inductive call_error :=
| BadResponse
| CallRefused (message : bytes)
| CallUnexpected.

Definition call (pid : Z) (request : EnrollmentRequest) (d : daemon) : option WireResponse * daemon :=
  let '(reply, d') := handle_connection (Some (Some pid)) (request_to_string request ++ [NEWLINE]) d in
  (response_from_slice reply, d').

Definition call_enroll (pid pod_id role_id : Z) (d : daemon) : (call_error + unit) * daemon :=
  let '(response, d') := call pid (Enroll pod_id role_id) d in
  (match response with
    | None => inl BadResponse
    | Some WireSuccess => inr tt
    | Some (WireError message) => inl (CallRefused message)
    | Some _ => inl CallUnexpected
    end, d').

Definition call_query (pid query_pid : Z) (d : daemon) : (call_error + Z * Z) * daemon :=
  let '(response, d') := call pid (Query query_pid) d in
  (match response with
    | None => inl BadResponse
    | Some (WireProcessInfo pod_id role_id) => inr (pod_id, role_id)
    | Some (WireError message) => inl (CallRefused message)
    | Some _ => inl CallUnexpected
    end, d').

(** The outcome of a call without a wire, as the caller sees it. *)
Definition seen {A} (r : client_error + A) : call_error + A :=
  match r with
  | inl (Refused e) => inl (CallRefused (error_text e))
  | inl Unexpected => inl CallUnexpected
  | inr a => inr a
  end.
End wire.

(** The values whose Rust types the requests of the client and the responses
    have. *)
Definition request_typed (r : EnrollmentRequest) : Prop :=
  match r with
  | Enroll pod_id role_id => in_width 64 pod_id /\ in_width 32 role_id
  | Query pid => in_width 32 pid
  | _ => False
  end.

Definition response_typed (r : WireResponse) : Prop :=
  match r with
  | WireSuccess => True
  | WireError message => utf8_valid message = true
  | WireProcessInfo pod_id role_id | WireXattrInfo pod_id role_id => in_width 64 pod_id /\ in_width 32 role_id
  end.

(** What is documented of serde_json and used: a value reads back, whitespace
    after it is passed over, the compact form is text without a newline, and
    nothing is not a value. *)
Class JsonLaws (J : Json) : Prop := {
  request_back : forall r, request_typed r -> request_from_str (request_to_string r ++ [NEWLINE]) = Some r;
  request_line : forall r, request_typed r -> NEWLINE ∉ request_to_string r;
  request_text : forall r, request_typed r -> utf8_valid (request_to_string r ++ [NEWLINE]) = true;
  response_back : forall r, response_typed r -> response_from_slice (response_to_string r ++ [NEWLINE]) = Some r;
  response_empty : response_from_slice [] = None;
  error_typed : forall e, utf8_valid (error_text e) = true;
}.

(** ** One connection is one request *)

Lemma first_line_nl line rest : NEWLINE ∉ line -> first_line (line ++ NEWLINE :: rest) = line ++ [NEWLINE].
Proof.
  induction line as [|c line IH]; cbn [first_line app]; [done|]. intros [Hc Hl]%not_elem_of_cons.
  rewrite IH by done. destruct (Z.eqb_spec c NEWLINE); [congruence|done].
Qed.

Section connection.
Context `{World : FileWorld} `{Resolver : !DomainResolver} `{J : Json}.

(** Whatever a peer sends is at most one request, of that peer. *)
Lemma connection_is_request cred input d :
  let '(reply, d') := handle_connection cred input d in
  (reply = [] /\ d' = d)
  \/ exists peer request response, cred = Some peer /\ request_from_str (first_line input) = Some request
     /\ handle_client (u32 (default 0 peer)) request d = (response, d')
     /\ reply = response_to_string (wire_response response) ++ [NEWLINE].
Proof.
  unfold handle_connection. destruct cred as [peer|]; [|by left].
  destruct (utf8_valid _); [|by left]. destruct (request_from_str _) as [request|] eqn:Hr; [|by left].
  destruct (handle_client _ request d) as [response d'] eqn:Hh. right. by exists peer, request, response.
Qed.

(** What follows the first line is not read. *)
Lemma connection_first_line cred line rest rest' d :
  NEWLINE ∉ line ->
  handle_connection cred (line ++ NEWLINE :: rest) d = handle_connection cred (line ++ NEWLINE :: rest') d.
Proof. intros Hl. unfold handle_connection. by rewrite !first_line_nl. Qed.

(** A call whose answer is typed delivers it. *)
Lemma call_delivered `{!JsonLaws J} pid request d :
  in_width 32 pid -> request_typed request ->
  response_typed (wire_response (handle_client pid request d).1) ->
  call pid request d = (Some (wire_response (handle_client pid request d).1), (handle_client pid request d).2).
Proof.
  intros Hp Hr Ht. unfold call, handle_connection. change (default 0 (Some pid)) with pid.
  rewrite first_line_nl, request_text, request_back by by auto using request_line.
  rewrite (wrap_small 32 pid) by done. destruct (handle_client pid request d) as [response d']. cbn [fst snd] in *.
  by rewrite response_back.
Qed.

Lemma enroll_response pid pod_id role_id d :
  exists e, (handle_client pid (Enroll pod_id role_id) d).1 = Success
    \/ (handle_client pid (Enroll pod_id role_id) d).1 = Error e.
Proof.
  cbn [handle_client]. unfold respond. destruct (handle_enroll pid pod_id role_id d) as [[e|u] d'];
    [exists (Failed e)|exists NotEnrolled]; auto.
Qed.

(** What a query is answered fits its types: the record is a stored one. *)
Lemma query_typed `{!JsonLaws J} pid query_pid d :
  state_ok (d_bpf d) -> response_typed (wire_response (handle_client pid (Query query_pid) d).1).
Proof.
  intros [Hs _]. cbn [handle_client]. unfold get_process_info.
  destruct (task_of_pid query_pid) as [task|]; cbn [mbind option_bind]; [|apply error_typed].
  destruct (m_task_storage _ !! task) as [info|] eqn:Hi; cbn [mbind option_bind]; [|apply error_typed].
  apply Hs in Hi. cbn. revert Hi. unfold c_fits. cbn. intros Hf.
  repeat match goal with H : Forall2 _ (_ :: _) _ |- _ => apply Forall2_cons in H as [? ?] end. done.
Qed.
End connection.

(** ** The socket itself *)

Definition SOCKET_PATH : path := components (text "/run/bpfjailer/enrollment.sock").
Definition socket_dir : path := removelast SOCKET_PATH.

Section socket.
Context `{OS : Os}.

(** The start of [run] of the server: a socket left behind is removed. *)
Definition listen : io fs_error tree unit :=
  (fun t => if exists_path t SOCKET_PATH then remove_file id SOCKET_PATH t else (inr tt, t)) ;;?
  create_dir_all id socket_dir ;;?
  bind_socket id socket_dir (text "enrollment.sock").

Lemma socket_path_split : SOCKET_PATH = socket_dir ++ [text "enrollment.sock"].
Proof. vm_compute. reflexivity. Qed.

Lemma socket_not_record : SOCKET_PATH <> BUILD_ID_PATH.
Proof. apply (bool_decide_unpack _). vm_compute. exact I. Qed.

(** A change at the socket's name alone. *)
Lemma socket_view t t' :
  tree_ok t -> tree_ok t' -> (forall p, p <> SOCKET_PATH -> t' !! p = t !! p) -> view t' = view t.
Proof.
  intros Hok Hok' Hs. apply view_agree; [done|done|..].
  - intros p Hl. apply Hs. intros ->. discriminate Hl.
  - apply Hs. intros Heq. by apply socket_not_record.
Qed.

Lemma remove_socket_ok t r t' :
  remove_file id SOCKET_PATH t = (r, t') -> tree_ok t -> tree_ok t' /\ view t' = view t.
Proof.
  unfold remove_file. change (node_at t SOCKET_PATH) with (t !! SOCKET_PATH). intros Hrun Hok.
  assert (t !! SOCKET_PATH <> Some Dir -> tree_ok (delete SOCKET_PATH t) /\ view (delete SOCKET_PATH t) = view t) as Hdel.
  { intros Hn. assert (tree_ok (delete SOCKET_PATH t)) as Hok'.
    { intros dir name [nd [_ Hl]%lookup_delete_Some]. assert (node_at t dir = Some Dir) as Hd by (apply (Hok dir name); by exists nd).
      destruct dir as [|x dir]; [done|]. unfold node_at in *. rewrite lookup_delete_ne; [done|]. intros Heq. by rewrite Heq in Hn. }
    split; [done|]. apply socket_view; [done|done|]. intros p Hp. by apply lookup_delete_ne. }
  destruct (t !! SOCKET_PATH) as [[| | |]|]; try (by injection Hrun as _ <-);
    (destruct (os_remove SOCKET_PATH t); injection Hrun as _ <-; [by apply Hdel|done]).
Qed.

(** The daemon's socket shares a directory with the bootstrap's record and leaves
    it alone; a server that listens has its socket there. *)
Lemma listen_keeps_pins t r t' :
  listen t = (r, t') -> tree_ok t ->
  view t' = view t /\ match r with inr _ => t' !! SOCKET_PATH = Some Socket | inl _ => True end.
Proof.
  unfold listen, io_bind. intros Hrun Hok.
  destruct (if exists_path t SOCKET_PATH then _ else _) as [r1 t1] eqn:H1.
  assert (tree_ok t1 /\ view t1 = view t) as [Hok1 Hv1].
  { destruct (exists_path t SOCKET_PATH); [by eapply remove_socket_ok|by injection H1 as _ <-]. }
  rewrite <-Hv1. destruct r1 as [e|[]]; [by injection Hrun as <- <-|].
  destruct (create_dir_all id socket_dir t1) as [r2 t2] eqn:H2.
  assert (bool_decide (BUILD_ID_PATH `prefix_of` socket_dir) = false) as Hb%bool_decide_eq_false by (vm_compute; reflexivity).
  apply dirs_keep_view in H2 as [Hok2 Hv2]; [|vm_compute; lia|exact Hb|done]. rewrite <-Hv2.
  destruct r2 as [e|[]]; [by injection Hrun as <- <-|]. unfold bind_socket in Hrun. rewrite <-socket_path_split in Hrun.
  destruct (node_at t2 socket_dir) as [[| | |]|] eqn:Hd; try (by injection Hrun as <- <-).
  destruct (t2 !! SOCKET_PATH) as [nd|] eqn:Hn; [by injection Hrun as <- <-|].
  destruct (os_bind SOCKET_PATH t2); injection Hrun as <- <-; [|done].
  assert (tree_ok (<[SOCKET_PATH := Socket]> t2)) as Hok3.
  { rewrite socket_path_split in *. apply tree_ok_insert; [done|done|congruence]. }
  split; [|apply lookup_insert_eq]. apply socket_view; [done|done|]. intros p Hp. by apply lookup_insert_ne.
Qed.
End socket.

(** ** A codec, for the witness *)

Fixpoint to_bits (n : nat) (x : Z) : bytes :=
  match n with O => [] | S n' => (48 + x mod 2) :: to_bits n' (x / 2) end.

Fixpoint of_bits (s : bytes) : Z :=
  match s with [] => 0 | c :: s' => (c - 48) + 2 * of_bits s' end.

Lemma of_to_bits n x : in_width (Z.of_nat n) x -> of_bits (to_bits n x) = x.
Proof.
  unfold in_width. revert x. induction n as [|n IH]; intros x Hx; cbn [to_bits of_bits]; [cbn in Hx; lia|].
  rewrite Nat2Z.inj_succ, Z.pow_succ_r in Hx by lia. rewrite IH by (split; [apply Z.div_pos; lia|apply Z.div_lt_upper_bound; lia]).
  pose proof (Z.div_mod x 2). lia.
Qed.

Lemma length_to_bits n x : length (to_bits n x) = n.
Proof. revert x. induction n as [|n IH]; intros x; cbn; [done|by rewrite IH]. Qed.

Lemma to_bits_digits n x : Forall (fun c => 48 <= c <= 49) (to_bits n x).
Proof.
  revert x. induction n as [|n IH]; intros x; [by constructor|]. constructor; [|apply IH].
  pose proof (Z.mod_pos_bound x 2). lia.
Qed.

Definition two_ids (s : bytes) : Z * Z := (of_bits (take 64 s), of_bits (take 32 (drop 64 s))).

Lemma two_ids_bits a b rest :
  in_width 64 a -> in_width 32 b -> two_ids ((to_bits 64 a ++ to_bits 32 b) ++ rest) = (a, b).
Proof.
  intros Ha Hb. unfold two_ids. rewrite <-app_assoc. rewrite take_app_length' by (by rewrite length_to_bits).
  rewrite drop_app_length' by (by rewrite length_to_bits). rewrite take_app_length' by (by rewrite length_to_bits).
  by rewrite !of_to_bits.
Qed.

Definition letters : Json := {|
  request_to_string r := match r with
    | Enroll pod_id role_id => 69 :: to_bits 64 pod_id ++ to_bits 32 role_id
    | Query pid => 81 :: to_bits 32 pid
    | _ => [63]
    end;
  request_from_str s := match s with
    | 69 :: s' => let '(a, b) := two_ids s' in Some (Enroll a b)
    | 81 :: s' => Some (Query (of_bits (take 32 s')))
    | _ => None
    end;
  response_to_string r := match r with
    | WireSuccess => [83]
    | WireError message => 88 :: message
    | WireProcessInfo a b => 80 :: to_bits 64 a ++ to_bits 32 b
    | WireXattrInfo a b => 90 :: to_bits 64 a ++ to_bits 32 b
    end;
  response_from_slice s := match s with
    | 83 :: _ => Some WireSuccess
    | 88 :: s' => Some (WireError (removelast s'))
    | 80 :: s' => let '(a, b) := two_ids s' in Some (WireProcessInfo a b)
    | 90 :: s' => let '(a, b) := two_ids s' in Some (WireXattrInfo a b)
    | _ => None
    end;
  error_text _ := [33];
|}.

Lemma ascii_utf8 s : Forall (fun c => 0 <= c <= 127) s -> utf8_valid s = true.
Proof.
  induction 1 as [|c s Hc _ IH]; [done|]. cbn.
  assert ((0 <=? c) && (c <=? 127) = true) as -> by lia. done.
Qed.

Lemma digits_line s rest : Forall (fun c => 48 <= c <= 90) s -> rest = [] \/ rest = [NEWLINE] ->
  NEWLINE ∉ s /\ utf8_valid (s ++ rest) = true.
Proof.
  intros Hs Hr. split.
  - intros Hin. rewrite Forall_forall in Hs. apply Hs in Hin. unfold NEWLINE in Hin. lia.
  - apply ascii_utf8, Forall_app. split; [eapply Forall_impl; [exact Hs|]; cbn; lia|].
    destruct Hr as [-> | ->]; repeat constructor; unfold NEWLINE; lia.
Qed.

Lemma letters_line r : Forall (fun c => 48 <= c <= 90) (request_to_string (Json := letters) r).
Proof.
  assert (forall n x, Forall (fun c => 48 <= c <= 90) (to_bits n x)) as Hb
    by (intros; eapply Forall_impl; [apply to_bits_digits|]; cbn; lia).
  destruct r; cbn [request_to_string letters]; (apply Forall_cons; split; [lia|]);
    first [apply Forall_nil; exact I|apply Forall_app; split; apply Hb|apply Hb].
Qed.

#[export] Instance letters_laws : JsonLaws letters.
Proof.
  split.
  - intros r Hr. destruct r; cbn [request_typed] in Hr; try done; cbn [request_to_string request_from_str letters app].
    + destruct Hr. by rewrite two_ids_bits.
    + rewrite take_app_length' by (by rewrite length_to_bits). by rewrite of_to_bits.
  - intros r _. apply (digits_line _ [] (letters_line r)). by left.
  - intros r _. apply (digits_line _ _ (letters_line r)). by right.
  - intros r Hr. destruct r; cbn [response_typed] in Hr; cbn [response_to_string response_from_slice letters app];
      [done|by rewrite removelast_last|destruct Hr; by rewrite two_ids_bits..].
  - done.
  - done.
Qed.

(** ** Theorem *)

(** C37. The socket is transparent.  An enrollment or a query that the client
    sends, written, read by line, answered, written and read back, has the effect
    on the daemon and the outcome for the caller of the request itself, the text
    of an error included.  Any other bytes a peer sends are at most one request,
    made under the peer's own pid, and nothing after its line is read. *)
Theorem client_over_wire `{World : FileWorld} `{Resolver : !DomainResolver} `{J : Json} (Hlaws : JsonLaws J)
    (pid : Z) (Hpid : in_width 32 pid) (d : daemon) (Hok : state_ok (d_bpf d)) :
  (forall pod_id role_id, in_width 64 pod_id -> in_width 32 role_id ->
     call_enroll pid pod_id role_id d
     = let '(r, d') := client_enroll pid pod_id role_id d in (seen r, d'))
  /\ (forall query_pid, in_width 32 query_pid ->
     call_query pid query_pid d = let '(r, d') := client_query pid query_pid d in (seen r, d'))
  /\ (forall input, let '(reply, d') := handle_connection (Some (Some pid)) input d in
     reply = [] /\ d' = d
     \/ exists request, d' = (handle_client pid request d).2)
  /\ (forall line rest, NEWLINE ∉ line ->
     handle_connection (Some (Some pid)) (line ++ NEWLINE :: rest) d
     = handle_connection (Some (Some pid)) (line ++ [NEWLINE]) d).
Proof.
  split_and!.
  - intros pod_id role_id Hp Hr. unfold call_enroll, client_enroll.
    destruct (enroll_response pid pod_id role_id d) as [e He].
    rewrite call_delivered; [|done..|destruct He as [-> | ->]; [done|apply error_typed]].
    destruct (handle_client pid (Enroll pod_id role_id) d) as [response d']. cbn [fst snd] in *.
    destruct He as [-> | ->]; done.
  - intros query_pid Hq. unfold call_query, client_query. rewrite call_delivered by (done || by apply query_typed).
    by destruct (handle_client pid (Query query_pid) d) as [[] d'].
  - intros input. pose proof (connection_is_request (Some (Some pid)) input d) as H.
    destruct (handle_connection _ input d) as [reply d']. destruct H as [?|(peer & req & resp & [= <-] & _ & Hh & _)]; [by left|].
    right. exists req. change (default 0 (Some pid)) with pid in Hh. rewrite (wrap_small 32 pid) in Hh by done. by rewrite Hh.
  - intros line rest Hl. by apply connection_first_line.
Qed.

Lemma client_over_wire_witness :
  call_enroll (World := test_world) (Resolver := one_name) (J := letters) 42 5 1 (test_daemon init_state)
  = let '(r, d') := client_enroll (World := test_world) (Resolver := one_name) 42 5 1 (test_daemon init_state) in
    (seen (J := letters) r, d').
Proof.
  apply (client_over_wire (World := test_world) (Resolver := one_name) letters_laws 42 ltac:(split; lia)
    (test_daemon init_state) init_state_ok); split; lia.
Defined.
